(** * UWallet: ledger, escrow primitives and order matching

    A shallow embedding of the money-moving core of the UWallet bot
    ([main.py], and its revisions [main1.py] and [main3.py]) together with
    the properties its specification states about it.

    Modelling conventions, shared by the whole development.

    - SQLite [REAL] columns and Python floats are exact rationals ([Q]).
      Rounding of binary floating point is not part of the model; every
      threshold the code writes ([1e-12]) is kept as the rational it names.
      Equalities between amounts are stated with [==] ([Qeq]).
    - A table is the list of its rows in rowid order.  [SELECT .. fetchone()]
      is the first matching row, [UPDATE .. WHERE] rewrites every matching
      row and reports their number, [INSERT] on a taken primary key raises
      [IntegrityError]: the function is left without a commit and the
      database is the one it started from.
    - Each function opens its own connection and the calls are sequential,
      so a function is a map from the committed database to the committed
      database and a reply.
    - Columns that are written and never read back by the core (free-form
      descriptions, [created_at] of log rows, [meta]) are left out, as are
      the surrogate ids of the append-only tables [tx], [trades] and
      [channel_subs].
    - [uuid4], [token_urlsafe], [utcnow] and [secrets.choice] are inputs of
      the operation that calls them. *)

From Stdlib Require Import ZArith QArith Qminmax Lqa Lia.
From Stdlib Require Import List String Ascii Bool.
Import ListNotations.

#[local] Open Scope Q_scope.
#[local] Open Scope bool_scope.

(** ** Amounts *)

(** The tolerance literal [1e-12]. *)
Definition eps : Q := 1 # 1000000000000.

(** Python's [a < b] and [a <= b] on floats. *)
Definition Qltb (a b : Q) : bool := negb (Qle_bool b a).
Definition Qleb (a b : Q) : bool := Qle_bool a b.

(** Python's [min(a, b)]: [b] when [b < a], else [a]. *)
Definition py_min (a b : Q) : Q := if Qltb b a then b else a.

(** ** Timestamps

    A [datetime] is a number of microseconds since the epoch.  A [TEXT]
    column that holds a timestamp is either the ISO-8601 text of a
    datetime, identified with that datetime, or some other text, on which
    [datetime.fromisoformat] raises. *)

Definition datetime := Z.

Definition second_us : Z := 1000000.
Definition timedelta_minutes (m : Z) : Z := (m * 60 * second_us)%Z.
Definition timedelta_days (d : Z) : Z := (d * 86400 * second_us)%Z.

Inductive text_ts : Type :=
| IsoText (dt : datetime)
| NotIso (raw : string).

(** [iso(dt) = dt.replace(microsecond=0).isoformat()]. *)
Definition iso (dt : datetime) : text_ts := IsoText (dt - dt mod second_us)%Z.

(** [datetime.fromisoformat]; [None] stands for the raised [ValueError]. *)
Definition fromisoformat (t : text_ts) : option datetime :=
  match t with
  | IsoText dt => Some dt
  | NotIso _ => None
  end.

(** ** Text *)

Definition lower_ascii (c : ascii) : ascii :=
  let n := nat_of_ascii c in
  if ((65 <=? n) && (n <=? 90))%nat then ascii_of_nat (n + 32) else c.

(** [str.lower()] on the ASCII range (Telegram usernames are ASCII). *)
Fixpoint lower (s : string) : string :=
  match s with
  | EmptyString => EmptyString
  | String c r => String (lower_ascii c) (lower r)
  end.

(** Truth value of an optional string: [None] and [""] are false. *)
Definition truthy (o : option string) : bool :=
  match o with
  | Some (String _ _) => true
  | _ => false
  end.

(** ** Replies *)

(** The replies of the core, one constructor per message family. *)
Inductive failure : Type :=
| BadAmount        (* "Сумма должна быть > 0" and its variants *)
| BadTotal         (* total below per_claim * max_claims *)
| BadSide
| BadDuration
| Insufficient     (* "Недостаточно ..." *)
| NotFound
| Unavailable      (* wrong lifecycle state *)
| NeedPass         (* "__NEED_PASS__" *)
| WrongPass
| AlreadyClaimed
| Exhausted
| SelfPay
| LostRace         (* the conditional UPDATE matched no row *)
| NoUser
| NotOwner
| AlreadyJoined
| AlreadyProcessed
| StoreError.      (* an exception the function catches and reports *)

Inductive reply : Type :=
| Done
| Failed (why : failure)
| Raised.          (* an uncaught exception: nothing was committed *)

Definition is_done (r : reply) : bool :=
  match r with Done => true | _ => false end.

(** Number of successful calls among the replies of a run. *)
Definition successes (rs : list reply) : nat := List.length (filter is_done rs).

(** ** Generic table operations *)

Section TableOps.
Context {R : Type}.

(** [UPDATE t SET .. WHERE p]. *)
Definition update_where (p : R -> bool) (g : R -> R) (l : list R) : list R :=
  map (fun r => if p r then g r else r) l.

(** [cursor.rowcount] after that statement. *)
Definition rowcount (p : R -> bool) (l : list R) : nat :=
  List.length (filter p l).

(** [SELECT SUM(f) FROM t]. *)
Definition total (f : R -> Q) (l : list R) : Q :=
  fold_right (fun r acc => f r + acc) 0 l.
End TableOps.

(** ** Accounts and the transaction log

    [users], [tx], [ensure_user], [get_balances] and [add_asset] are the
    same text in the three revisions. *)

Record user : Type := mkUser {
  tg_id : Z;
  username : string;
  uwt : Q;
  rub : Q
}.

Record tx_row : Type := mkTx {
  tx_user : Z;
  tx_asset : string;
  tx_delta : Q;
  tx_kind : string
}.

Definition has_id (id : Z) (u : user) : bool := (tg_id u =? id)%Z.

(** [UPDATE users SET uwt=uwt+? WHERE tg_id=?]. *)
Definition upd_uwt (d : Q) (id : Z) (us : list user) : list user :=
  update_where (has_id id)
    (fun u => mkUser (tg_id u) (username u) (uwt u + d) (rub u)) us.

(** [UPDATE users SET rub=rub+? WHERE tg_id=?]. *)
Definition upd_rub (d : Q) (id : Z) (us : list user) : list user :=
  update_where (has_id id)
    (fun u => mkUser (tg_id u) (username u) (uwt u) (rub u + d)) us.

Definition find_user (id : Z) (us : list user) : option user :=
  find (has_id id) us.

Definition find_username (nm : string) (us : list user) : option user :=
  find (fun u => (username u =? nm)%string) us.

(** [get_balances]: an unknown id reads as [(0.0, 0.0)]. *)
Definition get_balances (id : Z) (us : list user) : Q * Q :=
  match find_user id us with
  | Some u => (uwt u, rub u)
  | None => (0, 0)
  end.

Definition registered (id : Z) (us : list user) : bool :=
  existsb (has_id id) us.

(** [ensure_user]: [INSERT OR IGNORE] skips the row when the id or the
    (unique) username is taken; the [UPDATE] of the username that follows
    raises when another row holds the name, and then nothing is committed. *)
Definition ensure_user_rows (id : Z) (name : string) (us : list user) : list user :=
  let nm := lower name in
  if existsb (fun u => (username u =? nm)%string && negb (has_id id u)) us
  then us
  else if registered id us
       then update_where (has_id id)
              (fun u => mkUser (tg_id u) nm (uwt u) (rub u)) us
       else us ++ [mkUser id nm 0 0].

Definition sum_uwt (us : list user) : Q := total uwt us.
Definition sum_rub (us : list user) : Q := total rub us.

(** Number of rows of [us] that carry the id, as an amount. *)
Definition occ (id : Z) (us : list user) : Q :=
  inject_Z (Z.of_nat (rowcount (has_id id) us)).

(** Sum of the logged deltas of one asset over the rows picked by [p]. *)
Definition logged (p : tx_row -> bool) (a : string) (l : list tx_row) : Q :=
  total (fun t => if p t && (tx_asset t =? a)%string then tx_delta t else 0) l.

(** * Revision [main.py] *)

Module Main.

(** ** Rows *)

Inductive check_status : Type := CkActive | CkClaimed | CkCancelled.

Record check : Type := mkCheck {
  ck_id : string;
  ck_creator : Z;
  ck_amount : Q;
  ck_passhash : option string;
  ck_status : check_status;
  ck_claimed_by : option Z
}.

Inductive bill_status : Type := BlActive | BlPaid | BlCancelled.

Record bill : Type := mkBill {
  bl_id : string;
  bl_creator : Z;
  bl_amount : Q;
  bl_status : bill_status;
  bl_paid_by : option Z
}.

Inductive dep_status : Type := DpPending | DpApproved | DpRejected.

Record deposit : Type := mkDeposit {
  dp_id : string;
  dp_user : Z;
  dp_amount : Q;
  dp_status : dep_status;
  dp_admin : option string
}.

Inductive side : Type := Buy | Sell.
Inductive order_status : Type := OrOpen | OrFilled | OrCancelled.

(** [amount] is the untraded remainder; [created_at] holds [now_iso()],
    texts of one format that sort as their datetimes do. *)
Record order : Type := mkOrder {
  or_id : string;
  or_user : Z;
  or_side : side;
  or_price : Q;
  or_amount : Q;
  or_status : order_status;
  or_created : datetime
}.

Record trade : Type := mkTrade {
  tr_buy : string;
  tr_sell : string;
  tr_price : Q;
  tr_amount : Q
}.

Inductive giveaway_status : Type := GwActive | GwFinished | GwCancelled.

Record giveaway : Type := mkGiveaway {
  gw_id : string;
  gw_creator : Z;
  gw_amount : Q;
  gw_status : giveaway_status;
  gw_end_at : text_ts;
  gw_winner : option Z
}.

Record channel : Type := mkChannel {
  ch_id : Z;
  ch_owner : Z;
  ch_chat : Z;
  ch_price : Q
}.

Record channel_sub : Type := mkSub {
  cs_channel : Z;
  cs_user : Z;
  cs_expires : text_ts
}.

(** ** The database *)

Record db : Type := mkDb {
  users : list user;
  tx : list tx_row;
  rate : Q;                          (* settings.rate_rub_per_uwt *)
  checks : list check;
  bills : list bill;
  deposits : list deposit;
  orders : list order;
  trades : list trade;
  giveaways : list giveaway;
  participants : list (string * Z);
  channels : list channel;
  channel_subs : list channel_sub
}.

Definition DEFAULT_RATE_RUB_PER_UWT : Q := 10.

(** The database after [init_db()]. *)
Definition init_db : db :=
  mkDb [] [] DEFAULT_RATE_RUB_PER_UWT [] [] [] [] [] [] [] [] [].

Definition set_users (f : list user -> list user) (s : db) : db :=
  mkDb (f (users s)) (tx s) (rate s) (checks s) (bills s) (deposits s)
       (orders s) (trades s) (giveaways s) (participants s) (channels s)
       (channel_subs s).

Definition set_rate (v : Q) (s : db) : db :=
  mkDb (users s) (tx s) v (checks s) (bills s) (deposits s)
       (orders s) (trades s) (giveaways s) (participants s) (channels s)
       (channel_subs s).

Definition set_checks (f : list check -> list check) (s : db) : db :=
  mkDb (users s) (tx s) (rate s) (f (checks s)) (bills s) (deposits s)
       (orders s) (trades s) (giveaways s) (participants s) (channels s)
       (channel_subs s).

Definition set_bills (f : list bill -> list bill) (s : db) : db :=
  mkDb (users s) (tx s) (rate s) (checks s) (f (bills s)) (deposits s)
       (orders s) (trades s) (giveaways s) (participants s) (channels s)
       (channel_subs s).

Definition set_deposits (f : list deposit -> list deposit) (s : db) : db :=
  mkDb (users s) (tx s) (rate s) (checks s) (bills s) (f (deposits s))
       (orders s) (trades s) (giveaways s) (participants s) (channels s)
       (channel_subs s).

Definition set_orders (f : list order -> list order) (s : db) : db :=
  mkDb (users s) (tx s) (rate s) (checks s) (bills s) (deposits s)
       (f (orders s)) (trades s) (giveaways s) (participants s) (channels s)
       (channel_subs s).

Definition set_trades (f : list trade -> list trade) (s : db) : db :=
  mkDb (users s) (tx s) (rate s) (checks s) (bills s) (deposits s)
       (orders s) (f (trades s)) (giveaways s) (participants s) (channels s)
       (channel_subs s).

Definition set_giveaways (f : list giveaway -> list giveaway) (s : db) : db :=
  mkDb (users s) (tx s) (rate s) (checks s) (bills s) (deposits s)
       (orders s) (trades s) (f (giveaways s)) (participants s) (channels s)
       (channel_subs s).

Definition set_participants (f : list (string * Z) -> list (string * Z))
    (s : db) : db :=
  mkDb (users s) (tx s) (rate s) (checks s) (bills s) (deposits s)
       (orders s) (trades s) (giveaways s) (f (participants s)) (channels s)
       (channel_subs s).

Definition set_channels (f : list channel -> list channel) (s : db) : db :=
  mkDb (users s) (tx s) (rate s) (checks s) (bills s) (deposits s)
       (orders s) (trades s) (giveaways s) (participants s) (f (channels s))
       (channel_subs s).

Definition set_channel_subs (f : list channel_sub -> list channel_sub)
    (s : db) : db :=
  mkDb (users s) (tx s) (rate s) (checks s) (bills s) (deposits s)
       (orders s) (trades s) (giveaways s) (participants s) (channels s)
       (f (channel_subs s)).

(** [INSERT INTO tx(tg_id, asset, delta, kind, ..)]. *)
Definition log (id : Z) (a : string) (d : Q) (k : string) (s : db) : db :=
  mkDb (users s) (tx s ++ [mkTx id a d k]) (rate s) (checks s) (bills s)
       (deposits s) (orders s) (trades s) (giveaways s) (participants s)
       (channels s) (channel_subs s).

Definition ensure_user (id : Z) (name : string) (s : db) : db :=
  set_users (ensure_user_rows id name) s.

(** [add_asset]; [None] is the [ValueError] on an unknown asset. *)
Definition add_asset (id : Z) (a : string) (delta : Q) (kind : string)
    (s : db) : option db :=
  if (a =? "UWT")%string then
    Some (log id a delta kind (set_users (upd_uwt delta id) s))
  else if (a =? "RUB")%string then
    Some (log id a delta kind (set_users (upd_rub delta id) s))
  else None.

Section WithHash.

(** [hashlib.sha256(..).hexdigest()]. *)
Variable sha256 : string -> string.

(** ** Checks and bills *)

Definition ck_active (c : check) : bool :=
  match ck_status c with CkActive => true | _ => false end.

Definition ck_is (id : string) (c : check) : bool := (ck_id c =? id)%string.

Definition create_check (chk_id : string) (creator_id : Z) (amount : Q)
    (password : option string) (s : db) : db * reply :=
  if Qleb amount 0 then (s, Failed BadAmount)
  else if Qltb (fst (get_balances creator_id (users s))) amount
  then (s, Failed Insufficient)
  else if existsb (ck_is chk_id) (checks s) then (s, Raised)
  else
    let ph := if truthy password then option_map sha256 password else None in
    (log creator_id "UWT" (- amount) "check_create"
       (set_checks
          (fun cs => cs ++ [mkCheck chk_id creator_id amount ph CkActive None])
          (set_users (upd_uwt (- amount) creator_id) s)),
     Done).

Definition hash_matches (password passhash : option string) : bool :=
  match password, passhash with
  | Some p, Some h => (sha256 p =? h)%string
  | _, _ => false
  end.

(** [UPDATE checks SET status='claimed', claimed_by_tg_id=?]. *)
Definition claimed_by (claimer_id : Z) (c : check) : check :=
  mkCheck (ck_id c) (ck_creator c) (ck_amount c) (ck_passhash c) CkClaimed
    (Some claimer_id).

Definition claim_check (chk_id : string) (claimer_id : Z)
    (password : option string) (s : db) : db * reply :=
  match find (ck_is chk_id) (checks s) with
  | None => (s, Failed NotFound)
  | Some row =>
    if negb (ck_active row) then (s, Failed Unavailable)
    else if truthy (ck_passhash row) && negb (truthy password)
    then (s, Failed NeedPass)
    else if truthy (ck_passhash row)
            && negb (hash_matches password (ck_passhash row))
    then (s, Failed WrongPass)
    else
      let amount := ck_amount row in
      let p := fun c => ck_is chk_id c && ck_active c in
      if negb (rowcount p (checks s) =? 1)%nat then (s, Failed LostRace)
      else
        (log claimer_id "UWT" amount "check_claim"
           (set_users (upd_uwt amount claimer_id)
              (set_checks
                 (update_where p (claimed_by claimer_id)) s)),
         Done)
  end.

Definition bl_active (b : bill) : bool :=
  match bl_status b with BlActive => true | _ => false end.

Definition bl_is (id : string) (b : bill) : bool := (bl_id b =? id)%string.

Definition create_bill_uwt (bill_id : string) (creator_id : Z) (amount : Q)
    (s : db) : db * reply :=
  if Qleb amount 0 then (s, Failed BadAmount)
  else if existsb (bl_is bill_id) (bills s) then (s, Raised)
  else
    (set_bills (fun bs => bs ++ [mkBill bill_id creator_id amount BlActive None]) s,
     Done).

(** [UPDATE bills_uwt SET status='paid', paid_by_tg_id=?]. *)
Definition paid_by (payer_id : Z) (b : bill) : bill :=
  mkBill (bl_id b) (bl_creator b) (bl_amount b) BlPaid (Some payer_id).

Definition pay_bill_uwt (bill_id : string) (payer_id : Z) (s : db)
    : db * reply :=
  match find (bl_is bill_id) (bills s) with
  | None => (s, Failed NotFound)
  | Some b =>
    if negb (bl_active b) then (s, Failed Unavailable)
    else
      let creator := bl_creator b in
      if (creator =? payer_id)%Z then (s, Failed SelfPay)
      else
        let amount := bl_amount b in
        if Qltb (fst (get_balances payer_id (users s))) amount
        then (s, Failed Insufficient)
        else
          let s1 := set_users (upd_uwt (- amount) payer_id) s in
          let s2 := set_users (upd_uwt amount creator) s1 in
          let p := fun r => bl_is bill_id r && bl_active r in
          if negb (rowcount p (bills s2) =? 1)%nat then (s, Failed LostRace)
          else
            let s3 :=
              set_bills
                (update_where p (paid_by payer_id)) s2 in
            (log creator "UWT" amount "bill_receive"
               (log payer_id "UWT" (- amount) "bill_pay" s3),
             Done)
  end.

(** A run of [pay] calls on one bill, one payer per call. *)
Fixpoint run_pays (bill_id : string) (payers : list Z) (s : db)
    : db * list reply :=
  match payers with
  | [] => (s, [])
  | p :: rest =>
    let (s1, r) := pay_bill_uwt bill_id p s in
    let (s2, rs) := run_pays bill_id rest s1 in
    (s2, r :: rs)
  end.

(** ** RUB deposits (approved by an administrator) *)

Definition dp_pending (d : deposit) : bool :=
  match dp_status d with DpPending => true | _ => false end.

Definition dp_is (id : string) (d : deposit) : bool := (dp_id d =? id)%string.

Definition create_rub_deposit (dep_id : string) (user_id : Z) (rub_amount : Q)
    (s : db) : db * reply :=
  if Qleb rub_amount 0 then (s, Failed BadAmount)
  else if existsb (dp_is dep_id) (deposits s) then (s, Raised)
  else
    (set_deposits
       (fun ds => ds ++ [mkDeposit dep_id user_id rub_amount DpPending None]) s,
     Done).

(** [UPDATE rub_deposits SET status=?, admin_username=?].  The name is
    stored lower-cased; [clean_username] also strips blanks and a leading
    [@], which shows in the column [admin_username] only. *)
Definition decided (st : dep_status) (admin : string) (d : deposit) : deposit :=
  mkDeposit (dp_id d) (dp_user d) (dp_amount d) st (Some admin).

Definition decide_rub_deposit (dep_id : string) (admin_username : string)
    (approve : bool) (s : db) : db * reply :=
  match find (dp_is dep_id) (deposits s) with
  | None => (s, Failed NotFound)
  | Some d =>
    if negb (dp_pending d) then (s, Failed AlreadyProcessed)
    else
      let status := if approve then DpApproved else DpRejected in
      let p := fun r => dp_is dep_id r && dp_pending r in
      if negb (rowcount p (deposits s) =? 1)%nat then (s, Failed LostRace)
      else
        let s1 :=
          set_deposits
            (update_where p (decided status (lower admin_username))) s in
        let user_id := dp_user d in
        let rub_amount := dp_amount d in
        if approve then
          (log user_id "RUB" rub_amount "rub_deposit_approved"
             (set_users (upd_rub rub_amount user_id) s1),
           Done)
        else (s1, Done)
  end.

(** ** Fixed-rate exchange *)

(** [UPDATE users SET rub=rub+?, uwt=uwt+? WHERE tg_id=?]. *)
Definition upd_both (d_uwt d_rub : Q) (id : Z) (us : list user) : list user :=
  update_where (has_id id)
    (fun u => mkUser (tg_id u) (username u) (uwt u + d_uwt) (rub u + d_rub)) us.

Definition exchange_buy_uwt (user_id : Z) (rub_to_spend : Q) (s : db)
    : db * reply :=
  if Qleb rub_to_spend 0 then (s, Failed BadAmount)
  else
    let rate := rate s in
    if Qeq_bool rate 0 then (s, Raised)      (* ZeroDivisionError *)
    else
      let uwt_amount := rub_to_spend / rate in
      if Qltb (snd (get_balances user_id (users s))) rub_to_spend
      then (s, Failed Insufficient)
      else
        (log user_id "UWT" uwt_amount "exchange_buy"
           (log user_id "RUB" (- rub_to_spend) "exchange_buy"
              (set_users (upd_both uwt_amount (- rub_to_spend) user_id) s)),
         Done).

Definition exchange_sell_uwt (user_id : Z) (uwt_to_sell : Q) (s : db)
    : db * reply :=
  if Qleb uwt_to_sell 0 then (s, Failed BadAmount)
  else
    let rate := rate s in
    let rub_amount := uwt_to_sell * rate in
    if Qltb (fst (get_balances user_id (users s))) uwt_to_sell
    then (s, Failed Insufficient)
    else
      (log user_id "RUB" rub_amount "exchange_sell"
         (log user_id "UWT" (- uwt_to_sell) "exchange_sell"
            (set_users (upd_both (- uwt_to_sell) rub_amount user_id) s)),
       Done).

(** ** Order book *)

Definition or_open (o : order) : bool :=
  match or_status o with OrOpen => true | _ => false end.

Definition or_buy (o : order) : bool :=
  match or_side o with Buy => true | Sell => false end.

Definition or_sell (o : order) : bool := negb (or_buy o).

Definition or_is (id : string) (o : order) : bool := (or_id o =? id)%string.

Definition parse_side (sd : string) : option side :=
  if (sd =? "buy")%string then Some Buy
  else if (sd =? "sell")%string then Some Sell
  else None.

(** [o] sorts strictly before [b] under [ORDER BY price DESC, created_at ASC]. *)
Definition buy_before (o b : order) : bool :=
  Qltb (or_price b) (or_price o)
  || (Qeq_bool (or_price o) (or_price b) && (or_created o <? or_created b)%Z).

(** [o] sorts strictly before [b] under [ORDER BY price ASC, created_at ASC]. *)
Definition sell_before (o b : order) : bool :=
  Qltb (or_price o) (or_price b)
  || (Qeq_bool (or_price o) (or_price b) && (or_created o <? or_created b)%Z).

(** [.. ORDER BY .. LIMIT 1]: the first row in sort order; rows that tie
    on every sort key stay in rowid order. *)
Definition first_by (before : order -> order -> bool) (l : list order)
    : option order :=
  fold_left
    (fun acc o =>
       match acc with
       | None => Some o
       | Some b => if before o b then Some o else Some b
       end)
    l None.

Definition best_buy (os : list order) : option order :=
  first_by buy_before (filter (fun o => or_open o && or_buy o) os).

Definition best_sell (os : list order) : option order :=
  first_by sell_before (filter (fun o => or_open o && or_sell o) os).

Definition set_amount (a : Q) (st : order_status) (o : order) : order :=
  mkOrder (or_id o) (or_user o) (or_side o) (or_price o) a st (or_created o).

(** [SET amount=0, status='filled'], [SET amount=?] and
    [SET status='cancelled']. *)
Definition filled (o : order) : order := set_amount 0 OrFilled o.
Definition reduced (a : Q) (o : order) : order := set_amount a (or_status o) o.
Definition cancelled (o : order) : order := set_amount (or_amount o) OrCancelled o.

(** What is left on an order after a trade: nothing once the remainder
    is within the tolerance. *)
Definition kept (a : Q) : Q := if Qleb a eps then 0 else a.

(** The two [UPDATE orders] branches after a trade. *)
Definition fill_or_reduce (id : string) (new_amt : Q) (os : list order)
    : list order :=
  if Qleb new_amt eps
  then update_where (or_is id) filled os
  else update_where (or_is id) (reduced new_amt) os.

(** One turn of the [while True] loop of [match_orders]; [None] is [break]. *)
Definition match_step (s : db) : option db :=
  match best_buy (orders s), best_sell (orders s) with
  | Some buy, Some sell =>
    let buy_price := or_price buy in
    let sell_price := or_price sell in
    if Qltb buy_price sell_price then None
    else
      let buy_amt := or_amount buy in
      let sell_amt := or_amount sell in
      let trade_amt := py_min buy_amt sell_amt in
      let trade_price := sell_price in
      let buyer := or_user buy in
      let seller := or_user sell in
      let s1 := set_users (upd_uwt trade_amt buyer) s in
      let rub_gain := trade_amt * trade_price in
      let s2 := set_users (upd_rub rub_gain seller) s1 in
      let reserved := trade_amt * buy_price in
      let actual := trade_amt * trade_price in
      let refund := reserved - actual in
      let s3 := if Qltb eps refund
                then set_users (upd_rub refund buyer) s2 else s2 in
      let new_buy := buy_amt - trade_amt in
      let new_sell := sell_amt - trade_amt in
      let s4 := set_orders (fill_or_reduce (or_id buy) new_buy) s3 in
      let s5 := set_orders (fill_or_reduce (or_id sell) new_sell) s4 in
      let s6 := set_trades
                  (fun ts => ts ++ [mkTrade (or_id buy) (or_id sell)
                                      trade_price trade_amt]) s5 in
      let s7 := log buyer "UWT" trade_amt "trade_fill" s6 in
      let s8 := log seller "RUB" rub_gain "trade_fill" s7 in
      let s9 := if Qltb eps refund
                then log buyer "RUB" refund "trade_refund" s8 else s8 in
      Some s9
  | _, _ => None
  end.

(** The loop, cut after [fuel] turns. *)
Fixpoint match_loop (fuel : nat) (s : db) : db :=
  match fuel with
  | O => s
  | S n =>
    match match_step s with
    | None => s
    | Some s' => match_loop n s'
    end
  end.

(** Every turn closes an order, so one turn per row is enough fuel
    ([match_orders_stops] below). *)
Definition match_orders (s : db) : db :=
  match_loop (S (List.length (orders s))) s.

Definition place_order (oid : string) (user_id : Z) (sd : string)
    (price amount_uwt : Q) (now : datetime) (s : db) : db * reply :=
  match parse_side sd with
  | None => (s, Failed BadSide)
  | Some side =>
    if Qleb price 0 || Qleb amount_uwt 0 then (s, Failed BadAmount)
    else
      match find_user user_id (users s) with
      | None => (s, Failed NoUser)
      | Some r =>
        let need_rub := price * amount_uwt in
        let locked :=
          match side with
          | Buy =>
            if Qltb (rub r) need_rub then None
            else Some (log user_id "RUB" (- need_rub) "order_reserve"
                         (set_users (upd_rub (- need_rub) user_id) s))
          | Sell =>
            if Qltb (uwt r) amount_uwt then None
            else Some (log user_id "UWT" (- amount_uwt) "order_reserve"
                         (set_users (upd_uwt (- amount_uwt) user_id) s))
          end in
        match locked with
        | None => (s, Failed Insufficient)
        | Some s1 =>
          if existsb (or_is oid) (orders s1) then (s, Raised)
          else
            let s2 :=
              set_orders
                (fun os => os ++ [mkOrder oid user_id side price amount_uwt
                                    OrOpen (now - now mod second_us)%Z]) s1 in
            (match_orders s2, Done)
        end
      end
  end.

Definition cancel_order (user_id : Z) (order_id : string) (s : db)
    : db * reply :=
  match find (or_is order_id) (orders s) with
  | None => (s, Failed NotFound)
  | Some o =>
    if negb (or_open o) then (s, Failed Unavailable)
    else if negb (or_user o =? user_id)%Z then (s, Failed NotOwner)
    else
      let price := or_price o in
      let amt := or_amount o in
      let s1 :=
        match or_side o with
        | Buy =>
          let refund := price * amt in
          log user_id "RUB" refund "order_cancel_refund"
            (set_users (upd_rub refund user_id) s)
        | Sell =>
          log user_id "UWT" amt "order_cancel_refund"
            (set_users (upd_uwt amt user_id) s)
        end in
      (set_orders
         (update_where (fun r => or_is order_id r && or_open r) cancelled) s1,
       Done)
  end.

(** ** Giveaways *)

Definition gw_active (g : giveaway) : bool :=
  match gw_status g with GwActive => true | _ => false end.

Definition gw_is (id : string) (g : giveaway) : bool := (gw_id g =? id)%string.

Definition create_giveaway (gid : string) (creator_id : Z) (amount : Q)
    (minutes : Z) (now : datetime) (s : db) : db * reply :=
  if Qleb amount 0 then (s, Failed BadAmount)
  else if ((minutes <=? 0) || (60 * 24 * 14 <? minutes))%Z
  then (s, Failed BadDuration)
  else if Qltb (fst (get_balances creator_id (users s))) amount
  then (s, Failed Insufficient)
  else if existsb (gw_is gid) (giveaways s) then (s, Raised)
  else
    let end_at := iso (now + timedelta_minutes minutes)%Z in
    (log creator_id "UWT" (- amount) "giveaway_create"
       (set_giveaways
          (fun gs => gs ++ [mkGiveaway gid creator_id amount GwActive end_at None])
          (set_users (upd_uwt (- amount) creator_id) s)),
     Done).

Definition is_participant (gid : string) (user_id : Z) (p : string * Z) : bool :=
  (fst p =? gid)%string && (snd p =? user_id)%Z.

Definition join_giveaway (gid : string) (user_id : Z) (s : db) : db * reply :=
  match find (gw_is gid) (giveaways s) with
  | None => (s, Failed NotFound)
  | Some g =>
    if negb (gw_active g) then (s, Failed Unavailable)
    else if existsb (is_participant gid user_id) (participants s)
    then (s, Failed AlreadyJoined)          (* IntegrityError, caught *)
    else (set_participants (fun ps => ps ++ [(gid, user_id)]) s, Done)
  end.

(** [SELECT user_tg_id FROM giveaway_participants WHERE giveaway_id=?],
    the rows in the order of joining.  The statement has no [ORDER BY];
    SQLite reads the rows through the primary key, by ascending user id.
    The order decides which participant a given draw names and nothing
    else: what is stated of the winner is stated for every draw. *)
Definition participants_of (gid : string) (ps : list (string * Z)) : list Z :=
  map snd (filter (fun p => (fst p =? gid)%string) ps).

(** [secrets.choice(ps) if ps else None]; [draw] is the random number the
    choice consumes, reduced to an index of [ps]. *)
Definition choose_winner (draw : nat) (ps : list Z) : option Z :=
  match ps with
  | [] => None
  | _ :: _ => nth_error ps (draw mod List.length ps)
  end.

Definition event : Type := (string * option Z * Q)%type.

Definition ev_gid (e : event) : string := fst (fst e).
Definition ev_winner (e : event) : option Z := snd (fst e).
Definition ev_amount (e : event) : Q := snd e.

(** [UPDATE giveaways SET status='finished', winner_tg_id=?]. *)
Definition finalized (w : option Z) (g : giveaway) : giveaway :=
  mkGiveaway (gw_id g) (gw_creator g) (gw_amount g) GwFinished (gw_end_at g) w.

(** The state of the sweep's [for] loop: the database, the [finished]
    list and the number of random draws made so far. *)
Definition sweep_state : Type := (db * list event * nat)%type.

Definition finish_one (now : datetime) (rnd : nat -> nat) (acc : sweep_state)
    (g : giveaway) : sweep_state :=
  let '(s, finished, k) := acc in
  match fromisoformat (gw_end_at g) with
  | None => acc                                   (* except: continue *)
  | Some end_at =>
    if (now <? end_at)%Z then acc                  (* end_at > utcnow() *)
    else
      let gid := gw_id g in
      let amount := gw_amount g in
      let creator := gw_creator g in
      let ps := participants_of gid (participants s) in
      let winner := choose_winner (rnd k) ps in
      let k' := match ps with [] => k | _ :: _ => S k end in
      let s1 :=
        match winner with
        | None =>
          log creator "UWT" amount "giveaway_refund"
            (set_users (upd_uwt amount creator) s)
        | Some w =>
          log w "UWT" amount "giveaway_win"
            (set_users (upd_uwt amount w) s)
        end in
      let s2 :=
        set_giveaways
          (update_where (gw_is gid) (finalized winner)) s1 in
      (s2, finished ++ [(gid, winner, amount)], k')
  end.

(** [finish_due_giveaways]: the rows are fetched once, before the loop. *)
Definition finish_due_giveaways (now : datetime) (rnd : nat -> nat) (s : db)
    : sweep_state :=
  fold_left (finish_one now rnd) (filter gw_active (giveaways s)) (s, [], O).

(** The account a finalisation pays. *)
Definition payee (w : option Z) (g : giveaway) : Z :=
  match w with Some x => x | None => gw_creator g end.

(** A run of sweeps, each with its clock and its random draws. *)
Definition sweeps (runs : list (datetime * (nat -> nat))) (s : db) : db :=
  fold_left
    (fun s r => fst (fst (finish_due_giveaways (fst r) (snd r) s))) runs s.

Definition sweep_db (a : sweep_state) : db := fst (fst a).
Definition sweep_events (a : sweep_state) : list event := snd (fst a).

Definition ev_is (gid : string) (e : event) : bool := (ev_gid e =? gid)%string.

(** The account an event of the sweep pays: the winner, or the creator
    of the giveaway when there is none. *)
Definition recipient (s : db) (e : event) : option Z :=
  match ev_winner e with
  | Some w => Some w
  | None => option_map gw_creator (find (gw_is (ev_gid e)) (giveaways s))
  end.

Definition paid_to (s : db) (id : Z) (e : event) : bool :=
  match recipient s e with
  | Some r => (r =? id)%Z
  | None => false
  end.

(** What a list of events pays to account [id]. *)
Definition paid (s : db) (id : Z) (evs : list event) : Q :=
  total (fun e => if paid_to s id e then ev_amount e else 0) evs.

(** ** Channel subscriptions *)

Definition ch_is (id : Z) (c : channel) : bool := (ch_id c =? id)%Z.

Definition cs_is (channel_id user_id : Z) (r : channel_sub) : bool :=
  (cs_channel r =? channel_id)%Z && (cs_user r =? user_id)%Z.

Definition channel_add (owner_id chat_id : Z) (price_uwt : Q) (s : db)
    : db * reply :=
  if Qleb price_uwt 0 then (s, Failed BadAmount)
  else if existsb (fun c => (ch_chat c =? chat_id)%Z) (channels s)
  then (s, Failed Unavailable)              (* IntegrityError, caught *)
  else
    let next_id := (fold_right Z.max 0 (map ch_id (channels s)) + 1)%Z in
    (set_channels
       (fun cs => cs ++ [mkChannel next_id owner_id chat_id price_uwt]) s,
     Done).

(** [INSERT .. ON CONFLICT(channel_id, user_tg_id) DO UPDATE SET expires_at]. *)
Definition sub_upsert (channel_id user_id : Z) (e : text_ts)
    (l : list channel_sub) : list channel_sub :=
  if existsb (cs_is channel_id user_id) l
  then update_where (cs_is channel_id user_id)
         (fun r => mkSub (cs_channel r) (cs_user r) e) l
  else l ++ [mkSub channel_id user_id e].

(** The base the extension starts from. *)
Definition extend_base (channel_id user_id : Z) (now : datetime) (s : db)
    : datetime :=
  match find (cs_is channel_id user_id) (channel_subs s) with
  | Some row =>
    match fromisoformat (cs_expires row) with
    | Some exp => if (now <? exp)%Z then exp else now
    | None => now                                  (* except: pass *)
    end
  | None => now
  end.

Definition channel_sub_extend (channel_id user_id : Z) (months : Z)
    (now : datetime) (s : db) : db * text_ts :=
  let months := if (months <=? 0)%Z then 1%Z else months in
  let base := extend_base channel_id user_id now s in
  let new_exp := iso (base + timedelta_days (30 * months))%Z in
  (set_channel_subs (sub_upsert channel_id user_id new_exp) s, new_exp).

(** The expiry a grant row holds, when the text parses. *)
Definition grant_expiry (channel_id user_id : Z) (s : db) : option datetime :=
  match find (cs_is channel_id user_id) (channel_subs s) with
  | Some row => fromisoformat (cs_expires row)
  | None => None
  end.

(** The money-moving part of the handler [ch_buy_months]. *)
Definition ch_buy_months (channel_id user_id : Z) (months : Z)
    (now : datetime) (s : db) : db * reply :=
  match find (ch_is channel_id) (channels s) with
  | None => (s, Failed NotFound)
  | Some ch =>
    if (months <=? 0)%Z then (s, Failed BadAmount)
    else
      let months := if (120 <? months)%Z then 120%Z else months in
      let price := ch_price ch in
      let total := price * inject_Z months in
      if Qltb (fst (get_balances user_id (users s))) total
      then (s, Failed Insufficient)
      else
        match add_asset user_id "UWT" (- total) "channel_sub_buy" s with
        | None => (s, Raised)
        | Some s1 =>
          match add_asset (ch_owner ch) "UWT" total "channel_sub_income" s1 with
          | None => (s1, Raised)
          | Some s2 =>
            (fst (channel_sub_extend channel_id user_id months now s2), Done)
          end
        end
  end.

(** ** Transfers and the administrator's dialogs *)

(** The handler [p2p_amount]; the recipient's name is already cleaned. *)
Definition p2p_amount (from_id : Z) (to_username : string) (amount : Q)
    (s : db) : db * reply :=
  if Qleb amount 0 then (s, Failed BadAmount)
  else
    match find_username to_username (users s) with
    | None => (s, Failed NotFound)
    | Some r =>
      let to_id := tg_id r in
      match find_user from_id (users s) with
      | None => (s, Raised)                        (* fetchone() is None *)
      | Some me =>
        if Qltb (uwt me) amount then (s, Failed Insufficient)
        else
          (log to_id "UWT" amount "p2p_receive"
             (log from_id "UWT" (- amount) "p2p_send"
                (set_users (upd_uwt amount to_id)
                   (set_users (upd_uwt (- amount) from_id) s))),
           Done)
      end
    end.

(** The handler [adm_bal_amount]: the signed amount goes to [add_asset]
    as it was typed. *)
Definition adm_bal_amount (uname asset : string) (amt : Q) (s : db)
    : db * reply :=
  match find_username uname (users s) with
  | None => (s, Failed NotFound)
  | Some r =>
    match add_asset (tg_id r) asset amt "admin_adjust" s with
    | Some s' => (s', Done)
    | None => (s, Raised)
    end
  end.

(** The handler [adm_rate_set]. *)
Definition adm_rate_set (v : Q) (s : db) : db * reply :=
  if Qleb v 0 then (s, Failed BadAmount) else (set_rate v s, Done).

(** ** Operations of the core *)

Inductive op : Type :=
| OpEnsureUser (id : Z) (name : string)
| OpAdmBal (uname asset : string) (amt : Q)
| OpAdmRate (v : Q)
| OpCreateDeposit (dep_id : string) (user_id : Z) (rub_amount : Q)
| OpDecideDeposit (dep_id admin : string) (approve : bool)
| OpCreateCheck (chk_id : string) (creator : Z) (amount : Q)
    (password : option string)
| OpClaimCheck (chk_id : string) (claimer : Z) (password : option string)
| OpCreateBill (bill_id : string) (creator : Z) (amount : Q)
| OpPayBill (bill_id : string) (payer : Z)
| OpExchangeBuy (user_id : Z) (rub_to_spend : Q)
| OpExchangeSell (user_id : Z) (uwt_to_sell : Q)
| OpPlaceOrder (oid : string) (user_id : Z) (sd : string) (price amount : Q)
    (now : datetime)
| OpCancelOrder (user_id : Z) (oid : string)
| OpCreateGiveaway (gid : string) (creator : Z) (amount : Q) (minutes : Z)
    (now : datetime)
| OpJoinGiveaway (gid : string) (user_id : Z)
| OpSweep (now : datetime) (rnd : nat -> nat)
| OpChannelAdd (owner chat : Z) (price : Q)
| OpChannelBuy (channel_id user_id months : Z) (now : datetime)
| OpP2P (from_id : Z) (to_username : string) (amount : Q).

Definition exec (o : op) (s : db) : db :=
  match o with
  | OpEnsureUser id name => ensure_user id name s
  | OpAdmBal uname asset amt => fst (adm_bal_amount uname asset amt s)
  | OpAdmRate v => fst (adm_rate_set v s)
  | OpCreateDeposit d u a => fst (create_rub_deposit d u a s)
  | OpDecideDeposit d adm ok => fst (decide_rub_deposit d adm ok s)
  | OpCreateCheck c u a pw => fst (create_check c u a pw s)
  | OpClaimCheck c u pw => fst (claim_check c u pw s)
  | OpCreateBill b u a => fst (create_bill_uwt b u a s)
  | OpPayBill b u => fst (pay_bill_uwt b u s)
  | OpExchangeBuy u r => fst (exchange_buy_uwt u r s)
  | OpExchangeSell u a => fst (exchange_sell_uwt u a s)
  | OpPlaceOrder oid u sd p a now => fst (place_order oid u sd p a now s)
  | OpCancelOrder u oid => fst (cancel_order u oid s)
  | OpCreateGiveaway g u a m now => fst (create_giveaway g u a m now s)
  | OpJoinGiveaway g u => fst (join_giveaway g u s)
  | OpSweep now rnd => fst (fst (finish_due_giveaways now rnd s))
  | OpChannelAdd o c p => fst (channel_add o c p s)
  | OpChannelBuy c u m now => fst (ch_buy_months c u m now s)
  | OpP2P f t a => fst (p2p_amount f t a s)
  end.

(** The user on whose behalf the front end calls the core. *)
Definition actor (o : op) : option Z :=
  match o with
  | OpCreateDeposit _ u _ | OpCreateCheck _ u _ _ | OpClaimCheck _ u _
  | OpCreateBill _ u _ | OpPayBill _ u | OpExchangeBuy u _
  | OpExchangeSell u _ | OpPlaceOrder _ u _ _ _ _ | OpCancelOrder u _
  | OpCreateGiveaway _ u _ _ _ | OpJoinGiveaway _ u | OpChannelAdd u _ _
  | OpChannelBuy _ u _ _ | OpP2P u _ _ => Some u
  | OpEnsureUser _ _ | OpAdmBal _ _ _ | OpAdmRate _ | OpDecideDeposit _ _ _
  | OpSweep _ _ => None
  end.

(** The caller holds an account row (the front end creates it on [/start]). *)
Definition called_by_account (o : op) (s : db) : bool :=
  match actor o with
  | Some u => registered u (users s)
  | None => true
  end.

(** The one operation that runs the matching loop. *)
Definition is_place_order (o : op) : bool :=
  match o with
  | OpPlaceOrder _ _ _ _ _ _ => true
  | _ => false
  end.

(** States the core reaches from the empty database. *)
Inductive reachable : db -> Prop :=
| reach_init : reachable init_db
| reach_step s o :
    reachable s -> called_by_account o s = true -> reachable (exec o s).

(** ** Totals the specification speaks about *)

(** Remainders of the active checks. *)
Definition escrow_checks (cs : list check) : Q :=
  total (fun c => if ck_active c then ck_amount c else 0) cs.

(** UWT locked by the open sell orders. *)
Definition escrow_sells (os : list order) : Q :=
  total (fun o => if or_open o && or_sell o then or_amount o else 0) os.

(** RUB locked by the open buy orders. *)
Definition escrow_buys (os : list order) : Q :=
  total (fun o => if or_open o && or_buy o then or_price o * or_amount o else 0)
    os.

(** Prizes of the active giveaways. *)
Definition escrow_giveaways (gs : list giveaway) : Q :=
  total (fun g => if gw_active g then gw_amount g else 0) gs.

Definition escrow_uwt (s : db) : Q :=
  escrow_checks (checks s) + escrow_sells (orders s)
  + escrow_giveaways (giveaways s).

Definition escrow_rub (s : db) : Q := escrow_buys (orders s).

Definition is_mint (t : tx_row) : bool :=
  (tx_kind t =? "admin_adjust")%string
  || (tx_kind t =? "rub_deposit_approved")%string.

Definition is_exchange_leg (t : tx_row) : bool :=
  (tx_kind t =? "exchange_buy")%string || (tx_kind t =? "exchange_sell")%string.

(** Admin-issued mint deltas minus burn deltas of asset [a]. *)
Definition minted (a : string) (s : db) : Q := logged is_mint a (tx s).

(** Net of the fixed-rate exchange legs of asset [a]. *)
Definition exchanged (a : string) (s : db) : Q := logged is_exchange_leg a (tx s).

(** Balances plus outstanding escrow. *)
Definition held_uwt (s : db) : Q := sum_uwt (users s) + escrow_uwt s.
Definition held_rub (s : db) : Q := sum_rub (users s) + escrow_rub s.

(** What is held beyond what was minted and what the exchange put in. *)
Definition drift_uwt (s : db) : Q :=
  held_uwt s - minted "UWT" s - exchanged "UWT" s.
Definition drift_rub (s : db) : Q :=
  held_rub s - minted "RUB" s - exchanged "RUB" s.

(** A step that keeps the drift of both assets, and one that never
    raises it. *)
Definition conserves (s s' : db) : Prop :=
  drift_uwt s' == drift_uwt s /\ drift_rub s' == drift_rub s.

Definition never_gains (s s' : db) : Prop :=
  drift_uwt s' <= drift_uwt s /\ drift_rub s' <= drift_rub s.

(** The limit price of the order [id]. *)
Definition limit_of (id : string) (os : list order) : Q :=
  match find (or_is id) os with
  | Some o => or_price o
  | None => 0
  end.

(** What the tolerance of [match_orders] can drop: for each trade, at
    most [eps] UWT (the remainder of a sell order closed within the
    tolerance), and at most [eps] RUB of a refund left unpaid plus [eps]
    times the limit price for the remainder of a buy order closed within
    the tolerance. *)
Definition dust_uwt (s : db) : Q := total (fun _ => eps) (trades s).

Definition dust_rub (s : db) : Q :=
  total (fun t => eps * (1 + limit_of (tr_buy t) (orders s))) (trades s).

(** A step after which the drift has fallen by no more than the dust of
    the trades it made. *)
Definition loses_dust_only (s s' : db) : Prop :=
  drift_uwt s + dust_uwt s <= drift_uwt s' + dust_uwt s'
  /\ drift_rub s + dust_rub s <= drift_rub s' + dust_rub s'.

Definition nonneg_balances (us : list user) : Prop :=
  Forall (fun u => 0 <= uwt u /\ 0 <= rub u) us.

(** ** Well-formed databases *)

Definition ok_check (c : check) : Prop := 0 < ck_amount c.

Definition ok_bill (us : list user) (b : bill) : Prop :=
  0 < bl_amount b /\ registered (bl_creator b) us = true.

Definition ok_deposit (us : list user) (d : deposit) : Prop :=
  0 < dp_amount d /\ registered (dp_user d) us = true.

Definition ok_order (us : list user) (o : order) : Prop :=
  0 < or_price o /\ (or_open o = true -> 0 < or_amount o)
  /\ registered (or_user o) us = true.

Definition ok_giveaway (us : list user) (g : giveaway) : Prop :=
  0 < gw_amount g /\ registered (gw_creator g) us = true.

Definition ok_participant (us : list user) (p : string * Z) : Prop :=
  registered (snd p) us = true.

Definition ok_channel (us : list user) (c : channel) : Prop :=
  0 < ch_price c /\ registered (ch_owner c) us = true.

(** The rows refer to accounts of [us] and carry positive amounts. *)
Definition rows_ok (us : list user) (s : db) : Prop :=
  Forall ok_check (checks s)
  /\ Forall (ok_bill us) (bills s)
  /\ Forall (ok_deposit us) (deposits s)
  /\ Forall (ok_order us) (orders s)
  /\ Forall (ok_giveaway us) (giveaways s)
  /\ Forall (ok_participant us) (participants s)
  /\ Forall (ok_channel us) (channels s).

(** Primary keys are unique. *)
Definition keys_ok (s : db) : Prop :=
  NoDup (map ck_id (checks s))
  /\ NoDup (map bl_id (bills s))
  /\ NoDup (map dp_id (deposits s))
  /\ NoDup (map or_id (orders s))
  /\ NoDup (map gw_id (giveaways s)).

Definition wf (s : db) : Prop :=
  NoDup (map tg_id (users s)) /\ 0 < rate s /\ keys_ok s
  /\ rows_ok (users s) s.

(** What is proved of every operation other than matching: the result is
    well formed, the drift of both assets is kept, balances that were at
    or above zero stay so. *)
Definition sound_step (s s' : db) : Prop :=
  wf s' /\ conserves s s'
  /\ (nonneg_balances (users s) -> nonneg_balances (users s')).

(** The administrator's adjustment keeps the adjusted balance at or
    above zero. *)
Definition adjustment_covered (o : op) (s : db) : Prop :=
  match o with
  | OpAdmBal uname asset amt =>
    match find_username uname (users s) with
    | Some r =>
      ((asset =? "UWT")%string = true -> 0 <= uwt r + amt)
      /\ ((asset =? "RUB")%string = true -> 0 <= rub r + amt)
    | None => True
    end
  | _ => True
  end.

(** One row per account, a positive rate, positive amounts and prices
    in the tables. *)
Definition positive_rows (s : db) : Prop :=
  NoDup (map tg_id (users s)) /\ 0 < rate s
  /\ Forall (fun c => 0 < ck_amount c) (checks s)
  /\ Forall (fun b => 0 < bl_amount b) (bills s)
  /\ Forall (fun d => 0 < dp_amount d) (deposits s)
  /\ Forall (fun o => 0 < or_price o /\ (or_open o = true -> 0 < or_amount o))
       (orders s)
  /\ Forall (fun g => 0 < gw_amount g) (giveaways s)
  /\ Forall (fun c => 0 < ch_price c) (channels s).

(** A step that keeps [positive_rows] and balances at or above zero. *)
Definition keeps_signs (s s' : db) : Prop :=
  positive_rows s'
  /\ (nonneg_balances (users s) -> nonneg_balances (users s')).

(** States reached from the empty database by operations, whoever calls
    them, among which every adjustment by the administrator is covered. *)
Inductive covered_run : db -> Prop :=
| covered_init : covered_run init_db
| covered_step s o :
    covered_run s -> adjustment_covered o s -> covered_run (exec o s).

(** ** Runs of calls on one row *)

(** A run of [claim_check] calls on one check, a claimer and a password
    per call. *)
Fixpoint run_claims (chk_id : string) (calls : list (Z * option string))
    (s : db) : db * list reply :=
  match calls with
  | [] => (s, [])
  | (u, pw) :: rest =>
    let (s1, r) := claim_check chk_id u pw s in
    let (s2, rs) := run_claims chk_id rest s1 in
    (s2, r :: rs)
  end.

(** A run of decisions on one deposit, an administrator and a verdict per
    call. *)
Fixpoint run_decisions (dep_id : string) (calls : list (string * bool))
    (s : db) : db * list reply :=
  match calls with
  | [] => (s, [])
  | (adm, ok) :: rest =>
    let (s1, r) := decide_rub_deposit dep_id adm ok s in
    let (s2, rs) := run_decisions dep_id rest s1 in
    (s2, r :: rs)
  end.

(** ** Expiry of subscriptions *)

(** The test of [channel_subs_due] on a row: the expiry parses and is not
    after the clock. *)
Definition is_due (now : datetime) (r : channel_sub) : bool :=
  match fromisoformat (cs_expires r) with
  | Some exp => (exp <=? now)%Z
  | None => false                                  (* except: continue *)
  end.

(** [channel_subs JOIN channels ON channels.id = channel_subs.channel_id]. *)
Definition subs_joined (s : db) : list (channel_sub * channel) :=
  flat_map
    (fun r => map (fun c => (r, c))
                (filter (fun c => (ch_id c =? cs_channel r)%Z) (channels s)))
    (channel_subs s).

Definition channel_subs_due (now : datetime) (s : db)
    : list (channel_sub * channel) :=
  filter (fun rc => is_due now (fst rc)) (subs_joined s).

(** [DELETE FROM channel_subs WHERE channel_id=? AND user_tg_id=?]. *)
Definition channel_sub_remove (channel_id user_id : Z) (s : db) : db :=
  set_channel_subs (filter (fun r => negb (cs_is channel_id user_id r))) s.

(** The pair [UNIQUE(channel_id, user_tg_id)] is about. *)
Definition sub_key (r : channel_sub) : Z * Z := (cs_channel r, cs_user r).

Definition sub_at (k : Z * Z) (r : channel_sub) : bool :=
  cs_is (fst k) (snd k) r.

(** What one turn of [channel_subs_worker] does to the database: the due
    rows are fetched once, then each is removed. *)
Definition expire_turn (now : datetime) (s : db) : db :=
  fold_left
    (fun s rc => channel_sub_remove (cs_channel (fst rc)) (cs_user (fst rc)) s)
    (channel_subs_due now s) s.

(** ** Runs *)

(** A sequence of calls, first to last. *)
Definition run (ops : list op) (s : db) : db :=
  fold_left (fun s o => exec o s) ops s.

(** ** The book over time *)

(** The columns of an order that no statement of the code assigns. *)
Definition same_order (o o' : order) : Prop :=
  or_id o' = or_id o /\ or_user o' = or_user o /\ or_side o' = or_side o
  /\ or_price o' = or_price o /\ or_created o' = or_created o.

(** Every row is still there, with the same fixed columns and no larger
    a remainder; the rows that were closed are there as they were. *)
Definition rows_kept (os os' : list order) : Prop :=
  forall o, In o os ->
    (or_open o = false -> In o os')
    /\ exists o', In o' os' /\ same_order o o'
                  /\ or_amount o' <= or_amount o.

Definition book_kept (s s' : db) : Prop := rows_kept (orders s) (orders s').

(** A trade at the seller's price, within the limit of the buyer, between
    a buy order and a sell order of the book. *)
Definition trade_ok (os : list order) (t : trade) : Prop :=
  exists b a,
    In b os /\ In a os /\ or_id b = tr_buy t /\ or_id a = tr_sell t
    /\ or_side b = Buy /\ or_side a = Sell
    /\ tr_price t = or_price a /\ or_price a <= or_price b
    /\ 0 < tr_amount t.

(** ** The log as an audit trail *)

(** The log rows of one account. *)
Definition tx_of (id : Z) (t : tx_row) : bool := (tx_user t =? id)%Z.

(** What the log says an account holds of an asset. *)
Definition audited (id : Z) (a : string) (s : db) : Q :=
  logged (tx_of id) a (tx s).

(** Every balance is what the log says it is. *)
Definition explained (s : db) : Prop :=
  forall i,
    fst (get_balances i (users s)) == audited i "UWT" s
    /\ snd (get_balances i (users s)) == audited i "RUB" s.

(** A change of balances that the new log rows account for. *)
Definition explains (s s' : db) : Prop :=
  forall i,
    fst (get_balances i (users s')) - fst (get_balances i (users s))
    == audited i "UWT" s' - audited i "UWT" s
    /\ snd (get_balances i (users s')) - snd (get_balances i (users s))
       == audited i "RUB" s' - audited i "RUB" s.

End WithHash.

End Main.

(** * Revision [main3.py]

    [create_check_multi], [claim_check_by_token], [create_bill_uwt_by_token]
    and [pay_bill_by_token] are the same text in [main1.py]. *)

Module Main3.

Inductive check_status : Type := CkActive | CkFinished | CkCancelled.

Record check : Type := mkCheck {
  ck_id : string;
  ck_token : string;
  ck_creator : Z;
  ck_total_amount : Q;
  ck_per_claim : Q;
  ck_max_claims : Z;
  ck_claimed_count : Z;
  ck_passhash : option string;
  ck_status : check_status
}.

Inductive bill_status : Type := BlActive | BlPaid | BlCancelled.

Record bill : Type := mkBill {
  bl_id : string;
  bl_token : string;
  bl_creator : Z;
  bl_amount : Q;
  bl_status : bill_status;
  bl_paid_by : option Z
}.

Inductive side : Type := Buy | Sell.
Inductive order_status : Type := OrOpen | OrFilled | OrCancelled.

Record order : Type := mkOrder {
  or_id : string;
  or_user : Z;
  or_side : side;
  or_price : Q;
  or_amount : Q;
  or_remaining : Q;
  or_status : order_status;
  or_created : datetime
}.

Record trade : Type := mkTrade {
  tr_buy : string;
  tr_sell : string;
  tr_price : Q;
  tr_amount : Q
}.

Record channel : Type := mkChannel {
  ch_id : Z;
  ch_owner : Z;
  ch_chat : Z;
  ch_price : Q
}.

Record channel_sub : Type := mkSub {
  cs_channel : Z;
  cs_user : Z;
  cs_expires : text_ts
}.

Record db : Type := mkDb {
  users : list user;
  tx : list tx_row;
  checks : list check;
  check_claims : list (string * Z);
  bills : list bill;
  orders : list order;
  trades : list trade;
  channels : list channel;
  channel_subs : list channel_sub
}.

Definition init_db : db := mkDb [] [] [] [] [] [] [] [] [].

Definition set_users (f : list user -> list user) (s : db) : db :=
  mkDb (f (users s)) (tx s) (checks s) (check_claims s) (bills s) (orders s)
       (trades s) (channels s) (channel_subs s).

Definition set_checks (f : list check -> list check) (s : db) : db :=
  mkDb (users s) (tx s) (f (checks s)) (check_claims s) (bills s) (orders s)
       (trades s) (channels s) (channel_subs s).

Definition set_check_claims (f : list (string * Z) -> list (string * Z))
    (s : db) : db :=
  mkDb (users s) (tx s) (checks s) (f (check_claims s)) (bills s) (orders s)
       (trades s) (channels s) (channel_subs s).

Definition set_bills (f : list bill -> list bill) (s : db) : db :=
  mkDb (users s) (tx s) (checks s) (check_claims s) (f (bills s)) (orders s)
       (trades s) (channels s) (channel_subs s).

Definition set_orders (f : list order -> list order) (s : db) : db :=
  mkDb (users s) (tx s) (checks s) (check_claims s) (bills s) (f (orders s))
       (trades s) (channels s) (channel_subs s).

Definition set_trades (f : list trade -> list trade) (s : db) : db :=
  mkDb (users s) (tx s) (checks s) (check_claims s) (bills s) (orders s)
       (f (trades s)) (channels s) (channel_subs s).

Definition set_channel_subs (f : list channel_sub -> list channel_sub)
    (s : db) : db :=
  mkDb (users s) (tx s) (checks s) (check_claims s) (bills s) (orders s)
       (trades s) (channels s) (f (channel_subs s)).

Definition log (id : Z) (a : string) (d : Q) (k : string) (s : db) : db :=
  mkDb (users s) (tx s ++ [mkTx id a d k]) (checks s) (check_claims s)
       (bills s) (orders s) (trades s) (channels s) (channel_subs s).

Definition ensure_user (id : Z) (name : string) (s : db) : db :=
  set_users (ensure_user_rows id name) s.

Section WithHash.

Variable sha256 : string -> string.

(** ** Multi-claim checks *)

Definition ck_active (c : check) : bool :=
  match ck_status c with CkActive => true | _ => false end.

Definition ck_has_token (token : string) (c : check) : bool :=
  (ck_token c =? token)%string.

Definition set_claimed (n : Z) (c : check) : check :=
  mkCheck (ck_id c) (ck_token c) (ck_creator c) (ck_total_amount c)
    (ck_per_claim c) (ck_max_claims c) n (ck_passhash c) (ck_status c).

Definition set_finished (c : check) : check :=
  mkCheck (ck_id c) (ck_token c) (ck_creator c) (ck_total_amount c)
    (ck_per_claim c) (ck_max_claims c) (ck_claimed_count c) (ck_passhash c)
    CkFinished.

Definition create_check_multi (check_id token : string) (creator_id : Z)
    (total_amount per_claim : Q) (max_claims : Z) (password : option string)
    (s : db) : db * reply :=
  if Qleb total_amount 0 || Qleb per_claim 0 || (max_claims <=? 0)%Z
  then (s, Failed BadAmount)
  else
    let required := per_claim * inject_Z max_claims in
    if Qltb (total_amount + eps) required then (s, Failed BadTotal)
    else if Qltb (fst (get_balances creator_id (users s)) + eps) total_amount
    then (s, Failed Insufficient)
    else if existsb
              (fun c => (ck_id c =? check_id)%string || ck_has_token token c)
              (checks s)
    then (s, Raised)
    else
      let ph := if truthy password then option_map sha256 password else None in
      (log creator_id "UWT" (- total_amount) "check_create"
         (set_checks
            (fun cs => cs ++ [mkCheck check_id token creator_id total_amount
                                per_claim max_claims 0 ph CkActive])
            (set_users (upd_uwt (- total_amount) creator_id) s)),
       Done).

Definition hash_matches (password passhash : option string) : bool :=
  match password, passhash with
  | Some p, Some h => (sha256 p =? h)%string
  | _, _ => false
  end.

Definition has_claim (check_id : string) (user_id : Z) (p : string * Z) : bool :=
  (fst p =? check_id)%string && (snd p =? user_id)%Z.

Definition claim_check_by_token (token : string) (user_id : Z)
    (password : option string) (s : db) : db * reply :=
  match find (ck_has_token token) (checks s) with
  | None => (s, Failed NotFound)
  | Some row =>
    if negb (ck_active row) then (s, Failed Unavailable)
    else if truthy (ck_passhash row) && negb (truthy password)
    then (s, Failed NeedPass)
    else if truthy (ck_passhash row)
            && negb (hash_matches password (ck_passhash row))
    then (s, Failed WrongPass)
    else if existsb (has_claim (ck_id row) user_id) (check_claims s)
    then (s, Failed AlreadyClaimed)
    else
      match find (fun c => ck_has_token token c && ck_active c) (checks s) with
      | None => (s, Failed Unavailable)
      | Some r2 =>
        let claimed := ck_claimed_count r2 in
        let maxc := ck_max_claims r2 in
        if (maxc <=? claimed)%Z then
          (set_checks (update_where (ck_has_token token) set_finished) s,
           Failed Exhausted)
        else
          let per := ck_per_claim r2 in
          let s1 := set_users (upd_uwt per user_id) s in
          let s2 := set_check_claims
                      (fun cl => cl ++ [(ck_id row, user_id)]) s1 in
          let s3 := set_checks
                      (update_where (ck_has_token token)
                         (fun c => set_claimed (ck_claimed_count c + 1) c))
                      s2 in
          let s4 := log user_id "UWT" per "check_claim" s3 in
          let s5 :=
            match find (ck_has_token token) (checks s4) with
            | Some rr =>
              let left := (ck_max_claims rr - ck_claimed_count rr)%Z in
              if (left <=? 0)%Z
              then set_checks (update_where (ck_has_token token) set_finished) s4
              else s4
            | None => s4
            end in
          (s5, Done)
      end
  end.

(** The three ways a claim call ends: paid, refused for want of a slot
    (the check is then marked finished), refused otherwise. *)
Inductive claim_outcome (token : string) (u : Z) (s : db)
  : db -> reply -> Prop :=
| claim_paid row :
    find (ck_has_token token) (checks s) = Some row ->
    ck_active row = true ->
    existsb (has_claim (ck_id row) u) (check_claims s) = false ->
    (ck_claimed_count row < ck_max_claims row)%Z ->
    claim_outcome token u s
      (mkDb (upd_uwt (ck_per_claim row) u (users s))
            (tx s ++ [mkTx u "UWT" (ck_per_claim row) "check_claim"])
            ((if (ck_max_claims row <=? ck_claimed_count row + 1)%Z
              then update_where (ck_has_token token) set_finished
              else fun l => l)
               (update_where (ck_has_token token)
                  (fun c => set_claimed (ck_claimed_count c + 1) c) (checks s)))
            (check_claims s ++ [(ck_id row, u)])
            (bills s) (orders s) (trades s) (channels s) (channel_subs s))
      Done
| claim_exhausted row :
    find (ck_has_token token) (checks s) = Some row ->
    ck_active row = true ->
    existsb (has_claim (ck_id row) u) (check_claims s) = false ->
    (ck_max_claims row <= ck_claimed_count row)%Z ->
    claim_outcome token u s
      (set_checks (update_where (ck_has_token token) set_finished) s)
      (Failed Exhausted)
| claim_refused why :
    why <> Exhausted ->
    (forall row, find (ck_has_token token) (checks s) = Some row ->
       why = AlreadyClaimed ->
       existsb (has_claim (ck_id row) u) (check_claims s) = true) ->
    claim_outcome token u s s (Failed why).

(** The row of a check after a paid claim on its token. *)
Definition after_claim (row : check) : check :=
  let r := set_claimed (ck_claimed_count row + 1) row in
  if (ck_max_claims row <=? ck_claimed_count row + 1)%Z then set_finished r else r.

(** A run of claim calls, each with its token, claimant and password. *)
Definition claim_call : Type := (string * Z * option string)%type.

Fixpoint run_claims (calls : list claim_call) (s : db) : db * list reply :=
  match calls with
  | [] => (s, [])
  | (token, user_id, password) :: rest =>
    let (s1, r) := claim_check_by_token token user_id password s in
    let (s2, rs) := run_claims rest s1 in
    (s2, r :: rs)
  end.

(** Number of the calls picked by [sel] that succeeded. *)
Fixpoint count_done (sel : claim_call -> bool) (calls : list claim_call)
    (rs : list reply) : nat :=
  match calls, rs with
  | c :: cs, r :: rs' =>
    ((if sel c && is_done r then 1 else 0) + count_done sel cs rs')%nat
  | _, _ => O
  end.

Definition on_token (token : string) (c : claim_call) : bool :=
  (fst (fst c) =? token)%string.

Definition on_token_by (token : string) (user_id : Z) (c : claim_call) : bool :=
  on_token token c && (snd (fst c) =? user_id)%Z.

(** ** Bills *)

Definition bl_active (b : bill) : bool :=
  match bl_status b with BlActive => true | _ => false end.

Definition bl_has_token (token : string) (b : bill) : bool :=
  (bl_token b =? token)%string.

Definition create_bill_uwt_by_token (bill_id token : string) (creator_id : Z)
    (amount : Q) (s : db) : db * reply :=
  if Qleb amount 0 then (s, Failed BadAmount)
  else if existsb
            (fun b => (bl_id b =? bill_id)%string || bl_has_token token b)
            (bills s)
  then (s, Raised)
  else
    (set_bills
       (fun bs => bs ++ [mkBill bill_id token creator_id amount BlActive None])
       s,
     Done).

(** [UPDATE bills_uwt SET status='paid', paid_by_tg_id=?]. *)
Definition paid_by (payer_id : Z) (b : bill) : bill :=
  mkBill (bl_id b) (bl_token b) (bl_creator b) (bl_amount b) BlPaid
    (Some payer_id).

Definition pay_bill_by_token (token : string) (payer_id : Z) (s : db)
    : db * reply :=
  match find (bl_has_token token) (bills s) with
  | None => (s, Failed NotFound)
  | Some b =>
    if negb (bl_active b) then (s, Failed Unavailable)
    else
      let creator := bl_creator b in
      if (creator =? payer_id)%Z then (s, Failed SelfPay)
      else
        let amount := bl_amount b in
        if Qltb (fst (get_balances payer_id (users s)) + eps) amount
        then (s, Failed Insufficient)
        else
          let p := fun r => bl_has_token token r && bl_active r in
          if negb (rowcount p (bills s) =? 1)%nat then (s, Failed LostRace)
          else
            let s1 :=
              set_bills
                (update_where p (paid_by payer_id)) s in
            let s2 := set_users (upd_uwt (- amount) payer_id) s1 in
            let s3 := set_users (upd_uwt amount creator) s2 in
            (log creator "UWT" amount "bill_receive"
               (log payer_id "UWT" (- amount) "bill_pay" s3),
             Done)
  end.

(** A run of [pay] calls on one bill, one payer per call. *)
Fixpoint run_pays (token : string) (payers : list Z) (s : db)
    : db * list reply :=
  match payers with
  | [] => (s, [])
  | p :: rest =>
    let (s1, r) := pay_bill_by_token token p s in
    let (s2, rs) := run_pays token rest s1 in
    (s2, r :: rs)
  end.

(** ** Order book *)

Definition or_open (o : order) : bool :=
  match or_status o with OrOpen => true | _ => false end.

Definition or_buy (o : order) : bool :=
  match or_side o with Buy => true | Sell => false end.

Definition or_sell (o : order) : bool := negb (or_buy o).

Definition or_is (id : string) (o : order) : bool := (or_id o =? id)%string.

Definition parse_side (sd : string) : option side :=
  let sd := lower sd in
  if (sd =? "buy")%string then Some Buy
  else if (sd =? "sell")%string then Some Sell
  else None.

(** [_order_lock_funds]; a missing row and a short balance both end in an
    exception that [place_order] catches. *)
Definition order_lock_funds (uid : Z) (sd : side) (price amount : Q) (s : db)
    : db + failure :=
  match find_user uid (users s) with
  | None => inr StoreError
  | Some r =>
    match sd with
    | Buy =>
      let cost := price * amount in
      if Qltb (rub r + eps) cost then inr Insufficient
      else inl (log uid "RUB" (- cost) "order_lock"
                  (set_users (upd_rub (- cost) uid) s))
    | Sell =>
      if Qltb (uwt r + eps) amount then inr Insufficient
      else inl (log uid "UWT" (- amount) "order_lock"
                  (set_users (upd_uwt (- amount) uid) s))
    end
  end.

Definition buy_before (o b : order) : bool :=
  Qltb (or_price b) (or_price o)
  || (Qeq_bool (or_price o) (or_price b) && (or_created o <? or_created b)%Z).

Definition sell_before (o b : order) : bool :=
  Qltb (or_price o) (or_price b)
  || (Qeq_bool (or_price o) (or_price b) && (or_created o <? or_created b)%Z).

Fixpoint insert_by (before : order -> order -> bool) (o : order)
    (l : list order) : list order :=
  match l with
  | [] => [o]
  | b :: r => if before o b then o :: b :: r else b :: insert_by before o r
  end.

(** [ORDER BY]: rows that tie on every sort key stay in rowid order. *)
Definition sort_by (before : order -> order -> bool) (l : list order)
    : list order :=
  fold_left (fun acc o => insert_by before o acc) l [].

(** [refresh_order]. *)
Definition refresh_order (oid : string) (s : db) : option order :=
  find (or_is oid) (orders s).

Definition sub_remaining (q : Q) (o : order) : order :=
  mkOrder (or_id o) (or_user o) (or_side o) (or_price o) (or_amount o)
    (or_remaining o - q) (or_status o) (or_created o).

Definition set_filled (o : order) : order :=
  mkOrder (or_id o) (or_user o) (or_side o) (or_price o) (or_amount o)
    0 OrFilled (or_created o).

(** The settlement of one trade between the buy row [b] as the outer loop
    holds it and the refreshed sell row [sr]. *)
Definition settle (b sr : order) (qty : Q) (s : db) : db :=
  let buy_price := or_price b in
  let trade_price := or_price sr in
  let buy_uid := or_user b in
  let sell_uid := or_user sr in
  let rub_amount := qty * trade_price in
  let s1 := set_users (upd_uwt qty buy_uid) s in
  let s2 := set_users (upd_rub rub_amount sell_uid) s1 in
  let s3 := log buy_uid "UWT" qty "trade_buy" s2 in
  let s4 := log sell_uid "RUB" rub_amount "trade_sell" s3 in
  let s5 := set_orders (update_where (or_is (or_id b)) (sub_remaining qty)) s4 in
  let s6 := set_orders (update_where (or_is (or_id sr)) (sub_remaining qty)) s5 in
  let s7 := set_trades
              (fun ts => ts ++ [mkTrade (or_id b) (or_id sr) trade_price qty])
              s6 in
  let b2 := refresh_order (or_id b) s7 in
  let s2' := refresh_order (or_id sr) s7 in
  let s8 :=
    match b2 with
    | Some b2 =>
      if Qleb (or_remaining b2) eps then
        let s8a := set_orders (update_where (or_is (or_id b)) set_filled) s7 in
        let diff := (buy_price - trade_price) * qty in
        if Qltb eps diff
        then log buy_uid "RUB" diff "order_price_refund"
               (set_users (upd_rub diff buy_uid) s8a)
        else s8a
      else s7
    | None => s7
    end in
  match s2' with
  | Some s2' =>
    if Qleb (or_remaining s2') eps
    then set_orders (update_where (or_is (or_id sr)) set_filled) s8
    else s8
  | None => s8
  end.

(** The inner [for s in sells] loop; [b] is the row read once by the outer
    loop and is not read again while the sells are walked. *)
Fixpoint match_sells (b : order) (sells : list order) (s : db) : db :=
  match sells with
  | [] => s
  | s0 :: rest =>
    match refresh_order (or_id s0) s with
    | None => match_sells b rest s
    | Some sr =>
      if negb (or_open sr) || Qleb (or_remaining sr) eps
      then match_sells b rest s
      else if Qltb (or_price b + eps) (or_price sr) then s      (* break *)
      else
        let qty := py_min (or_remaining b) (or_remaining sr) in
        if Qleb qty eps then match_sells b rest s
        else match_sells b rest (settle b sr qty s)
    end
  end.

(** The outer [for b in buys] loop. *)
Fixpoint match_buys (buys sells : list order) (s : db) : db :=
  match buys with
  | [] => s
  | b0 :: rest =>
    match refresh_order (or_id b0) s with
    | None => match_buys rest sells s
    | Some b =>
      if negb (or_open b) || Qleb (or_remaining b) eps
      then match_buys rest sells s
      else match_buys rest sells (match_sells b sells s)
    end
  end.

Definition match_orders (s : db) : db :=
  let buys :=
    sort_by buy_before (filter (fun o => or_open o && or_buy o) (orders s)) in
  let sells :=
    sort_by sell_before (filter (fun o => or_open o && or_sell o) (orders s)) in
  match_buys buys sells s.

Definition place_order (oid : string) (uid : Z) (sd : string)
    (price amount : Q) (now : datetime) (s : db) : db * reply :=
  match parse_side sd with
  | None => (s, Failed BadSide)
  | Some side =>
    if Qleb price 0 || Qleb amount 0 then (s, Failed BadAmount)
    else
      match order_lock_funds uid side price amount s with
      | inr why => (s, Failed why)
      | inl s1 =>
        if existsb (or_is oid) (orders s1) then (s, Failed StoreError)
        else
          let s2 :=
            set_orders
              (fun os => os ++ [mkOrder oid uid side price amount amount
                                  OrOpen (now - now mod second_us)%Z]) s1 in
          (match_orders s2, Done)
      end
  end.

(** ** Channel subscriptions *)

Definition ch_is (id : Z) (c : channel) : bool := (ch_id c =? id)%Z.

Definition cs_is (channel_id user_id : Z) (r : channel_sub) : bool :=
  (cs_channel r =? channel_id)%Z && (cs_user r =? user_id)%Z.

Definition sub_upsert (channel_id user_id : Z) (e : text_ts) (s : db) : db :=
  set_channel_subs
    (fun l =>
       if existsb (cs_is channel_id user_id) l
       then update_where (cs_is channel_id user_id)
              (fun r => mkSub (cs_channel r) (cs_user r) e) l
       else l ++ [mkSub channel_id user_id e])
    s.

(** [SELECT expires_at .. WHERE channel_id=? AND user_tg_id=?]. *)
Definition sub_get (channel_id user_id : Z) (s : db) : option channel_sub :=
  find (cs_is channel_id user_id) (channel_subs s).

(** The expiry a grant row holds, when the text parses. *)
Definition grant_expiry (channel_id user_id : Z) (s : db) : option datetime :=
  match sub_get channel_id user_id s with
  | Some row => fromisoformat (cs_expires row)
  | None => None
  end.

(** The handler [ch_sub]: payment, then the grant. *)
Definition ch_sub (cid user_id : Z) (now : datetime) (s : db) : db * reply :=
  match find (ch_is cid) (channels s) with
  | None => (s, Failed NotFound)
  | Some c =>
    let price := ch_price c in
    if Qltb (fst (get_balances user_id (users s)) + eps) price
    then (s, Failed Insufficient)
    else
      let owner := ch_owner c in
      let s1 := set_users (upd_uwt (- price) user_id) s in
      let s2 := set_users (upd_uwt price owner) s1 in
      let s3 := log user_id "UWT" (- price) "channel_sub_pay" s2 in
      let s4 := log owner "UWT" price "channel_sub_recv" s3 in
      let expires := iso (now + timedelta_days 30)%Z in
      (sub_upsert cid user_id expires s4, Done)
  end.

(** ** Cancelling an order *)

Definition set_cancelled (o : order) : order :=
  mkOrder (or_id o) (or_user o) (or_side o) (or_price o) (or_amount o)
    (or_remaining o) OrCancelled (or_created o).

(** [_order_refund]. *)
Definition order_refund (uid : Z) (sd : side) (price remaining : Q) (s : db)
    : db :=
  if Qleb remaining 0 then s
  else
    match sd with
    | Buy =>
      let refund := price * remaining in
      log uid "RUB" refund "order_refund"
        (set_users (upd_rub refund uid) s)
    | Sell =>
      log uid "UWT" remaining "order_refund"
        (set_users (upd_uwt remaining uid) s)
    end.

(** [cancel_order]: the owner is checked before the status; an [UPDATE]
    that does not hit exactly one row is rolled back. *)
Definition cancel_order (uid : Z) (oid : string) (s : db) : db * reply :=
  match find (or_is oid) (orders s) with
  | None => (s, Failed NotFound)
  | Some o =>
    if negb (or_user o =? uid)%Z then (s, Failed NotOwner)
    else if negb (or_open o) then (s, Failed Unavailable)
    else
      let hit := fun r => or_is oid r && or_open r in
      if negb (rowcount hit (orders s) =? 1)%nat
      then (s, Failed StoreError)                  (* rollback *)
      else
        (order_refund uid (or_side o) (or_price o) (or_remaining o)
           (set_orders (update_where hit set_cancelled) s),
         Done)
  end.

End WithHash.

End Main3.

(** * Scenarios the statements are evaluated on *)

Module Scenario.

#[local] Open Scope string_scope.

Definition day : Z := timedelta_days 1.

(** [main3.py]: a subscriber with 10 UWT, a channel owner, a channel at
    5 UWT per period. *)
Definition channel_db : Main3.db :=
  Main3.mkDb [mkUser 1 "sub" 10 0; mkUser 2 "owner" 0 0] [] [] [] [] [] []
    [Main3.mkChannel 1 2 (-1001)%Z 5] [].

(** [main.py]: three giveaways of account 1; [G1] has two participants,
    [G2] carries an [end_at] that is not ISO text, [G3] has nobody. *)
Definition giveaway_db : Main.db :=
  Main.mkDb
    [mkUser 1 "creator" 0 0; mkUser 2 "ann" 0 0; mkUser 3 "bob" 0 0]
    [] 10 [] [] [] [] []
    [Main.mkGiveaway "G1" 1 50 Main.GwActive (IsoText 100000000%Z) None;
     Main.mkGiveaway "G2" 1 30 Main.GwActive (NotIso "soon") None;
     Main.mkGiveaway "G3" 1 20 Main.GwActive (IsoText 100000000%Z) None]
    [("G1", 2%Z); ("G1", 3%Z)] [] [].

Definition G1 : Main.giveaway :=
  Main.mkGiveaway "G1" 1 50 Main.GwActive (IsoText 100000000%Z) None.

Definition G2 : Main.giveaway :=
  Main.mkGiveaway "G2" 1 30 Main.GwActive (NotIso "soon") None.

(** The reference scenario of the specification: a buyer holding 200 RUB,
    a seller holding 20 UWT, an empty book; a buy of 10 at 12 and a sell
    of 6 at 10, placed five seconds apart in either order. *)
Definition book_db : Main.db :=
  Main.mkDb [mkUser 1 "buyer" 0 200; mkUser 2 "seller" 20 0]
    [] 10 [] [] [] [] [] [] [] [] [].

Definition buy_then_sell : Main.db :=
  fst (Main.place_order "S" 2 "sell" 10 6 5000000%Z
         (fst (Main.place_order "B" 1 "buy" 12 10 0%Z book_db))).

Definition sell_then_buy : Main.db :=
  fst (Main.place_order "B" 1 "buy" 12 10 5000000%Z
         (fst (Main.place_order "S" 2 "sell" 10 6 0%Z book_db))).

Definition book3_db : Main3.db :=
  Main3.mkDb [mkUser 1 "buyer" 0 200; mkUser 2 "seller" 20 0]
    [] [] [] [] [] [] [] [].

Definition buy_then_sell3 : Main3.db :=
  fst (Main3.place_order "S" 2 "sell" 10 6 5000000%Z
         (fst (Main3.place_order "B" 1 "buy" 12 10 0%Z book3_db))).

Definition sell_then_buy3 : Main3.db :=
  fst (Main3.place_order "B" 1 "buy" 12 10 5000000%Z
         (fst (Main3.place_order "S" 2 "sell" 10 6 0%Z book3_db))).

(** [main3.py]: a check of 10 UWT, 5 per claim, two claims, no password. *)
Definition voucher : Main3.check :=
  Main3.mkCheck "c1" "tok" 1 10 5 2 0 None Main3.CkActive.

Definition check_db : Main3.db :=
  Main3.mkDb [mkUser 1 "creator" 0 0; mkUser 2 "ann" 0 0; mkUser 3 "bob" 0 0]
    [] [voucher] [] [] [] [] [] [].

(** A bill of 1e-12 UWT of account 1, and a payer (account 2) who holds
    nothing; the same bill in [main.py] for 5 UWT. *)
Definition dust_bill_db : Main3.db :=
  Main3.mkDb [mkUser 1 "creator" 0 0; mkUser 2 "payer" 0 0] [] [] []
    [Main3.mkBill "b1" "tok" 1 eps Main3.BlActive None] [] [] [] [].

Definition bill_db : Main.db :=
  Main.mkDb [mkUser 1 "creator" 0 0; mkUser 2 "payer" 7 0] [] 10 []
    [Main.mkBill "b1" 1 5 Main.BlActive None] [] [] [] [] [] [] [].

Definition bill3_db : Main3.db :=
  Main3.mkDb [mkUser 1 "creator" 0 0; mkUser 2 "payer" 7 0] [] [] []
    [Main3.mkBill "b1" "tok" 1 5 Main3.BlActive None] [] [] [] [].

(** RUB logged for account [id] under the kind [k]. *)
Definition logged_rub (k : string) (id : Z) (l : list tx_row) : Q :=
  logged (fun t => (tx_kind t =? k) && (tx_user t =? id)%Z) "RUB" l.

(** The runs below set no password on a check, so the hash is never
    called; it stands for [hashlib.sha256]. *)
Definition no_hash (p : string) : string := p.

(** [main.py], from the empty database: [ann] registers, the
    administrator credits her 100 RUB, she buys UWT for all of it at the
    default rate. *)
Definition funded : Main.db :=
  Main.exec no_hash (Main.OpAdmBal "ann" "RUB" 100)
    (Main.exec no_hash (Main.OpEnsureUser 1 "ann") Main.init_db).

Definition exchange_run : Main.db :=
  Main.exec no_hash (Main.OpExchangeBuy 1 100) funded.

(** [ann] holds 2 RUB and [bob] 2 UWT; she bids for 1 UWT at 1 RUB, he
    offers [1 + 5e-13] UWT at 1 RUB. *)
Definition traders : Main.db :=
  Main.exec no_hash (Main.OpAdmBal "bob" "UWT" 2)
    (Main.exec no_hash (Main.OpAdmBal "ann" "RUB" 2)
       (Main.exec no_hash (Main.OpEnsureUser 2 "bob")
          (Main.exec no_hash (Main.OpEnsureUser 1 "ann") Main.init_db))).

Definition dust_run : Main.db :=
  Main.exec no_hash
    (Main.OpPlaceOrder "S" 2 "sell" 1 (1 + (1 # 2000000000000)) 5000000%Z)
    (Main.exec no_hash (Main.OpPlaceOrder "B" 1 "buy" 1 1 0%Z) traders).

(** [ann] is credited 5 UWT and writes a check for them; the check is
    claimed for account 9, which has no row. *)
Definition check_written : Main.db :=
  Main.exec no_hash (Main.OpCreateCheck "c" 1 5 None)
    (Main.exec no_hash (Main.OpAdmBal "ann" "UWT" 5)
       (Main.exec no_hash (Main.OpEnsureUser 1 "ann") Main.init_db)).

Definition stray_claim : Main.op := Main.OpClaimCheck "c" 9 None.

(** [ann] registers and the administrator types [-5] for her UWT. *)
Definition registered_db : Main.db :=
  Main.exec no_hash (Main.OpEnsureUser 1 "ann") Main.init_db.

Definition overdraft : Main.op := Main.OpAdmBal "ann" "UWT" (-5).

(** The buyer and the seller of [book_db] with a bid of 10 UWT at 9 and
    an offer of 6 UWT at 10: the two do not meet. *)
Definition bid9 : Main.order :=
  Main.mkOrder "B" 1 Main.Buy 9 10 Main.OrOpen 0%Z.

Definition ask10 : Main.order :=
  Main.mkOrder "S" 2 Main.Sell 10 6 Main.OrOpen 5000000%Z.

Definition quiet_book : Main.db :=
  fst (Main.place_order "S" 2 "sell" 10 6 5000000%Z
         (fst (Main.place_order "B" 1 "buy" 9 10 0%Z book_db))).

(** [main.py]: a check of 5 UWT written by account 1 under the password
    [pw], whose hash [no_hash] leaves as it is; accounts 2 and 3. *)
Definition locked_check_db : Main.db :=
  Main.mkDb [mkUser 1 "creator" 0 0; mkUser 2 "ann" 0 0; mkUser 3 "bob" 0 0]
    [] 10 [Main.mkCheck "c1" 1 5 (Some "pw") Main.CkActive None]
    [] [] [] [] [] [] [] [].

(** [main.py]: account 1 holds 8 UWT; accounts 2 and 3 hold nothing. *)
Definition purse_db : Main.db :=
  Main.mkDb [mkUser 1 "creator" 8 0; mkUser 2 "ann" 0 0; mkUser 3 "bob" 0 0]
    [] 10 [] [] [] [] [] [] [] [] [].

(** [main.py]: a pending deposit of 70 RUB of account 2. *)
Definition deposit_db : Main.db :=
  Main.mkDb [mkUser 1 "creator" 0 0; mkUser 2 "ann" 0 0]
    [] 10 [] [] [Main.mkDeposit "d1" 2 70 Main.DpPending None]
    [] [] [] [] [] [].

(** [main.py]: a subscriber with 10 UWT, a channel owner, a channel at
    5 UWT per month. *)
Definition market_db : Main.db :=
  Main.mkDb [mkUser 1 "sub" 10 0; mkUser 2 "owner" 0 0] [] 10 [] [] [] [] []
    [] [] [Main.mkChannel 1 2 (-1001)%Z 5] [].

(** The same with two grants on the channel: account 1 until day 30,
    account 3 until day 5. *)
Definition subs_db : Main.db :=
  Main.mkDb [mkUser 1 "sub" 10 0; mkUser 2 "owner" 0 0] [] 10 [] [] [] [] []
    [] [] [Main.mkChannel 1 2 (-1001)%Z 5]
    [Main.mkSub 1 1 (IsoText (30 * day)%Z); Main.mkSub 1 3 (IsoText (5 * day)%Z)].

(** [main3.py]: [ann] holds 10 UWT and 50 RUB, [bob] nothing; no check,
    no order. *)
Definition purse3_db : Main3.db :=
  Main3.mkDb [mkUser 1 "ann" 10 50; mkUser 2 "bob" 0 0] [] [] [] [] [] [] [] [].

(** [main3.py]: the buyer's bid for 10 UWT at 12 RUB rests on the book. *)
Definition bid3 : Main3.order :=
  Main3.mkOrder "B" 1 Main3.Buy 12 10 10 Main3.OrOpen 0%Z.

Definition bid3_book : Main3.db :=
  fst (Main3.place_order "B" 1 "buy" 12 10 0%Z book3_db).

(** [main.py]: the creator is credited 50 UWT and opens a giveaway of one
    minute for them; then id 9, which holds no account row, joins. *)
Definition giveaway_open : Main.db :=
  Main.exec no_hash (Main.OpCreateGiveaway "G9" 1 50 1 0%Z)
    (Main.exec no_hash (Main.OpAdmBal "creator" "UWT" 50)
       (Main.exec no_hash (Main.OpEnsureUser 1 "creator") Main.init_db)).

Definition stray_giveaway : Main.db :=
  Main.exec no_hash (Main.OpJoinGiveaway "G9" 9) giveaway_open.

Definition G9 : Main.giveaway :=
  Main.mkGiveaway "G9" 1 50 Main.GwActive (IsoText 60000000%Z) None.

End Scenario.

(** * Facts shared by the proofs *)

(** ** Comparisons *)

Lemma Qltb_true (a b : Q) : Qltb a b = true <-> a < b.
Proof.
  unfold Qltb. rewrite negb_true_iff. split; intro H.
  - destruct (Qlt_le_dec a b) as [L | L]; [exact L |].
    apply Qle_bool_iff in L. congruence.
  - destruct (Qle_bool b a) eqn:E; [| reflexivity].
    apply Qle_bool_iff in E. lra.
Qed.

Lemma Qltb_false (a b : Q) : Qltb a b = false <-> b <= a.
Proof.
  unfold Qltb. rewrite negb_false_iff. apply Qle_bool_iff.
Qed.

Lemma Qleb_true (a b : Q) : Qleb a b = true <-> a <= b.
Proof. apply Qle_bool_iff. Qed.

Lemma Qleb_false (a b : Q) : Qleb a b = false <-> b < a.
Proof.
  unfold Qleb. split; intro H.
  - destruct (Qlt_le_dec b a) as [L | L]; [exact L |].
    apply Qle_bool_iff in L. congruence.
  - destruct (Qle_bool a b) eqn:E; [| reflexivity].
    apply Qle_bool_iff in E. lra.
Qed.

Lemma eps_pos : 0 < eps.
Proof. reflexivity. Qed.

Lemma py_min_l (a b : Q) : py_min a b <= a.
Proof.
  unfold py_min. destruct (Qltb b a) eqn:E.
  - apply Qltb_true in E. lra.
  - lra.
Qed.

Lemma py_min_r (a b : Q) : py_min a b <= b.
Proof.
  unfold py_min. destruct (Qltb b a) eqn:E.
  - lra.
  - apply Qltb_false in E. exact E.
Qed.

Lemma py_min_or (a b : Q) : py_min a b = a \/ py_min a b = b.
Proof. unfold py_min. destruct (Qltb b a); auto. Qed.

Lemma py_min_pos (a b : Q) : 0 < a -> 0 < b -> 0 < py_min a b.
Proof. intros. destruct (py_min_or a b) as [-> | ->]; assumption. Qed.

(** Turns the boolean tests of the code into (in)equalities. *)
Ltac qtests :=
  repeat match goal with
  | H : Qltb _ _ = true |- _ => apply Qltb_true in H
  | H : Qltb _ _ = false |- _ => apply Qltb_false in H
  | H : Qleb _ _ = true |- _ => apply Qleb_true in H
  | H : Qleb _ _ = false |- _ => apply Qleb_false in H
  | H : Qeq_bool _ _ = true |- _ => apply Qeq_bool_iff in H
  | H : Qeq_bool _ _ = false |- _ => apply Qeq_bool_neq in H
  end.

(** ** Tables *)

Section TableFacts.
Context {R : Type}.
Implicit Types (f h : R -> Q) (p : R -> bool) (g : R -> R) (l : list R).

Lemma total_app f l1 l2 : total f (l1 ++ l2) == total f l1 + total f l2.
Proof.
  induction l1 as [| r l1 IH]; simpl.
  - lra.
  - rewrite IH. lra.
Qed.

Lemma total_snoc f l r : total f (l ++ [r]) == total f l + f r.
Proof. rewrite total_app. simpl. lra. Qed.

Lemma total_ext f h l :
  (forall r, In r l -> f r == h r) -> total f l == total h l.
Proof.
  induction l as [| r l IH]; simpl; intro E.
  - reflexivity.
  - rewrite IH by auto. rewrite (E r) by auto. reflexivity.
Qed.

Lemma total_zero f l : (forall r, In r l -> f r == 0) -> total f l == 0.
Proof.
  induction l as [| r l IH]; simpl; intro E.
  - reflexivity.
  - rewrite IH by auto. rewrite (E r) by auto. lra.
Qed.

Lemma total_nonneg f l : (forall r, In r l -> 0 <= f r) -> 0 <= total f l.
Proof.
  induction l as [| r l IH]; simpl; intro E.
  - lra.
  - assert (0 <= f r) by auto. assert (0 <= total f l) by auto. lra.
Qed.

Lemma total_le f h l :
  (forall r, In r l -> f r <= h r) -> total f l <= total h l.
Proof.
  induction l as [| r l IH]; simpl; intro E.
  - lra.
  - assert (f r <= h r) by auto. assert (total f l <= total h l) by auto. lra.
Qed.

Lemma total_update_where f p g l :
  total f (update_where p g l)
  == total f l + total (fun r => if p r then f (g r) - f r else 0) l.
Proof.
  induction l as [| r l IH]; simpl.
  - lra.
  - fold (update_where p g l). rewrite IH.
    destruct (p r); lra.
Qed.

Lemma update_where_id p g l :
  (forall r, In r l -> p r = false) -> update_where p g l = l.
Proof.
  induction l as [| r l IH]; simpl; intro E.
  - reflexivity.
  - rewrite (E r) by auto. f_equal. apply IH. auto.
Qed.

Lemma Forall_update_where (P : R -> Prop) p g l :
  Forall P l -> (forall r, In r l -> P r -> p r = true -> P (g r)) ->
  Forall P (update_where p g l).
Proof.
  intros HP Hg. unfold update_where. apply Forall_map.
  rewrite Forall_forall in *. intros r Hr.
  destruct (p r) eqn:E; auto.
Qed.

Lemma map_update_where {K : Type} (key : R -> K) p g l :
  (forall r, key (g r) = key r) ->
  map key (update_where p g l) = map key l.
Proof.
  intro E. unfold update_where. rewrite map_map. apply map_ext.
  intro r. destruct (p r); auto.
Qed.

Lemma In_update_where p g l r :
  In r (update_where p g l) ->
  exists r0, In r0 l /\ r = (if p r0 then g r0 else r0).
Proof.
  unfold update_where. rewrite in_map_iff.
  intros [r0 [E H]]. exists r0. auto.
Qed.

Lemma rowcount_zero p l :
  (forall r, In r l -> p r = false) -> rowcount p l = O.
Proof.
  unfold rowcount. induction l as [| r l IH]; simpl; intro E.
  - reflexivity.
  - rewrite (E r) by auto. apply IH. auto.
Qed.

Lemma existsb_false_forall p l :
  existsb p l = false -> forall r, In r l -> p r = false.
Proof.
  intros E r Hr. destruct (p r) eqn:Pr; [| reflexivity].
  assert (existsb p l = true) by (apply existsb_exists; eauto).
  congruence.
Qed.

Lemma find_none_forall p l :
  find p l = None -> forall r, In r l -> p r = false.
Proof. intros E r Hr. exact (find_none p l E r Hr). Qed.

Lemma find_app_none p l r :
  find p l = None -> find p (l ++ [r]) = (if p r then Some r else None).
Proof.
  induction l as [| a l IH]; simpl; intro E.
  - reflexivity.
  - destruct (p a); [discriminate | auto].
Qed.

Lemma find_app_some p l l' r :
  find p l = Some r -> find p (l ++ l') = Some r.
Proof.
  induction l as [| a l IH]; simpl; intro E.
  - discriminate.
  - destruct (p a); auto.
Qed.
End TableFacts.

(** Rows addressed by a unique key. *)
Section Keyed.
Context {R K : Type} (key : R -> K) (isk : K -> R -> bool).
Hypothesis is_spec : forall k r, isk k r = true <-> key r = k.
Implicit Types (l : list R) (d : R -> Q).

Lemma keyed_not_in k l r :
  ~ In k (map key l) -> In r l -> isk k r = false.
Proof.
  intros N Hr. destruct (isk k r) eqn:E; [| reflexivity].
  apply is_spec in E. exfalso. apply N. rewrite <- E. apply in_map. exact Hr.
Qed.

Lemma keyed_total k l d r :
  NoDup (map key l) -> find (isk k) l = Some r ->
  total (fun x => if isk k x then d x else 0) l == d r.
Proof.
  induction l as [| a l IH]; simpl; intros N F.
  - discriminate.
  - inversion N as [| ? ? Na Nl]; subst.
    destruct (isk k a) eqn:E.
    + injection F as ->.
      apply is_spec in E. subst k.
      rewrite total_zero.
      * lra.
      * intros x Hx. rewrite (keyed_not_in _ _ _ Na Hx). reflexivity.
    + rewrite IH by assumption. lra.
Qed.

Lemma keyed_total_none k l d :
  find (isk k) l = None ->
  total (fun x => if isk k x then d x else 0) l == 0.
Proof.
  intro F. apply total_zero. intros x Hx.
  rewrite (find_none _ _ F x Hx). reflexivity.
Qed.

Lemma keyed_filter_nil k l (c : R -> bool) :
  ~ In k (map key l) -> filter (fun x => isk k x && c x) l = [].
Proof.
  intro N. induction l as [| b l IH]; simpl; [reflexivity |].
  rewrite (keyed_not_in k (b :: l) b N) by (simpl; auto).
  simpl. apply IH. intro H. apply N. simpl. auto.
Qed.

Lemma keyed_rowcount k l (c : R -> bool) r :
  NoDup (map key l) -> find (isk k) l = Some r ->
  rowcount (fun x => isk k x && c x) l = (if c r then 1%nat else 0%nat).
Proof.
  unfold rowcount.
  induction l as [| a l IH]; simpl; intros N F.
  - discriminate.
  - inversion N as [| ? ? Na Nl]; subst.
    destruct (isk k a) eqn:E; simpl.
    + injection F as ->. apply is_spec in E. subst k.
      rewrite (keyed_filter_nil _ _ c Na).
      destruct (c r); reflexivity.
    + apply IH; assumption.
Qed.

Lemma keyed_find_in k l r : find (isk k) l = Some r -> In r l /\ key r = k.
Proof.
  intro F. apply find_some in F. destruct F as [I E].
  split; [exact I | apply is_spec; exact E].
Qed.

Lemma keyed_unique l r r' :
  NoDup (map key l) -> In r l -> In r' l -> key r = key r' -> r = r'.
Proof.
  induction l as [| a l IH]; simpl; intros N I I' E.
  - contradiction.
  - inversion N as [| ? ? Na Nl]; subst.
    destruct I as [-> | I], I' as [-> | I'].
    + reflexivity.
    + exfalso. apply Na. rewrite E. apply in_map. exact I'.
    + exfalso. apply Na. rewrite <- E. apply in_map. exact I.
    + auto.
Qed.

Lemma keyed_find_update k l (p : R -> bool) (g : R -> R) r :
  (forall x, key (g x) = key x) ->
  find (isk k) l = Some r ->
  find (isk k) (update_where p g l) = Some (if p r then g r else r).
Proof.
  intros Hg. induction l as [| a l IH]; simpl; intro F.
  - discriminate.
  - destruct (isk k a) eqn:E.
    + injection F as ->.
      assert (isk k (if p r then g r else r) = true) as ->.
      { destruct (p r); [| exact E].
        apply is_spec. rewrite Hg. apply is_spec. exact E. }
      reflexivity.
    + assert (isk k (if p a then g a else a) = false) as ->.
      { destruct (p a); [| exact E].
        destruct (isk k (g a)) eqn:E'; [| reflexivity].
        apply is_spec in E'. rewrite Hg in E'. apply is_spec in E'.
        congruence. }
      fold (update_where p g l). auto.
Qed.

Lemma keyed_find_update_none k l (p : R -> bool) (g : R -> R) :
  (forall x, key (g x) = key x) ->
  find (isk k) l = None ->
  find (isk k) (update_where p g l) = None.
Proof.
  intros Hg. induction l as [| a l IH]; simpl; intro F.
  - reflexivity.
  - destruct (isk k a) eqn:E; [discriminate |].
    assert (isk k (if p a then g a else a) = false) as ->.
    { destruct (p a); [| exact E].
      destruct (isk k (g a)) eqn:E'; [| reflexivity].
      apply is_spec in E'. rewrite Hg in E'. apply is_spec in E'.
      congruence. }
    fold (update_where p g l). auto.
Qed.

Lemma keyed_nodup_snoc k l r :
  NoDup (map key l) -> existsb (isk k) l = false -> key r = k ->
  NoDup (map key (l ++ [r])).
Proof.
  intros N E Hk. rewrite map_app. simpl.
  apply NoDup_app; [exact N | repeat constructor; simpl; tauto |].
  intros x Hx [<- | []].
  apply in_map_iff in Hx. destruct Hx as [y [Hy Iy]].
  pose proof (existsb_false_forall _ _ E y Iy) as F.
  assert (isk k y = true) by (apply is_spec; congruence).
  congruence.
Qed.
End Keyed.

(** Projections of a database through the setters. *)
Ltac main_simpl :=
  cbn [fst snd
       Main.users Main.tx Main.rate Main.checks Main.bills Main.deposits
       Main.orders Main.trades Main.giveaways Main.participants Main.channels
       Main.channel_subs
       Main.set_users Main.set_rate Main.set_checks Main.set_bills
       Main.set_deposits Main.set_orders Main.set_trades Main.set_giveaways
       Main.set_participants Main.set_channels Main.set_channel_subs Main.log
       Main.sweep_db Main.sweep_events].

Ltac main_simpl_in H :=
  cbn [fst snd
       Main.users Main.tx Main.rate Main.checks Main.bills Main.deposits
       Main.orders Main.trades Main.giveaways Main.participants Main.channels
       Main.channel_subs
       Main.set_users Main.set_rate Main.set_checks Main.set_bills
       Main.set_deposits Main.set_orders Main.set_trades Main.set_giveaways
       Main.set_participants Main.set_channels Main.set_channel_subs Main.log
       Main.sweep_db Main.sweep_events] in H.

Ltac main3_simpl :=
  cbn [fst snd
       Main3.users Main3.tx Main3.checks Main3.check_claims Main3.bills
       Main3.orders Main3.trades Main3.channels Main3.channel_subs
       Main3.set_users Main3.set_checks Main3.set_check_claims Main3.set_bills
       Main3.set_orders Main3.set_trades Main3.set_channel_subs Main3.log].

Ltac main3_simpl_in H :=
  cbn [fst snd
       Main3.users Main3.tx Main3.checks Main3.check_claims Main3.bills
       Main3.orders Main3.trades Main3.channels Main3.channel_subs
       Main3.set_users Main3.set_checks Main3.set_check_claims Main3.set_bills
       Main3.set_orders Main3.set_trades Main3.set_channel_subs Main3.log] in H.

(** * Channel subscriptions: extending a grant *)

Section GrantFacts.

#[local] Open Scope Z_scope.

Lemma find_update_where_same {R : Type} (p : R -> bool) (g : R -> R)
    (l : list R) (r : R) :
  (forall x, p x = true -> p (g x) = true) ->
  find p l = Some r ->
  find p (update_where p g l) = Some (g r).
Proof.
  intros Hg. induction l as [| a l IH]; simpl; intro F.
  - discriminate.
  - destruct (p a) eqn:E.
    + injection F as ->. rewrite (Hg _ E). reflexivity.
    + rewrite E. fold (update_where p g l). auto.
Qed.

Lemma existsb_find_some {R : Type} (p : R -> bool) (l : list R) :
  existsb p l = true -> exists r, find p l = Some r.
Proof.
  induction l as [| a l IH]; simpl; intro E.
  - discriminate.
  - destruct (p a); [eauto | auto].
Qed.

Lemma existsb_find_none {R : Type} (p : R -> bool) (l : list R) :
  existsb p l = false -> find p l = None.
Proof.
  induction l as [| a l IH]; simpl; intro E.
  - reflexivity.
  - destruct (p a); [discriminate | auto].
Qed.

Lemma second_floor_add_days (t d : Z) :
  ((t + timedelta_days d) - (t + timedelta_days d) mod second_us
   = (t - t mod second_us) + timedelta_days d)%Z.
Proof.
  unfold timedelta_days, second_us.
  replace (t + d * 86400 * 1000000)%Z with (t + (d * 86400) * 1000000)%Z by lia.
  rewrite Z.mod_add by lia. lia.
Qed.

Lemma second_floor_bounds (t : Z) :
  (t - second_us < t - t mod second_us <= t)%Z.
Proof.
  unfold second_us.
  pose proof (Z.mod_pos_bound t 1000000 ltac:(lia)). lia.
Qed.

(** [main.py]: the row of the pair after the upsert holds the new text. *)
Lemma main_find_sub_upsert (c u : Z) (e : text_ts) (l : list Main.channel_sub) :
  exists r, find (Main.cs_is c u) (Main.sub_upsert c u e l) = Some r
            /\ Main.cs_expires r = e.
Proof.
  unfold Main.sub_upsert.
  destruct (existsb (Main.cs_is c u) l) eqn:E.
  - destruct (existsb_find_some _ _ E) as [r F].
    exists (Main.mkSub (Main.cs_channel r) (Main.cs_user r) e). split; [| reflexivity].
    apply (find_update_where_same (Main.cs_is c u)
             (fun x => Main.mkSub (Main.cs_channel x) (Main.cs_user x) e) l r);
      [| exact F].
    intros x Hx. exact Hx.
  - exists (Main.mkSub c u e). split; [| reflexivity].
    rewrite find_app_none by (apply existsb_find_none; exact E).
    unfold Main.cs_is. simpl. rewrite !Z.eqb_refl. reflexivity.
Qed.

Lemma main_extend_base_max (c u : Z) (now : datetime) (s : Main.db) :
  Main.extend_base c u now s
  = match Main.grant_expiry c u s with
    | Some e => Z.max now e
    | None => now
    end.
Proof.
  unfold Main.extend_base, Main.grant_expiry.
  destruct (find (Main.cs_is c u) (Main.channel_subs s)) as [row |]; [| reflexivity].
  destruct (fromisoformat (Main.cs_expires row)) as [e |]; [| reflexivity].
  destruct (now <? e)%Z eqn:E.
  - apply Z.ltb_lt in E. lia.
  - apply Z.ltb_ge in E. lia.
Qed.

(** [main.py], any number of periods: the new expiry is the base plus the
    periods, at the whole second the text keeps, and it is later than the
    expiry the grant held and later than [now] less a second. *)
Lemma main_extend_spec (c u n : Z) (now : datetime) (s : Main.db) :
  (1 <= n)%Z ->
  let base := Main.extend_base c u now s in
  let new := ((base - base mod second_us) + timedelta_days (30 * n))%Z in
  snd (Main.channel_sub_extend c u n now s) = IsoText new
  /\ Main.grant_expiry c u (fst (Main.channel_sub_extend c u n now s)) = Some new
  /\ (now - second_us + timedelta_days 30 < new)%Z
  /\ (forall e, Main.grant_expiry c u s = Some e -> (e < new)%Z).
Proof.
  intros Hn base new.
  unfold Main.channel_sub_extend.
  assert (Hm : (if (n <=? 0)%Z then 1%Z else n) = n).
  { destruct (n <=? 0)%Z eqn:E; [apply Z.leb_le in E; lia | reflexivity]. }
  assert (Hiso : iso (base + timedelta_days (30 * n)) = IsoText new).
  { unfold iso, new. rewrite second_floor_add_days. reflexivity. }
  rewrite Hm. fold base. rewrite Hiso. cbn [fst snd].
  assert (Hbase : (now <= base)%Z
                  /\ forall e, Main.grant_expiry c u s = Some e -> (e <= base)%Z).
  { subst base. rewrite main_extend_base_max.
    destruct (Main.grant_expiry c u s) as [e0 |].
    - split; [lia |]. intros e [= <-]. lia.
    - split; [lia |]. intros e [=]. }
  destruct Hbase as [Hnow Hcur].
  pose proof (second_floor_bounds base) as Hfl.
  assert (Hd : (timedelta_days 30 <= timedelta_days (30 * n))%Z)
    by (unfold timedelta_days, second_us; lia).
  assert (Hd30 : (second_us < timedelta_days 30)%Z)
    by (unfold timedelta_days, second_us; lia).
  repeat split.
  - unfold Main.grant_expiry. cbn [Main.channel_subs Main.set_channel_subs].
    destruct (main_find_sub_upsert c u (IsoText new) (Main.channel_subs s))
      as [r [F E]].
    rewrite F, E. reflexivity.
  - unfold new. lia.
  - intros e He. specialize (Hcur e He). unfold new. lia.
Qed.

End GrantFacts.

(** C9 ([main.py], [channel_sub_extend]).  A call with [months <= 0] is the
    call with [months = 1]: same database, same returned text.  The expiry
    it stores is one 30-day period after [max(now, current expiry)], taken
    at the whole second that every stored timestamp has; the call always
    changes the grant, and the new expiry is later than the one held
    before. *)
Theorem C9_nonpositive_months_extend_one_period
    (c u m : Z) (now : datetime) (s : Main.db) :
  (m <= 0)%Z ->
  let base := match Main.grant_expiry c u s with
              | Some e => Z.max now e
              | None => now
              end in
  let new := ((base - base mod second_us) + timedelta_days 30)%Z in
  Main.channel_sub_extend c u m now s = Main.channel_sub_extend c u 1 now s
  /\ snd (Main.channel_sub_extend c u m now s) = iso (base + timedelta_days 30)%Z
  /\ Main.grant_expiry c u (fst (Main.channel_sub_extend c u m now s)) = Some new
  /\ Main.grant_expiry c u (fst (Main.channel_sub_extend c u m now s))
     <> Main.grant_expiry c u s
  /\ (forall e, Main.grant_expiry c u s = Some e -> (e < new)%Z).
Proof.
  intros Hm base new.
  assert (E1 : Main.channel_sub_extend c u m now s
               = Main.channel_sub_extend c u 1 now s).
  { unfold Main.channel_sub_extend.
    assert ((m <=? 0)%Z = true) as -> by (apply Z.leb_le; exact Hm).
    reflexivity. }
  rewrite E1.
  pose proof (main_extend_spec c u 1 now s ltac:(lia)) as H.
  rewrite main_extend_base_max in H. fold base in H.
  change (30 * 1)%Z with 30%Z in H. fold new in H.
  destruct H as [Hs [Hg [_ Hlt]]].
  repeat split.
  - rewrite Hs. unfold iso, new. rewrite second_floor_add_days. reflexivity.
  - exact Hg.
  - rewrite Hg. intro Heq. symmetry in Heq.
    pose proof (Hlt _ Heq) as C. unfold new in C. lia.
  - exact Hlt.
Qed.

Lemma C9_witness :
  (0 <= 0)%Z
  /\ Main.channel_sub_extend 7 42 0 1500000%Z
       (Main.mkDb [] [] 10 [] [] [] [] [] [] [] []
          [Main.mkSub 7 42 (IsoText 9000000%Z)])
     = Main.channel_sub_extend 7 42 1 1500000%Z
         (Main.mkDb [] [] 10 [] [] [] [] [] [] [] []
            [Main.mkSub 7 42 (IsoText 9000000%Z)]).
Proof.
  split; [lia |].
  exact (proj1 (C9_nonpositive_months_extend_one_period 7 42 0 1500000%Z
                  (Main.mkDb [] [] 10 [] [] [] [] [] [] [] []
                     [Main.mkSub 7 42 (IsoText 9000000%Z)])
                  ltac:(lia))).
Defined.

(** [main3.py], [ch_sub]: whatever the grant held, a paid renewal stores
    [now + 30 days] (at the whole second). *)
Lemma main3_ch_sub_expiry (cid u : Z) (now : datetime) (s : Main3.db) :
  snd (Main3.ch_sub cid u now s) = Done ->
  Main3.grant_expiry cid u (fst (Main3.ch_sub cid u now s))
  = Some ((now - now mod second_us) + timedelta_days 30)%Z.
Proof.
  unfold Main3.ch_sub.
  destruct (find (Main3.ch_is cid) (Main3.channels s)) as [c |]; [| discriminate].
  destruct (Qltb _ _); [discriminate |].
  intros _. cbn [fst].
  unfold Main3.grant_expiry, Main3.sub_get, Main3.sub_upsert.
  cbn [Main3.channel_subs Main3.set_channel_subs Main3.log Main3.set_users].
  assert (Hiso : iso (now + timedelta_days 30)%Z
                 = IsoText ((now - now mod second_us) + timedelta_days 30)%Z).
  { unfold iso. rewrite second_floor_add_days. reflexivity. }
  rewrite Hiso.
  destruct (existsb (Main3.cs_is cid u) (Main3.channel_subs s)) eqn:E.
  - destruct (existsb_find_some _ _ E) as [r F].
    rewrite (find_update_where_same (Main3.cs_is cid u)
               (fun x => Main3.mkSub (Main3.cs_channel x) (Main3.cs_user x)
                           (IsoText ((now - now mod second_us)
                                     + timedelta_days 30)%Z))
               (Main3.channel_subs s) r); [reflexivity | | exact F].
    intros x Hx. exact Hx.
  - rewrite find_app_none by (apply existsb_find_none; exact E).
    unfold Main3.cs_is. cbn. rewrite !Z.eqb_refl. reflexivity.
Qed.

(** C7 ([main3.py], [ch_sub]).  A subscriber buys a period at time 0 and
    renews on day 20, ten days before the grant runs out.  The renewal is
    paid in full, and the grant then ends on day 50: [now + 30 days], not
    [max(now, current expiry) + 30 days], which is day 60. *)
Theorem C7_main3_renewal_restarts_from_now :
  let s1 := fst (Main3.ch_sub 1 1 0%Z Scenario.channel_db) in
  let r2 := Main3.ch_sub 1 1 (20 * Scenario.day)%Z s1 in
  Main3.grant_expiry 1 1 s1 = Some (30 * Scenario.day)%Z
  /\ snd r2 = Done
  /\ fst (get_balances 1 (Main3.users (fst r2))) == 0
  /\ Main3.grant_expiry 1 1 (fst r2) = Some (50 * Scenario.day)%Z
  /\ (Z.max (20 * Scenario.day) (30 * Scenario.day) + 30 * Scenario.day
      = 60 * Scenario.day)%Z.
Proof.
  vm_compute. repeat split; reflexivity.
Qed.

(** * Giveaways: the sweep *)

Section AccountFacts.

Lemma has_id_spec (k : Z) (u : user) : has_id k u = true <-> tg_id u = k.
Proof. unfold has_id. apply Z.eqb_eq. Qed.

Lemma ids_upd_uwt d id us : map tg_id (upd_uwt d id us) = map tg_id us.
Proof. apply map_update_where. reflexivity. Qed.

Lemma ids_upd_rub d id us : map tg_id (upd_rub d id us) = map tg_id us.
Proof. apply map_update_where. reflexivity. Qed.

Lemma registered_map id us :
  registered id us = existsb (fun k => (k =? id)%Z) (map tg_id us).
Proof.
  unfold registered, has_id.
  induction us as [| a us IH]; simpl; [reflexivity |].
  rewrite IH. reflexivity.
Qed.

Lemma registered_ids id us us' :
  map tg_id us' = map tg_id us -> registered id us' = registered id us.
Proof. intro E. rewrite !registered_map, E. reflexivity. Qed.

Lemma registered_upd_uwt i d id us :
  registered i (upd_uwt d id us) = registered i us.
Proof. apply registered_ids, ids_upd_uwt. Qed.

Lemma registered_upd_rub i d id us :
  registered i (upd_rub d id us) = registered i us.
Proof. apply registered_ids, ids_upd_rub. Qed.

Lemma registered_find i us :
  registered i us = true <-> exists u, find_user i us = Some u.
Proof.
  unfold registered, find_user. split.
  - apply existsb_find_some.
  - intros [u F]. apply existsb_exists. exists u. apply find_some in F. exact F.
Qed.

Lemma find_user_upd_uwt i d id us :
  find_user i (upd_uwt d id us)
  = option_map
      (fun u => if has_id id u
                then mkUser (tg_id u) (username u) (uwt u + d) (rub u) else u)
      (find_user i us).
Proof.
  unfold find_user, upd_uwt, update_where.
  induction us as [| a us IH]; simpl; [reflexivity |].
  assert (E : has_id i (if has_id id a
                        then mkUser (tg_id a) (username a) (uwt a + d) (rub a)
                        else a) = has_id i a)
    by (destruct (has_id id a); reflexivity).
  rewrite E. destruct (has_id i a); [reflexivity | exact IH].
Qed.

Lemma find_user_upd_rub i d id us :
  find_user i (upd_rub d id us)
  = option_map
      (fun u => if has_id id u
                then mkUser (tg_id u) (username u) (uwt u) (rub u + d) else u)
      (find_user i us).
Proof.
  unfold find_user, upd_rub, update_where.
  induction us as [| a us IH]; simpl; [reflexivity |].
  assert (E : has_id i (if has_id id a
                        then mkUser (tg_id a) (username a) (uwt a) (rub a + d)
                        else a) = has_id i a)
    by (destruct (has_id id a); reflexivity).
  rewrite E. destruct (has_id i a); [reflexivity | exact IH].
Qed.

Lemma find_user_id i us u : find_user i us = Some u -> tg_id u = i.
Proof.
  intro F. apply find_some in F. apply has_id_spec. exact (proj2 F).
Qed.

(** The UWT balance read after a credit of [d] to [id]. *)
Lemma get_uwt_upd_uwt i d id us :
  fst (get_balances i (upd_uwt d id us))
  == fst (get_balances i us)
     + (if (id =? i)%Z && registered i us then d else 0).
Proof.
  unfold get_balances. rewrite find_user_upd_uwt.
  destruct (find_user i us) as [u |] eqn:F; simpl.
  - assert (R : registered i us = true) by (apply registered_find; eauto).
    rewrite R, andb_true_r.
    pose proof (find_user_id _ _ _ F) as Hi.
    unfold has_id. rewrite Hi. rewrite (Z.eqb_sym i id).
    destruct (id =? i)%Z; simpl; lra.
  - assert (R : registered i us = false).
    { destruct (registered i us) eqn:R; [| reflexivity].
      apply registered_find in R. destruct R as [u R]. congruence. }
    rewrite R, andb_false_r. lra.
Qed.

Lemma get_rub_upd_uwt i d id us :
  snd (get_balances i (upd_uwt d id us)) = snd (get_balances i us).
Proof.
  unfold get_balances. rewrite find_user_upd_uwt.
  destruct (find_user i us) as [u |]; simpl; [| reflexivity].
  destruct (has_id id u); reflexivity.
Qed.

Lemma get_rub_upd_rub i d id us :
  snd (get_balances i (upd_rub d id us))
  == snd (get_balances i us)
     + (if (id =? i)%Z && registered i us then d else 0).
Proof.
  unfold get_balances. rewrite find_user_upd_rub.
  destruct (find_user i us) as [u |] eqn:F; simpl.
  - assert (R : registered i us = true) by (apply registered_find; eauto).
    rewrite R, andb_true_r.
    pose proof (find_user_id _ _ _ F) as Hi.
    unfold has_id. rewrite Hi. rewrite (Z.eqb_sym i id).
    destruct (id =? i)%Z; simpl; lra.
  - assert (R : registered i us = false).
    { destruct (registered i us) eqn:R; [| reflexivity].
      apply registered_find in R. destruct R as [u R]. congruence. }
    rewrite R, andb_false_r. lra.
Qed.

Lemma get_uwt_upd_rub i d id us :
  fst (get_balances i (upd_rub d id us)) = fst (get_balances i us).
Proof.
  unfold get_balances. rewrite find_user_upd_rub.
  destruct (find_user i us) as [u |]; simpl; [| reflexivity].
  destruct (has_id id u); reflexivity.
Qed.

End AccountFacts.

Section GiveawayFacts.

Import Main.

Lemma gw_is_spec (k : string) (g : giveaway) : gw_is k g = true <-> gw_id g = k.
Proof. unfold gw_is. apply String.eqb_eq. Qed.

Lemma fold_left_invariant {A B : Type} (f : A -> B -> A) (P : A -> Prop)
    (l : list B) (a : A) :
  P a -> (forall x b, In b l -> P x -> P (f x b)) -> P (fold_left f l a).
Proof.
  revert a. induction l as [| b l IH]; simpl; intros a Pa Step.
  - exact Pa.
  - apply IH; auto.
Qed.

(** One turn of the loop, case by case. *)
Lemma finish_one_eq now rnd s fin k g :
  finish_one now rnd (s, fin, k) g =
  match fromisoformat (gw_end_at g) with
  | None => (s, fin, k)
  | Some t =>
    if (now <? t)%Z then (s, fin, k)
    else
      let ps := participants_of (gw_id g) (participants s) in
      let w := choose_winner (rnd k) ps in
      (set_giveaways (update_where (gw_is (gw_id g)) (finalized w))
         (log (payee w g) "UWT" (gw_amount g)
            (match w with
             | None => "giveaway_refund"
             | Some _ => "giveaway_win"
             end)
            (set_users (upd_uwt (gw_amount g) (payee w g)) s)),
       fin ++ [(gw_id g, w, gw_amount g)],
       match ps with [] => k | _ :: _ => S k end)
  end.
Proof.
  unfold finish_one.
  destruct (fromisoformat (gw_end_at g)) as [t |]; [| reflexivity].
  destruct (now <? t)%Z; [reflexivity |].
  destruct (choose_winner (rnd k) (participants_of (gw_id g) (participants s)));
    reflexivity.
Qed.

Lemma choose_winner_spec draw ps :
  (choose_winner draw ps = None <-> ps = [])
  /\ (forall x, choose_winner draw ps = Some x -> In x ps).
Proof.
  destruct ps as [| p ps].
  - simpl. split; [tauto | discriminate].
  - unfold choose_winner.
    assert (L : (draw mod List.length (p :: ps) < List.length (p :: ps))%nat)
      by (apply Nat.mod_upper_bound; simpl; lia).
    split.
    + split; [| discriminate].
      intro N. apply nth_error_None in N. lia.
    + intros x Hx. eapply nth_error_In. exact Hx.
Qed.

Lemma find_gw_update_other gid gid' (h : giveaway -> giveaway) l :
  gid' <> gid -> (forall x, gw_id (h x) = gw_id x) ->
  find (gw_is gid) (update_where (gw_is gid') h l) = find (gw_is gid) l.
Proof.
  intros N Hh. induction l as [| a l IH]; simpl; [reflexivity |].
  fold (update_where (gw_is gid') h l). rewrite IH.
  destruct (gw_is gid' a) eqn:E; [| reflexivity].
  apply gw_is_spec in E.
  assert (gw_is gid (h a) = false) as ->.
  { destruct (gw_is gid (h a)) eqn:E'; [| reflexivity].
    apply gw_is_spec in E'. rewrite Hh in E'. congruence. }
  assert (gw_is gid a = false) as ->.
  { destruct (gw_is gid a) eqn:E'; [| reflexivity].
    apply gw_is_spec in E'. congruence. }
  reflexivity.
Qed.

(** What a turn never touches. *)
Lemma finish_one_frame now rnd acc g :
  let acc' := finish_one now rnd acc g in
  participants (sweep_db acc') = participants (sweep_db acc)
  /\ map gw_id (giveaways (sweep_db acc')) = map gw_id (giveaways (sweep_db acc))
  /\ map tg_id (users (sweep_db acc')) = map tg_id (users (sweep_db acc)).
Proof.
  destruct acc as [[s fin] k]. cbv zeta. rewrite finish_one_eq.
  destruct (fromisoformat (gw_end_at g)) as [t |]; [| auto].
  destruct (now <? t)%Z; [auto |].
  unfold sweep_db. cbn.
  split; [reflexivity |]. split.
  - apply map_update_where. reflexivity.
  - apply ids_upd_uwt.
Qed.

Lemma sweep_frame now rnd rows acc :
  let acc' := fold_left (finish_one now rnd) rows acc in
  participants (sweep_db acc') = participants (sweep_db acc)
  /\ map gw_id (giveaways (sweep_db acc')) = map gw_id (giveaways (sweep_db acc))
  /\ map tg_id (users (sweep_db acc')) = map tg_id (users (sweep_db acc)).
Proof.
  cbv zeta. apply fold_left_invariant; [auto |].
  intros x g _ [P [G U]].
  destruct (finish_one_frame now rnd x g) as [P' [G' U']].
  repeat split; congruence.
Qed.

(** Turns on rows with another id leave the row of [gid] and the events
    of [gid] as they are. *)
Lemma finish_one_other now rnd gid acc g :
  gw_id g <> gid ->
  let acc' := finish_one now rnd acc g in
  find (gw_is gid) (giveaways (sweep_db acc'))
  = find (gw_is gid) (giveaways (sweep_db acc))
  /\ filter (ev_is gid) (sweep_events acc') = filter (ev_is gid) (sweep_events acc).
Proof.
  intro N. destruct acc as [[s fin] k]. cbv zeta. rewrite finish_one_eq.
  destruct (fromisoformat (gw_end_at g)) as [t |]; [| auto].
  destruct (now <? t)%Z; [auto |].
  unfold sweep_db, sweep_events. cbn. split.
  - apply find_gw_update_other; [exact N | reflexivity].
  - rewrite filter_app. simpl. unfold ev_is at 2, ev_gid. simpl.
    assert ((gw_id g =? gid)%string = false) as ->
      by (apply String.eqb_neq; exact N).
    apply app_nil_r.
Qed.

Lemma sweep_others now rnd gid others acc :
  Forall (fun g => gw_id g <> gid) others ->
  let acc' := fold_left (finish_one now rnd) others acc in
  find (gw_is gid) (giveaways (sweep_db acc'))
  = find (gw_is gid) (giveaways (sweep_db acc))
  /\ filter (ev_is gid) (sweep_events acc') = filter (ev_is gid) (sweep_events acc).
Proof.
  intro F. cbv zeta. apply fold_left_invariant; [auto |].
  intros x g Hg [A B].
  rewrite Forall_forall in F.
  destruct (finish_one_other now rnd gid x g (F g Hg)) as [A' B'].
  split; congruence.
Qed.

Lemma NoDup_map_filter {A B : Type} (f : A -> B) (p : A -> bool) (l : list A) :
  NoDup (map f l) -> NoDup (map f (filter p l)).
Proof.
  induction l as [| a l IH]; simpl; intro N; [constructor |].
  inversion N as [| ? ? Na Nl]; subst.
  destruct (p a); simpl; [| auto].
  constructor; [| auto].
  intro H. apply Na. apply in_map_iff in H. destruct H as [x [E Hx]].
  apply filter_In in Hx. rewrite <- E. apply in_map. tauto.
Qed.

(** A row of a table with unique ids splits the table into rows with
    other ids. *)
Lemma split_by_id (l : list giveaway) (g : giveaway) :
  NoDup (map gw_id l) -> In g l ->
  exists l1 l2, l = l1 ++ g :: l2
    /\ Forall (fun x => gw_id x <> gw_id g) l1
    /\ Forall (fun x => gw_id x <> gw_id g) l2.
Proof.
  intros N I. destruct (in_split _ _ I) as [l1 [l2 ->]].
  exists l1, l2. split; [reflexivity |].
  rewrite map_app in N. simpl in N.
  pose proof (NoDup_remove_2 _ _ _ N) as R.
  split; apply Forall_forall; intros x Hx E; apply R; rewrite <- E;
    apply in_or_app; [left | right]; apply in_map; exact Hx.
Qed.

Lemma find_by_id (l : list giveaway) (g : giveaway) :
  NoDup (map gw_id l) -> In g l -> find (gw_is (gw_id g)) l = Some g.
Proof.
  intros N I.
  destruct (find (gw_is (gw_id g)) l) as [r |] eqn:F.
  - destruct (keyed_find_in gw_id gw_is gw_is_spec _ _ _ F) as [Ir Er].
    f_equal. apply (keyed_unique gw_id l r g N Ir I Er).
  - pose proof (find_none _ _ F g I) as E.
    assert (gw_is (gw_id g) g = true) by (apply gw_is_spec; reflexivity).
    congruence.
Qed.

(** A sweep emits no event for, and does not touch, a row that is not
    active when it starts. *)
Lemma sweep_ignores_inactive now rnd s gid r :
  NoDup (map gw_id (giveaways s)) ->
  find (gw_is gid) (giveaways s) = Some r -> gw_active r = false ->
  let acc' := finish_due_giveaways now rnd s in
  find (gw_is gid) (giveaways (sweep_db acc')) = Some r
  /\ filter (ev_is gid) (sweep_events acc') = [].
Proof.
  intros N F A. cbv zeta. unfold finish_due_giveaways.
  destruct (keyed_find_in gw_id gw_is gw_is_spec _ _ _ F) as [Ir Er].
  assert (Oth : Forall (fun g => gw_id g <> gid) (filter gw_active (giveaways s))).
  { apply Forall_forall. intros g Hg E. apply filter_In in Hg.
    destruct Hg as [Ig Ag].
    assert (g = r) by (apply (keyed_unique gw_id _ g r N Ig Ir); congruence).
    congruence. }
  destruct (sweep_others now rnd gid _ (s, [], O) Oth) as [A' B'].
  unfold sweep_db, sweep_events in *. cbn in A', B'.
  rewrite A', B'. auto.
Qed.

(** The row of a giveaway whose [end_at] does not parse survives a sweep
    unchanged, and the sweep reports nothing for it. *)
Lemma sweep_skips_unparseable now rnd s g :
  NoDup (map gw_id (giveaways s)) ->
  In g (giveaways s) -> fromisoformat (gw_end_at g) = None ->
  let acc' := finish_due_giveaways now rnd s in
  find (gw_is (gw_id g)) (giveaways (sweep_db acc')) = Some g
  /\ filter (ev_is (gw_id g)) (sweep_events acc') = [].
Proof.
  intros N I U. cbv zeta.
  destruct (gw_active g) eqn:A.
  - unfold finish_due_giveaways.
    assert (Ia : In g (filter gw_active (giveaways s)))
      by (apply filter_In; auto).
    destruct (split_by_id _ g (NoDup_map_filter gw_id gw_active _ N) Ia)
      as [l1 [l2 [E [O1 O2]]]].
    rewrite E, fold_left_app. simpl.
    destruct (fold_left (finish_one now rnd) l1 (s, [], O)) as [[s1 f1] k1] eqn:E1.
    assert (Skip : finish_one now rnd (s1, f1, k1) g = (s1, f1, k1)).
    { rewrite finish_one_eq, U. reflexivity. }
    rewrite Skip.
    destruct (sweep_others now rnd (gw_id g) l2 (s1, f1, k1) O2) as [A2 B2].
    destruct (sweep_others now rnd (gw_id g) l1 (s, [], O) O1) as [A1 B1].
    rewrite E1 in A1, B1.
    unfold sweep_db, sweep_events in *. cbn in A1, B1, A2, B2.
    rewrite A2, B2, A1, B1. split; [| reflexivity].
    apply find_by_id; assumption.
  - apply sweep_ignores_inactive; [exact N | | exact A].
    apply find_by_id; assumption.
Qed.

End GiveawayFacts.

Section GiveawayClaims.

Import Main.

Lemma sweep_keeps_ids now rnd s :
  map gw_id (giveaways (sweep_db (finish_due_giveaways now rnd s)))
  = map gw_id (giveaways s).
Proof.
  unfold finish_due_giveaways.
  exact (proj1 (proj2 (sweep_frame now rnd _ (s, [], O)))).
Qed.

Lemma recipient_of_row s g w :
  NoDup (map gw_id (giveaways s)) -> In g (giveaways s) ->
  recipient s (gw_id g, w, gw_amount g) = Some (payee w g).
Proof.
  intros N I. unfold recipient, ev_winner, ev_gid, payee. simpl.
  destruct w; [reflexivity |].
  rewrite (find_by_id _ g N I). reflexivity.
Qed.

(** What the events of a sweep pay to an account row is what its balance
    gains; an id without a row gains nothing. *)
Lemma sweep_balances now rnd s0 rows acc i :
  NoDup (map gw_id (giveaways s0)) ->
  (forall g, In g rows -> In g (giveaways s0)) ->
  let acc' := fold_left (finish_one now rnd) rows acc in
  fst (get_balances i (users (sweep_db acc')))
  == fst (get_balances i (users (sweep_db acc)))
     + (if registered i (users (sweep_db acc))
        then paid s0 i (sweep_events acc') - paid s0 i (sweep_events acc)
        else 0).
Proof.
  intros N Sub. cbv zeta.
  apply (fold_left_invariant (finish_one now rnd)
           (fun x => registered i (users (sweep_db x))
                     = registered i (users (sweep_db acc))
                     /\ fst (get_balances i (users (sweep_db x)))
                        == fst (get_balances i (users (sweep_db acc)))
                           + (if registered i (users (sweep_db acc))
                              then paid s0 i (sweep_events x)
                                   - paid s0 i (sweep_events acc)
                              else 0))).
  - split; [reflexivity |]. destruct (registered i _); lra.
  - intros [[s fin] k] g Hg [Rx Bx].
    rewrite finish_one_eq.
    destruct (fromisoformat (gw_end_at g)) as [t |]; [| auto].
    destruct (now <? t)%Z; [auto |].
    main_simpl. main_simpl_in Rx. main_simpl_in Bx.
    split; [rewrite registered_upd_uwt; exact Rx |].
    match goal with
    | |- context [upd_uwt ?d ?r (users s)] =>
      pose proof (get_uwt_upd_uwt i d r (users s)) as G;
      assert (Hp : paid s0 i (fin ++ [(gw_id g, choose_winner (rnd k)
                     (participants_of (gw_id g) (participants s)), d)])
                   == paid s0 i fin + (if (r =? i)%Z then d else 0))
    end.
    { unfold paid. rewrite total_snoc. unfold paid_to.
      rewrite (recipient_of_row s0 g _ N (Sub g Hg)). reflexivity. }
    rewrite Rx in G.
    destruct (registered i (users (sweep_db acc)));
      [rewrite andb_true_r in G | rewrite andb_false_r in G];
      destruct (payee _ g =? i)%Z; lra.
Qed.

(** C10 ([finish_due_giveaways], the same text in the three revisions).
    An active giveaway whose [end_at] is not ISO text: the loop turn on it
    returns its state untouched, whatever the clock shows; after a sweep,
    and after any run of sweeps, its row is the row it was (still active,
    no winner, the prize still on it), and no sweep reports an event for
    it.  The sweep is a total function: the failed parse ends the turn and
    nothing else. *)
Theorem C10_unparseable_end_at_freezes_giveaway (s : db) (g : giveaway) :
  NoDup (map gw_id (giveaways s)) ->
  In g (giveaways s) ->
  gw_active g = true ->
  fromisoformat (gw_end_at g) = None ->
  (forall now rnd acc, finish_one now rnd acc g = acc)
  /\ (forall now rnd,
        let acc' := finish_due_giveaways now rnd s in
        find (gw_is (gw_id g)) (giveaways (sweep_db acc')) = Some g
        /\ filter (ev_is (gw_id g)) (sweep_events acc') = [])
  /\ (forall runs,
        find (gw_is (gw_id g)) (giveaways (sweeps runs s)) = Some g
        /\ In g (giveaways (sweeps runs s))).
Proof.
  intros N I A U. split; [| split].
  - intros now rnd [[x fin] k]. rewrite finish_one_eq, U. reflexivity.
  - intros now rnd. apply sweep_skips_unparseable; assumption.
  - intro runs. revert s N I.
    induction runs as [| [now rnd] runs IH]; intros s N I.
    + simpl. pose proof (find_by_id _ g N I) as F. split; [exact F |].
      exact I.
    + unfold sweeps. simpl.
      fold (sweep_db (finish_due_giveaways now rnd s)).
      fold (sweeps runs (sweep_db (finish_due_giveaways now rnd s))).
      apply IH.
      * rewrite sweep_keeps_ids. exact N.
      * destruct (sweep_skips_unparseable now rnd s g N I U) as [F _].
        apply find_some in F. tauto.
Qed.

Lemma C10_witness :
  find (gw_is "G2")
    (giveaways (sweeps [(200000000%Z, fun _ => O); (900000000%Z, fun _ => 1%nat)]
                  Scenario.giveaway_db))
  = Some Scenario.G2.
Proof.
  refine (proj1 (proj2 (proj2
    (C10_unparseable_end_at_freezes_giveaway Scenario.giveaway_db Scenario.G2
       _ _ _ _)) _)).
  - repeat constructor; simpl; intuition discriminate.
  - simpl. tauto.
  - reflexivity.
  - reflexivity.
Defined.

(** C6, the counterexample.  [main.py]: [join_giveaway] accepts id 9,
    which holds no account row.  The sweep after the end of the giveaway
    finishes it with winner 9 and reports the prize of 50 UWT as paid to
    9, while [UPDATE users] changes nothing: the accounts are the ones
    they were, and neither a participant nor the creator is credited,
    where the claim has exactly one of them credited, never neither. *)
Lemma C6_counterexample :
  let acc :=
    finish_due_giveaways 100000000%Z (fun _ => O) Scenario.stray_giveaway in
  registered 9 (users Scenario.stray_giveaway) = false
  /\ snd (join_giveaway "G9" 9 Scenario.giveaway_open) = Done
  /\ participants_of "G9" (participants Scenario.stray_giveaway) = [9%Z]
  /\ find (gw_is "G9") (giveaways (sweep_db acc))
     = Some (finalized (Some 9%Z) Scenario.G9)
  /\ sweep_events acc = [("G9"%string, Some 9%Z, 50)]
  /\ users (sweep_db acc) = users Scenario.stray_giveaway
  /\ ~ (exists i,
          fst (get_balances i (users (sweep_db acc)))
          == fst (get_balances i (users Scenario.stray_giveaway)) + 50).
Proof.
  cbv zeta.
  assert (E : users (sweep_db (finish_due_giveaways 100000000%Z (fun _ => O)
                                 Scenario.stray_giveaway))
              = users Scenario.stray_giveaway) by reflexivity.
  repeat split; try reflexivity.
  intros [i H]. rewrite E in H. lra.
Qed.

(** C6, as amended ([finish_due_giveaways], giveaway ids unique).  An
    active giveaway whose expiry has passed is finalised by the sweep:
    its row becomes [finished] with the winner recorded, the sweep
    reports exactly one event for it, the winner is [None] exactly when
    nobody takes part and is a participant otherwise, and the one
    recipient of that event is the winner, else the creator.  The UWT
    balance of every account row gains exactly what the events of the
    sweep pay to it, so the recipient's row gets the full prize and
    nothing else is paid; an id that holds no account row gains nothing,
    also when it is the recipient, and the sweep adds no account row.  A
    later sweep reports nothing for the giveaway and leaves its row
    alone. *)
Theorem C6_due_giveaway_finalised_once
    (now : datetime) (rnd : nat -> nat) (s : db) (g : giveaway) (t : datetime) :
  NoDup (map gw_id (giveaways s)) ->
  In g (giveaways s) ->
  gw_active g = true ->
  fromisoformat (gw_end_at g) = Some t ->
  (t <= now)%Z ->
  let acc' := finish_due_giveaways now rnd s in
  let ps := participants_of (gw_id g) (participants s) in
  exists w,
    find (gw_is (gw_id g)) (giveaways (sweep_db acc')) = Some (finalized w g)
    /\ filter (ev_is (gw_id g)) (sweep_events acc')
       = [(gw_id g, w, gw_amount g)]
    /\ (w = None <-> ps = [])
    /\ (forall x, w = Some x -> In x ps)
    /\ recipient s (gw_id g, w, gw_amount g) = Some (payee w g)
    /\ (forall i,
          fst (get_balances i (users (sweep_db acc')))
          == fst (get_balances i (users s))
             + (if registered i (users s)
                then paid s i (sweep_events acc') else 0))
    /\ (forall i, registered i (users (sweep_db acc'))
                  = registered i (users s))
    /\ (forall now' rnd',
          let acc'' := finish_due_giveaways now' rnd' (sweep_db acc') in
          find (gw_is (gw_id g)) (giveaways (sweep_db acc''))
          = Some (finalized w g)
          /\ filter (ev_is (gw_id g)) (sweep_events acc'') = []).
Proof.
  intros N I A P Due acc' ps.
  assert (Ia : In g (filter gw_active (giveaways s)))
    by (apply filter_In; auto).
  destruct (split_by_id _ g (NoDup_map_filter gw_id gw_active _ N) Ia)
    as [l1 [l2 [E [O1 O2]]]].
  assert (Hacc : acc' = fold_left (finish_one now rnd) l2
                          (finish_one now rnd
                             (fold_left (finish_one now rnd) l1 (s, [], O)) g)).
  { unfold acc', finish_due_giveaways. rewrite E, fold_left_app. reflexivity. }
  destruct (fold_left (finish_one now rnd) l1 (s, [], O)) as [[s1 f1] k1] eqn:E1.
  destruct (sweep_others now rnd (gw_id g) l1 (s, [], O) O1) as [A1 B1].
  destruct (sweep_frame now rnd l1 (s, [], O)) as [P1 _].
  rewrite E1 in A1, B1, P1.
  unfold sweep_db, sweep_events in A1, B1, P1. cbn in A1, B1, P1.
  rewrite finish_one_eq, P in Hacc.
  assert ((now <? t)%Z = false) as Hlt by (apply Z.ltb_ge; exact Due).
  rewrite Hlt in Hacc. cbv zeta in Hacc. rewrite P1 in Hacc. fold ps in Hacc.
  set (w := choose_winner (rnd k1) ps) in *.
  match type of Hacc with
  | _ = fold_left _ _ ?mid =>
    destruct (sweep_others now rnd (gw_id g) l2 mid O2) as [A2 B2]
  end.
  rewrite <- Hacc in A2, B2.
  main_simpl_in A2. main_simpl_in B2.
  exists w.
  assert (Frow : find (gw_is (gw_id g)) (giveaways (sweep_db acc'))
                 = Some (finalized w g)).
  { rewrite A2.
    rewrite (keyed_find_update gw_id gw_is gw_is_spec (gw_id g) (giveaways s1)
               (gw_is (gw_id g)) (finalized w) g);
      [| reflexivity | rewrite A1; apply find_by_id; assumption].
    assert (gw_is (gw_id g) g = true) as -> by (apply gw_is_spec; reflexivity).
    reflexivity. }
  split; [exact Frow |]. split.
  { rewrite B2, filter_app, B1. simpl.
    unfold ev_is, ev_gid. simpl. rewrite String.eqb_refl. reflexivity. }
  destruct (choose_winner_spec (rnd k1) ps) as [Wn Ws].
  split; [exact Wn |]. split; [exact Ws |].
  split; [apply recipient_of_row; assumption |]. split; [| split].
  - intro i.
    pose proof (sweep_balances now rnd s (filter gw_active (giveaways s))
                  (s, [], O) i N) as B.
    cbv zeta in B.
    fold (finish_due_giveaways now rnd s) in B. fold acc' in B.
    change (sweep_db (s, [], O)) with s in B.
    change (sweep_events (s, @nil event, O)) with (@nil event) in B.
    change (paid s i []) with 0 in B.
    assert (B' := B ltac:(intros x Hx; apply filter_In in Hx; tauto)).
    destruct (registered i (users s)); lra.
  - intro i. apply registered_ids. unfold acc', finish_due_giveaways.
    exact (proj2 (proj2 (sweep_frame now rnd _ (s, [], O)))).
  - intros now' rnd'. cbv zeta.
    apply sweep_ignores_inactive; [| exact Frow | reflexivity].
    unfold acc'. rewrite sweep_keeps_ids. exact N.
Qed.

Lemma C6_witness :
  exists w,
    find (gw_is "G1")
      (giveaways (sweep_db (finish_due_giveaways 200000000%Z (fun _ => 1%nat)
                              Scenario.giveaway_db)))
    = Some (finalized w Scenario.G1).
Proof.
  destruct (C6_due_giveaway_finalised_once 200000000%Z (fun _ => 1%nat)
              Scenario.giveaway_db Scenario.G1 100000000%Z) as [w H].
  - repeat constructor; simpl; intuition discriminate.
  - simpl. tauto.
  - reflexivity.
  - reflexivity.
  - lia.
  - exists w. exact (proj1 H).
Defined.

End GiveawayClaims.

(** * Order book: matching *)

Section MatchFacts.

Import Main.

Lemma or_is_spec (k : string) (o : order) : or_is k o = true <-> or_id o = k.
Proof. unfold or_is. apply String.eqb_eq. Qed.

Lemma first_by_in_aux (before : order -> order -> bool) (l : list order)
    (acc : option order) (o : order) :
  fold_left
    (fun acc o =>
       match acc with
       | None => Some o
       | Some b => if before o b then Some o else Some b
       end) l acc = Some o ->
  In o l \/ acc = Some o.
Proof.
  revert acc. induction l as [| a l IH]; simpl; intros acc H.
  - auto.
  - destruct (IH _ H) as [I | E]; [auto |].
    destruct acc as [b |].
    + destruct (before a b); injection E as <-; auto.
    + injection E as <-. auto.
Qed.

Lemma first_by_in (before : order -> order -> bool) l o :
  first_by before l = Some o -> In o l.
Proof.
  intro H. destruct (first_by_in_aux before l None o H) as [I | E];
    [exact I | discriminate].
Qed.

Lemma best_buy_in os o :
  best_buy os = Some o -> In o os /\ or_open o = true /\ or_buy o = true.
Proof.
  intro H. apply first_by_in, filter_In in H. destruct H as [I E].
  apply andb_true_iff in E. tauto.
Qed.

Lemma best_sell_in os o :
  best_sell os = Some o -> In o os /\ or_open o = true /\ or_sell o = true.
Proof.
  intro H. apply first_by_in, filter_In in H. destruct H as [I E].
  apply andb_true_iff in E. tauto.
Qed.

(** Number of open orders: the measure of the matching loop. *)
Lemma open_count_update_le (p : order -> bool) (h : order -> order) os :
  (forall x, or_open (h x) = true -> or_open x = true) ->
  (rowcount or_open (update_where p h os) <= rowcount or_open os)%nat.
Proof.
  intro Hh. unfold rowcount, update_where.
  induction os as [| a os IH]; simpl; [lia |].
  destruct (p a).
  - destruct (or_open (h a)) eqn:E.
    + rewrite (Hh a E). simpl. lia.
    + destruct (or_open a); simpl; lia.
  - destruct (or_open a); simpl; lia.
Qed.

Lemma open_count_update_lt (p : order -> bool) (h : order -> order) os o :
  (forall x, or_open (h x) = false) ->
  In o os -> p o = true -> or_open o = true ->
  (rowcount or_open (update_where p h os) < rowcount or_open os)%nat.
Proof.
  intros Hh I Po Oo. unfold rowcount, update_where.
  induction os as [| a os IH]; simpl; [contradiction |].
  assert (L : (List.length (filter or_open
                 (map (fun r => if p r then h r else r) os))
               <= List.length (filter or_open os))%nat).
  { apply (open_count_update_le p h os). intros x Hx. rewrite Hh in Hx.
    discriminate. }
  destruct I as [-> | I].
  - rewrite Po, Hh, Oo. simpl. lia.
  - specialize (IH I). destruct (p a).
    + rewrite Hh. destruct (or_open a); simpl; lia.
    + destruct (or_open a); simpl; lia.
Qed.

Lemma open_count_fill_le id a os :
  (rowcount or_open (fill_or_reduce id a os) <= rowcount or_open os)%nat.
Proof.
  unfold fill_or_reduce. destruct (Qleb a eps);
    apply open_count_update_le; intros x; simpl; [discriminate | auto].
Qed.

Lemma open_count_fill_lt id a os :
  a <= eps ->
  (exists o, In o os /\ or_id o = id /\ or_open o = true) ->
  (rowcount or_open (fill_or_reduce id a os) < rowcount or_open os)%nat.
Proof.
  intros Ha [o [I [E Oo]]]. unfold fill_or_reduce.
  assert (Qleb a eps = true) as -> by (apply Qleb_true; exact Ha).
  apply (open_count_update_lt _ _ os o); auto.
  apply or_is_spec. exact E.
Qed.

Lemma reduce_keeps_open id id' a os :
  Qleb a eps = false ->
  (exists o, In o os /\ or_id o = id' /\ or_open o = true) ->
  exists o, In o (fill_or_reduce id a os) /\ or_id o = id' /\ or_open o = true.
Proof.
  intros Ha [o [I [E Oo]]]. unfold fill_or_reduce. rewrite Ha.
  exists (if or_is id o then reduced a o else o).
  split; [| split].
  - unfold update_where. apply in_map_iff. exists o. auto.
  - destruct (or_is id o); exact E.
  - destruct (or_is id o); exact Oo.
Qed.

(** Every turn of the loop closes at least one order. *)
Lemma match_step_closes s s' :
  match_step s = Some s' ->
  (rowcount or_open (orders s') < rowcount or_open (orders s))%nat.
Proof.
  unfold match_step.
  destruct (best_buy (orders s)) as [buy |] eqn:Bb; [| discriminate].
  destruct (best_sell (orders s)) as [sell |] eqn:Bs; [| discriminate].
  destruct (Qltb (or_price buy) (or_price sell)); [discriminate |].
  intros [= <-].
  destruct (best_buy_in _ _ Bb) as [Ib [Ob Sb]].
  destruct (best_sell_in _ _ Bs) as [Is [Os Ss]].
  set (amt := py_min (or_amount buy) (or_amount sell)).
  destruct (Qltb eps (amt * or_price buy - amt * or_price sell)); main_simpl.
  all: destruct (Qleb (or_amount buy - amt) eps) eqn:Nb.
  all: try (eapply Nat.le_lt_trans; [apply open_count_fill_le |];
            apply open_count_fill_lt; [apply Qleb_true; exact Nb | eauto]).
  all: eapply Nat.lt_le_trans; [| apply (open_count_fill_le (or_id buy))].
  all: apply open_count_fill_lt;
         [| apply reduce_keeps_open; [exact Nb | eauto]].
  all: apply Qleb_false in Nb; pose proof eps_pos;
       destruct (py_min_or (or_amount buy) (or_amount sell)) as [E | E];
       fold amt in E; rewrite E in *; lra.
Qed.

(** The loop ends by its [break]: with one unit of fuel per open order,
    and so with the fuel [match_orders] gives it, no turn is left. *)
Lemma match_loop_stops (n : nat) (s : db) :
  (rowcount or_open (orders s) < n)%nat ->
  match_step (match_loop n s) = None.
Proof.
  revert s. induction n as [| n IH]; intros s L; [lia |].
  simpl. destruct (match_step s) as [s' |] eqn:E; [| exact E].
  apply IH. pose proof (match_step_closes s s' E). lia.
Qed.

Lemma match_orders_stops (s : db) : match_step (match_orders s) = None.
Proof.
  apply match_loop_stops. unfold rowcount.
  pose proof (filter_length_le or_open (orders s)). lia.
Qed.

End MatchFacts.

Section MatchStep.

Import Main.

(** What one turn of the loop does, field by field. *)
Lemma match_step_inv s s' :
  match_step s = Some s' ->
  exists buy sell,
    best_buy (orders s) = Some buy /\ best_sell (orders s) = Some sell
    /\ or_price sell <= or_price buy
    /\ let amt := py_min (or_amount buy) (or_amount sell) in
       let gain := amt * or_price sell in
       let refund := amt * or_price buy - amt * or_price sell in
       users s'
       = (if Qltb eps refund
          then upd_rub refund (or_user buy)
                 (upd_rub gain (or_user sell) (upd_uwt amt (or_user buy) (users s)))
          else upd_rub gain (or_user sell) (upd_uwt amt (or_user buy) (users s)))
       /\ orders s'
          = fill_or_reduce (or_id sell) (or_amount sell - amt)
              (fill_or_reduce (or_id buy) (or_amount buy - amt) (orders s))
       /\ trades s'
          = trades s ++ [mkTrade (or_id buy) (or_id sell) (or_price sell) amt]
       /\ tx s'
          = tx s ++ [mkTx (or_user buy) "UWT" amt "trade_fill";
                     mkTx (or_user sell) "RUB" gain "trade_fill"]
              ++ (if Qltb eps refund
                  then [mkTx (or_user buy) "RUB" refund "trade_refund"]
                  else [])
       /\ rate s' = rate s /\ checks s' = checks s /\ bills s' = bills s
       /\ deposits s' = deposits s /\ giveaways s' = giveaways s
       /\ participants s' = participants s /\ channels s' = channels s
       /\ channel_subs s' = channel_subs s.
Proof.
  unfold match_step.
  destruct (best_buy (orders s)) as [buy |] eqn:Bb; [| discriminate].
  destruct (best_sell (orders s)) as [sell |] eqn:Bs; [| discriminate].
  destruct (Qltb (or_price buy) (or_price sell)) eqn:Lt; [discriminate |].
  intros [= <-]. exists buy, sell.
  split; [reflexivity |]. split; [reflexivity |].
  split; [apply Qltb_false; exact Lt |].
  cbv zeta.
  destruct (Qltb eps _); main_simpl; rewrite <- ?app_assoc; simpl;
    repeat split; reflexivity.
Qed.

(** [main.py]: the turn that trades [amt] between the best buy and the
    best sell pays the buyer [(limit - trade price) * amt] at once,
    whenever that exceeds the tolerance, whether or not the buy is used
    up by the trade. *)
Lemma main_trade_rebates_buyer s s' buy sell :
  match_step s = Some s' ->
  best_buy (orders s) = Some buy -> best_sell (orders s) = Some sell ->
  registered (or_user buy) (users s) = true ->
  or_user sell <> or_user buy ->
  let amt := py_min (or_amount buy) (or_amount sell) in
  let rebate := (or_price buy - or_price sell) * amt in
  eps < rebate ->
  snd (get_balances (or_user buy) (users s'))
  == snd (get_balances (or_user buy) (users s)) + rebate
  /\ In (mkTx (or_user buy) "RUB"
           (amt * or_price buy - amt * or_price sell) "trade_refund") (tx s').
Proof.
  intros M Bb Bs R Ne amt rebate Hr.
  destruct (match_step_inv s s' M) as [b [sl [Bb' [Bs' [_ H]]]]].
  rewrite Bb in Bb'. rewrite Bs in Bs'.
  injection Bb' as <-. injection Bs' as <-.
  cbv zeta in H. fold amt in H.
  destruct H as [Hu [_ [_ [Ht _]]]].
  assert (Hq : Qltb eps (amt * or_price buy - amt * or_price sell) = true).
  { apply Qltb_true. unfold rebate in Hr. lra. }
  rewrite Hq in Hu, Ht. split.
  - rewrite Hu.
    rewrite get_rub_upd_rub, get_rub_upd_rub, get_rub_upd_uwt.
    rewrite !registered_upd_rub, !registered_upd_uwt, R.
    rewrite Z.eqb_refl.
    assert ((or_user sell =? or_user buy)%Z = false) as ->
      by (apply Z.eqb_neq; exact Ne).
    simpl. unfold rebate. lra.
  - rewrite Ht. apply in_or_app. right. simpl. auto.
Qed.

End MatchStep.

(** C4, the counterexample.  [main.py], the buy placed first: the refund
    logged for the buyer is not 60, and the buyer's RUB is not
    [200 - 120 + 60]. *)
Lemma C4_counterexample :
  ~ (Scenario.logged_rub "trade_refund" 1 (Main.tx Scenario.buy_then_sell) == 60)
  /\ ~ (snd (get_balances 1 (Main.users Scenario.buy_then_sell))
        == 200 - 120 + 60).
Proof.
  split; vm_compute; discriminate.
Qed.

(** C4, amended.  The reference scenario, the two orders placed in either
    order.  [main.py]: exactly one trade, at price 10 for 6; the seller
    receives 60; the buyer receives 6 UWT and a refund of
    [(12 - 10) * 6 = 12]; 48 of the 120 locked stay locked with the buy
    order, which is open with 4 remaining; the sell order is filled; no
    further match is possible.  [main3.py]: the same trade, the same
    remainders and statuses, the same 60 to the seller. *)
Theorem C4_reference_scenario :
  (forall s, s = Scenario.buy_then_sell \/ s = Scenario.sell_then_buy ->
     Main.trades s = [Main.mkTrade "B" "S" 10 6]
     /\ (exists t, find (Main.or_is "B") (Main.orders s)
                   = Some (Main.mkOrder "B" 1 Main.Buy 12 4 Main.OrOpen t))
     /\ (exists t, find (Main.or_is "S") (Main.orders s)
                   = Some (Main.mkOrder "S" 2 Main.Sell 10 0 Main.OrFilled t))
     /\ Scenario.logged_rub "trade_refund" 1 (Main.tx s) == 12
     /\ snd (get_balances 1 (Main.users s)) == 200 - 120 + 12
     /\ fst (get_balances 1 (Main.users s)) == 6
     /\ snd (get_balances 2 (Main.users s)) == 60
     /\ Main.escrow_rub s == 48
     /\ Main.match_step s = None)
  /\ (forall s, s = Scenario.buy_then_sell3 \/ s = Scenario.sell_then_buy3 ->
        Main3.trades s = [Main3.mkTrade "B" "S" 10 6]
        /\ (exists t, find (Main3.or_is "B") (Main3.orders s)
                      = Some (Main3.mkOrder "B" 1 Main3.Buy 12 10 4
                                Main3.OrOpen t))
        /\ (exists t, find (Main3.or_is "S") (Main3.orders s)
                      = Some (Main3.mkOrder "S" 2 Main3.Sell 10 6 0
                                Main3.OrFilled t))
        /\ fst (get_balances 1 (Main3.users s)) == 6
        /\ snd (get_balances 2 (Main3.users s)) == 60).
Proof.
  split; intros s [-> | ->]; vm_compute;
    repeat split; try reflexivity; eexists; reflexivity.
Qed.

Lemma C4_witness :
  Main.trades Scenario.buy_then_sell = [Main.mkTrade "B" "S" 10 6].
Proof.
  exact (proj1 (proj1 C4_reference_scenario Scenario.buy_then_sell
                  (or_introl eq_refl))).
Defined.

(** C5 ([main3.py], [match_orders]).  In the reference scenario the trade
    runs at 10 against a limit of 12 and leaves the buy order open with 4
    remaining.  No price refund is logged for the buyer and the buyer's
    RUB stays at [200 - 120]: the rebate [(12 - 10) * 6 = 12] of this leg
    is not paid, since the code pays a rebate only inside the branch that
    marks the buy order filled. *)
Theorem C5_main3_partial_fill_without_rebate :
  forall s, s = Scenario.buy_then_sell3 \/ s = Scenario.sell_then_buy3 ->
    Main3.trades s = [Main3.mkTrade "B" "S" 10 6]
    /\ (exists t, find (Main3.or_is "B") (Main3.orders s)
                  = Some (Main3.mkOrder "B" 1 Main3.Buy 12 10 4 Main3.OrOpen t))
    /\ Scenario.logged_rub "order_price_refund" 1 (Main3.tx s) == 0
    /\ snd (get_balances 1 (Main3.users s)) == 200 - 120
    /\ eps < (12 - 10) * 6.
Proof.
  intros s [-> | ->]; vm_compute;
    repeat split; try reflexivity; eexists; reflexivity.
Qed.

Lemma C5_witness :
  snd (get_balances 1 (Main3.users Scenario.sell_then_buy3)) == 200 - 120.
Proof.
  exact (proj1 (proj2 (proj2 (proj2
    (C5_main3_partial_fill_without_rebate Scenario.sell_then_buy3
       (or_intror eq_refl)))))).
Defined.

(** * Multi-claim checks ([main3.py], [main1.py]) *)

Section ClaimFacts.

Import Main3.

Variable sha256 : string -> string.

#[local] Abbreviation claim := (claim_check_by_token sha256).
#[local] Abbreviation run := (run_claims sha256).

Lemma find_conj {R : Type} (p q : R -> bool) (l : list R) (r : R) :
  find p l = Some r -> q r = true -> find (fun x => p x && q x) l = Some r.
Proof.
  induction l as [| a l IH]; simpl; intros F Q; [discriminate |].
  destruct (p a) eqn:E; simpl.
  - injection F as ->. rewrite Q. reflexivity.
  - auto.
Qed.

Lemma find_update_where_other {R : Type} (p q : R -> bool) (h : R -> R)
    (l : list R) :
  (forall x, q x = true -> p x = false /\ p (h x) = false) ->
  find p (update_where q h l) = find p l.
Proof.
  intro H. induction l as [| a l IH]; simpl; [reflexivity |].
  fold (update_where q h l). rewrite IH.
  destruct (q a) eqn:E; [| reflexivity].
  destruct (H a E) as [-> ->]. reflexivity.
Qed.

Lemma claim_cases token u pw s :
  claim_outcome token u s (fst (claim token u pw s)) (snd (claim token u pw s)).
Proof.
  unfold claim_check_by_token.
  destruct (find (ck_has_token token) (checks s)) as [row |] eqn:F;
    [| apply claim_refused; [discriminate | intros ? ? [=]]].
  destruct (ck_active row) eqn:A; simpl;
    [| apply claim_refused; [discriminate | intros ? ? [=]]].
  destruct (truthy (ck_passhash row) && negb (truthy pw)); simpl;
    [apply claim_refused; [discriminate | intros ? ? [=]] |].
  destruct (truthy (ck_passhash row)
            && negb (hash_matches sha256 pw (ck_passhash row))); simpl;
    [apply claim_refused; [discriminate | intros ? ? [=]] |].
  destruct (existsb (has_claim (ck_id row) u) (check_claims s)) eqn:C; simpl.
  { apply claim_refused; [discriminate |]. intros r Hr _.
    rewrite F in Hr. injection Hr as <-. exact C. }
  rewrite (find_conj _ ck_active _ _ F A).
  destruct (ck_max_claims row <=? ck_claimed_count row)%Z eqn:L; simpl.
  { apply (claim_exhausted token u s row); auto. apply Z.leb_le. exact L. }
  apply Z.leb_gt in L.
  main3_simpl.
  rewrite (find_update_where_same (ck_has_token token)
             (fun c => set_claimed (ck_claimed_count c + 1) c) (checks s) row);
    [| intros x Hx; exact Hx | exact F].
  cbn [ck_max_claims ck_claimed_count set_claimed].
  replace (ck_max_claims row - (ck_claimed_count row + 1) <=? 0)%Z
    with (ck_max_claims row <=? ck_claimed_count row + 1)%Z
    by (destruct (ck_max_claims row <=? ck_claimed_count row + 1)%Z eqn:X;
        symmetry; [apply Z.leb_le; apply Z.leb_le in X
                  | apply Z.leb_gt; apply Z.leb_gt in X]; lia).
  pose proof (claim_paid token u s row F A C L) as P.
  destruct (ck_max_claims row <=? ck_claimed_count row + 1)%Z; exact P.
Qed.

Lemma ck_has_token_spec (k : string) (c : check) :
  ck_has_token k c = true <-> ck_token c = k.
Proof. unfold ck_has_token. apply String.eqb_eq. Qed.

Lemma has_claim_in (i : string) (u : Z) (l : list (string * Z)) :
  existsb (has_claim i u) l = true <-> In (i, u) l.
Proof.
  rewrite existsb_exists. split.
  - intros [[i' u'] [I H]]. unfold has_claim in H. simpl in H.
    apply andb_true_iff in H. destruct H as [Hi Hu].
    apply String.eqb_eq in Hi. apply Z.eqb_eq in Hu. congruence.
  - intro I. exists (i, u). split; [exact I |].
    unfold has_claim. simpl. rewrite String.eqb_refl, Z.eqb_refl. reflexivity.
Qed.

(** Updates addressed to another token leave the row of [token] alone. *)
Lemma find_token_update_other token token' (h : check -> check) l :
  token' <> token -> (forall x, ck_token (h x) = ck_token x) ->
  find (ck_has_token token) (update_where (ck_has_token token') h l)
  = find (ck_has_token token) l.
Proof.
  intros N Hh. apply find_update_where_other. intros x Hx.
  apply ck_has_token_spec in Hx.
  split.
  - destruct (ck_has_token token x) eqn:E; [| reflexivity].
    apply ck_has_token_spec in E. congruence.
  - destruct (ck_has_token token (h x)) eqn:E; [| reflexivity].
    apply ck_has_token_spec in E. rewrite Hh in E. congruence.
Qed.

Lemma find_token_update_same token (h : check -> check) l row :
  (forall x, ck_token (h x) = ck_token x) ->
  find (ck_has_token token) l = Some row ->
  find (ck_has_token token) (update_where (ck_has_token token) h l)
  = Some (h row).
Proof.
  intros Hh F. apply find_update_where_same; [| exact F].
  intros x Hx. apply ck_has_token_spec. rewrite Hh.
  apply ck_has_token_spec. exact Hx.
Qed.

Lemma paid_row token (l : list check) row :
  find (ck_has_token token) l = Some row ->
  find (ck_has_token token)
    ((if (ck_max_claims row <=? ck_claimed_count row + 1)%Z
      then update_where (ck_has_token token) set_finished
      else fun l => l)
       (update_where (ck_has_token token)
          (fun c => set_claimed (ck_claimed_count c + 1) c) l))
  = Some (after_claim row).
Proof.
  intro F. unfold after_claim.
  pose proof (find_token_update_same token
                (fun c => set_claimed (ck_claimed_count c + 1) c) l row
                ltac:(reflexivity) F) as F1.
  destruct (ck_max_claims row <=? ck_claimed_count row + 1)%Z; [| exact F1].
  apply (find_token_update_same token set_finished _ _ ltac:(reflexivity) F1).
Qed.

(** How a call on any token moves the row of [token]. *)
Lemma claim_step_row token row token' u pw s :
  find (ck_has_token token) (checks s) = Some row ->
  let s' := fst (claim token' u pw s) in
  let r := snd (claim token' u pw s) in
  exists row',
    find (ck_has_token token) (checks s') = Some row'
    /\ ck_id row' = ck_id row
    /\ ck_max_claims row' = ck_max_claims row
    /\ ck_claimed_count row'
       = (ck_claimed_count row
          + (if (token' =? token)%string && is_done r then 1 else 0))%Z
    /\ (is_done r = true -> token' = token ->
        (ck_claimed_count row < ck_max_claims row)%Z
        /\ ~ In (ck_id row, u) (check_claims s)
        /\ In (ck_id row, u) (check_claims s'))
    /\ (forall x, In x (check_claims s) -> In x (check_claims s')).
Proof.
  intros F. cbv zeta.
  destruct (claim_cases token' u pw s) as [row0 F0 A0 C0 L0 | row0 F0 A0 C0 L0 | why W _].
  - (* paid *)
    main3_simpl. unfold is_done.
    destruct (String.eqb_spec token' token) as [-> | N].
    + rewrite F in F0. injection F0 as <-.
      exists (after_claim row). rewrite (paid_row token _ row F).
      split; [reflexivity |].
      assert (Hf : forall (P : check -> Prop),
                 P (set_finished (set_claimed (ck_claimed_count row + 1) row)) ->
                 P (set_claimed (ck_claimed_count row + 1) row) ->
                 P (after_claim row)).
      { intros P P1 P2. unfold after_claim.
        destruct (ck_max_claims row <=? ck_claimed_count row + 1)%Z; assumption. }
      split; [apply Hf; reflexivity |].
      split; [apply Hf; reflexivity |].
      split; [apply Hf; reflexivity |].
      split.
      * intros _ _. split; [exact L0 |]. split.
        -- intro I. apply has_claim_in in I. congruence.
        -- apply in_or_app. right. simpl. auto.
      * intros x Hx. apply in_or_app. auto.
    + exists row. simpl. rewrite Z.add_0_r.
      split.
      { destruct (ck_max_claims row0 <=? ck_claimed_count row0 + 1)%Z;
          rewrite ?find_token_update_other by (auto || reflexivity);
          rewrite ?find_token_update_other by (auto || reflexivity); exact F. }
      split; [reflexivity |]. split; [reflexivity |]. split; [reflexivity |].
      split.
      * intros _ E. congruence.
      * intros x Hx. apply in_or_app. auto.
  - (* out of slots *)
    main3_simpl. unfold is_done. rewrite andb_false_r, Z.add_0_r.
    destruct (String.eqb_spec token' token) as [-> | N].
    + rewrite F in F0. injection F0 as <-.
      exists (set_finished row).
      rewrite (find_token_update_same token set_finished _ row
                 ltac:(reflexivity) F).
      split; [reflexivity |]. split; [reflexivity |]. split; [reflexivity |].
      split; [reflexivity |]. split; [discriminate | auto].
    + exists row.
      rewrite find_token_update_other by (auto || reflexivity).
      split; [exact F |]. split; [reflexivity |]. split; [reflexivity |].
      split; [reflexivity |]. split; [discriminate | auto].
  - exists row. unfold is_done. rewrite andb_false_r, Z.add_0_r.
    split; [exact F |]. split; [reflexivity |]. split; [reflexivity |].
    split; [reflexivity |]. split; [discriminate | auto].
Qed.

(** A claimant who holds a claim row of the check is refused, and the
    database stays as it is. *)
Lemma claim_twice_refused token row u pw s :
  find (ck_has_token token) (checks s) = Some row ->
  In (ck_id row, u) (check_claims s) ->
  fst (claim token u pw s) = s /\ is_done (snd (claim token u pw s)) = false.
Proof.
  intros F I. apply has_claim_in in I.
  destruct (claim_cases token u pw s) as [row0 F0 _ C0 _ | row0 F0 _ C0 _ | why _ _].
  - rewrite F in F0. injection F0 as <-. congruence.
  - rewrite F in F0. injection F0 as <-. congruence.
  - auto.
Qed.

(** A claim on a check without a free slot is refused and moves no funds. *)
Lemma claim_full_refused token row u pw s :
  find (ck_has_token token) (checks s) = Some row ->
  (ck_max_claims row <= ck_claimed_count row)%Z ->
  is_done (snd (claim token u pw s)) = false
  /\ users (fst (claim token u pw s)) = users s
  /\ tx (fst (claim token u pw s)) = tx s
  /\ check_claims (fst (claim token u pw s)) = check_claims s.
Proof.
  intros F L.
  destruct (claim_cases token u pw s) as [row0 F0 _ _ L0 | row0 F0 _ _ _ | why _ _].
  - rewrite F in F0. injection F0 as <-. lia.
  - auto.
  - auto.
Qed.

(** Successes on [token] in a run of calls are bounded by the free slots. *)
Lemma run_claims_capacity token calls : forall s row,
  find (ck_has_token token) (checks s) = Some row ->
  (ck_claimed_count row <= ck_max_claims row)%Z ->
  (Z.of_nat (count_done (on_token token) calls (snd (run calls s)))
   <= ck_max_claims row - ck_claimed_count row)%Z.
Proof.
  induction calls as [| [[t u] pw] calls IH]; intros s row F L.
  - simpl. lia.
  - simpl.
    destruct (claim_step_row token row t u pw s F)
      as [row' [F' [_ [M' [C' [D' _]]]]]].
    destruct (claim t u pw s) as [s1 r] eqn:E1. simpl in *.
    destruct (run calls s1) as [s2 rs] eqn:E2. simpl.
    unfold on_token at 1. simpl.
    assert (L' : (ck_claimed_count row' <= ck_max_claims row')%Z).
    { rewrite C', M'. destruct ((t =? token)%string && is_done r) eqn:X; [| lia].
      apply andb_true_iff in X. destruct X as [X1 X2].
      apply String.eqb_eq in X1. specialize (D' X2 X1). lia. }
    specialize (IH s1 row' F' L'). rewrite E2 in IH. simpl in IH.
    rewrite C', M' in IH.
    destruct ((t =? token)%string && is_done r); lia.
Qed.

(** Once the claimant holds a claim row, no call of theirs succeeds. *)
Lemma run_claims_after_claim token u calls : forall s row,
  find (ck_has_token token) (checks s) = Some row ->
  In (ck_id row, u) (check_claims s) ->
  count_done (on_token_by token u) calls (snd (run calls s)) = O.
Proof.
  induction calls as [| [[t v] pw] calls IH]; intros s row F I.
  - reflexivity.
  - simpl.
    destruct (claim_step_row token row t v pw s F)
      as [row' [F' [Id' [_ [_ [_ G']]]]]].
    pose proof (claim_twice_refused token row u pw s F I) as [_ R].
    destruct (claim t v pw s) as [s1 r] eqn:E1. simpl in *.
    destruct (run calls s1) as [s2 rs] eqn:E2. simpl.
    assert (I' : In (ck_id row', u) (check_claims s1))
      by (rewrite Id'; auto).
    specialize (IH s1 row' F' I'). rewrite E2 in IH. simpl in IH. rewrite IH.
    unfold on_token_by, on_token. simpl.
    destruct (String.eqb_spec t token) as [-> | N]; [| reflexivity].
    destruct (Z.eqb_spec v u) as [-> | N']; [| reflexivity].
    simpl. rewrite E1 in R. simpl in R. rewrite R. reflexivity.
Qed.

(** Each claimant succeeds at most once on a check. *)
Lemma run_claims_once token u calls : forall s row,
  find (ck_has_token token) (checks s) = Some row ->
  (count_done (on_token_by token u) calls (snd (run calls s)) <= 1)%nat.
Proof.
  induction calls as [| [[t v] pw] calls IH]; intros s row F.
  - simpl. lia.
  - simpl.
    destruct (claim_step_row token row t v pw s F)
      as [row' [F' [Id' [_ [_ [D' _]]]]]].
    destruct (claim t v pw s) as [s1 r] eqn:E1. simpl in *.
    pose proof (IH s1 row' F') as IH1.
    pose proof (run_claims_after_claim token u calls s1 row' F') as Z1.
    destruct (run calls s1) as [s2 rs] eqn:E2. simpl in *.
    unfold on_token_by at 1, on_token. simpl.
    destruct (String.eqb_spec t token) as [-> | N]; simpl; [| exact IH1].
    destruct (Z.eqb_spec v u) as [-> | N']; simpl; [| exact IH1].
    destruct (is_done r) eqn:Dr; [| exact IH1].
    destruct (D' eq_refl eq_refl) as [_ [_ I']].
    rewrite <- Id' in I'. rewrite (Z1 I'). lia.
Qed.

End ClaimFacts.

Section ClaimClaims.

Import Main3.

Variable sha256 : string -> string.

#[local] Abbreviation claim := (claim_check_by_token sha256).
#[local] Abbreviation run := (run_claims sha256).

Lemma get_balances_upd_uwt_other i d id us :
  i <> id -> get_balances i (upd_uwt d id us) = get_balances i us.
Proof.
  intro N. unfold get_balances. rewrite find_user_upd_uwt.
  destruct (find_user i us) as [u |] eqn:F; simpl; [| reflexivity].
  pose proof (find_user_id _ _ _ F) as Hi.
  unfold has_id. rewrite Hi.
  assert ((i =? id)%Z = false) as -> by (apply Z.eqb_neq; exact N).
  reflexivity.
Qed.

(** C2 ([claim_check_by_token], [main3.py] and [main1.py]).  For the check
    a token names: a claimant who holds a claim row is refused and the
    database is unchanged; with [claimed_count >= max_claims] the claim is
    refused and balances, log and claim rows are unchanged; in every run
    of claim calls the successes on the token do not exceed the free
    slots and each claimant succeeds at most once; a successful claim
    credits [per_claim] to the claimant's account row and to no other,
    logs it, inserts the claim row, counts it, and the check is
    [finished] exactly when the new count equals [max_claims]. *)
Theorem C2_claim_once_within_capacity
    (token : string) (s : db) (row : check) :
  find (ck_has_token token) (checks s) = Some row ->
  (forall u pw, In (ck_id row, u) (check_claims s) ->
     fst (claim token u pw s) = s
     /\ is_done (snd (claim token u pw s)) = false)
  /\ (forall u pw, (ck_max_claims row <= ck_claimed_count row)%Z ->
        is_done (snd (claim token u pw s)) = false
        /\ users (fst (claim token u pw s)) = users s
        /\ tx (fst (claim token u pw s)) = tx s
        /\ check_claims (fst (claim token u pw s)) = check_claims s)
  /\ (forall calls, (ck_claimed_count row <= ck_max_claims row)%Z ->
        (Z.of_nat (count_done (on_token token) calls (snd (run calls s)))
         <= ck_max_claims row - ck_claimed_count row)%Z
        /\ forall u,
             (count_done (on_token_by token u) calls (snd (run calls s)) <= 1)%nat)
  /\ (forall u pw, snd (claim token u pw s) = Done ->
        let s' := fst (claim token u pw s) in
        ck_active row = true
        /\ ~ In (ck_id row, u) (check_claims s)
        /\ (ck_claimed_count row < ck_max_claims row)%Z
        /\ users s' = upd_uwt (ck_per_claim row) u (users s)
        /\ (registered u (users s) = true ->
            fst (get_balances u (users s'))
            == fst (get_balances u (users s)) + ck_per_claim row)
        /\ (forall i, i <> u ->
            get_balances i (users s') = get_balances i (users s))
        /\ tx s' = tx s ++ [mkTx u "UWT" (ck_per_claim row) "check_claim"]
        /\ check_claims s' = check_claims s ++ [(ck_id row, u)]
        /\ exists row',
             find (ck_has_token token) (checks s') = Some row'
             /\ ck_id row' = ck_id row
             /\ ck_per_claim row' = ck_per_claim row
             /\ ck_max_claims row' = ck_max_claims row
             /\ ck_claimed_count row' = (ck_claimed_count row + 1)%Z
             /\ (ck_status row' = CkFinished
                 <-> (ck_claimed_count row + 1)%Z = ck_max_claims row)).
Proof.
  intro F. split; [| split; [| split]].
  - intros u pw I. apply (claim_twice_refused sha256 token row); assumption.
  - intros u pw L. apply (claim_full_refused sha256 token row); assumption.
  - intros calls L. split.
    + apply run_claims_capacity; assumption.
    + intro u. apply (run_claims_once sha256 token u calls s row F).
  - intros u pw D. cbv zeta.
    destruct (claim_cases sha256 token u pw s)
      as [row0 F0 A0 C0 L0 | row0 F0 A0 C0 L0 | why W _]; try discriminate.
    rewrite F in F0. injection F0 as <-. main3_simpl.
    split; [exact A0 |].
    split; [intro I; apply has_claim_in in I; congruence |].
    split; [exact L0 |].
    split; [reflexivity |].
    split.
    { intro R. rewrite get_uwt_upd_uwt, Z.eqb_refl, R. simpl. lra. }
    split; [intros i N; apply get_balances_upd_uwt_other; exact N |].
    split; [reflexivity |].
    split; [reflexivity |].
    exists (after_claim row). rewrite (paid_row token _ row F).
    split; [reflexivity |].
    unfold after_claim.
    destruct (ck_max_claims row <=? ck_claimed_count row + 1)%Z eqn:X.
    + apply Z.leb_le in X. cbn.
      repeat split; try reflexivity. lia.
    + apply Z.leb_gt in X. cbn.
      repeat split; try reflexivity.
      * intro E. unfold ck_active in A0. rewrite E in A0. discriminate.
      * intro E. lia.
Qed.

End ClaimClaims.

Lemma C2_witness :
  snd (Main3.claim_check_by_token (fun p => p) "tok" 2 None Scenario.check_db)
  = Done
  /\ fst (get_balances 2
            (Main3.users
               (fst (Main3.claim_check_by_token (fun p => p) "tok" 2 None
                       Scenario.check_db))))
     == 0 + 5.
Proof.
  split; [reflexivity |].
  pose proof (C2_claim_once_within_capacity (fun p => p) "tok"
                Scenario.check_db Scenario.voucher eq_refl) as H.
  destruct H as [_ [_ [_ H]]].
  destruct (H 2%Z None eq_refl) as [_ [_ [_ [_ [B _]]]]].
  exact (B eq_refl).
Defined.

(** * Bills: paying an invoice *)

Section BillFacts.

Import Main.

Lemma bl_is_spec (k : string) (b : bill) : bl_is k b = true <-> bl_id b = k.
Proof. unfold bl_is. apply String.eqb_eq. Qed.

(** A call that does not succeed leaves the database as it is. *)
Lemma pay_failed_unchanged bill_id payer s :
  snd (pay_bill_uwt bill_id payer s) <> Done ->
  fst (pay_bill_uwt bill_id payer s) = s.
Proof.
  unfold pay_bill_uwt.
  destruct (find (bl_is bill_id) (bills s)) as [b |]; [| reflexivity].
  destruct (negb (bl_active b)); [reflexivity |].
  destruct (bl_creator b =? payer)%Z; [reflexivity |].
  destruct (Qltb _ _); [reflexivity |].
  destruct (negb _); [reflexivity |].
  simpl. congruence.
Qed.

(** The four refusals. *)
Lemma pay_refusals bill_id payer s :
  (find (bl_is bill_id) (bills s) = None ->
   pay_bill_uwt bill_id payer s = (s, Failed NotFound))
  /\ (forall b, find (bl_is bill_id) (bills s) = Some b ->
        (bl_active b = false ->
         pay_bill_uwt bill_id payer s = (s, Failed Unavailable))
        /\ (bl_active b = true -> bl_creator b = payer ->
            pay_bill_uwt bill_id payer s = (s, Failed SelfPay))
        /\ (bl_active b = true -> bl_creator b <> payer ->
            fst (get_balances payer (users s)) < bl_amount b ->
            pay_bill_uwt bill_id payer s = (s, Failed Insufficient))).
Proof.
  unfold pay_bill_uwt. split.
  - intros ->. reflexivity.
  - intros b ->. split; [| split].
    + intros ->. reflexivity.
    + intros -> <-. simpl. rewrite Z.eqb_refl. reflexivity.
    + intros -> N L. simpl.
      assert ((bl_creator b =? payer)%Z = false) as ->
        by (apply Z.eqb_neq; exact N).
      assert (Qltb (fst (get_balances payer (users s))) (bl_amount b) = true)
        as -> by (apply Qltb_true; exact L).
      reflexivity.
Qed.

(** What a successful call has checked and done. *)
Lemma pay_done_inv bill_id payer s :
  snd (pay_bill_uwt bill_id payer s) = Done ->
  exists b,
    find (bl_is bill_id) (bills s) = Some b
    /\ bl_active b = true
    /\ bl_creator b <> payer
    /\ bl_amount b <= fst (get_balances payer (users s))
    /\ let s' := fst (pay_bill_uwt bill_id payer s) in
       users s' = upd_uwt (bl_amount b) (bl_creator b)
                    (upd_uwt (- bl_amount b) payer (users s))
       /\ bills s' = update_where (fun r => bl_is bill_id r && bl_active r)
                       (paid_by payer) (bills s)
       /\ tx s' = tx s ++ [mkTx payer "UWT" (- bl_amount b) "bill_pay";
                           mkTx (bl_creator b) "UWT" (bl_amount b) "bill_receive"]
       /\ find (bl_is bill_id) (bills s') = Some (paid_by payer b).
Proof.
  unfold pay_bill_uwt.
  destruct (find (bl_is bill_id) (bills s)) as [b |] eqn:F; [| discriminate].
  destruct (bl_active b) eqn:A; simpl; [| discriminate].
  destruct (bl_creator b =? payer)%Z eqn:C; [discriminate |].
  destruct (Qltb _ _) eqn:L; [discriminate |].
  destruct (negb _) eqn:RC; [discriminate |].
  intros _. exists b. main_simpl.
  split; [reflexivity |]. split; [exact A |].
  split; [apply Z.eqb_neq; exact C |].
  split; [apply Qltb_false; exact L |].
  split; [reflexivity |]. split; [reflexivity |].
  split; [rewrite <- app_assoc; reflexivity |].
  rewrite (keyed_find_update bl_id bl_is bl_is_spec bill_id (bills s)
             (fun r => bl_is bill_id r && bl_active r) (paid_by payer) b);
    [| reflexivity | exact F].
  rewrite A. assert (bl_is bill_id b = true) as ->.
  { apply find_some in F. tauto. }
  reflexivity.
Qed.

(** With unique bill ids the call succeeds whenever no refusal applies. *)
Lemma pay_succeeds bill_id payer s b :
  NoDup (map bl_id (bills s)) ->
  find (bl_is bill_id) (bills s) = Some b ->
  bl_active b = true -> bl_creator b <> payer ->
  bl_amount b <= fst (get_balances payer (users s)) ->
  snd (pay_bill_uwt bill_id payer s) = Done.
Proof.
  intros N F A C L. unfold pay_bill_uwt. rewrite F, A. simpl.
  assert ((bl_creator b =? payer)%Z = false) as ->
    by (apply Z.eqb_neq; exact C).
  assert (Qltb (fst (get_balances payer (users s))) (bl_amount b) = false)
    as -> by (apply Qltb_false; exact L).
  main_simpl.
  rewrite (keyed_rowcount bl_id bl_is bl_is_spec bill_id (bills s) bl_active b N F).
  rewrite A. reflexivity.
Qed.

(** Once a bill is not active, no call on it succeeds. *)
Lemma run_pays_inactive bill_id payers : forall s b,
  find (bl_is bill_id) (bills s) = Some b -> bl_active b = false ->
  run_pays bill_id payers s = (s, map (fun _ => Failed Unavailable) payers).
Proof.
  induction payers as [| p payers IH]; intros s b F A; simpl; [reflexivity |].
  destruct (pay_refusals bill_id p s) as [_ R].
  destruct (R b F) as [R1 _]. rewrite (R1 A).
  rewrite (IH s b F A). reflexivity.
Qed.

Lemma successes_all_failed {A : Type} (l : list A) (why : failure) :
  successes (map (fun _ => Failed why) l) = O.
Proof. unfold successes. induction l; simpl; auto. Qed.

(** In a run of calls on one bill at most one succeeds, and if none does
    the database is unchanged. *)
Lemma run_pays_at_most_one bill_id payers : forall s,
  (successes (snd (run_pays bill_id payers s)) <= 1)%nat
  /\ (successes (snd (run_pays bill_id payers s)) = O ->
      fst (run_pays bill_id payers s) = s).
Proof.
  induction payers as [| p payers IH]; intro s; simpl.
  - unfold successes. simpl. split; [lia | reflexivity].
  - destruct (pay_bill_uwt bill_id p s) as [s1 r] eqn:E.
    destruct (is_done r) eqn:D.
    + destruct r; try discriminate.
      pose proof (pay_done_inv bill_id p s) as H. rewrite E in H.
      destruct (H eq_refl) as [b [_ [_ [_ [_ [_ [_ [_ F']]]]]]]].
      simpl in F'.
      rewrite (run_pays_inactive bill_id payers s1 _ F' eq_refl).
      unfold successes. simpl.
      fold (successes (map (fun _ : Z => Failed Unavailable) payers)).
      rewrite successes_all_failed. split; [lia | discriminate].
    + assert (s1 = s) as ->.
      { pose proof (pay_failed_unchanged bill_id p s) as U. rewrite E in U.
        simpl in U. apply U. intros ->. discriminate. }
      destruct (IH s) as [I1 I2].
      destruct (run_pays bill_id payers s) as [s2 rs]. simpl in *.
      unfold successes in *. simpl. rewrite D. auto.
Qed.

End BillFacts.

Section Bill3Facts.

Import Main3.

Lemma bl_has_token_spec (k : string) (b : bill) :
  bl_has_token k b = true <-> bl_token b = k.
Proof. unfold bl_has_token. apply String.eqb_eq. Qed.

Lemma pay3_failed_unchanged token payer s :
  snd (pay_bill_by_token token payer s) <> Done ->
  fst (pay_bill_by_token token payer s) = s.
Proof.
  unfold pay_bill_by_token.
  destruct (find (bl_has_token token) (bills s)) as [b |]; [| reflexivity].
  destruct (negb (bl_active b)); [reflexivity |].
  destruct (bl_creator b =? payer)%Z; [reflexivity |].
  destruct (Qltb _ _); [reflexivity |].
  destruct (negb _); [reflexivity |].
  simpl. congruence.
Qed.

Lemma pay3_refusals token payer s :
  (find (bl_has_token token) (bills s) = None ->
   pay_bill_by_token token payer s = (s, Failed NotFound))
  /\ (forall b, find (bl_has_token token) (bills s) = Some b ->
        (bl_active b = false ->
         pay_bill_by_token token payer s = (s, Failed Unavailable))
        /\ (bl_active b = true -> bl_creator b = payer ->
            pay_bill_by_token token payer s = (s, Failed SelfPay))
        /\ (bl_active b = true -> bl_creator b <> payer ->
            fst (get_balances payer (users s)) + eps < bl_amount b ->
            pay_bill_by_token token payer s = (s, Failed Insufficient))).
Proof.
  unfold pay_bill_by_token. split.
  - intros ->. reflexivity.
  - intros b ->. split; [| split].
    + intros ->. reflexivity.
    + intros -> <-. simpl. rewrite Z.eqb_refl. reflexivity.
    + intros -> N L. simpl.
      assert ((bl_creator b =? payer)%Z = false) as ->
        by (apply Z.eqb_neq; exact N).
      assert (Qltb (fst (get_balances payer (users s)) + eps) (bl_amount b)
              = true) as -> by (apply Qltb_true; exact L).
      reflexivity.
Qed.

Lemma pay3_done_inv token payer s :
  snd (pay_bill_by_token token payer s) = Done ->
  exists b,
    find (bl_has_token token) (bills s) = Some b
    /\ bl_active b = true
    /\ bl_creator b <> payer
    /\ bl_amount b <= fst (get_balances payer (users s)) + eps
    /\ let s' := fst (pay_bill_by_token token payer s) in
       users s' = upd_uwt (bl_amount b) (bl_creator b)
                    (upd_uwt (- bl_amount b) payer (users s))
       /\ bills s' = update_where (fun r => bl_has_token token r && bl_active r)
                       (paid_by payer) (bills s)
       /\ tx s' = tx s ++ [mkTx payer "UWT" (- bl_amount b) "bill_pay";
                           mkTx (bl_creator b) "UWT" (bl_amount b) "bill_receive"]
       /\ find (bl_has_token token) (bills s') = Some (paid_by payer b).
Proof.
  unfold pay_bill_by_token.
  destruct (find (bl_has_token token) (bills s)) as [b |] eqn:F; [| discriminate].
  destruct (bl_active b) eqn:A; simpl; [| discriminate].
  destruct (bl_creator b =? payer)%Z eqn:C; [discriminate |].
  destruct (Qltb _ _) eqn:L; [discriminate |].
  destruct (negb _) eqn:RC; [discriminate |].
  intros _. exists b. main3_simpl.
  split; [reflexivity |]. split; [exact A |].
  split; [apply Z.eqb_neq; exact C |].
  split; [apply Qltb_false; exact L |].
  split; [reflexivity |]. split; [reflexivity |].
  split; [rewrite <- app_assoc; reflexivity |].
  rewrite (keyed_find_update bl_token bl_has_token bl_has_token_spec token
             (bills s) (fun r => bl_has_token token r && bl_active r)
             (paid_by payer) b); [| reflexivity | exact F].
  rewrite A. assert (bl_has_token token b = true) as ->.
  { apply find_some in F. tauto. }
  reflexivity.
Qed.

Lemma pay3_succeeds token payer s b :
  NoDup (map bl_token (bills s)) ->
  find (bl_has_token token) (bills s) = Some b ->
  bl_active b = true -> bl_creator b <> payer ->
  bl_amount b <= fst (get_balances payer (users s)) + eps ->
  snd (pay_bill_by_token token payer s) = Done.
Proof.
  intros N F A C L. unfold pay_bill_by_token. rewrite F, A. simpl.
  assert ((bl_creator b =? payer)%Z = false) as ->
    by (apply Z.eqb_neq; exact C).
  assert (Qltb (fst (get_balances payer (users s)) + eps) (bl_amount b) = false)
    as -> by (apply Qltb_false; exact L).
  rewrite (keyed_rowcount bl_token bl_has_token bl_has_token_spec token
             (bills s) bl_active b N F).
  rewrite A. reflexivity.
Qed.

Lemma run_pays3_inactive token payers : forall s b,
  find (bl_has_token token) (bills s) = Some b -> bl_active b = false ->
  run_pays token payers s = (s, map (fun _ => Failed Unavailable) payers).
Proof.
  induction payers as [| p payers IH]; intros s b F A; simpl; [reflexivity |].
  destruct (pay3_refusals token p s) as [_ R].
  destruct (R b F) as [R1 _]. rewrite (R1 A).
  rewrite (IH s b F A). reflexivity.
Qed.

Lemma run_pays3_at_most_one token payers : forall s,
  (successes (snd (run_pays token payers s)) <= 1)%nat
  /\ (successes (snd (run_pays token payers s)) = O ->
      fst (run_pays token payers s) = s).
Proof.
  induction payers as [| p payers IH]; intro s; simpl.
  - unfold successes. simpl. split; [lia | reflexivity].
  - destruct (pay_bill_by_token token p s) as [s1 r] eqn:E.
    destruct (is_done r) eqn:D.
    + destruct r; try discriminate.
      pose proof (pay3_done_inv token p s) as H. rewrite E in H.
      destruct (H eq_refl) as [b [_ [_ [_ [_ [_ [_ [_ F']]]]]]]].
      simpl in F'.
      rewrite (run_pays3_inactive token payers s1 _ F' eq_refl).
      unfold successes. simpl.
      fold (successes (map (fun _ : Z => Failed Unavailable) payers)).
      rewrite successes_all_failed. split; [lia | discriminate].
    + assert (s1 = s) as ->.
      { pose proof (pay3_failed_unchanged token p s) as U. rewrite E in U.
        simpl in U. apply U. intros ->. discriminate. }
      destruct (IH s) as [I1 I2].
      destruct (run_pays token payers s) as [s2 rs]. simpl in *.
      unfold successes in *. simpl. rewrite D. auto.
Qed.

End Bill3Facts.

(** C3, the counterexample.  [main3.py] (and [main1.py]): a payer who
    holds 0 UWT pays a bill of 1e-12 UWT, since the balance test admits a
    shortfall of 1e-12; the claim has every payment from a balance below
    the amount fail.  [main.py]: a run of two calls by the creator of the
    bill has no success; the claim has every run contain exactly one. *)
Lemma C3_counterexample :
  ~ (fst (get_balances 2 (Main3.users Scenario.dust_bill_db)) < eps ->
     snd (Main3.pay_bill_by_token "tok" 2 Scenario.dust_bill_db) <> Done)
  /\ ~ (successes (snd (Main.run_pays "b1" [1%Z; 1%Z] Scenario.bill_db))
        = 1%nat).
Proof.
  split.
  - intro H. apply H; reflexivity.
  - vm_compute. discriminate.
Qed.

(** C3, amended.  With unique bill ids ([main.py]) and tokens ([main3.py],
    [main1.py]): [pay] is refused for an unknown bill, a bill that is not
    active, a payer who is the creator, and a balance below the amount
    (in [main3.py]: below it by more than 1e-12), and a refused call
    leaves the whole database unchanged.  Otherwise the call succeeds:
    the bill row becomes [paid] by the payer, the payer's account is
    debited and the creator's credited by the amount, in the same commit.
    In every run of calls on the bill at most one succeeds, and a run
    without a success changes nothing. *)
Theorem C3_pay_bill_at_most_once
    (s : Main.db) (s3 : Main3.db) (bill_id token : string) (payer : Z) :
  NoDup (map Main.bl_id (Main.bills s)) ->
  NoDup (map Main3.bl_token (Main3.bills s3)) ->
  ((snd (Main.pay_bill_uwt bill_id payer s) <> Done ->
    fst (Main.pay_bill_uwt bill_id payer s) = s)
   /\ (find (Main.bl_is bill_id) (Main.bills s) = None ->
       Main.pay_bill_uwt bill_id payer s = (s, Failed NotFound))
   /\ (forall b, find (Main.bl_is bill_id) (Main.bills s) = Some b ->
         (Main.bl_active b = false ->
          Main.pay_bill_uwt bill_id payer s = (s, Failed Unavailable))
         /\ (Main.bl_active b = true -> Main.bl_creator b = payer ->
             Main.pay_bill_uwt bill_id payer s = (s, Failed SelfPay))
         /\ (Main.bl_active b = true -> Main.bl_creator b <> payer ->
             fst (get_balances payer (Main.users s)) < Main.bl_amount b ->
             Main.pay_bill_uwt bill_id payer s = (s, Failed Insufficient))
         /\ (Main.bl_active b = true -> Main.bl_creator b <> payer ->
             Main.bl_amount b <= fst (get_balances payer (Main.users s)) ->
             let s' := fst (Main.pay_bill_uwt bill_id payer s) in
             snd (Main.pay_bill_uwt bill_id payer s) = Done
             /\ find (Main.bl_is bill_id) (Main.bills s')
                = Some (Main.paid_by payer b)
             /\ (registered payer (Main.users s) = true ->
                 fst (get_balances payer (Main.users s'))
                 == fst (get_balances payer (Main.users s)) - Main.bl_amount b)
             /\ (registered (Main.bl_creator b) (Main.users s) = true ->
                 fst (get_balances (Main.bl_creator b) (Main.users s'))
                 == fst (get_balances (Main.bl_creator b) (Main.users s))
                    + Main.bl_amount b)))
   /\ (forall payers,
         (successes (snd (Main.run_pays bill_id payers s)) <= 1)%nat
         /\ (successes (snd (Main.run_pays bill_id payers s)) = O ->
             fst (Main.run_pays bill_id payers s) = s)))
  /\ ((snd (Main3.pay_bill_by_token token payer s3) <> Done ->
       fst (Main3.pay_bill_by_token token payer s3) = s3)
      /\ (find (Main3.bl_has_token token) (Main3.bills s3) = None ->
          Main3.pay_bill_by_token token payer s3 = (s3, Failed NotFound))
      /\ (forall b, find (Main3.bl_has_token token) (Main3.bills s3) = Some b ->
            (Main3.bl_active b = false ->
             Main3.pay_bill_by_token token payer s3 = (s3, Failed Unavailable))
            /\ (Main3.bl_active b = true -> Main3.bl_creator b = payer ->
                Main3.pay_bill_by_token token payer s3 = (s3, Failed SelfPay))
            /\ (Main3.bl_active b = true -> Main3.bl_creator b <> payer ->
                fst (get_balances payer (Main3.users s3)) + eps
                < Main3.bl_amount b ->
                Main3.pay_bill_by_token token payer s3
                = (s3, Failed Insufficient))
            /\ (Main3.bl_active b = true -> Main3.bl_creator b <> payer ->
                Main3.bl_amount b
                <= fst (get_balances payer (Main3.users s3)) + eps ->
                let s' := fst (Main3.pay_bill_by_token token payer s3) in
                snd (Main3.pay_bill_by_token token payer s3) = Done
                /\ find (Main3.bl_has_token token) (Main3.bills s')
                   = Some (Main3.paid_by payer b)
                /\ (registered payer (Main3.users s3) = true ->
                    fst (get_balances payer (Main3.users s'))
                    == fst (get_balances payer (Main3.users s3))
                       - Main3.bl_amount b)
                /\ (registered (Main3.bl_creator b) (Main3.users s3) = true ->
                    fst (get_balances (Main3.bl_creator b) (Main3.users s'))
                    == fst (get_balances (Main3.bl_creator b) (Main3.users s3))
                       + Main3.bl_amount b)))
      /\ (forall payers,
            (successes (snd (Main3.run_pays token payers s3)) <= 1)%nat
            /\ (successes (snd (Main3.run_pays token payers s3)) = O ->
                fst (Main3.run_pays token payers s3) = s3))).
Proof.
  intros N N3. split.
  - split; [apply pay_failed_unchanged |].
    destruct (pay_refusals bill_id payer s) as [R0 R].
    split; [exact R0 |]. split; [| intro payers; apply run_pays_at_most_one].
    intros b F. destruct (R b F) as [R1 [R2 R3]].
    split; [exact R1 |]. split; [exact R2 |]. split; [exact R3 |].
    intros A C L. cbv zeta.
    pose proof (pay_succeeds bill_id payer s b N F A C L) as D.
    destruct (pay_done_inv bill_id payer s D)
      as [b' [F' [_ [_ [_ [Hu [_ [_ Hf]]]]]]]].
    rewrite F in F'. injection F' as <-.
    split; [exact D |]. split; [exact Hf |].
    rewrite Hu. split; intro Rg.
    + rewrite get_uwt_upd_uwt, get_uwt_upd_uwt, registered_upd_uwt, Rg.
      rewrite Z.eqb_refl.
      assert ((Main.bl_creator b =? payer)%Z = false) as ->
        by (apply Z.eqb_neq; exact C).
      simpl. lra.
    + rewrite get_uwt_upd_uwt, get_uwt_upd_uwt, registered_upd_uwt, Rg.
      rewrite Z.eqb_refl.
      assert ((payer =? Main.bl_creator b)%Z = false) as ->
        by (apply Z.eqb_neq; congruence).
      simpl. lra.
  - split; [apply pay3_failed_unchanged |].
    destruct (pay3_refusals token payer s3) as [R0 R].
    split; [exact R0 |]. split; [| intro payers; apply run_pays3_at_most_one].
    intros b F. destruct (R b F) as [R1 [R2 R3]].
    split; [exact R1 |]. split; [exact R2 |]. split; [exact R3 |].
    intros A C L. cbv zeta.
    pose proof (pay3_succeeds token payer s3 b N3 F A C L) as D.
    destruct (pay3_done_inv token payer s3 D)
      as [b' [F' [_ [_ [_ [Hu [_ [_ Hf]]]]]]]].
    rewrite F in F'. injection F' as <-.
    split; [exact D |]. split; [exact Hf |].
    rewrite Hu. split; intro Rg.
    + rewrite get_uwt_upd_uwt, get_uwt_upd_uwt, registered_upd_uwt, Rg.
      rewrite Z.eqb_refl.
      assert ((Main3.bl_creator b =? payer)%Z = false) as ->
        by (apply Z.eqb_neq; exact C).
      simpl. lra.
    + rewrite get_uwt_upd_uwt, get_uwt_upd_uwt, registered_upd_uwt, Rg.
      rewrite Z.eqb_refl.
      assert ((payer =? Main3.bl_creator b)%Z = false) as ->
        by (apply Z.eqb_neq; congruence).
      simpl. lra.
Qed.

Lemma C3_witness :
  snd (Main.pay_bill_uwt "b1" 2 Scenario.bill_db) = Done
  /\ snd (Main3.pay_bill_by_token "tok" 2 Scenario.bill3_db) = Done.
Proof.
  assert (N : NoDup (map Main.bl_id (Main.bills Scenario.bill_db)))
    by (repeat constructor; simpl; tauto).
  assert (N3 : NoDup (map Main3.bl_token (Main3.bills Scenario.bill3_db)))
    by (repeat constructor; simpl; tauto).
  destruct (C3_pay_bill_at_most_once Scenario.bill_db Scenario.bill3_db
              "b1" "tok" 2 N N3) as [[_ [_ [H _]]] [_ [_ [H3 _]]]].
  split.
  - destruct (H _ eq_refl) as [_ [_ [_ K]]].
    refine (proj1 (K eq_refl _ _)).
    + discriminate.
    + vm_compute. discriminate.
  - destruct (H3 _ eq_refl) as [_ [_ [_ K]]].
    refine (proj1 (K eq_refl _ _)).
    + discriminate.
    + vm_compute. discriminate.
Defined.

(** * The ledger: sums of balances under the updates of the code *)

Section LedgerSums.

Lemma total_if_const {R : Type} (p : R -> bool) (d : Q) (l : list R) :
  total (fun r => if p r then d else 0) l
  == d * inject_Z (Z.of_nat (rowcount p l)).
Proof.
  unfold rowcount. induction l as [| a l IH]; simpl.
  - unfold inject_Z. simpl. lra.
  - rewrite IH. destruct (p a); simpl List.length; [| lra].
    rewrite Nat2Z.inj_succ. unfold Z.succ. rewrite inject_Z_plus.
    unfold inject_Z at 3. lra.
Qed.

Lemma sum_uwt_upd_uwt d id us :
  sum_uwt (upd_uwt d id us) == sum_uwt us + d * occ id us.
Proof.
  unfold sum_uwt, upd_uwt, occ. rewrite total_update_where.
  rewrite <- (total_if_const (has_id id) d us).
  apply Qplus_comp; [reflexivity |].
  apply total_ext. intros u _. destruct (has_id id u); simpl; lra.
Qed.

Lemma sum_rub_upd_uwt d id us : sum_rub (upd_uwt d id us) == sum_rub us.
Proof.
  unfold sum_rub, upd_uwt.
  match goal with
  | |- total ?f (update_where ?p ?g ?l) == _ =>
    pose proof (total_update_where f p g l) as H
  end.
  match type of H with
  | _ == _ + ?t =>
    assert (Z : t == 0)
      by (apply total_zero; intros u _; destruct (has_id id u); simpl; lra)
  end.
  lra.
Qed.

Lemma sum_rub_upd_rub d id us :
  sum_rub (upd_rub d id us) == sum_rub us + d * occ id us.
Proof.
  unfold sum_rub, upd_rub, occ. rewrite total_update_where.
  rewrite <- (total_if_const (has_id id) d us).
  apply Qplus_comp; [reflexivity |].
  apply total_ext. intros u _. destruct (has_id id u); simpl; lra.
Qed.

Lemma sum_uwt_upd_rub d id us : sum_uwt (upd_rub d id us) == sum_uwt us.
Proof.
  unfold sum_uwt, upd_rub.
  match goal with
  | |- total ?f (update_where ?p ?g ?l) == _ =>
    pose proof (total_update_where f p g l) as H
  end.
  match type of H with
  | _ == _ + ?t =>
    assert (Z : t == 0)
      by (apply total_zero; intros u _; destruct (has_id id u); simpl; lra)
  end.
  lra.
Qed.

Lemma sum_uwt_upd_both du dr id us :
  sum_uwt (Main.upd_both du dr id us) == sum_uwt us + du * occ id us.
Proof.
  unfold sum_uwt, Main.upd_both, occ. rewrite total_update_where.
  rewrite <- (total_if_const (has_id id) du us).
  apply Qplus_comp; [reflexivity |].
  apply total_ext. intros u _. destruct (has_id id u); simpl; lra.
Qed.

Lemma sum_rub_upd_both du dr id us :
  sum_rub (Main.upd_both du dr id us) == sum_rub us + dr * occ id us.
Proof.
  unfold sum_rub, Main.upd_both, occ. rewrite total_update_where.
  rewrite <- (total_if_const (has_id id) dr us).
  apply Qplus_comp; [reflexivity |].
  apply total_ext. intros u _. destruct (has_id id u); simpl; lra.
Qed.

Lemma ids_upd_both du dr id us :
  map tg_id (Main.upd_both du dr id us) = map tg_id us.
Proof. apply map_update_where. reflexivity. Qed.

Lemma rowcount_ids id us :
  rowcount (has_id id) us = rowcount (fun k => (k =? id)%Z) (map tg_id us).
Proof.
  unfold rowcount, has_id. induction us as [| a us IH]; simpl; [reflexivity |].
  destruct (tg_id a =? id)%Z; simpl; rewrite IH; reflexivity.
Qed.

Lemma occ_ids id us us' :
  map tg_id us' = map tg_id us -> occ id us' = occ id us.
Proof. intro E. unfold occ. rewrite !rowcount_ids, E. reflexivity. Qed.

Lemma occ_upd_uwt i d id us : occ i (upd_uwt d id us) = occ i us.
Proof. apply occ_ids, ids_upd_uwt. Qed.

Lemma occ_upd_rub i d id us : occ i (upd_rub d id us) = occ i us.
Proof. apply occ_ids, ids_upd_rub. Qed.

Lemma occ_upd_both i du dr id us : occ i (Main.upd_both du dr id us) = occ i us.
Proof. apply occ_ids, ids_upd_both. Qed.

Lemma registered_upd_both i du dr id us :
  registered i (Main.upd_both du dr id us) = registered i us.
Proof. apply registered_ids, ids_upd_both. Qed.

Lemma occ_one id us :
  NoDup (map tg_id us) -> registered id us = true -> occ id us = 1.
Proof.
  intros N R. apply registered_find in R. destruct R as [u F].
  unfold occ.
  pose proof (keyed_rowcount tg_id has_id has_id_spec id us (fun _ => true) u N F)
    as C.
  assert (E : rowcount (has_id id) us
              = rowcount (fun x => has_id id x && true) us).
  { unfold rowcount. f_equal. apply filter_ext. intro x.
    rewrite andb_true_r. reflexivity. }
  rewrite E, C. reflexivity.
Qed.

Lemma occ_zero id us : registered id us = false -> occ id us = 0.
Proof.
  intro R. unfold occ. rewrite rowcount_zero; [reflexivity |].
  intros u Hu. destruct (has_id id u) eqn:E; [| reflexivity].
  assert (registered id us = true)
    by (unfold registered; apply existsb_exists; eauto).
  congruence.
Qed.

Lemma occ_nonneg id us : 0 <= occ id us.
Proof.
  unfold occ. change 0 with (inject_Z 0). rewrite <- Zle_Qle. lia.
Qed.

(** A positive balance is the balance of an account row. *)
Lemma balance_registered_uwt id us :
  0 < fst (get_balances id us) -> registered id us = true.
Proof.
  unfold get_balances. destruct (find_user id us) as [u |] eqn:F.
  - intros _. apply registered_find. eauto.
  - simpl. intro H. lra.
Qed.

Lemma balance_registered_rub id us :
  0 < snd (get_balances id us) -> registered id us = true.
Proof.
  unfold get_balances. destruct (find_user id us) as [u |] eqn:F.
  - intros _. apply registered_find. eauto.
  - simpl. intro H. lra.
Qed.

(** ** Balances stay at or above zero *)

Lemma nonneg_update (P : user -> Prop) (h : user -> user) id us :
  NoDup (map tg_id us) -> Forall P us ->
  (forall u, find_user id us = Some u -> P u -> P (h u)) ->
  Forall P (update_where (has_id id) h us).
Proof.
  intros N F H. apply Forall_update_where; [exact F |].
  intros r Ir Pr E. apply H; [| exact Pr].
  destruct (find_user id us) as [u |] eqn:Fu.
  - f_equal. destruct (keyed_find_in tg_id has_id has_id_spec _ _ _ Fu) as [Iu Eu].
    apply (keyed_unique tg_id us u r N Iu Ir).
    apply has_id_spec in E. congruence.
  - pose proof (find_none _ _ Fu r Ir). congruence.
Qed.

Lemma nonneg_upd_uwt d id us :
  NoDup (map tg_id us) -> Main.nonneg_balances us ->
  (registered id us = true -> 0 <= fst (get_balances id us) + d) ->
  Main.nonneg_balances (upd_uwt d id us).
Proof.
  intros N F H. apply nonneg_update; [exact N | exact F |].
  intros u Fu [Pu Pr]. simpl. split; [| exact Pr].
  assert (R : registered id us = true) by (apply registered_find; eauto).
  specialize (H R). unfold get_balances in H. rewrite Fu in H. exact H.
Qed.

Lemma nonneg_upd_rub d id us :
  NoDup (map tg_id us) -> Main.nonneg_balances us ->
  (registered id us = true -> 0 <= snd (get_balances id us) + d) ->
  Main.nonneg_balances (upd_rub d id us).
Proof.
  intros N F H. apply nonneg_update; [exact N | exact F |].
  intros u Fu [Pu Pr]. simpl. split; [exact Pu |].
  assert (R : registered id us = true) by (apply registered_find; eauto).
  specialize (H R). unfold get_balances in H. rewrite Fu in H. exact H.
Qed.

Lemma nonneg_upd_both du dr id us :
  NoDup (map tg_id us) -> Main.nonneg_balances us ->
  (registered id us = true ->
   0 <= fst (get_balances id us) + du /\ 0 <= snd (get_balances id us) + dr) ->
  Main.nonneg_balances (Main.upd_both du dr id us).
Proof.
  intros N F H. apply nonneg_update; [exact N | exact F |].
  intros u Fu [Pu Pr]. simpl.
  assert (R : registered id us = true) by (apply registered_find; eauto).
  specialize (H R). unfold get_balances in H. rewrite Fu in H. exact H.
Qed.

Lemma nonneg_get id us :
  Main.nonneg_balances us ->
  0 <= fst (get_balances id us) /\ 0 <= snd (get_balances id us).
Proof.
  intro F. unfold get_balances.
  destruct (find_user id us) as [u |] eqn:Fu; simpl; [| lra].
  apply find_some in Fu. destruct Fu as [Iu _].
  unfold Main.nonneg_balances in F. rewrite Forall_forall in F. auto.
Qed.

Lemma nonneg_credit_uwt d id us :
  NoDup (map tg_id us) -> Main.nonneg_balances us -> 0 <= d ->
  Main.nonneg_balances (upd_uwt d id us).
Proof.
  intros N F D. apply nonneg_upd_uwt; auto.
  intros _. pose proof (nonneg_get id us F). lra.
Qed.

Lemma nonneg_credit_rub d id us :
  NoDup (map tg_id us) -> Main.nonneg_balances us -> 0 <= d ->
  Main.nonneg_balances (upd_rub d id us).
Proof.
  intros N F D. apply nonneg_upd_rub; auto.
  intros _. pose proof (nonneg_get id us F). lra.
Qed.

(** ** The log *)

Lemma logged_snoc (p : tx_row -> bool) (a : string) (l : list tx_row) (t : tx_row) :
  logged p a (l ++ [t])
  == logged p a l + (if p t && (tx_asset t =? a)%string then tx_delta t else 0).
Proof. unfold logged. apply total_snoc. Qed.

(** Rows of kinds that [p] leaves out add nothing. *)
Lemma logged_skip (p : tx_row -> bool) (a : string) (l l' : list tx_row) :
  forallb (fun t => negb (p t)) l' = true ->
  logged p a (l ++ l') == logged p a l.
Proof.
  intro F. unfold logged. rewrite total_app.
  match goal with
  | |- _ + ?x == _ => assert (Z : x == 0); [| lra]
  end.
  apply total_zero. intros t I. rewrite forallb_forall in F.
  specialize (F t I). apply negb_true_iff in F. rewrite F. reflexivity.
Qed.

End LedgerSums.

(** ** Totals over a table with unique keys, under an update by key *)

Section KeyedTotals.
Context {R K : Type} (key : R -> K) (isk : K -> R -> bool).
Hypothesis is_spec : forall k r, isk k r = true <-> key r = k.

Lemma keyed_total_update_if (f : R -> Q) (c : R -> bool) (g : R -> R) k l r :
  NoDup (map key l) -> find (isk k) l = Some r ->
  total f (update_where (fun x => isk k x && c x) g l)
  == total f l + (if c r then f (g r) - f r else 0).
Proof.
  intros N F. rewrite total_update_where.
  apply Qplus_comp; [reflexivity |].
  rewrite <- (keyed_total key isk is_spec k l
                (fun x => if c x then f (g x) - f x else 0) r N F).
  apply total_ext. intros x _. destruct (isk k x); reflexivity.
Qed.

Lemma keyed_total_update (f : R -> Q) (g : R -> R) k l r :
  NoDup (map key l) -> find (isk k) l = Some r ->
  total f (update_where (isk k) g l) == total f l + (f (g r) - f r).
Proof.
  intros N F. rewrite total_update_where.
  apply Qplus_comp; [reflexivity |].
  apply (keyed_total key isk is_spec k l (fun x => f (g x) - f x) r N F).
Qed.

Lemma keyed_in_find k l r :
  NoDup (map key l) -> In r l -> key r = k -> find (isk k) l = Some r.
Proof.
  intros N I E.
  destruct (find (isk k) l) as [r' |] eqn:F.
  - destruct (keyed_find_in key isk is_spec _ _ _ F) as [I' E'].
    f_equal. apply (keyed_unique key l r' r N I' I). congruence.
  - pose proof (find_none _ _ F r I) as X.
    assert (isk k r = true) by (apply is_spec; exact E). congruence.
Qed.

End KeyedTotals.

(** ** Well-formedness under the setters *)

Section WellFormed.

Import Main.

Lemma rows_ok_accounts us us' s :
  (forall i, registered i us = true -> registered i us' = true) ->
  rows_ok us s -> rows_ok us' s.
Proof.
  intros M [C [B [D [O [G [P Ch]]]]]].
  unfold rows_ok, ok_bill, ok_deposit, ok_order, ok_giveaway, ok_participant,
    ok_channel in *.
  repeat split; try exact C;
    eapply Forall_impl; try eassumption; cbv beta; intros; intuition auto.
Qed.

Lemma wf_set_users f s :
  map tg_id (f (users s)) = map tg_id (users s) ->
  wf s -> wf (set_users f s).
Proof.
  intros E [N [Rt [Ks Rs]]]. unfold wf. main_simpl.
  split; [rewrite E; exact N |]. split; [exact Rt |]. split; [exact Ks |].
  apply (rows_ok_accounts (users s)); [| exact Rs].
  intros i Hi. rewrite (registered_ids i _ _ E). exact Hi.
Qed.

Lemma wf_log i a d k s : wf s -> wf (log i a d k s).
Proof. intro W. exact W. Qed.

Lemma wf_set_rate v s : 0 < v -> wf s -> wf (set_rate v s).
Proof.
  intros V [N [Rt [Ks Rs]]]. unfold wf. main_simpl. auto.
Qed.

Lemma wf_set_trades f s : wf s -> wf (set_trades f s).
Proof. intro W. exact W. Qed.

Lemma wf_set_channel_subs f s : wf s -> wf (set_channel_subs f s).
Proof. intro W. exact W. Qed.

Lemma wf_set_checks f s :
  NoDup (map ck_id (f (checks s))) -> Forall ok_check (f (checks s)) ->
  wf s -> wf (set_checks f s).
Proof.
  intros Nk Fk [N [Rt [[K1 [K2 [K3 [K4 K5]]]] [C [B [D [O [G [P Ch]]]]]]]]].
  unfold wf, keys_ok, rows_ok. main_simpl. tauto.
Qed.

Lemma wf_set_bills f s :
  NoDup (map bl_id (f (bills s))) -> Forall (ok_bill (users s)) (f (bills s)) ->
  wf s -> wf (set_bills f s).
Proof.
  intros Nk Fk [N [Rt [[K1 [K2 [K3 [K4 K5]]]] [C [B [D [O [G [P Ch]]]]]]]]].
  unfold wf, keys_ok, rows_ok. main_simpl. tauto.
Qed.

Lemma wf_set_deposits f s :
  NoDup (map dp_id (f (deposits s))) ->
  Forall (ok_deposit (users s)) (f (deposits s)) ->
  wf s -> wf (set_deposits f s).
Proof.
  intros Nk Fk [N [Rt [[K1 [K2 [K3 [K4 K5]]]] [C [B [D [O [G [P Ch]]]]]]]]].
  unfold wf, keys_ok, rows_ok. main_simpl. tauto.
Qed.

Lemma wf_set_orders f s :
  NoDup (map or_id (f (orders s))) ->
  Forall (ok_order (users s)) (f (orders s)) ->
  wf s -> wf (set_orders f s).
Proof.
  intros Nk Fk [N [Rt [[K1 [K2 [K3 [K4 K5]]]] [C [B [D [O [G [P Ch]]]]]]]]].
  unfold wf, keys_ok, rows_ok. main_simpl. tauto.
Qed.

Lemma wf_set_giveaways f s :
  NoDup (map gw_id (f (giveaways s))) ->
  Forall (ok_giveaway (users s)) (f (giveaways s)) ->
  wf s -> wf (set_giveaways f s).
Proof.
  intros Nk Fk [N [Rt [[K1 [K2 [K3 [K4 K5]]]] [C [B [D [O [G [P Ch]]]]]]]]].
  unfold wf, keys_ok, rows_ok. main_simpl. tauto.
Qed.

Lemma wf_set_participants f s :
  Forall (ok_participant (users s)) (f (participants s)) ->
  wf s -> wf (set_participants f s).
Proof.
  intros Fk [N [Rt [[K1 [K2 [K3 [K4 K5]]]] [C [B [D [O [G [P Ch]]]]]]]]].
  unfold wf, keys_ok, rows_ok. main_simpl. tauto.
Qed.

Lemma wf_set_channels f s :
  Forall (ok_channel (users s)) (f (channels s)) ->
  wf s -> wf (set_channels f s).
Proof.
  intros Fk [N [Rt [[K1 [K2 [K3 [K4 K5]]]] [C [B [D [O [G [P Ch]]]]]]]]].
  unfold wf, keys_ok, rows_ok. main_simpl. tauto.
Qed.

(** Projections of [wf]. *)
Lemma wf_user_ids s : wf s -> NoDup (map tg_id (users s)).
Proof. intros [N _]. exact N. Qed.

Lemma wf_rate s : wf s -> 0 < rate s.
Proof. intros [_ [R _]]. exact R. Qed.

Lemma wf_check_ids s : wf s -> NoDup (map ck_id (checks s)).
Proof. intros [_ [_ [[K _] _]]]. exact K. Qed.

Lemma wf_bill_ids s : wf s -> NoDup (map bl_id (bills s)).
Proof. intros [_ [_ [[_ [K _]] _]]]. exact K. Qed.

Lemma wf_deposit_ids s : wf s -> NoDup (map dp_id (deposits s)).
Proof. intros [_ [_ [[_ [_ [K _]]] _]]]. exact K. Qed.

Lemma wf_order_ids s : wf s -> NoDup (map or_id (orders s)).
Proof. intros [_ [_ [[_ [_ [_ [K _]]]] _]]]. exact K. Qed.

Lemma wf_giveaway_ids s : wf s -> NoDup (map gw_id (giveaways s)).
Proof. intros [_ [_ [[_ [_ [_ [_ K]]]] _]]]. exact K. Qed.

Lemma wf_checks s : wf s -> Forall ok_check (checks s).
Proof. intros [_ [_ [_ [C _]]]]. exact C. Qed.

Lemma wf_bills s : wf s -> Forall (ok_bill (users s)) (bills s).
Proof. intros [_ [_ [_ [_ [B _]]]]]. exact B. Qed.

Lemma wf_deposits s : wf s -> Forall (ok_deposit (users s)) (deposits s).
Proof. intros [_ [_ [_ [_ [_ [D _]]]]]]. exact D. Qed.

Lemma wf_orders s : wf s -> Forall (ok_order (users s)) (orders s).
Proof. intros [_ [_ [_ [_ [_ [_ [O _]]]]]]]. exact O. Qed.

Lemma wf_giveaways s : wf s -> Forall (ok_giveaway (users s)) (giveaways s).
Proof. intros [_ [_ [_ [_ [_ [_ [_ [G _]]]]]]]]. exact G. Qed.

Lemma wf_participants s :
  wf s -> Forall (ok_participant (users s)) (participants s).
Proof. intros [_ [_ [_ [_ [_ [_ [_ [_ [P _]]]]]]]]]. exact P. Qed.

Lemma wf_channels s : wf s -> Forall (ok_channel (users s)) (channels s).
Proof. intros [_ [_ [_ [_ [_ [_ [_ [_ [_ C]]]]]]]]]. exact C. Qed.

(** A database with the accounts of a well-formed one is well formed as
    soon as its tables are. *)
Lemma wf_change s s' :
  wf s ->
  map tg_id (users s') = map tg_id (users s) ->
  0 < rate s' ->
  (NoDup (map ck_id (checks s')) /\ Forall ok_check (checks s')) ->
  (NoDup (map bl_id (bills s')) /\ Forall (ok_bill (users s)) (bills s')) ->
  (NoDup (map dp_id (deposits s'))
   /\ Forall (ok_deposit (users s)) (deposits s')) ->
  (NoDup (map or_id (orders s')) /\ Forall (ok_order (users s)) (orders s')) ->
  (NoDup (map gw_id (giveaways s'))
   /\ Forall (ok_giveaway (users s)) (giveaways s')) ->
  Forall (ok_participant (users s)) (participants s') ->
  Forall (ok_channel (users s)) (channels s') ->
  wf s'.
Proof.
  intros W E Rt [N1 F1] [N2 F2] [N3 F3] [N4 F4] [N5 F5] F6 F7.
  unfold wf, keys_ok.
  split; [rewrite E; apply wf_user_ids; exact W |].
  split; [exact Rt |]. split; [tauto |].
  apply (rows_ok_accounts (users s)).
  - intros i Hi. rewrite (registered_ids i _ _ E). exact Hi.
  - unfold rows_ok. tauto.
Qed.

Lemma wf_init : wf init_db.
Proof.
  unfold wf, keys_ok, rows_ok, init_db. main_simpl.
  repeat split; try constructor.
Qed.

End WellFormed.

Section EscrowSums.

Import Main.

Lemma escrow_checks_snoc cs c :
  escrow_checks (cs ++ [c])
  == escrow_checks cs + (if ck_active c then ck_amount c else 0).
Proof. unfold escrow_checks. apply total_snoc. Qed.

Lemma escrow_sells_snoc os o :
  escrow_sells (os ++ [o])
  == escrow_sells os + (if or_open o && or_sell o then or_amount o else 0).
Proof. unfold escrow_sells. apply total_snoc. Qed.

Lemma escrow_buys_snoc os o :
  escrow_buys (os ++ [o])
  == escrow_buys os
     + (if or_open o && or_buy o then or_price o * or_amount o else 0).
Proof. unfold escrow_buys. apply total_snoc. Qed.

Lemma escrow_giveaways_snoc gs g :
  escrow_giveaways (gs ++ [g])
  == escrow_giveaways gs + (if gw_active g then gw_amount g else 0).
Proof. unfold escrow_giveaways. apply total_snoc. Qed.

End EscrowSums.

(** * Every operation of [main.py]: well-formedness, drift, balances *)

(** Evaluates the comparisons of literal strings. *)
Ltac eval_literals :=
  repeat match goal with
  | |- context [String.eqb ?a ?b] =>
    let v := eval vm_compute in (String.eqb a b) in
    lazymatch v with
    | true => change (String.eqb a b) with true
    | false => change (String.eqb a b) with false
    end
  end;
  cbn [andb orb negb].

(** Pushes the sums through the updates of the code. *)
Ltac ledger_norm :=
  unfold Main.conserves, Main.never_gains, Main.drift_uwt, Main.drift_rub,
    Main.held_uwt, Main.held_rub, Main.escrow_uwt, Main.escrow_rub,
    Main.minted, Main.exchanged;
  main_simpl;
  repeat first
    [ rewrite sum_uwt_upd_uwt | rewrite sum_uwt_upd_rub
    | rewrite sum_uwt_upd_both | rewrite sum_rub_upd_uwt
    | rewrite sum_rub_upd_rub | rewrite sum_rub_upd_both
    | rewrite occ_upd_uwt | rewrite occ_upd_rub | rewrite occ_upd_both
    | rewrite logged_snoc
    | rewrite escrow_checks_snoc | rewrite escrow_sells_snoc
    | rewrite escrow_buys_snoc | rewrite escrow_giveaways_snoc ];
  unfold Main.is_mint, Main.is_exchange_leg;
  cbn [tx_kind tx_asset tx_delta
       Main.ck_active Main.ck_status Main.ck_amount
       Main.or_open Main.or_status Main.or_sell Main.or_buy Main.or_side
       Main.or_price Main.or_amount
       Main.gw_active Main.gw_status Main.gw_amount negb andb orb];
  eval_literals.

(** Rewrites [occ] of an account row of a well-formed database to 1. *)
Ltac occ_ones :=
  repeat match goal with
  | |- context [occ ?i ?us] =>
    rewrite (occ_one i us) by (first [assumption | auto])
  end.

(** Closes the case of a call that returns the database it was given. *)
Ltac unchanged W :=
  cbn [fst]; split; [exact W | split; [split; reflexivity | auto]].

(** Opens [wf] of the result of an operation: the tables the operation
    left alone are closed from [wf] of the database it started from. *)
Ltac wf_open W :=
  eapply wf_change; [exact W | main_simpl .. ];
  try (split; [apply wf_check_ids | apply wf_checks]; exact W);
  try (split; [apply wf_bill_ids | apply wf_bills]; exact W);
  try (split; [apply wf_deposit_ids | apply wf_deposits]; exact W);
  try (split; [apply wf_order_ids | apply wf_orders]; exact W);
  try (split; [apply wf_giveaway_ids | apply wf_giveaways]; exact W);
  try (apply wf_participants; exact W);
  try (apply wf_channels; exact W);
  try (apply wf_rate; exact W);
  try reflexivity;
  try (first [apply ids_upd_uwt | apply ids_upd_rub | apply ids_upd_both]).

Section OpFacts.

Import Main.

Variable sha256 : string -> string.

Lemma ck_is_spec (k : string) (c : check) : ck_is k c = true <-> ck_id c = k.
Proof. unfold ck_is. apply String.eqb_eq. Qed.

Lemma dp_is_spec (k : string) (d : deposit) : dp_is k d = true <-> dp_id d = k.
Proof. unfold dp_is. apply String.eqb_eq. Qed.

Lemma ensure_user_rows_cases id name us :
  ensure_user_rows id name us = us
  \/ (registered id us = true
      /\ ensure_user_rows id name us
         = update_where (has_id id)
             (fun u => mkUser (tg_id u) (lower name) (uwt u) (rub u)) us)
  \/ (registered id us = false
      /\ ensure_user_rows id name us = us ++ [mkUser id (lower name) 0 0]).
Proof.
  unfold ensure_user_rows.
  destruct (existsb (fun u => (username u =? lower name)%string
                              && negb (has_id id u)) us); [auto |].
  destruct (registered id us); auto.
Qed.

Lemma sound_step_refl s : wf s -> sound_step s s.
Proof.
  intro W. split; [exact W |]. split; [split; reflexivity | auto].
Qed.

Lemma ensure_user_facts id name s :
  wf s -> sound_step s (ensure_user id name s).
Proof.
  intro W. unfold ensure_user.
  destruct (ensure_user_rows_cases id name (users s)) as [E | [[R E] | [R E]]].
  - assert (set_users (ensure_user_rows id name) s = s) as ->
      by (unfold set_users; rewrite E; destruct s; reflexivity).
    apply sound_step_refl. exact W.
  - assert (Ids : map tg_id (ensure_user_rows id name (users s))
                  = map tg_id (users s))
      by (rewrite E; apply map_update_where; reflexivity).
    split; [apply wf_set_users; assumption |]. split.
    + ledger_norm. rewrite E. unfold sum_uwt, sum_rub.
      split.
      * match goal with
        | |- total ?f (update_where ?p ?g ?l) + _ - _ - _ == _ =>
          pose proof (total_update_where f p g l) as H
        end.
        match type of H with
        | _ == _ + ?t =>
          assert (Z : t == 0)
            by (apply total_zero; intros u _; destruct (has_id id u); simpl; lra)
        end.
        lra.
      * match goal with
        | |- total ?f (update_where ?p ?g ?l) + _ - _ - _ == _ =>
          pose proof (total_update_where f p g l) as H
        end.
        match type of H with
        | _ == _ + ?t =>
          assert (Z : t == 0)
            by (apply total_zero; intros u _; destruct (has_id id u); simpl; lra)
        end.
        lra.
    + main_simpl. rewrite E. intro F. apply Forall_update_where; [exact F |].
      intros r _ Pr _. exact Pr.
  - split.
    + destruct W as [N [Rt [Ks Rs]]]. unfold wf. main_simpl. rewrite E.
      split.
      { rewrite map_app. simpl.
        apply NoDup_app; [exact N | repeat constructor; simpl; tauto |].
        intros x Hx [<- | []].
        rewrite registered_map in R.
        pose proof (existsb_false_forall _ _ R _ Hx) as X. simpl in X.
        rewrite Z.eqb_refl in X. discriminate. }
      split; [exact Rt |]. split; [exact Ks |].
      apply (rows_ok_accounts (users s)); [| exact Rs].
      intros i Hi. unfold registered in *. rewrite existsb_app, Hi. reflexivity.
    + split.
      * ledger_norm. rewrite E. unfold sum_uwt, sum_rub. rewrite !total_snoc.
        simpl. split; lra.
      * main_simpl. rewrite E. intro F. apply Forall_app. split; [exact F |].
        repeat constructor; simpl; lra.
Qed.

Lemma find_username_registered nm us r :
  find_username nm us = Some r -> registered (tg_id r) us = true.
Proof.
  intro F. apply find_some in F. destruct F as [I _].
  unfold registered. apply existsb_exists. exists r. split; [exact I |].
  apply has_id_spec. reflexivity.
Qed.

Lemma find_username_balances nm us r :
  NoDup (map tg_id us) -> find_username nm us = Some r ->
  get_balances (tg_id r) us = (uwt r, rub r).
Proof.
  intros N F. apply find_some in F. destruct F as [I _].
  unfold get_balances, find_user.
  rewrite (keyed_in_find tg_id has_id has_id_spec (tg_id r) us r N I eq_refl).
  reflexivity.
Qed.

(** The administrator's adjustment: the drift is kept (the delta is a
    mint or a burn); balances stay at or above zero when the adjustment
    is covered. *)
Lemma adm_bal_facts uname asset amt s :
  wf s ->
  let s' := fst (adm_bal_amount uname asset amt s) in
  wf s' /\ conserves s s'
  /\ (adjustment_covered (OpAdmBal uname asset amt) s ->
      nonneg_balances (users s) -> nonneg_balances (users s')).
Proof.
  intro W. cbv zeta. unfold adm_bal_amount, adjustment_covered.
  pose proof (wf_user_ids s W) as N.
  destruct (find_username uname (users s)) as [r |] eqn:F;
    [| cbn [fst]; split; [exact W | split; [split; reflexivity | auto]]].
  pose proof (find_username_registered _ _ _ F) as R.
  pose proof (find_username_balances _ _ _ N F) as B.
  unfold add_asset.
  destruct (String.eqb_spec asset "UWT") as [-> | NU].
  - cbn [fst]. split; [wf_open W |]. split.
    + ledger_norm. occ_ones. split; lra.
    + main_simpl. intros [C _] Nn. apply nonneg_upd_uwt; [exact N | exact Nn |].
      intros _. rewrite B. simpl. auto.
  - destruct (String.eqb_spec asset "RUB") as [-> | NR].
    + cbn [fst]. split; [wf_open W |]. split.
      * ledger_norm. occ_ones. split; lra.
      * main_simpl. intros [_ C] Nn. apply nonneg_upd_rub; [exact N | exact Nn |].
        intros _. rewrite B. simpl. auto.
    + cbn [fst]. split; [exact W |]. split; [split; reflexivity | auto].
Qed.

Lemma adm_rate_facts v s :
  wf s -> sound_step s (fst (adm_rate_set v s)).
Proof.
  intro W. unfold adm_rate_set.
  destruct (Qleb v 0) eqn:E; [apply sound_step_refl; exact W |].
  apply Qleb_false in E. cbn [fst].
  split; [wf_open W; exact E |].
  split; [ledger_norm; split; lra | auto].
Qed.

Lemma create_deposit_facts dep_id u a s :
  wf s -> registered u (users s) = true ->
  sound_step s (fst (create_rub_deposit dep_id u a s)).
Proof.
  intros W R. unfold create_rub_deposit.
  destruct (Qleb a 0) eqn:E; [apply sound_step_refl; exact W |].
  destruct (existsb (dp_is dep_id) (deposits s)) eqn:X;
    [apply sound_step_refl; exact W |].
  apply Qleb_false in E. cbn [fst].
  split.
  - wf_open W. split.
    + apply (keyed_nodup_snoc dp_id dp_is dp_is_spec dep_id);
        [apply wf_deposit_ids; exact W | exact X | reflexivity].
    + apply Forall_app. split; [apply wf_deposits; exact W |].
      repeat constructor; assumption.
  - split; [ledger_norm; split; lra | auto].
Qed.

Lemma decide_deposit_facts dep_id adm ok s :
  wf s -> sound_step s (fst (decide_rub_deposit dep_id adm ok s)).
Proof.
  intro W. unfold decide_rub_deposit.
  pose proof (wf_user_ids s W) as N.
  destruct (find (dp_is dep_id) (deposits s)) as [d |] eqn:F;
    [| apply sound_step_refl; exact W].
  destruct (negb (dp_pending d)); [apply sound_step_refl; exact W |].
  destruct (negb _); [apply sound_step_refl; exact W |].
  destruct (keyed_find_in dp_id dp_is dp_is_spec _ _ _ F) as [Id _].
  pose proof (wf_deposits s W) as Fd.
  assert (Okd : ok_deposit (users s) d)
    by (rewrite Forall_forall in Fd; auto).
  destruct Okd as [Pd Rd].
  assert (Tab : forall st,
            NoDup (map dp_id (update_where
                     (fun r => dp_is dep_id r && dp_pending r)
                     (decided st (lower adm)) (deposits s)))
            /\ Forall (ok_deposit (users s))
                 (update_where (fun r => dp_is dep_id r && dp_pending r)
                    (decided st (lower adm)) (deposits s))).
  { intro st. split.
    - rewrite map_update_where by reflexivity. apply wf_deposit_ids. exact W.
    - apply Forall_update_where; [exact Fd |]. intros r _ Pr _. exact Pr. }
  destruct ok; cbn [fst].
  - split; [wf_open W; apply Tab |]. split.
    + ledger_norm. occ_ones. split; lra.
    + main_simpl. intro Nn. apply nonneg_credit_rub; [exact N | exact Nn | lra].
  - split; [wf_open W; apply Tab |].
    split; [ledger_norm; split; lra | auto].
Qed.

Lemma create_check_facts chk_id u a pw s :
  wf s -> sound_step s (fst (create_check sha256 chk_id u a pw s)).
Proof.
  intro W. unfold create_check.
  pose proof (wf_user_ids s W) as N.
  destruct (Qleb a 0) eqn:E; [apply sound_step_refl; exact W |].
  destruct (Qltb _ a) eqn:L; [apply sound_step_refl; exact W |].
  destruct (existsb (ck_is chk_id) (checks s)) eqn:X;
    [apply sound_step_refl; exact W |].
  qtests.
  assert (R : registered u (users s) = true)
    by (apply balance_registered_uwt; lra).
  cbn [fst]. split.
  - wf_open W. split.
    + apply (keyed_nodup_snoc ck_id ck_is ck_is_spec chk_id);
        [apply wf_check_ids; exact W | exact X | reflexivity].
    + apply Forall_app. split; [apply wf_checks; exact W |].
      repeat constructor. exact E.
  - split.
    + ledger_norm. occ_ones. split; lra.
    + main_simpl. intro Nn. apply nonneg_upd_uwt; [exact N | exact Nn |].
      intros _. lra.
Qed.

Lemma claim_check_facts chk_id u pw s :
  wf s -> registered u (users s) = true ->
  sound_step s (fst (claim_check sha256 chk_id u pw s)).
Proof.
  intros W R. unfold claim_check.
  pose proof (wf_user_ids s W) as N.
  destruct (find (ck_is chk_id) (checks s)) as [row |] eqn:F;
    [| apply sound_step_refl; exact W].
  destruct (ck_active row) eqn:A; [| apply sound_step_refl; exact W].
  cbn [negb].
  destruct (truthy (ck_passhash row) && negb (truthy pw));
    [apply sound_step_refl; exact W |].
  destruct (truthy (ck_passhash row) && negb _);
    [apply sound_step_refl; exact W |].
  destruct (negb _); [apply sound_step_refl; exact W |].
  destruct (keyed_find_in ck_id ck_is ck_is_spec _ _ _ F) as [Ir _].
  pose proof (wf_checks s W) as Fc.
  assert (Pa : 0 < ck_amount row)
    by (rewrite Forall_forall in Fc; apply (Fc row Ir)).
  cbn [fst]. split.
  - wf_open W. split.
    + rewrite map_update_where by reflexivity. apply wf_check_ids. exact W.
    + apply Forall_update_where; [exact Fc |]. intros r _ Pr _. exact Pr.
  - split.
    + ledger_norm. occ_ones.
      unfold escrow_checks at 1.
      rewrite (keyed_total_update_if ck_id ck_is ck_is_spec _ ck_active
                 (claimed_by u) chk_id (checks s) row
                 (wf_check_ids s W) F).
      rewrite A. cbn [claimed_by ck_active ck_status ck_amount].
      fold (escrow_checks (checks s)).
      split; lra.
    + main_simpl. intro Nn. apply nonneg_credit_uwt; [exact N | exact Nn | lra].
Qed.

Lemma create_bill_facts bill_id u a s :
  wf s -> registered u (users s) = true ->
  sound_step s (fst (create_bill_uwt bill_id u a s)).
Proof.
  intros W R. unfold create_bill_uwt.
  destruct (Qleb a 0) eqn:E; [apply sound_step_refl; exact W |].
  destruct (existsb (bl_is bill_id) (bills s)) eqn:X;
    [apply sound_step_refl; exact W |].
  qtests. cbn [fst]. split.
  - wf_open W. split.
    + apply (keyed_nodup_snoc bl_id bl_is bl_is_spec bill_id);
        [apply wf_bill_ids; exact W | exact X | reflexivity].
    + apply Forall_app. split; [apply wf_bills; exact W |].
      repeat constructor; assumption.
  - split; [ledger_norm; split; lra | auto].
Qed.

Lemma pay_bill_facts bill_id payer s :
  wf s -> sound_step s (fst (pay_bill_uwt bill_id payer s)).
Proof.
  intro W. unfold pay_bill_uwt.
  pose proof (wf_user_ids s W) as N.
  destruct (find (bl_is bill_id) (bills s)) as [b |] eqn:F;
    [| apply sound_step_refl; exact W].
  destruct (negb (bl_active b)); [apply sound_step_refl; exact W |].
  destruct (bl_creator b =? payer)%Z; [apply sound_step_refl; exact W |].
  destruct (Qltb _ _) eqn:L; [apply sound_step_refl; exact W |].
  destruct (negb _); [apply sound_step_refl; exact W |].
  qtests.
  destruct (keyed_find_in bl_id bl_is bl_is_spec _ _ _ F) as [Ib _].
  pose proof (wf_bills s W) as Fb.
  assert (Ok : ok_bill (users s) b) by (rewrite Forall_forall in Fb; auto).
  destruct Ok as [Pa Rc].
  assert (Rp : registered payer (users s) = true)
    by (apply balance_registered_uwt; lra).
  cbn [fst]. split.
  - wf_open W.
    + rewrite ids_upd_uwt. apply ids_upd_uwt.
    + split.
      * rewrite map_update_where by reflexivity. apply wf_bill_ids. exact W.
      * apply Forall_update_where; [exact Fb |]. intros r _ Pr _. exact Pr.
  - split.
    + ledger_norm. occ_ones. split; lra.
    + main_simpl. intro Nn.
      apply nonneg_credit_uwt; [rewrite ids_upd_uwt; exact N | | lra].
      apply nonneg_upd_uwt; [exact N | exact Nn |]. intros _. lra.
Qed.

Lemma exchange_buy_facts u r s :
  wf s -> sound_step s (fst (exchange_buy_uwt u r s)).
Proof.
  intro W. unfold exchange_buy_uwt.
  pose proof (wf_user_ids s W) as N.
  pose proof (wf_rate s W) as Rt.
  destruct (Qleb r 0) eqn:E; [apply sound_step_refl; exact W |].
  destruct (Qeq_bool (rate s) 0) eqn:Z; [apply sound_step_refl; exact W |].
  destruct (Qltb _ r) eqn:L; [apply sound_step_refl; exact W |].
  qtests.
  assert (R : registered u (users s) = true)
    by (apply balance_registered_rub; lra).
  assert (Pq : 0 < r / rate s).
  { unfold Qdiv. apply Qmult_lt_0_compat; [exact E |].
    apply Qinv_lt_0_compat. exact Rt. }
  set (q := r / rate s) in *.
  cbn [fst]. split; [wf_open W |]. split.
  - ledger_norm. occ_ones. split; lra.
  - main_simpl. intro Nn. apply nonneg_upd_both; [exact N | exact Nn |].
    intros _. pose proof (nonneg_get u (users s) Nn). split; lra.
Qed.

Lemma exchange_sell_facts u a s :
  wf s -> sound_step s (fst (exchange_sell_uwt u a s)).
Proof.
  intro W. unfold exchange_sell_uwt.
  pose proof (wf_user_ids s W) as N.
  pose proof (wf_rate s W) as Rt.
  destruct (Qleb a 0) eqn:E; [apply sound_step_refl; exact W |].
  destruct (Qltb _ a) eqn:L; [apply sound_step_refl; exact W |].
  qtests.
  assert (R : registered u (users s) = true)
    by (apply balance_registered_uwt; lra).
  assert (Pq : 0 < a * rate s) by (apply Qmult_lt_0_compat; assumption).
  set (q := a * rate s) in *.
  cbn [fst]. split; [wf_open W |]. split.
  - ledger_norm. occ_ones. split; lra.
  - main_simpl. intro Nn. apply nonneg_upd_both; [exact N | exact Nn |].
    intros _. pose proof (nonneg_get u (users s) Nn). split; lra.
Qed.

Lemma p2p_facts from to a s :
  wf s -> sound_step s (fst (p2p_amount from to a s)).
Proof.
  intro W. unfold p2p_amount.
  pose proof (wf_user_ids s W) as N.
  destruct (Qleb a 0) eqn:E; [apply sound_step_refl; exact W |].
  destruct (find_username to (users s)) as [r |] eqn:F;
    [| apply sound_step_refl; exact W].
  destruct (find_user from (users s)) as [me |] eqn:Fm;
    [| apply sound_step_refl; exact W].
  destruct (Qltb (uwt me) a) eqn:L; [apply sound_step_refl; exact W |].
  qtests.
  pose proof (find_username_registered _ _ _ F) as Rr.
  assert (Rm : registered from (users s) = true)
    by (apply registered_find; eauto).
  cbn [fst]. split.
  - wf_open W. rewrite ids_upd_uwt. apply ids_upd_uwt.
  - split.
    + ledger_norm. occ_ones. split; lra.
    + main_simpl. intro Nn.
      apply nonneg_credit_uwt; [rewrite ids_upd_uwt; exact N | | lra].
      apply nonneg_upd_uwt; [exact N | exact Nn |]. intros _.
      unfold get_balances. rewrite Fm. simpl. lra.
Qed.

(** ** Orders *)

Lemma fill_or_reduce_ids id a os :
  map or_id (fill_or_reduce id a os) = map or_id os.
Proof.
  unfold fill_or_reduce. destruct (Qleb a eps); apply map_update_where;
    reflexivity.
Qed.

Lemma fill_or_reduce_ok us id a os :
  Forall (ok_order us) os -> Forall (ok_order us) (fill_or_reduce id a os).
Proof.
  intro F. unfold fill_or_reduce. destruct (Qleb a eps) eqn:E.
  - apply Forall_update_where; [exact F |].
    intros r _ [P [_ Rg]] _. split; [exact P |]. split; [discriminate | exact Rg].
  - apply Qleb_false in E. pose proof eps_pos.
    apply Forall_update_where; [exact F |].
    intros r _ [P [_ Rg]] _. split; [exact P |]. split; [| exact Rg].
    intros _. simpl. lra.
Qed.

Lemma find_fill_other id id' a os :
  id <> id' ->
  find (or_is id') (fill_or_reduce id a os) = find (or_is id') os.
Proof.
  intro Ne. unfold fill_or_reduce.
  destruct (Qleb a eps); apply find_update_where_other; intros x Hx;
    apply or_is_spec in Hx; split;
    (destruct (or_is id' _) eqn:E; [| reflexivity]);
    apply or_is_spec in E; simpl in E; congruence.
Qed.

Lemma reduced_flags a o :
  or_open (reduced a o) = or_open o /\ or_sell (reduced a o) = or_sell o
  /\ or_buy (reduced a o) = or_buy o /\ or_amount (reduced a o) = a
  /\ or_price (reduced a o) = or_price o.
Proof. repeat split. Qed.

Lemma filled_flags o :
  or_open (filled o) = false /\ or_sell (filled o) = or_sell o
  /\ or_buy (filled o) = or_buy o /\ or_amount (filled o) = 0
  /\ or_price (filled o) = or_price o.
Proof. repeat split. Qed.

Ltac order_flags :=
  repeat match goal with
  | |- context [or_open (reduced ?a ?o)] =>
      rewrite (proj1 (reduced_flags a o))
  | |- context [or_sell (reduced ?a ?o)] =>
      rewrite (proj1 (proj2 (reduced_flags a o)))
  | |- context [or_buy (reduced ?a ?o)] =>
      rewrite (proj1 (proj2 (proj2 (reduced_flags a o))))
  | |- context [or_amount (reduced ?a ?o)] =>
      rewrite (proj1 (proj2 (proj2 (proj2 (reduced_flags a o)))))
  | |- context [or_price (reduced ?a ?o)] =>
      rewrite (proj2 (proj2 (proj2 (proj2 (reduced_flags a o)))))
  | |- context [or_open (filled ?o)] =>
      rewrite (proj1 (filled_flags o))
  | |- context [or_sell (filled ?o)] =>
      rewrite (proj1 (proj2 (filled_flags o)))
  | |- context [or_buy (filled ?o)] =>
      rewrite (proj1 (proj2 (proj2 (filled_flags o))))
  | |- context [or_amount (filled ?o)] =>
      rewrite (proj1 (proj2 (proj2 (proj2 (filled_flags o)))))
  | |- context [or_price (filled ?o)] =>
      rewrite (proj2 (proj2 (proj2 (proj2 (filled_flags o)))))
  end.

Lemma fill_or_reduce_sells id a os o :
  NoDup (map or_id os) -> find (or_is id) os = Some o -> or_open o = true ->
  escrow_sells (fill_or_reduce id a os)
  == escrow_sells os + (if or_sell o then kept a - or_amount o else 0).
Proof.
  intros N F Op. unfold fill_or_reduce, escrow_sells, kept.
  destruct (Qleb a eps);
    rewrite (keyed_total_update or_id or_is or_is_spec _ _ id os o N F);
    order_flags; rewrite Op; cbn [andb]; destruct (or_sell o); lra.
Qed.

Lemma fill_or_reduce_buys id a os o :
  NoDup (map or_id os) -> find (or_is id) os = Some o -> or_open o = true ->
  escrow_buys (fill_or_reduce id a os)
  == escrow_buys os
     + (if or_buy o then or_price o * (kept a - or_amount o) else 0).
Proof.
  intros N F Op. unfold fill_or_reduce, escrow_buys, kept.
  destruct (Qleb a eps);
    rewrite (keyed_total_update or_id or_is or_is_spec _ _ id os o N F);
    order_flags; rewrite Op; cbn [andb]; destruct (or_buy o); lra.
Qed.

Lemma kept_cases a : 0 <= a -> 0 <= kept a <= a.
Proof.
  intro P. unfold kept. destruct (Qleb a eps); lra.
Qed.

End OpFacts.

(** * The order book of [main.py] *)

Section BookFacts.

Import Main.

(** The best buy and the best sell are two rows. *)
Lemma best_rows_differ os buy sell :
  NoDup (map or_id os) ->
  best_buy os = Some buy -> best_sell os = Some sell ->
  or_id buy <> or_id sell.
Proof.
  intros N Bb Bs E.
  destruct (best_buy_in _ _ Bb) as [Ib [_ Sb]].
  destruct (best_sell_in _ _ Bs) as [Is [_ Ss]].
  pose proof (keyed_unique or_id os buy sell N Ib Is E) as X. subst sell.
  unfold or_sell in Ss. rewrite Sb in Ss. discriminate.
Qed.

(** One turn of the matching loop keeps the database well formed, never
    raises the drift of an asset, and only credits accounts. *)
Lemma match_step_facts s s' :
  wf s -> match_step s = Some s' ->
  wf s' /\ never_gains s s'
  /\ (nonneg_balances (users s) -> nonneg_balances (users s')).
Proof.
  intros W M.
  pose proof (wf_user_ids s W) as N.
  pose proof (wf_order_ids s W) as No.
  pose proof (wf_orders s W) as Fo.
  destruct (match_step_inv s s' M)
    as [buy [sell [Bb [Bs [Le [Hu [Ho [Ht [Hx [Hr [Hc [Hb [Hd [Hg [Hp [Hch _]]]]]]]]]]]]]]]].
  destruct (best_buy_in _ _ Bb) as [Ib [Ob Sb]].
  destruct (best_sell_in _ _ Bs) as [Is [Os Ss]].
  pose proof (best_rows_differ _ _ _ No Bb Bs) as Ne.
  rewrite Forall_forall in Fo.
  destruct (Fo buy Ib) as [Pb [Ab Rb]]. destruct (Fo sell Is) as [Ps [As Rs]].
  specialize (Ab Ob). specialize (As Os).
  rewrite <- Forall_forall in Fo.
  pose proof (py_min_pos _ _ Ab As) as Tp.
  pose proof (py_min_l (or_amount buy) (or_amount sell)) as Tl.
  pose proof (py_min_r (or_amount buy) (or_amount sell)) as Tr.
  set (t := py_min (or_amount buy) (or_amount sell)) in *.
  assert (Gp : 0 < t * or_price sell) by (apply Qmult_lt_0_compat; assumption).
  assert (Rf : 0 <= t * or_price buy - t * or_price sell).
  { assert (0 <= t * (or_price buy - or_price sell))
      by (apply Qmult_le_0_compat; lra). lra. }
  pose proof (keyed_in_find or_id or_is or_is_spec _ _ _ No Ib eq_refl) as Fb.
  pose proof (keyed_in_find or_id or_is or_is_spec _ _ _ No Is eq_refl) as Fs.
  assert (Fs' : find (or_is (or_id sell))
                  (fill_or_reduce (or_id buy) (or_amount buy - t) (orders s))
                = Some sell)
    by (rewrite find_fill_other; assumption).
  assert (No' : NoDup (map or_id
                  (fill_or_reduce (or_id buy) (or_amount buy - t) (orders s))))
    by (rewrite fill_or_reduce_ids; exact No).
  assert (Ids : map tg_id (users s') = map tg_id (users s)).
  { rewrite Hu. destruct (Qltb eps _);
      rewrite ?ids_upd_rub, ?ids_upd_uwt; reflexivity. }
  split; [| split].
  - eapply wf_change; [exact W | exact Ids | rewrite Hr; apply wf_rate; exact W
                      | rewrite Hc | rewrite Hb | rewrite Hd | rewrite Ho
                      | rewrite Hg | rewrite Hp | rewrite Hch ].
    + split; [apply wf_check_ids | apply wf_checks]; exact W.
    + split; [apply wf_bill_ids | apply wf_bills]; exact W.
    + split; [apply wf_deposit_ids | apply wf_deposits]; exact W.
    + split.
      * rewrite !fill_or_reduce_ids. exact No.
      * apply fill_or_reduce_ok, fill_or_reduce_ok. exact Fo.
    + split; [apply wf_giveaway_ids | apply wf_giveaways]; exact W.
    + apply wf_participants; exact W.
    + apply wf_channels; exact W.
  - pose proof (kept_cases (or_amount buy - t)) as Kb.
    pose proof (kept_cases (or_amount sell - t)) as Ks.
    assert (Kp : or_price buy * kept (or_amount buy - t)
                 <= or_price buy * (or_amount buy - t))
      by (apply Qmult_le_l; [exact Pb | lra]).
    unfold never_gains, drift_uwt, drift_rub, held_uwt, held_rub, escrow_uwt,
      escrow_rub, minted, exchanged.
    rewrite Hu, Ho, Hx, Hc, Hg.
    rewrite (fill_or_reduce_sells _ _ _ sell No' Fs' Os).
    rewrite (fill_or_reduce_sells _ _ _ buy No Fb Ob).
    rewrite (fill_or_reduce_buys _ _ _ sell No' Fs' Os).
    rewrite (fill_or_reduce_buys _ _ _ buy No Fb Ob).
    rewrite Sb, Ss. unfold or_sell in Ss |- *.
    apply negb_true_iff in Ss. rewrite Sb, Ss. cbn [negb].
    destruct (Qltb eps _) eqn:Q; qtests;
      rewrite !logged_skip by reflexivity;
      rewrite ?sum_uwt_upd_rub, ?sum_uwt_upd_uwt, ?sum_rub_upd_rub,
        ?sum_rub_upd_uwt, ?occ_upd_rub, ?occ_upd_uwt;
      rewrite !(occ_one _ _ N) by assumption; split; lra.
  - intro Nn. rewrite Hu.
    assert (C : nonneg_balances
                  (upd_rub (t * or_price sell) (or_user sell)
                     (upd_uwt t (or_user buy) (users s)))).
    { apply nonneg_credit_rub; [rewrite ids_upd_uwt; exact N | | lra].
      apply nonneg_credit_uwt; [exact N | exact Nn | lra]. }
    destruct (Qltb eps _); [| exact C].
    apply nonneg_credit_rub; [| exact C | exact Rf].
    rewrite ids_upd_rub, ids_upd_uwt. exact N.
Qed.

(** The loop: the same three facts for any number of turns. *)
Lemma match_loop_facts n s :
  wf s ->
  wf (match_loop n s) /\ never_gains s (match_loop n s)
  /\ (nonneg_balances (users s) -> nonneg_balances (users (match_loop n s))).
Proof.
  revert s. induction n as [| n IH]; intros s W; simpl.
  - split; [exact W |]. split; [split; lra | auto].
  - destruct (match_step s) as [s' |] eqn:M.
    + destruct (match_step_facts s s' W M) as [W' [[Gu Gr] Nn']].
      destruct (IH s' W') as [W2 [[Gu2 Gr2] Nn2]].
      split; [exact W2 |]. split; [split; lra | auto].
    + split; [exact W |]. split; [split; lra | auto].
Qed.

Lemma match_orders_facts s :
  wf s ->
  wf (match_orders s) /\ never_gains s (match_orders s)
  /\ (nonneg_balances (users s) -> nonneg_balances (users (match_orders s))).
Proof. apply match_loop_facts. Qed.

Lemma sound_then_match s s2 :
  sound_step s s2 ->
  wf (match_orders s2) /\ never_gains s (match_orders s2)
  /\ (nonneg_balances (users s)
      -> nonneg_balances (users (match_orders s2))).
Proof.
  intros [W2 [[Cu Cr] Nn]].
  destruct (match_orders_facts s2 W2) as [W3 [[Gu Gr] Nn3]].
  split; [exact W3 |]. split; [| auto].
  split; [rewrite <- Cu; exact Gu | rewrite <- Cr; exact Gr].
Qed.

(** [place_order] either refuses and leaves the database as it was, or
    locks the amount in a new row and runs the matching loop: the lock
    moves the amount from the balance into the order. *)
Lemma place_order_cases oid u sd price a now s :
  wf s ->
  fst (place_order oid u sd price a now s) = s
  \/ exists s2 o,
       fst (place_order oid u sd price a now s) = match_orders s2
       /\ sound_step s s2
       /\ trades s2 = trades s
       /\ orders s2 = orders s ++ [o]
       /\ 0 < or_price o.
Proof.
  intros W. unfold place_order.
  pose proof (wf_user_ids s W) as N.
  destruct (parse_side sd) as [side |]; [| left; reflexivity].
  destruct (Qleb price 0 || Qleb a 0) eqn:E; [left; reflexivity |].
  apply orb_false_iff in E. destruct E as [E1 E2].
  destruct (find_user u (users s)) as [r |] eqn:F; [| left; reflexivity].
  assert (R : registered u (users s) = true)
    by (apply registered_find; eauto).
  assert (Gb : get_balances u (users s) = (uwt r, rub r))
    by (unfold get_balances; rewrite F; reflexivity).
  destruct side.
  - destruct (Qltb (rub r) (price * a)) eqn:L; [left; reflexivity |].
    main_simpl.
    destruct (existsb (or_is oid) (orders s)) eqn:X; [left; reflexivity |].
    qtests. cbn [fst]. right. eexists. eexists.
    split; [reflexivity |]. split; [| main_simpl; auto].
    split; [| split].
    + wf_open W. split.
      * apply (keyed_nodup_snoc or_id or_is or_is_spec oid);
          [apply wf_order_ids; exact W | exact X | reflexivity].
      * apply Forall_app. split; [apply wf_orders; exact W |].
        repeat constructor; simpl; auto.
    + ledger_norm. occ_ones. split; lra.
    + main_simpl. intro Nn. apply nonneg_upd_rub; [exact N | exact Nn |].
      intros _. rewrite Gb. simpl. lra.
  - destruct (Qltb (uwt r) a) eqn:L; [left; reflexivity |].
    main_simpl.
    destruct (existsb (or_is oid) (orders s)) eqn:X; [left; reflexivity |].
    qtests. cbn [fst]. right. eexists. eexists.
    split; [reflexivity |]. split; [| main_simpl; auto].
    split; [| split].
    + wf_open W. split.
      * apply (keyed_nodup_snoc or_id or_is or_is_spec oid);
          [apply wf_order_ids; exact W | exact X | reflexivity].
      * apply Forall_app. split; [apply wf_orders; exact W |].
        repeat constructor; simpl; auto.
    + ledger_norm. occ_ones. split; lra.
    + main_simpl. intro Nn. apply nonneg_upd_uwt; [exact N | exact Nn |].
      intros _. rewrite Gb. simpl. lra.
Qed.

Lemma place_order_facts oid u sd price a now s :
  wf s ->
  let s' := fst (place_order oid u sd price a now s) in
  wf s' /\ never_gains s s'
  /\ (nonneg_balances (users s) -> nonneg_balances (users s')).
Proof.
  intros W s'. subst s'.
  destruct (place_order_cases oid u sd price a now s W)
    as [-> | [s2 [o [-> [S2 _]]]]].
  - split; [exact W | split; [split; lra | auto]].
  - apply sound_then_match. exact S2.
Qed.

(** [cancel_order] gives the owner what the open order still locks. *)
Lemma cancel_order_facts u oid s :
  wf s -> sound_step s (fst (cancel_order u oid s)).
Proof.
  intro W. unfold cancel_order.
  pose proof (wf_user_ids s W) as N.
  pose proof (wf_order_ids s W) as No.
  pose proof (wf_orders s W) as Fo.
  destruct (find (or_is oid) (orders s)) as [o |] eqn:F;
    [| apply sound_step_refl; exact W].
  destruct (or_open o) eqn:Op; [| apply sound_step_refl; exact W].
  cbn [negb].
  destruct (or_user o =? u)%Z eqn:Eu; [| apply sound_step_refl; exact W].
  cbn [negb]. apply Z.eqb_eq in Eu.
  destruct (keyed_find_in or_id or_is or_is_spec _ _ _ F) as [Io _].
  assert (Ok : ok_order (users s) o) by (rewrite Forall_forall in Fo; auto).
  destruct Ok as [Pp [Pa R]]. specialize (Pa Op). rewrite Eu in R.
  assert (Pr : 0 < or_price o * or_amount o)
    by (apply Qmult_lt_0_compat; assumption).
  assert (Tab : NoDup (map or_id (update_where
                         (fun r => or_is oid r && or_open r) cancelled
                         (orders s)))
                /\ Forall (ok_order (users s))
                     (update_where (fun r => or_is oid r && or_open r)
                        cancelled (orders s))).
  { split.
    - rewrite map_update_where by reflexivity. exact No.
    - apply Forall_update_where; [exact Fo |].
      intros r _ [P1 [_ P3]] _. split; [exact P1 |].
      split; [discriminate | exact P3]. }
  assert (Es : escrow_sells (update_where (fun r => or_is oid r && or_open r)
                               cancelled (orders s))
               == escrow_sells (orders s)
                  - (if or_sell o then or_amount o else 0)).
  { unfold escrow_sells.
    rewrite (keyed_total_update_if or_id or_is or_is_spec _ or_open
               cancelled oid (orders s) o No F).
    rewrite Op. change (or_open (cancelled o)) with false.
    cbn [andb]. destruct (or_sell o); lra. }
  assert (Eb : escrow_buys (update_where (fun r => or_is oid r && or_open r)
                               cancelled (orders s))
               == escrow_buys (orders s)
                  - (if or_buy o then or_price o * or_amount o else 0)).
  { unfold escrow_buys.
    rewrite (keyed_total_update_if or_id or_is or_is_spec _ or_open
               cancelled oid (orders s) o No F).
    rewrite Op. change (or_open (cancelled o)) with false.
    cbn [andb]. destruct (or_buy o); lra. }
  unfold or_sell in Es. unfold or_buy in Es, Eb.
  destruct (or_side o); cbn [fst negb] in *.
  - split; [wf_open W; exact Tab |]. split.
    + ledger_norm. rewrite Es, Eb. occ_ones. split; lra.
    + main_simpl. intro Nn. apply nonneg_credit_rub; [exact N | exact Nn | lra].
  - split; [wf_open W; exact Tab |]. split.
    + ledger_norm. rewrite Es, Eb. occ_ones. split; lra.
    + main_simpl. intro Nn. apply nonneg_credit_uwt; [exact N | exact Nn | lra].
Qed.

End BookFacts.


(** * Giveaways and channels of [main.py] *)

Section GiveawayOps.

Import Main.

Lemma sound_step_trans s1 s2 s3 :
  sound_step s1 s2 -> sound_step s2 s3 -> sound_step s1 s3.
Proof.
  intros [_ [[Cu Cr] Nn]] [W3 [[Cu' Cr'] Nn']].
  split; [exact W3 |]. split; [| auto].
  split; [rewrite Cu'; exact Cu | rewrite Cr'; exact Cr].
Qed.

Lemma create_giveaway_facts gid u a minutes now s :
  wf s -> sound_step s (fst (create_giveaway gid u a minutes now s)).
Proof.
  intro W. unfold create_giveaway.
  pose proof (wf_user_ids s W) as N.
  destruct (Qleb a 0) eqn:E; [apply sound_step_refl; exact W |].
  destruct (_ || _)%bool; [apply sound_step_refl; exact W |].
  destruct (Qltb _ a) eqn:L; [apply sound_step_refl; exact W |].
  destruct (existsb (gw_is gid) (giveaways s)) eqn:X;
    [apply sound_step_refl; exact W |].
  qtests.
  assert (R : registered u (users s) = true)
    by (apply balance_registered_uwt; lra).
  cbn [fst]. split.
  - wf_open W. split.
    + apply (keyed_nodup_snoc gw_id gw_is gw_is_spec gid);
        [apply wf_giveaway_ids; exact W | exact X | reflexivity].
    + apply Forall_app. split; [apply wf_giveaways; exact W |].
      repeat constructor; simpl; auto.
  - split.
    + ledger_norm. occ_ones. split; lra.
    + main_simpl. intro Nn. apply nonneg_upd_uwt; [exact N | exact Nn |].
      intros _. lra.
Qed.

Lemma join_giveaway_facts gid u s :
  wf s -> registered u (users s) = true ->
  sound_step s (fst (join_giveaway gid u s)).
Proof.
  intros W R. unfold join_giveaway.
  destruct (find (gw_is gid) (giveaways s)) as [g |];
    [| apply sound_step_refl; exact W].
  destruct (negb (gw_active g)); [apply sound_step_refl; exact W |].
  destruct (existsb _ (participants s)); [apply sound_step_refl; exact W |].
  cbn [fst]. split.
  - wf_open W. apply Forall_app. split; [apply wf_participants; exact W |].
    repeat constructor. exact R.
  - split; [ledger_norm; split; lra | auto].
Qed.

(** Those who joined hold account rows. *)
Lemma participants_registered gid s x :
  wf s -> In x (participants_of gid (participants s)) ->
  registered x (users s) = true.
Proof.
  intros W I. unfold participants_of in I.
  apply in_map_iff in I. destruct I as [p [<- Ip]].
  apply filter_In in Ip. destruct Ip as [Ip _].
  pose proof (wf_participants s W) as F. rewrite Forall_forall in F.
  exact (F p Ip).
Qed.

(** One turn of the sweep on a row that is still active. *)
Lemma finish_one_sound now rnd s fin k g :
  wf s -> In g (giveaways s) -> gw_active g = true ->
  sound_step s (sweep_db (finish_one now rnd (s, fin, k) g)).
Proof.
  intros W Ig Ag. rewrite finish_one_eq.
  pose proof (wf_user_ids s W) as N.
  pose proof (wf_giveaway_ids s W) as Ng.
  pose proof (wf_giveaways s W) as Fg.
  destruct (fromisoformat (gw_end_at g)) as [t |];
    [| apply sound_step_refl; exact W].
  destruct (now <? t)%Z; [apply sound_step_refl; exact W |].
  cbv zeta. unfold sweep_db. cbn [fst].
  set (w := choose_winner (rnd k) (participants_of (gw_id g) (participants s))).
  assert (Ok : ok_giveaway (users s) g) by (rewrite Forall_forall in Fg; auto).
  destruct Ok as [Pa Rc].
  assert (R : registered (payee w g) (users s) = true).
  { destruct w as [x |] eqn:Ew; [| exact Rc]. simpl.
    apply (participants_registered (gw_id g)); [exact W |].
    apply (proj2 (choose_winner_spec (rnd k) _)). exact Ew. }
  pose proof (find_by_id _ _ Ng Ig) as F. clearbody w.
  split; [| split].
  - wf_open W. split.
    + rewrite map_update_where by reflexivity. exact Ng.
    + apply Forall_update_where; [exact Fg |]. intros r _ Pr _. exact Pr.
  - ledger_norm. occ_ones. unfold escrow_giveaways at 1.
    rewrite (keyed_total_update gw_id gw_is gw_is_spec _ _ _ _ _ Ng F).
    rewrite Ag. change (gw_active (finalized w g)) with false.
    fold (escrow_giveaways (giveaways s)).
    destruct w; eval_literals; split; lra.
  - main_simpl. intro Nn. apply nonneg_credit_uwt; [exact N | exact Nn | lra].
Qed.

(** A row that a turn on another id leaves in the table. *)
Lemma finish_one_keeps now rnd s fin k g g' :
  gw_id g' <> gw_id g -> In g' (giveaways s) ->
  In g' (giveaways (sweep_db (finish_one now rnd (s, fin, k) g))).
Proof.
  intros Ne I. rewrite finish_one_eq.
  destruct (fromisoformat (gw_end_at g)) as [t |]; [| exact I].
  destruct (now <? t)%Z; [exact I |].
  cbv zeta. unfold sweep_db. main_simpl. cbn [fst].
  unfold update_where. apply in_map_iff. exists g'. split; [| exact I].
  destruct (gw_is (gw_id g) g') eqn:E; [| reflexivity].
  apply gw_is_spec in E. contradiction.
Qed.

(** The loop of the sweep over rows with distinct ids that are active
    rows of the database. *)
Lemma sweep_rows_sound now rnd rows :
  NoDup (map gw_id rows) ->
  forall acc,
    wf (sweep_db acc) ->
    (forall g, In g rows ->
       In g (giveaways (sweep_db acc)) /\ gw_active g = true) ->
    sound_step (sweep_db acc)
      (sweep_db (fold_left (finish_one now rnd) rows acc)).
Proof.
  induction rows as [| g rows IH]; intros Nd acc W Rows.
  - apply sound_step_refl. exact W.
  - simpl. inversion Nd as [| ? ? Ng Nd']; subst.
    destruct acc as [[s fin] k]. unfold sweep_db in W, Rows. cbn [fst] in *.
    destruct (Rows g (or_introl eq_refl)) as [Ig Ag].
    pose proof (finish_one_sound now rnd s fin k g W Ig Ag) as S1.
    eapply sound_step_trans; [exact S1 |].
    apply IH; [exact Nd' | exact (proj1 S1) |].
    intros g' I'. destruct (Rows g' (or_intror I')) as [Ig' Ag'].
    split; [| exact Ag'].
    apply finish_one_keeps; [| exact Ig'].
    intro E. apply Ng. rewrite <- E. apply in_map. exact I'.
Qed.

Lemma sweep_facts now rnd s :
  wf s -> sound_step s (sweep_db (finish_due_giveaways now rnd s)).
Proof.
  intro W. unfold finish_due_giveaways.
  apply (sweep_rows_sound now rnd _
           (NoDup_map_filter gw_id gw_active _ (wf_giveaway_ids s W))
           (s, [], O) W).
  intros g I. apply filter_In in I. exact I.
Qed.

Lemma ch_is_spec (k : Z) (c : channel) : ch_is k c = true <-> ch_id c = k.
Proof. unfold ch_is. apply Z.eqb_eq. Qed.

Lemma channel_add_facts owner chat price s :
  wf s -> registered owner (users s) = true ->
  sound_step s (fst (channel_add owner chat price s)).
Proof.
  intros W R. unfold channel_add.
  destruct (Qleb price 0) eqn:E; [apply sound_step_refl; exact W |].
  destruct (existsb _ (channels s)); [apply sound_step_refl; exact W |].
  qtests. cbn [fst]. split.
  - wf_open W. apply Forall_app. split; [apply wf_channels; exact W |].
    repeat constructor; simpl; auto.
  - split; [ledger_norm; split; lra | auto].
Qed.

(** [ch_buy_months] moves the price from the buyer to the owner of the
    channel. *)
Lemma ch_buy_months_facts cid u months now s :
  wf s -> sound_step s (fst (ch_buy_months cid u months now s)).
Proof.
  intro W. unfold ch_buy_months.
  pose proof (wf_user_ids s W) as N.
  destruct (find (ch_is cid) (channels s)) as [ch |] eqn:F;
    [| apply sound_step_refl; exact W].
  destruct (months <=? 0)%Z eqn:M; [apply sound_step_refl; exact W |].
  apply Z.leb_gt in M.
  set (m := if (120 <? months)%Z then 120%Z else months).
  assert (Pm : 0 < inject_Z m).
  { change 0 with (inject_Z 0). rewrite <- Zlt_Qlt. subst m.
    destruct (120 <? months)%Z; lia. }
  apply find_some in F. destruct F as [Ic _].
  pose proof (wf_channels s W) as Fc. rewrite Forall_forall in Fc.
  destruct (Fc ch Ic) as [Pp Ro].
  assert (Pt : 0 < ch_price ch * inject_Z m)
    by (apply Qmult_lt_0_compat; assumption).
  set (total := ch_price ch * inject_Z m) in *.
  destruct (Qltb _ total) eqn:L; [apply sound_step_refl; exact W |].
  qtests.
  assert (R : registered u (users s) = true)
    by (apply balance_registered_uwt; lra).
  unfold add_asset. eval_literals. unfold channel_sub_extend. cbn [fst].
  split; [| split].
  - wf_open W. rewrite ids_upd_uwt. apply ids_upd_uwt.
  - ledger_norm. occ_ones. split; lra.
  - main_simpl. intro Nn.
    apply nonneg_credit_uwt; [rewrite ids_upd_uwt; exact N | | lra].
    apply nonneg_upd_uwt; [exact N | exact Nn |]. intros _. lra.
Qed.

End GiveawayOps.

(** * Every operation, and every reachable state *)

Section Reachable.

Import Main.

Variable sha256 : string -> string.

Lemma sound_never_gains s s' : conserves s s' -> never_gains s s'.
Proof. intros [Cu Cr]. split; [rewrite Cu | rewrite Cr]; lra. Qed.

(** What every operation does to a well-formed database. *)
Lemma exec_facts o s :
  wf s -> called_by_account o s = true ->
  let s' := exec sha256 o s in
  wf s'
  /\ never_gains s s'
  /\ (is_place_order o = false -> conserves s s')
  /\ (adjustment_covered o s ->
      nonneg_balances (users s) -> nonneg_balances (users s')).
Proof.
  intros W C s'. subst s'.
  assert (From : forall s', sound_step s s' ->
            wf s' /\ never_gains s s' /\ (is_place_order o = false -> conserves s s')
            /\ (adjustment_covered o s ->
                nonneg_balances (users s) -> nonneg_balances (users s'))).
  { intros s' [W' [Cs Nn]]. split; [exact W' |].
    split; [apply sound_never_gains; exact Cs |]. split; auto. }
  unfold called_by_account in C.
  destruct o; cbn [exec actor is_place_order] in *.
  - apply From, ensure_user_facts; assumption.
  - destruct (adm_bal_facts uname asset amt s W) as [W' [Cs Nn]].
    split; [exact W' |]. split; [apply sound_never_gains; exact Cs |].
    split; auto.
  - apply From, adm_rate_facts; assumption.
  - apply From, create_deposit_facts; assumption.
  - apply From, decide_deposit_facts; assumption.
  - apply From, create_check_facts; assumption.
  - apply From, claim_check_facts; assumption.
  - apply From, create_bill_facts; assumption.
  - apply From, pay_bill_facts; assumption.
  - apply From, exchange_buy_facts; assumption.
  - apply From, exchange_sell_facts; assumption.
  - destruct (place_order_facts oid user_id sd price amount now s W)
      as [W' [Ng Nn]].
    split; [exact W' |]. split; [exact Ng |]. split; [discriminate | auto].
  - apply From, cancel_order_facts; assumption.
  - apply From, create_giveaway_facts; assumption.
  - apply From, join_giveaway_facts; assumption.
  - apply From. apply (sweep_facts now rnd s W).
  - apply From, channel_add_facts; assumption.
  - apply From, ch_buy_months_facts; assumption.
  - apply From, p2p_facts; assumption.
Qed.

Lemma reachable_wf s : reachable sha256 s -> wf s.
Proof.
  induction 1 as [| s o _ IH C].
  - apply wf_init.
  - apply (exec_facts o s IH C).
Qed.

Lemma reachable_drift s :
  reachable sha256 s -> drift_uwt s <= 0 /\ drift_rub s <= 0.
Proof.
  induction 1 as [| s o R [Iu Ir] C].
  - split; vm_compute; discriminate.
  - destruct (exec_facts o s (reachable_wf s R) C) as [_ [[Gu Gr] _]].
    split; lra.
Qed.

End Reachable.


(** * What the tolerance of the matching loop can drop *)

Section Dust.

Import Main.

Lemma kept_lower a : a - eps <= kept a.
Proof.
  pose proof eps_pos. unfold kept.
  destruct (Qleb a eps) eqn:E; qtests; lra.
Qed.

(** Updates that keep ids and prices keep every limit. *)
Lemma limit_of_update (p : order -> bool) (h : order -> order) os id :
  (forall x, or_id (h x) = or_id x) -> (forall x, or_price (h x) = or_price x) ->
  limit_of id (update_where p h os) = limit_of id os.
Proof.
  intros Hi Hp. unfold limit_of, update_where.
  induction os as [| a os IH]; [reflexivity |].
  cbn [map find]. unfold or_is at 1 3.
  destruct (p a); [rewrite Hi |];
    (destruct (or_id a =? id)%string; [| exact IH]).
  - apply Hp.
  - reflexivity.
Qed.

Lemma limit_of_fill id' a os id :
  limit_of id (fill_or_reduce id' a os) = limit_of id os.
Proof.
  unfold fill_or_reduce.
  destruct (Qleb a eps); apply limit_of_update; reflexivity.
Qed.

Lemma limit_of_nonneg us os id :
  Forall (ok_order us) os -> 0 <= limit_of id os.
Proof.
  intro F. unfold limit_of.
  destruct (find (or_is id) os) as [o |] eqn:E; [| lra].
  apply find_some in E. rewrite Forall_forall in F.
  destruct (F o (proj1 E)) as [P _]. lra.
Qed.

(** A new row can only raise a limit from nothing. *)
Lemma limit_of_snoc us os o id :
  Forall (ok_order us) os -> 0 < or_price o ->
  limit_of id os <= limit_of id (os ++ [o]).
Proof.
  intros F P. unfold limit_of.
  destruct (find (or_is id) os) as [x |] eqn:E.
  - rewrite (find_app_some _ _ _ _ E). lra.
  - rewrite (find_app_none _ _ _ E). destruct (or_is id o); lra.
Qed.

(** One turn of the matching loop drops at most the dust of its trade. *)
Lemma match_step_dust s s' :
  wf s -> match_step s = Some s' -> loses_dust_only s s'.
Proof.
  intros W M.
  pose proof (wf_user_ids s W) as N.
  pose proof (wf_order_ids s W) as No.
  pose proof (wf_orders s W) as Fo.
  pose proof eps_pos as Ep.
  destruct (match_step_inv s s' M)
    as [buy [sell [Bb [Bs [Le [Hu [Ho [Ht [Hx [_ [Hc [_ [_ [Hg _]]]]]]]]]]]]]].
  destruct (best_buy_in _ _ Bb) as [Ib [Ob Sb]].
  destruct (best_sell_in _ _ Bs) as [Is [Os Ss]].
  pose proof (best_rows_differ _ _ _ No Bb Bs) as Ne.
  rewrite Forall_forall in Fo.
  destruct (Fo buy Ib) as [Pb [Ab Rb]]. destruct (Fo sell Is) as [Ps [As Rs]].
  specialize (Ab Ob). specialize (As Os).
  rewrite <- Forall_forall in Fo.
  pose proof (py_min_pos _ _ Ab As) as Tp.
  pose proof (py_min_l (or_amount buy) (or_amount sell)) as Tl.
  pose proof (py_min_r (or_amount buy) (or_amount sell)) as Tr.
  set (t := py_min (or_amount buy) (or_amount sell)) in *.
  pose proof (keyed_in_find or_id or_is or_is_spec _ _ _ No Ib eq_refl) as Fb.
  pose proof (keyed_in_find or_id or_is or_is_spec _ _ _ No Is eq_refl) as Fs.
  assert (Fs' : find (or_is (or_id sell))
                  (fill_or_reduce (or_id buy) (or_amount buy - t) (orders s))
                = Some sell)
    by (rewrite find_fill_other; assumption).
  assert (No' : NoDup (map or_id
                  (fill_or_reduce (or_id buy) (or_amount buy - t) (orders s))))
    by (rewrite fill_or_reduce_ids; exact No).
  pose proof (kept_lower (or_amount buy - t)) as Kb.
  pose proof (kept_lower (or_amount sell - t)) as Ks.
  assert (Kp : or_price buy * (or_amount buy - t - eps)
               <= or_price buy * kept (or_amount buy - t))
    by (apply Qmult_le_l; [exact Pb | lra]).
  assert (Du : dust_uwt s' == dust_uwt s + eps)
    by (unfold dust_uwt; rewrite Ht; apply total_snoc).
  assert (Dr : dust_rub s' == dust_rub s + eps * (1 + or_price buy)).
  { unfold dust_rub. rewrite Ht, Ho, total_snoc.
    cbn [tr_buy]. rewrite !limit_of_fill.
    unfold limit_of at 2. rewrite Fb.
    apply Qplus_inj_r. apply total_ext. intros r _.
    rewrite !limit_of_fill. reflexivity. }
  unfold loses_dust_only. rewrite Du, Dr.
  unfold drift_uwt, drift_rub, held_uwt, held_rub, escrow_uwt,
    escrow_rub, minted, exchanged.
  rewrite Hu, Ho, Hx, Hc, Hg.
  rewrite (fill_or_reduce_sells _ _ _ sell No' Fs' Os).
  rewrite (fill_or_reduce_sells _ _ _ buy No Fb Ob).
  rewrite (fill_or_reduce_buys _ _ _ sell No' Fs' Os).
  rewrite (fill_or_reduce_buys _ _ _ buy No Fb Ob).
  rewrite Sb, Ss. unfold or_sell in Ss |- *.
  apply negb_true_iff in Ss. rewrite Sb, Ss. cbn [negb].
  destruct (Qltb eps _) eqn:Q; qtests;
    rewrite !logged_skip by reflexivity;
    rewrite ?sum_uwt_upd_rub, ?sum_uwt_upd_uwt, ?sum_rub_upd_rub,
      ?sum_rub_upd_uwt, ?occ_upd_rub, ?occ_upd_uwt;
    rewrite !(occ_one _ _ N) by assumption; split; lra.
Qed.

Lemma loses_dust_refl s : loses_dust_only s s.
Proof. split; lra. Qed.

Lemma loses_dust_trans s1 s2 s3 :
  loses_dust_only s1 s2 -> loses_dust_only s2 s3 -> loses_dust_only s1 s3.
Proof. intros [A B] [C D]. split; lra. Qed.

Lemma match_loop_dust n s : wf s -> loses_dust_only s (match_loop n s).
Proof.
  revert s. induction n as [| n IH]; intros s W; simpl.
  - apply loses_dust_refl.
  - destruct (match_step s) as [s' |] eqn:M; [| apply loses_dust_refl].
    apply (loses_dust_trans s s'); [apply match_step_dust; assumption |].
    apply IH. apply (match_step_facts s s' W M).
Qed.

(** A step that keeps the drift, the trades and every limit. *)
Lemma conserves_dust s s' :
  conserves s s' -> trades s' = trades s ->
  (forall id, limit_of id (orders s) <= limit_of id (orders s')) ->
  loses_dust_only s s'.
Proof.
  intros [Cu Cr] T L. unfold loses_dust_only, dust_uwt, dust_rub.
  rewrite Cu, Cr, T. split; [lra |].
  assert (total (fun t => eps * (1 + limit_of (tr_buy t) (orders s))) (trades s)
          <= total (fun t => eps * (1 + limit_of (tr_buy t) (orders s')))
               (trades s)); [| lra].
  apply total_le. intros r _. apply Qmult_le_l; [exact eps_pos |].
  specialize (L (tr_buy r)). lra.
Qed.

(** Splits on every test of the operation at hand. *)
Ltac by_cases :=
  cbv zeta;
  repeat (main_simpl;
          match goal with
          | |- context [if ?c then _ else _] => destruct c
          | |- context [match ?x with _ => _ end] => destruct x
          end);
  main_simpl.

Variable sha256 : string -> string.

(** The sweep leaves the order book alone. *)
Lemma sweep_book now rnd rows acc :
  let acc' := fold_left (finish_one now rnd) rows acc in
  trades (sweep_db acc') = trades (sweep_db acc)
  /\ orders (sweep_db acc') = orders (sweep_db acc).
Proof.
  cbv zeta. apply fold_left_invariant; [split; reflexivity |].
  intros [[x fin] k] g _ [T O]. rewrite finish_one_eq.
  rewrite <- T, <- O. by_cases; split; reflexivity.
Qed.

(** Operations other than [place_order] make no trade and keep every
    limit price. *)
Lemma exec_book o s :
  is_place_order o = false ->
  trades (exec sha256 o s) = trades s
  /\ forall id, limit_of id (orders (exec sha256 o s)) = limit_of id (orders s).
Proof.
  intro P. destruct o; try discriminate P; cbn [exec].
  - split; reflexivity.
  - unfold adm_bal_amount, add_asset. by_cases; split; reflexivity.
  - unfold adm_rate_set. by_cases; split; reflexivity.
  - unfold create_rub_deposit. by_cases; split; reflexivity.
  - unfold decide_rub_deposit. by_cases; split; reflexivity.
  - unfold create_check. by_cases; split; reflexivity.
  - unfold claim_check. by_cases; split; reflexivity.
  - unfold create_bill_uwt. by_cases; split; reflexivity.
  - unfold pay_bill_uwt. by_cases; split; reflexivity.
  - unfold exchange_buy_uwt. by_cases; split; reflexivity.
  - unfold exchange_sell_uwt. by_cases; split; reflexivity.
  - unfold cancel_order. by_cases; split; try reflexivity;
      intro id; apply limit_of_update; reflexivity.
  - unfold create_giveaway. by_cases; split; reflexivity.
  - unfold join_giveaway. by_cases; split; reflexivity.
  - destruct (sweep_book now rnd (filter gw_active (giveaways s)) (s, [], O))
      as [T O].
    unfold finish_due_giveaways. unfold sweep_db in T, O. cbn [fst] in T, O.
    rewrite T, O. split; reflexivity.
  - unfold channel_add. by_cases; split; reflexivity.
  - unfold ch_buy_months, add_asset, channel_sub_extend.
    by_cases; split; reflexivity.
  - unfold p2p_amount. by_cases; split; reflexivity.
Qed.

(** Every operation drops at most the dust of the trades it makes. *)
Lemma exec_dust o s :
  wf s -> called_by_account o s = true ->
  loses_dust_only s (exec sha256 o s).
Proof.
  intros W C. destruct (is_place_order o) eqn:P.
  - destruct o; try discriminate P. cbn [exec].
    destruct (place_order_cases oid user_id sd price amount now s W)
      as [-> | [s2 [o [-> [S2 [T [O Pp]]]]]]]; [apply loses_dust_refl |].
    apply (loses_dust_trans s s2).
    + apply conserves_dust; [apply S2 | exact T |].
      intro id. rewrite O.
      apply (limit_of_snoc (users s)); [apply wf_orders; exact W | exact Pp].
    + apply match_loop_dust. apply S2.
  - destruct (exec_book o s P) as [T L].
    apply conserves_dust; [| exact T | intro id; rewrite L; lra].
    apply (exec_facts sha256 o s W C). exact P.
Qed.

Lemma reachable_dust s :
  reachable sha256 s ->
  0 <= drift_uwt s + dust_uwt s /\ 0 <= drift_rub s + dust_rub s.
Proof.
  induction 1 as [| s o R [Iu Ir] C].
  - split; vm_compute; discriminate.
  - destruct (exec_dust o s (reachable_wf sha256 s R) C) as [Gu Gr].
    split; lra.
Qed.

End Dust.

(** * The sign of the balances, whoever calls *)

(** Closes [positive_rows] of the result of an operation from the facts
    of the database it started from. *)
Ltac rows_close :=
  unfold Main.positive_rows; main_simpl;
  repeat match goal with |- _ /\ _ => split end;
  rewrite ?ids_upd_uwt, ?ids_upd_rub, ?ids_upd_both;
  try assumption;
  try (apply Forall_app; split;
       [assumption | repeat constructor; simpl; auto; try lra]);
  try (apply Forall_update_where;
       [assumption | intros ? _ Pr _; exact Pr]).

Section Signs.

Import Main.

Variable sha256 : string -> string.

Lemma keeps_signs_refl s : positive_rows s -> keeps_signs s s.
Proof. intro P. split; [exact P | auto]. Qed.

Lemma keeps_signs_trans s1 s2 s3 :
  keeps_signs s1 s2 -> keeps_signs s2 s3 -> keeps_signs s1 s3.
Proof. intros [_ A] [P B]. split; [exact P | auto]. Qed.

Lemma positive_init : positive_rows init_db.
Proof.
  unfold positive_rows, init_db. main_simpl.
  repeat split; try constructor.
Qed.

Lemma ensure_user_signs id name s :
  positive_rows s -> keeps_signs s (ensure_user id name s).
Proof.
  intros P. pose proof P as [N [Rt [Fc [Fb [Fd [Fo [Fg Fch]]]]]]].
  unfold ensure_user.
  destruct (ensure_user_rows_cases id name (users s)) as [E | [[R E] | [R E]]].
  - assert (set_users (ensure_user_rows id name) s = s) as ->
      by (unfold set_users; rewrite E; destruct s; reflexivity).
    apply keeps_signs_refl. exact P.
  - split.
    + rows_close. rewrite E. rewrite map_update_where by reflexivity. exact N.
    + main_simpl. rewrite E. intro F. apply Forall_update_where; [exact F |].
      intros r _ Pr _. exact Pr.
  - split.
    + rows_close. rewrite E, map_app. simpl.
      apply NoDup_app; [exact N | repeat constructor; simpl; tauto |].
      intros x Hx [<- | []].
      rewrite registered_map in R.
      pose proof (existsb_false_forall _ _ R _ Hx) as X. simpl in X.
      rewrite Z.eqb_refl in X. discriminate.
    + main_simpl. rewrite E. intro F. apply Forall_app. split; [exact F |].
      repeat constructor; simpl; lra.
Qed.

Lemma adm_bal_signs uname asset amt s :
  positive_rows s ->
  let s' := fst (adm_bal_amount uname asset amt s) in
  positive_rows s'
  /\ (adjustment_covered (OpAdmBal uname asset amt) s ->
      nonneg_balances (users s) -> nonneg_balances (users s')).
Proof.
  intros P. pose proof P as [N [Rt [Fc [Fb [Fd [Fo [Fg Fch]]]]]]].
  cbv zeta. unfold adm_bal_amount, adjustment_covered.
  destruct (find_username uname (users s)) as [r |] eqn:F;
    [| cbn [fst]; split; [exact P | auto]].
  pose proof (find_username_balances _ _ _ N F) as B.
  unfold add_asset.
  destruct (String.eqb_spec asset "UWT") as [-> | NU].
  - cbn [fst]. split; [rows_close |].
    main_simpl. intros [C _] Nn. apply nonneg_upd_uwt; [exact N | exact Nn |].
    intros _. rewrite B. simpl. auto.
  - destruct (String.eqb_spec asset "RUB") as [-> | NR].
    + cbn [fst]. split; [rows_close |].
      main_simpl. intros [_ C] Nn. apply nonneg_upd_rub; [exact N | exact Nn |].
      intros _. rewrite B. simpl. auto.
    + cbn [fst]. split; [exact P | auto].
Qed.

Lemma adm_rate_signs v s :
  positive_rows s -> keeps_signs s (fst (adm_rate_set v s)).
Proof.
  intros P. pose proof P as [N [Rt [Fc [Fb [Fd [Fo [Fg Fch]]]]]]].
  unfold adm_rate_set.
  destruct (Qleb v 0) eqn:E; [apply keeps_signs_refl; exact P |].
  qtests. cbn [fst]. split; [rows_close | auto].
Qed.

Lemma create_deposit_signs dep_id u a s :
  positive_rows s -> keeps_signs s (fst (create_rub_deposit dep_id u a s)).
Proof.
  intros P. pose proof P as [N [Rt [Fc [Fb [Fd [Fo [Fg Fch]]]]]]].
  unfold create_rub_deposit.
  destruct (Qleb a 0) eqn:E; [apply keeps_signs_refl; exact P |].
  destruct (existsb _ (deposits s)); [apply keeps_signs_refl; exact P |].
  qtests. cbn [fst]. split; [rows_close | auto].
Qed.

Lemma decide_deposit_signs dep_id adm ok s :
  positive_rows s -> keeps_signs s (fst (decide_rub_deposit dep_id adm ok s)).
Proof.
  intros P. pose proof P as [N [Rt [Fc [Fb [Fd [Fo [Fg Fch]]]]]]].
  unfold decide_rub_deposit.
  destruct (find (dp_is dep_id) (deposits s)) as [d |] eqn:F;
    [| apply keeps_signs_refl; exact P].
  destruct (negb (dp_pending d)); [apply keeps_signs_refl; exact P |].
  destruct (negb _); [apply keeps_signs_refl; exact P |].
  apply find_some in F. destruct F as [Id _].
  assert (Pd : 0 < dp_amount d) by (rewrite Forall_forall in Fd; auto).
  destruct ok; cbn [fst].
  - split; [rows_close |]. main_simpl. intro Nn.
    apply nonneg_credit_rub; [exact N | exact Nn | lra].
  - split; [rows_close | auto].
Qed.

Lemma create_check_signs chk_id u a pw s :
  positive_rows s -> keeps_signs s (fst (create_check sha256 chk_id u a pw s)).
Proof.
  intros P. pose proof P as [N [Rt [Fc [Fb [Fd [Fo [Fg Fch]]]]]]].
  unfold create_check.
  destruct (Qleb a 0) eqn:E; [apply keeps_signs_refl; exact P |].
  destruct (Qltb _ a) eqn:L; [apply keeps_signs_refl; exact P |].
  destruct (existsb _ (checks s)); [apply keeps_signs_refl; exact P |].
  qtests. cbn [fst]. split; [rows_close |].
  main_simpl. intro Nn. apply nonneg_upd_uwt; [exact N | exact Nn |].
  intros _. lra.
Qed.

Lemma claim_check_signs chk_id u pw s :
  positive_rows s -> keeps_signs s (fst (claim_check sha256 chk_id u pw s)).
Proof.
  intros P. pose proof P as [N [Rt [Fc [Fb [Fd [Fo [Fg Fch]]]]]]].
  unfold claim_check.
  destruct (find (ck_is chk_id) (checks s)) as [row |] eqn:F;
    [| apply keeps_signs_refl; exact P].
  destruct (negb (ck_active row)); [apply keeps_signs_refl; exact P |].
  destruct (truthy (ck_passhash row) && negb (truthy pw));
    [apply keeps_signs_refl; exact P |].
  destruct (truthy (ck_passhash row) && negb _);
    [apply keeps_signs_refl; exact P |].
  destruct (negb _); [apply keeps_signs_refl; exact P |].
  apply find_some in F. destruct F as [Ir _].
  assert (Pa : 0 < ck_amount row) by (rewrite Forall_forall in Fc; auto).
  cbn [fst]. split; [rows_close |].
  main_simpl. intro Nn. apply nonneg_credit_uwt; [exact N | exact Nn | lra].
Qed.

Lemma create_bill_signs bill_id u a s :
  positive_rows s -> keeps_signs s (fst (create_bill_uwt bill_id u a s)).
Proof.
  intros P. pose proof P as [N [Rt [Fc [Fb [Fd [Fo [Fg Fch]]]]]]].
  unfold create_bill_uwt.
  destruct (Qleb a 0) eqn:E; [apply keeps_signs_refl; exact P |].
  destruct (existsb _ (bills s)); [apply keeps_signs_refl; exact P |].
  qtests. cbn [fst]. split; [rows_close | auto].
Qed.

Lemma pay_bill_signs bill_id payer s :
  positive_rows s -> keeps_signs s (fst (pay_bill_uwt bill_id payer s)).
Proof.
  intros P. pose proof P as [N [Rt [Fc [Fb [Fd [Fo [Fg Fch]]]]]]].
  unfold pay_bill_uwt.
  destruct (find (bl_is bill_id) (bills s)) as [b |] eqn:F;
    [| apply keeps_signs_refl; exact P].
  destruct (negb (bl_active b)); [apply keeps_signs_refl; exact P |].
  destruct (bl_creator b =? payer)%Z; [apply keeps_signs_refl; exact P |].
  destruct (Qltb _ _) eqn:L; [apply keeps_signs_refl; exact P |].
  destruct (negb _); [apply keeps_signs_refl; exact P |].
  qtests. apply find_some in F. destruct F as [Ib _].
  assert (Pa : 0 < bl_amount b) by (rewrite Forall_forall in Fb; auto).
  cbn [fst]. split; [rows_close |].
  main_simpl. intro Nn.
  apply nonneg_credit_uwt; [rewrite ids_upd_uwt; exact N | | lra].
  apply nonneg_upd_uwt; [exact N | exact Nn |]. intros _. lra.
Qed.

Lemma exchange_buy_signs u r s :
  positive_rows s -> keeps_signs s (fst (exchange_buy_uwt u r s)).
Proof.
  intros P. pose proof P as [N [Rt [Fc [Fb [Fd [Fo [Fg Fch]]]]]]].
  unfold exchange_buy_uwt.
  destruct (Qleb r 0) eqn:E; [apply keeps_signs_refl; exact P |].
  destruct (Qeq_bool (rate s) 0); [apply keeps_signs_refl; exact P |].
  destruct (Qltb _ r) eqn:L; [apply keeps_signs_refl; exact P |].
  qtests.
  assert (Pq : 0 < r / rate s).
  { unfold Qdiv. apply Qmult_lt_0_compat; [exact E |].
    apply Qinv_lt_0_compat. exact Rt. }
  set (q := r / rate s) in *.
  cbn [fst]. split; [rows_close |].
  main_simpl. intro Nn. apply nonneg_upd_both; [exact N | exact Nn |].
  intros _. pose proof (nonneg_get u (users s) Nn). split; lra.
Qed.

Lemma exchange_sell_signs u a s :
  positive_rows s -> keeps_signs s (fst (exchange_sell_uwt u a s)).
Proof.
  intros P. pose proof P as [N [Rt [Fc [Fb [Fd [Fo [Fg Fch]]]]]]].
  unfold exchange_sell_uwt.
  destruct (Qleb a 0) eqn:E; [apply keeps_signs_refl; exact P |].
  destruct (Qltb _ a) eqn:L; [apply keeps_signs_refl; exact P |].
  qtests.
  assert (Pq : 0 < a * rate s) by (apply Qmult_lt_0_compat; assumption).
  set (q := a * rate s) in *.
  cbn [fst]. split; [rows_close |].
  main_simpl. intro Nn. apply nonneg_upd_both; [exact N | exact Nn |].
  intros _. pose proof (nonneg_get u (users s) Nn). split; lra.
Qed.

Lemma p2p_signs from to a s :
  positive_rows s -> keeps_signs s (fst (p2p_amount from to a s)).
Proof.
  intros P. pose proof P as [N [Rt [Fc [Fb [Fd [Fo [Fg Fch]]]]]]].
  unfold p2p_amount.
  destruct (Qleb a 0) eqn:E; [apply keeps_signs_refl; exact P |].
  destruct (find_username to (users s)) as [r |];
    [| apply keeps_signs_refl; exact P].
  destruct (find_user from (users s)) as [me |] eqn:Fm;
    [| apply keeps_signs_refl; exact P].
  destruct (Qltb (uwt me) a) eqn:L; [apply keeps_signs_refl; exact P |].
  qtests. cbn [fst]. split; [rows_close |].
  main_simpl. intro Nn.
  apply nonneg_credit_uwt; [rewrite ids_upd_uwt; exact N | | lra].
  apply nonneg_upd_uwt; [exact N | exact Nn |]. intros _.
  unfold get_balances. rewrite Fm. simpl. lra.
Qed.

Lemma fill_or_reduce_positive id a os :
  Forall (fun o => 0 < or_price o /\ (or_open o = true -> 0 < or_amount o)) os ->
  Forall (fun o => 0 < or_price o /\ (or_open o = true -> 0 < or_amount o))
    (fill_or_reduce id a os).
Proof.
  intro F. unfold fill_or_reduce. destruct (Qleb a eps) eqn:E.
  - apply Forall_update_where; [exact F |].
    intros r _ [P _] _. split; [exact P | discriminate].
  - apply Qleb_false in E. pose proof eps_pos.
    apply Forall_update_where; [exact F |].
    intros r _ [P _] _. split; [exact P |]. intros _. simpl. lra.
Qed.

Lemma match_step_signs s s' :
  positive_rows s -> match_step s = Some s' -> keeps_signs s s'.
Proof.
  intros P M. pose proof P as [N [Rt [Fc [Fb [Fd [Fo [Fg Fch]]]]]]].
  destruct (match_step_inv s s' M)
    as [buy [sell [Bb [Bs [Le [Hu [Ho [Ht [Hx [Hr [Hc [Hb [Hd [Hg [Hp [Hch _]]]]]]]]]]]]]]]].
  destruct (best_buy_in _ _ Bb) as [Ib [Ob _]].
  destruct (best_sell_in _ _ Bs) as [Is [Os _]].
  rewrite Forall_forall in Fo.
  destruct (Fo buy Ib) as [Pb Ab]. destruct (Fo sell Is) as [Ps As].
  specialize (Ab Ob). specialize (As Os).
  rewrite <- Forall_forall in Fo.
  pose proof (py_min_pos _ _ Ab As) as Tp.
  set (t := py_min (or_amount buy) (or_amount sell)) in *.
  assert (Gp : 0 < t * or_price sell) by (apply Qmult_lt_0_compat; assumption).
  assert (Rf : 0 <= t * or_price buy - t * or_price sell).
  { assert (0 <= t * (or_price buy - or_price sell))
      by (apply Qmult_le_0_compat; lra). lra. }
  split.
  - unfold positive_rows. rewrite Hu, Hr, Hc, Hb, Hd, Ho, Hg, Hch.
    repeat match goal with |- _ /\ _ => split end; try assumption.
    + destruct (Qltb eps _);
        rewrite ?ids_upd_rub, ?ids_upd_uwt; exact N.
    + apply fill_or_reduce_positive, fill_or_reduce_positive. exact Fo.
  - intro Nn. rewrite Hu.
    assert (C : nonneg_balances
                  (upd_rub (t * or_price sell) (or_user sell)
                     (upd_uwt t (or_user buy) (users s)))).
    { apply nonneg_credit_rub; [rewrite ids_upd_uwt; exact N | | lra].
      apply nonneg_credit_uwt; [exact N | exact Nn | lra]. }
    destruct (Qltb eps _); [| exact C].
    apply nonneg_credit_rub; [| exact C | exact Rf].
    rewrite ids_upd_rub, ids_upd_uwt. exact N.
Qed.

Lemma match_loop_signs n s :
  positive_rows s -> keeps_signs s (match_loop n s).
Proof.
  revert s. induction n as [| n IH]; intros s P; simpl.
  - apply keeps_signs_refl. exact P.
  - destruct (match_step s) as [s' |] eqn:M;
      [| apply keeps_signs_refl; exact P].
    pose proof (match_step_signs s s' P M) as S1.
    apply (keeps_signs_trans s s'); [exact S1 |]. apply IH. apply S1.
Qed.

Lemma place_order_signs oid u sd price a now s :
  positive_rows s -> keeps_signs s (fst (place_order oid u sd price a now s)).
Proof.
  intros P. pose proof P as [N [Rt [Fc [Fb [Fd [Fo [Fg Fch]]]]]]].
  unfold place_order.
  destruct (parse_side sd) as [side |]; [| apply keeps_signs_refl; exact P].
  destruct (Qleb price 0 || Qleb a 0) eqn:E;
    [apply keeps_signs_refl; exact P |].
  apply orb_false_iff in E. destruct E as [E1 E2].
  destruct (find_user u (users s)) as [r |] eqn:F;
    [| apply keeps_signs_refl; exact P].
  assert (Gb : get_balances u (users s) = (uwt r, rub r))
    by (unfold get_balances; rewrite F; reflexivity).
  destruct side.
  - destruct (Qltb (rub r) (price * a)) eqn:L;
      [apply keeps_signs_refl; exact P |].
    main_simpl.
    destruct (existsb (or_is oid) (orders s));
      [apply keeps_signs_refl; exact P |].
    qtests. cbn [fst]. unfold match_orders.
    eapply keeps_signs_trans; [| apply match_loop_signs].
    + split; [rows_close |]. main_simpl. intro Nn.
      apply nonneg_upd_rub; [exact N | exact Nn |].
      intros _. rewrite Gb. simpl. lra.
    + rows_close.
  - destruct (Qltb (uwt r) a) eqn:L; [apply keeps_signs_refl; exact P |].
    main_simpl.
    destruct (existsb (or_is oid) (orders s));
      [apply keeps_signs_refl; exact P |].
    qtests. cbn [fst]. unfold match_orders.
    eapply keeps_signs_trans; [| apply match_loop_signs].
    + split; [rows_close |]. main_simpl. intro Nn.
      apply nonneg_upd_uwt; [exact N | exact Nn |].
      intros _. rewrite Gb. simpl. lra.
    + rows_close.
Qed.

Lemma cancel_order_signs u oid s :
  positive_rows s -> keeps_signs s (fst (cancel_order u oid s)).
Proof.
  intros P. pose proof P as [N [Rt [Fc [Fb [Fd [Fo [Fg Fch]]]]]]].
  unfold cancel_order.
  destruct (find (or_is oid) (orders s)) as [o |] eqn:F;
    [| apply keeps_signs_refl; exact P].
  destruct (or_open o) eqn:Op; [| apply keeps_signs_refl; exact P].
  cbn [negb].
  destruct (or_user o =? u)%Z; [| apply keeps_signs_refl; exact P].
  cbn [negb]. apply find_some in F. destruct F as [Io _].
  assert (Ok : 0 < or_price o /\ (or_open o = true -> 0 < or_amount o))
    by (rewrite Forall_forall in Fo; auto).
  destruct Ok as [Pp Pa]. specialize (Pa Op).
  assert (Pr : 0 < or_price o * or_amount o)
    by (apply Qmult_lt_0_compat; assumption).
  assert (Tab : Forall (fun o => 0 < or_price o
                                 /\ (or_open o = true -> 0 < or_amount o))
                  (update_where (fun r => or_is oid r && or_open r) cancelled
                     (orders s))).
  { apply Forall_update_where; [exact Fo |].
    intros r _ [P1 _] _. split; [exact P1 | discriminate]. }
  destruct (or_side o); cbn [fst].
  - split; [rows_close |]. main_simpl. intro Nn.
    apply nonneg_credit_rub; [exact N | exact Nn | lra].
  - split; [rows_close |]. main_simpl. intro Nn.
    apply nonneg_credit_uwt; [exact N | exact Nn | lra].
Qed.

Lemma create_giveaway_signs gid u a minutes now s :
  positive_rows s ->
  keeps_signs s (fst (create_giveaway gid u a minutes now s)).
Proof.
  intros P. pose proof P as [N [Rt [Fc [Fb [Fd [Fo [Fg Fch]]]]]]].
  unfold create_giveaway.
  destruct (Qleb a 0) eqn:E; [apply keeps_signs_refl; exact P |].
  destruct (_ || _)%bool; [apply keeps_signs_refl; exact P |].
  destruct (Qltb _ a) eqn:L; [apply keeps_signs_refl; exact P |].
  destruct (existsb _ (giveaways s)); [apply keeps_signs_refl; exact P |].
  qtests. cbn [fst]. split; [rows_close |].
  main_simpl. intro Nn. apply nonneg_upd_uwt; [exact N | exact Nn |].
  intros _. lra.
Qed.

Lemma join_giveaway_signs gid u s :
  positive_rows s -> keeps_signs s (fst (join_giveaway gid u s)).
Proof.
  intros P. unfold join_giveaway.
  destruct (find (gw_is gid) (giveaways s)) as [g |];
    [| apply keeps_signs_refl; exact P].
  destruct (negb (gw_active g)); [apply keeps_signs_refl; exact P |].
  destruct (existsb _ (participants s)); [apply keeps_signs_refl; exact P |].
  cbn [fst]. split; [exact P | auto].
Qed.

(** One turn of the sweep on a row with a positive prize. *)
Lemma finish_one_signs now rnd s fin k g :
  positive_rows s -> 0 < gw_amount g ->
  keeps_signs s (sweep_db (finish_one now rnd (s, fin, k) g)).
Proof.
  intros P Pa. pose proof P as [N [Rt [Fc [Fb [Fd [Fo [Fg Fch]]]]]]].
  rewrite finish_one_eq.
  destruct (fromisoformat (gw_end_at g)) as [t |];
    [| apply keeps_signs_refl; exact P].
  destruct (now <? t)%Z; [apply keeps_signs_refl; exact P |].
  cbv zeta. unfold sweep_db. cbn [fst]. split; [rows_close |].
  main_simpl. intro Nn. apply nonneg_credit_uwt; [exact N | exact Nn | lra].
Qed.

Lemma sweep_signs now rnd s :
  positive_rows s -> keeps_signs s (sweep_db (finish_due_giveaways now rnd s)).
Proof.
  intro P. unfold finish_due_giveaways.
  assert (Rows : Forall (fun g => 0 < gw_amount g)
                   (filter gw_active (giveaways s))).
  { apply Forall_forall. intros g I. apply filter_In in I.
    destruct P as [_ [_ [_ [_ [_ [_ [Fg _]]]]]]].
    rewrite Forall_forall in Fg. apply Fg. apply I. }
  change s with (sweep_db (s, @nil event, O)) at 1.
  change (positive_rows (sweep_db (s, @nil event, O))) in P.
  revert Rows P. generalize (s, @nil event, O).
  induction (filter gw_active (giveaways s)) as [| g rows IH];
    intros acc Rows P.
  - apply keeps_signs_refl. exact P.
  - simpl. inversion Rows as [| ? ? Pg Rows']; subst.
    destruct acc as [[x fin] k]. unfold sweep_db in P. cbn [fst] in P.
    pose proof (finish_one_signs now rnd x fin k g P Pg) as S1.
    eapply keeps_signs_trans; [exact S1 |].
    apply IH; [exact Rows' | apply S1].
Qed.

Lemma channel_add_signs owner chat price s :
  positive_rows s -> keeps_signs s (fst (channel_add owner chat price s)).
Proof.
  intros P. pose proof P as [N [Rt [Fc [Fb [Fd [Fo [Fg Fch]]]]]]].
  unfold channel_add.
  destruct (Qleb price 0) eqn:E; [apply keeps_signs_refl; exact P |].
  destruct (existsb _ (channels s)); [apply keeps_signs_refl; exact P |].
  qtests. cbn [fst]. split; [rows_close | auto].
Qed.

Lemma ch_buy_months_signs cid u months now s :
  positive_rows s -> keeps_signs s (fst (ch_buy_months cid u months now s)).
Proof.
  intros P. pose proof P as [N [Rt [Fc [Fb [Fd [Fo [Fg Fch]]]]]]].
  unfold ch_buy_months.
  destruct (find (ch_is cid) (channels s)) as [ch |] eqn:F;
    [| apply keeps_signs_refl; exact P].
  destruct (months <=? 0)%Z eqn:M; [apply keeps_signs_refl; exact P |].
  apply Z.leb_gt in M.
  set (m := if (120 <? months)%Z then 120%Z else months).
  assert (Pm : 0 < inject_Z m).
  { change 0 with (inject_Z 0). rewrite <- Zlt_Qlt. subst m.
    destruct (120 <? months)%Z; lia. }
  apply find_some in F. destruct F as [Ic _].
  assert (Pp : 0 < ch_price ch) by (rewrite Forall_forall in Fch; auto).
  assert (Pt : 0 < ch_price ch * inject_Z m)
    by (apply Qmult_lt_0_compat; assumption).
  set (total := ch_price ch * inject_Z m) in *.
  destruct (Qltb _ total) eqn:L; [apply keeps_signs_refl; exact P |].
  qtests.
  unfold add_asset. eval_literals. unfold channel_sub_extend. cbn [fst].
  split; [rows_close |].
  main_simpl. intro Nn.
  apply nonneg_credit_uwt; [rewrite ids_upd_uwt; exact N | | lra].
  apply nonneg_upd_uwt; [exact N | exact Nn |]. intros _. lra.
Qed.

(** Every operation, whoever calls it. *)
Lemma exec_signs o s :
  positive_rows s ->
  positive_rows (exec sha256 o s)
  /\ (adjustment_covered o s ->
      nonneg_balances (users s) -> nonneg_balances (users (exec sha256 o s))).
Proof.
  intro P.
  assert (From : forall s', keeps_signs s s' ->
            positive_rows s'
            /\ (adjustment_covered o s ->
                nonneg_balances (users s) -> nonneg_balances (users s')))
    by (intros s' [P' Nn]; split; auto).
  destruct o; cbn [exec].
  - apply From, ensure_user_signs; assumption.
  - apply adm_bal_signs; assumption.
  - apply From, adm_rate_signs; assumption.
  - apply From, create_deposit_signs; assumption.
  - apply From, decide_deposit_signs; assumption.
  - apply From, create_check_signs; assumption.
  - apply From, claim_check_signs; assumption.
  - apply From, create_bill_signs; assumption.
  - apply From, pay_bill_signs; assumption.
  - apply From, exchange_buy_signs; assumption.
  - apply From, exchange_sell_signs; assumption.
  - apply From, place_order_signs; assumption.
  - apply From, cancel_order_signs; assumption.
  - apply From, create_giveaway_signs; assumption.
  - apply From, join_giveaway_signs; assumption.
  - apply From. apply (sweep_signs now rnd s P).
  - apply From, channel_add_signs; assumption.
  - apply From, ch_buy_months_signs; assumption.
  - apply From, p2p_signs; assumption.
Qed.

Lemma covered_run_signs s :
  covered_run sha256 s -> positive_rows s /\ nonneg_balances (users s).
Proof.
  induction 1 as [| s o _ [P Nn] C].
  - split; [apply positive_init | constructor].
  - destruct (exec_signs o s P) as [P' Nn']. split; auto.
Qed.

End Signs.

(** * Conservation and the sign of the balances *)

(** Proves that a run of [Main.exec] from the empty database is
    reachable, each call coming from an account row. *)
Ltac reach :=
  repeat first
    [ exact (Main.reach_init _)
    | apply Main.reach_step; [| reflexivity] ].

(** C1, the counterexample.  [main.py]: after a purchase at the fixed
    rate the accounts hold 10 UWT that no administrator issued and the
    100 RUB that one did issue are gone; after a trade that leaves
    [5e-13] UWT on the sell order, the order is closed with that
    remainder, and less UWT is held than was issued, no exchange having
    taken place; and a check claimed for an account that has no row is
    marked claimed while [UPDATE users] changes nothing, so that its
    5 UWT are held by nobody. *)
Lemma C1_counterexample :
  (Main.reachable Scenario.no_hash Scenario.exchange_run
   /\ ~ Main.held_uwt Scenario.exchange_run
        == Main.minted "UWT" Scenario.exchange_run
   /\ ~ Main.held_rub Scenario.exchange_run
        == Main.minted "RUB" Scenario.exchange_run)
  /\ (Main.reachable Scenario.no_hash Scenario.dust_run
      /\ Main.exchanged "UWT" Scenario.dust_run == 0
      /\ ~ Main.held_uwt Scenario.dust_run
           == Main.minted "UWT" Scenario.dust_run)
  /\ (Main.reachable Scenario.no_hash Scenario.check_written
      /\ Main.called_by_account Scenario.stray_claim Scenario.check_written
         = false
      /\ Main.held_uwt
           (Main.exec Scenario.no_hash Scenario.stray_claim
              Scenario.check_written) == 0
      /\ Main.minted "UWT"
           (Main.exec Scenario.no_hash Scenario.stray_claim
              Scenario.check_written) == 5
      /\ Main.exchanged "UWT"
           (Main.exec Scenario.no_hash Scenario.stray_claim
              Scenario.check_written) == 0).
Proof.
  split; [| split];
    (split; [unfold Scenario.exchange_run, Scenario.funded,
               Scenario.dust_run, Scenario.traders, Scenario.check_written;
             reach |]).
  - split; vm_compute; discriminate.
  - split; vm_compute; [reflexivity | discriminate].
  - repeat split; vm_compute; reflexivity.
Qed.

(** C1, as amended.  [main.py]: in every state reached from the empty
    database by calls of the core made for account rows, and for UWT and
    RUB separately, the balances plus the outstanding escrow (active check
    remainders, open order locks, active giveaway prizes) are at most the
    administrator's mint minus burn deltas plus the net of the fixed-rate
    exchange legs of that asset, and fall short of that by no more than
    the dust of the trades made: 1e-12 UWT per trade, and 1e-12 RUB times
    one plus the limit price of the buy order per trade.  Every operation
    other than [place_order] keeps the difference between the two sides
    as it was; [place_order], which runs the matching loop, never raises
    it and lowers it by no more than the dust of the trades it makes. *)
Theorem C1_conservation_with_exchange_legs
    (sha256 : string -> string) (s : Main.db) :
  Main.reachable sha256 s ->
  (Main.minted "UWT" s + Main.exchanged "UWT" s - Main.dust_uwt s
     <= Main.held_uwt s
   /\ Main.held_uwt s <= Main.minted "UWT" s + Main.exchanged "UWT" s
   /\ Main.minted "RUB" s + Main.exchanged "RUB" s - Main.dust_rub s
        <= Main.held_rub s
   /\ Main.held_rub s <= Main.minted "RUB" s + Main.exchanged "RUB" s)
  /\ (forall o, Main.called_by_account o s = true ->
        Main.is_place_order o = false ->
        Main.conserves s (Main.exec sha256 o s))
  /\ (forall o, Main.called_by_account o s = true ->
        Main.never_gains s (Main.exec sha256 o s)
        /\ Main.loses_dust_only s (Main.exec sha256 o s)).
Proof.
  intro R. pose proof (reachable_wf sha256 s R) as W.
  destruct (reachable_drift sha256 s R) as [Du Dr].
  destruct (reachable_dust sha256 s R) as [Lu Lr].
  unfold Main.drift_uwt, Main.drift_rub in Du, Dr, Lu, Lr.
  split; [repeat split; lra |]. split.
  - intros o C P. apply (exec_facts sha256 o s W C). exact P.
  - intros o C. split.
    + apply (exec_facts sha256 o s W C).
    + apply exec_dust; assumption.
Qed.

Lemma C1_witness :
  Main.held_uwt Scenario.dust_run
  <= Main.minted "UWT" Scenario.dust_run + Main.exchanged "UWT" Scenario.dust_run.
Proof.
  refine (proj1 (proj2 (proj1
    (C1_conservation_with_exchange_legs Scenario.no_hash Scenario.dust_run _)))).
  unfold Scenario.dust_run, Scenario.traders. reach.
Defined.

(** Proves that a run of [Main.exec] from the empty database holds no
    adjustment that takes more than the account has. *)
Ltac cover :=
  repeat first
    [ exact (Main.covered_init _)
    | apply Main.covered_step;
      [| vm_compute;
         first [ exact I
               | split;
                 (let H := fresh in
                  intro H;
                  first [ discriminate H
                        | let G := fresh in intro G; discriminate G ]) ] ] ].

(** C8, the counterexample.  [main.py]: the administrator types [-5] for
    the UWT of an account that holds none; [adm_bal_amount] hands the
    amount to [add_asset], which adds it, and the balance is [-5]. *)
Lemma C8_counterexample :
  Main.reachable Scenario.no_hash
    (Main.exec Scenario.no_hash Scenario.overdraft Scenario.registered_db)
  /\ Main.nonneg_balances (Main.users Scenario.registered_db)
  /\ fst (get_balances 1
            (Main.users (Main.exec Scenario.no_hash Scenario.overdraft
                           Scenario.registered_db)))
     == -5
  /\ ~ Main.nonneg_balances
         (Main.users (Main.exec Scenario.no_hash Scenario.overdraft
                        Scenario.registered_db)).
Proof.
  split; [unfold Scenario.overdraft, Scenario.registered_db; reach |].
  split; [repeat constructor; vm_compute; discriminate |].
  split; [vm_compute; reflexivity |].
  intro F. inversion F as [| u l [Hu _] _]; subst.
  vm_compute in Hu. apply Hu. reflexivity.
Qed.

(** C8, as amended.  [main.py]: in every state reached from the empty
    database by operations of the core, whoever calls them, every balance
    of UWT and of RUB is at or above zero, provided that no adjustment by
    the administrator took more than the adjusted account held; and an
    operation that is not such an adjustment leaves the balances at or
    above zero. *)
Theorem C8_balances_stay_nonnegative
    (sha256 : string -> string) (s : Main.db) :
  Main.covered_run sha256 s ->
  Main.nonneg_balances (Main.users s)
  /\ (forall o, Main.adjustment_covered o s ->
        Main.nonneg_balances (Main.users (Main.exec sha256 o s))).
Proof.
  intro R. destruct (covered_run_signs sha256 s R) as [P Nn].
  split; [exact Nn |]. intros o C.
  apply (exec_signs sha256 o s P); assumption.
Qed.

Lemma C8_witness :
  Main.nonneg_balances
    (Main.users (Main.exec Scenario.no_hash (Main.OpAdmBal "ann" "RUB" (-40))
                   Scenario.funded)).
Proof.
  refine (proj1 (C8_balances_stay_nonnegative Scenario.no_hash
                   (Main.exec Scenario.no_hash
                      (Main.OpAdmBal "ann" "RUB" (-40)) Scenario.funded) _)).
  unfold Scenario.funded. cover.
Defined.

(** * Further properties of the order book of [main.py] *)

Section BookOrder.

Import Main.

Lemma buy_before_spec o b :
  buy_before o b = true
  <-> or_price b < or_price o
      \/ (or_price o == or_price b /\ (or_created o < or_created b)%Z).
Proof.
  unfold buy_before. rewrite orb_true_iff, andb_true_iff, Qltb_true,
    Qeq_bool_iff, Z.ltb_lt. reflexivity.
Qed.

Lemma sell_before_spec o b :
  sell_before o b = true
  <-> or_price o < or_price b
      \/ (or_price o == or_price b /\ (or_created o < or_created b)%Z).
Proof.
  unfold sell_before. rewrite orb_true_iff, andb_true_iff, Qltb_true,
    Qeq_bool_iff, Z.ltb_lt. reflexivity.
Qed.

Lemma buy_before_trans x y z :
  buy_before x y = true -> buy_before y z = true -> buy_before x z = true.
Proof.
  rewrite !buy_before_spec. intros [A | [A1 A2]] [B | [B1 B2]].
  - left. lra.
  - left. lra.
  - left. lra.
  - right. split; [lra | lia].
Qed.

Lemma sell_before_trans x y z :
  sell_before x y = true -> sell_before y z = true -> sell_before x z = true.
Proof.
  rewrite !sell_before_spec. intros [A | [A1 A2]] [B | [B1 B2]].
  - left. lra.
  - left. lra.
  - left. lra.
  - right. split; [lra | lia].
Qed.

Lemma buy_before_irrefl x : buy_before x x = false.
Proof.
  destruct (buy_before x x) eqn:E; [| reflexivity].
  apply buy_before_spec in E. destruct E as [E | [_ E]]; [lra | lia].
Qed.

Lemma sell_before_irrefl x : sell_before x x = false.
Proof.
  destruct (sell_before x x) eqn:E; [| reflexivity].
  apply sell_before_spec in E. destruct E as [E | [_ E]]; [lra | lia].
Qed.

Lemma buy_before_between x y z :
  buy_before x z = true -> buy_before x y = true \/ buy_before y z = true.
Proof.
  rewrite !buy_before_spec. intros H.
  destruct (Qlt_le_dec (or_price y) (or_price x)) as [A | A]; [auto |].
  destruct (Qlt_le_dec (or_price z) (or_price y)) as [B | B]; [auto |].
  destruct H as [H | [H1 H2]]; [lra |].
  destruct (Z_lt_le_dec (or_created x) (or_created y)) as [C | C].
  - left. right. split; [lra | exact C].
  - right. right. split; [lra | lia].
Qed.

Lemma sell_before_between x y z :
  sell_before x z = true -> sell_before x y = true \/ sell_before y z = true.
Proof.
  rewrite !sell_before_spec. intros H.
  destruct (Qlt_le_dec (or_price x) (or_price y)) as [A | A]; [auto |].
  destruct (Qlt_le_dec (or_price y) (or_price z)) as [B | B]; [auto |].
  destruct H as [H | [H1 H2]]; [lra |].
  destruct (Z_lt_le_dec (or_created x) (or_created y)) as [C | C].
  - left. right. split; [lra | exact C].
  - right. right. split; [lra | lia].
Qed.

(** The row [ORDER BY .. LIMIT 1] returns has no row before it. *)
Lemma first_by_least_aux (before : order -> order -> bool) l :
  (forall x, before x x = false) ->
  (forall x y z, before x y = true -> before y z = true -> before x z = true) ->
  (forall x y z, before x z = true -> before x y = true \/ before y z = true) ->
  forall acc r,
    fold_left
      (fun acc o =>
         match acc with
         | None => Some o
         | Some b => if before o b then Some o else Some b
         end) l acc = Some r ->
    (forall o, In o l -> before o r = false)
    /\ (forall a, acc = Some a -> before a r = false).
Proof.
  intros Irr T NT.
  assert (Chain : forall x y z,
            before x y = false -> before y z = false -> before x z = false).
  { intros x y z A B. destruct (before x z) eqn:C; [| reflexivity].
    destruct (NT x y z C); congruence. }
  induction l as [| x l IH]; simpl; intros acc r H.
  - split; [contradiction |]. intros a E. rewrite E in H.
    injection H as <-. apply Irr.
  - destruct acc as [a |].
    + destruct (before x a) eqn:E; destruct (IH _ _ H) as [L A].
      * split.
        { intros o [<- | I]; [apply A; reflexivity | auto]. }
        { intros a' [= <-]. specialize (A x eq_refl).
          destruct (before a r) eqn:F; [| reflexivity].
          rewrite (T _ _ _ E F) in A. discriminate. }
      * split.
        { intros o [<- | I]; [| auto].
          apply (Chain _ a _ E). apply A. reflexivity. }
        { exact A. }
    + destruct (IH _ _ H) as [L A]. split; [| discriminate].
      intros o [<- | I]; [apply A; reflexivity | auto].
Qed.

Lemma first_by_least (before : order -> order -> bool) l r :
  (forall x, before x x = false) ->
  (forall x y z, before x y = true -> before y z = true -> before x z = true) ->
  (forall x y z, before x z = true -> before x y = true \/ before y z = true) ->
  first_by before l = Some r -> forall o, In o l -> before o r = false.
Proof.
  intros Irr T NT H. apply (first_by_least_aux before l Irr T NT None r H).
Qed.

Lemma first_by_none (before : order -> order -> bool) l :
  first_by before l = None <-> l = [].
Proof.
  split; [| intros ->; reflexivity].
  destruct l as [| x l]; [reflexivity |]. unfold first_by. simpl.
  assert (forall l a, fold_left
            (fun acc o =>
               match acc with
               | None => Some o
               | Some b => if before o b then Some o else Some b
               end) l (Some a) <> None) as N.
  { clear. induction l as [| y l IH]; simpl; intros a; [discriminate |].
    destruct (before y a); apply IH. }
  intro H. destruct (N _ _ H).
Qed.

(** The best buy: no open buy has a higher price, and none at the same
    price is older. *)
Lemma best_buy_least os b :
  best_buy os = Some b ->
  forall o, In o os -> or_open o = true -> or_buy o = true ->
    or_price o < or_price b
    \/ (or_price o == or_price b /\ (or_created b <= or_created o)%Z).
Proof.
  intros H o I Op Sd.
  assert (F : buy_before o b = false).
  { apply (first_by_least buy_before _ b buy_before_irrefl buy_before_trans
             buy_before_between H).
    apply filter_In. split; [exact I |]. rewrite Op, Sd. reflexivity. }
  destruct (Qlt_le_dec (or_price o) (or_price b)) as [A | A]; [auto |].
  right.
  destruct (Qlt_le_dec (or_price b) (or_price o)) as [B | B].
  - assert (buy_before o b = true) by (apply buy_before_spec; auto).
    congruence.
  - assert (E : or_price o == or_price b) by lra. split; [exact E |].
    destruct (Z_lt_le_dec (or_created o) (or_created b)) as [C | C];
      [| exact C].
    assert (buy_before o b = true) by (apply buy_before_spec; auto).
    congruence.
Qed.

(** The best sell: no open sell has a lower price, and none at the same
    price is older. *)
Lemma best_sell_least os b :
  best_sell os = Some b ->
  forall o, In o os -> or_open o = true -> or_sell o = true ->
    or_price b < or_price o
    \/ (or_price o == or_price b /\ (or_created b <= or_created o)%Z).
Proof.
  intros H o I Op Sd.
  assert (F : sell_before o b = false).
  { apply (first_by_least sell_before _ b sell_before_irrefl sell_before_trans
             sell_before_between H).
    apply filter_In. split; [exact I |]. rewrite Op, Sd. reflexivity. }
  destruct (Qlt_le_dec (or_price b) (or_price o)) as [A | A]; [auto |].
  right.
  destruct (Qlt_le_dec (or_price o) (or_price b)) as [B | B].
  - assert (sell_before o b = true) by (apply sell_before_spec; auto).
    congruence.
  - assert (E : or_price o == or_price b) by lra. split; [exact E |].
    destruct (Z_lt_le_dec (or_created o) (or_created b)) as [C | C];
      [| exact C].
    assert (sell_before o b = true) by (apply sell_before_spec; auto).
    congruence.
Qed.

Lemma best_buy_none os :
  best_buy os = None ->
  forall o, In o os -> or_open o = true -> or_buy o = false.
Proof.
  unfold best_buy. rewrite first_by_none. intros E o I Op.
  destruct (or_buy o) eqn:Sd; [| reflexivity].
  assert (In o (filter (fun o => or_open o && or_buy o) os))
    by (apply filter_In; split; [exact I | rewrite Op, Sd; reflexivity]).
  rewrite E in H. contradiction.
Qed.

Lemma best_sell_none os :
  best_sell os = None ->
  forall o, In o os -> or_open o = true -> or_sell o = false.
Proof.
  unfold best_sell. rewrite first_by_none. intros E o I Op.
  destruct (or_sell o) eqn:Sd; [| reflexivity].
  assert (In o (filter (fun o => or_open o && or_sell o) os))
    by (apply filter_In; split; [exact I | rewrite Op, Sd; reflexivity]).
  rewrite E in H. contradiction.
Qed.

(** When the loop breaks, the book is not crossed. *)
Lemma break_uncrossed s :
  match_step s = None ->
  forall b a, In b (orders s) -> In a (orders s) ->
    or_open b = true -> or_buy b = true ->
    or_open a = true -> or_sell a = true ->
    or_price b < or_price a.
Proof.
  unfold match_step. intros H b a Ib Ia Ob Sb Oa Sa.
  destruct (best_buy (orders s)) as [bb |] eqn:Bb.
  - destruct (best_sell (orders s)) as [bs |] eqn:Bs.
    + destruct (Qltb (or_price bb) (or_price bs)) eqn:L; [| discriminate].
      apply Qltb_true in L.
      destruct (best_buy_least _ _ Bb b Ib Ob Sb) as [P | [P _]];
        destruct (best_sell_least _ _ Bs a Ia Oa Sa) as [R | [R _]]; lra.
    + rewrite (best_sell_none _ Bs a Ia Oa) in Sa. discriminate.
  - rewrite (best_buy_none _ Bb b Ib Ob) in Sb. discriminate.
Qed.



(** [place_order] ends, when it succeeds, with a run of the matching
    loop. *)
Lemma place_order_done_matched oid u sd price a now s :
  snd (place_order oid u sd price a now s) = Done ->
  exists s2, fst (place_order oid u sd price a now s) = match_orders s2.
Proof.
  unfold place_order.
  destruct (parse_side sd) as [side |]; [| discriminate].
  destruct (Qleb price 0 || Qleb a 0); [discriminate |].
  destruct (find_user u (users s)) as [r |]; [| discriminate].
  destruct side.
  - destruct (Qltb (rub r) (price * a)); [discriminate |].
    destruct (existsb _ _); [discriminate |]. intros _. eexists. reflexivity.
  - destruct (Qltb (uwt r) a); [discriminate |].
    destruct (existsb _ _); [discriminate |]. intros _. eexists. reflexivity.
Qed.

(** ** Cancelling *)

Lemma get_balances_upd_rub_other i d id us :
  i <> id -> get_balances i (upd_rub d id us) = get_balances i us.
Proof.
  intro N. unfold get_balances. rewrite find_user_upd_rub.
  destruct (find_user i us) as [u |] eqn:F; simpl; [| reflexivity].
  pose proof (find_user_id _ _ _ F) as Hi.
  unfold has_id. rewrite Hi.
  assert ((i =? id)%Z = false) as -> by (apply Z.eqb_neq; exact N).
  reflexivity.
Qed.

Lemma balances_upd_uwt_other i d id us :
  i <> id -> get_balances i (upd_uwt d id us) = get_balances i us.
Proof.
  intro N. unfold get_balances. rewrite find_user_upd_uwt.
  destruct (find_user i us) as [u |] eqn:F; simpl; [| reflexivity].
  pose proof (find_user_id _ _ _ F) as Hi.
  unfold has_id. rewrite Hi.
  assert ((i =? id)%Z = false) as -> by (apply Z.eqb_neq; exact N).
  reflexivity.
Qed.

Lemma find_cancel_same oid os o :
  find (or_is oid) os = Some o -> or_open o = true ->
  find (or_is oid)
    (update_where (fun r => or_is oid r && or_open r) cancelled os)
  = Some (cancelled o).
Proof.
  intros F Op.
  rewrite (keyed_find_update or_id or_is or_is_spec oid os _ cancelled o)
    by (reflexivity || exact F).
  apply find_some in F. destruct F as [_ E]. rewrite E, Op. reflexivity.
Qed.

Lemma find_cancel_other oid oid' os :
  oid' <> oid ->
  find (or_is oid')
    (update_where (fun r => or_is oid r && or_open r) cancelled os)
  = find (or_is oid') os.
Proof.
  intro Ne. apply find_update_where_other. intros x Hx.
  apply andb_true_iff in Hx. destruct Hx as [Hx _].
  apply or_is_spec in Hx.
  assert (E : or_is oid' x = false).
  { destruct (or_is oid' x) eqn:E; [| reflexivity].
    apply or_is_spec in E. congruence. }
  split; exact E.
Qed.

(** What a cancellation that goes through does. *)
Lemma cancel_order_done u oid s o :
  find (or_is oid) (orders s) = Some o -> or_open o = true -> or_user o = u ->
  cancel_order u oid s
  = (set_orders
       (update_where (fun r => or_is oid r && or_open r) cancelled)
       (match or_side o with
        | Buy =>
          log u "RUB" (or_price o * or_amount o) "order_cancel_refund"
            (set_users (upd_rub (or_price o * or_amount o) u) s)
        | Sell =>
          log u "UWT" (or_amount o) "order_cancel_refund"
            (set_users (upd_uwt (or_amount o) u) s)
        end),
     Done).
Proof.
  intros F Op Eu. unfold cancel_order. rewrite F, Op. cbn [negb].
  rewrite Eu, Z.eqb_refl. reflexivity.
Qed.

(** ** A run of the loop that makes no trade *)

Lemma match_loop_trades n s :
  exists l, trades (match_loop n s) = trades s ++ l.
Proof.
  revert s. induction n as [| n IH]; intro s; simpl.
  - exists []. rewrite app_nil_r. reflexivity.
  - destruct (match_step s) as [s' |] eqn:M.
    + destruct (match_step_inv s s' M)
        as [buy [sell [_ [_ [_ [_ [_ [Ht _]]]]]]]].
      destruct (IH s') as [l E]. rewrite E, Ht, <- app_assoc.
      eexists. reflexivity.
    + exists []. rewrite app_nil_r. reflexivity.
Qed.

Lemma match_loop_idle n s :
  trades (match_loop n s) = trades s -> match_loop n s = s.
Proof.
  destruct n as [| n]; simpl; [reflexivity |].
  destruct (match_step s) as [s' |] eqn:M; [| reflexivity].
  destruct (match_step_inv s s' M)
    as [buy [sell [_ [_ [_ [_ [_ [Ht _]]]]]]]].
  destruct (match_loop_trades n s') as [l E]. rewrite E, Ht, <- app_assoc.
  intro H. apply (f_equal (@List.length trade)) in H.
  rewrite !length_app in H. simpl in H. lia.
Qed.

(** [place_order] that goes through without a trade. *)
Lemma place_order_idle oid u sd price a now s :
  snd (place_order oid u sd price a now s) = Done ->
  trades (fst (place_order oid u sd price a now s)) = trades s ->
  exists side r,
    parse_side sd = Some side /\ find_user u (users s) = Some r
    /\ existsb (or_is oid) (orders s) = false
    /\ fst (place_order oid u sd price a now s)
       = set_orders
           (fun os => os ++ [mkOrder oid u side price a OrOpen
                               (now - now mod second_us)%Z])
           (match side with
            | Buy =>
              log u "RUB" (- (price * a)) "order_reserve"
                (set_users (upd_rub (- (price * a)) u) s)
            | Sell =>
              log u "UWT" (- a) "order_reserve"
                (set_users (upd_uwt (- a) u) s)
            end).
Proof.
  unfold place_order.
  destruct (parse_side sd) as [side |]; [| discriminate].
  destruct (Qleb price 0 || Qleb a 0); [discriminate |].
  destruct (find_user u (users s)) as [r |]; [| discriminate].
  destruct side.
  - destruct (Qltb (rub r) (price * a)); [discriminate |]. main_simpl.
    destruct (existsb (or_is oid) (orders s)) eqn:X; [discriminate |].
    cbn [fst snd]. intros _ T. exists Buy, r.
    repeat split; try reflexivity. unfold match_orders in *.
    apply match_loop_idle. exact T.
  - destruct (Qltb (uwt r) a); [discriminate |]. main_simpl.
    destruct (existsb (or_is oid) (orders s)) eqn:X; [discriminate |].
    cbn [fst snd]. intros _ T. exists Sell, r.
    repeat split; try reflexivity. unfold match_orders in *.
    apply match_loop_idle. exact T.
Qed.

End BookOrder.

(** X1 ([match_orders], [place_order]; [main.py]).  The matching loop
    stops, and where it stops the book is not crossed: every open buy
    order is priced strictly below every open sell order.  The same holds
    of the book a successful [place_order] leaves. *)
Theorem X1_matching_leaves_book_uncrossed (s : Main.db) :
  Main.match_step (Main.match_orders s) = None
  /\ (forall b a,
        In b (Main.orders (Main.match_orders s)) ->
        In a (Main.orders (Main.match_orders s)) ->
        Main.or_open b = true -> Main.or_buy b = true ->
        Main.or_open a = true -> Main.or_sell a = true ->
        Main.or_price b < Main.or_price a)
  /\ (forall oid u sd price amt now,
        snd (Main.place_order oid u sd price amt now s) = Done ->
        forall b a,
          In b (Main.orders (fst (Main.place_order oid u sd price amt now s))) ->
          In a (Main.orders (fst (Main.place_order oid u sd price amt now s))) ->
          Main.or_open b = true -> Main.or_buy b = true ->
          Main.or_open a = true -> Main.or_sell a = true ->
          Main.or_price b < Main.or_price a).
Proof.
  split; [apply match_orders_stops |]. split.
  - apply break_uncrossed. apply match_orders_stops.
  - intros oid u sd price amt now D.
    destruct (place_order_done_matched _ _ _ _ _ _ _ D) as [s2 ->].
    apply break_uncrossed. apply match_orders_stops.
Qed.

Lemma X1_witness :
  Main.or_price Scenario.bid9 < Main.or_price Scenario.ask10.
Proof.
  apply (proj1 (proj2 (X1_matching_leaves_book_uncrossed Scenario.quiet_book))
           Scenario.bid9 Scenario.ask10);
    try reflexivity; vm_compute; auto.
Defined.

(** X2 ([match_orders], [main.py]: the two [SELECT .. ORDER BY .. LIMIT 1]).
    Price-time priority: the buy order a turn of the loop takes is an open
    buy order such that no open buy order has a higher price and none at
    the same price was created earlier; the sell order it takes is an open
    sell order such that none has a lower price and none at the same price
    was created earlier.  No order is taken on a side only when that side
    has no open order. *)
Theorem X2_price_time_priority (os : list Main.order) :
  (forall b, Main.best_buy os = Some b ->
     In b os /\ Main.or_open b = true /\ Main.or_buy b = true
     /\ forall o, In o os -> Main.or_open o = true -> Main.or_buy o = true ->
          Main.or_price o < Main.or_price b
          \/ (Main.or_price o == Main.or_price b
              /\ (Main.or_created b <= Main.or_created o)%Z))
  /\ (forall a, Main.best_sell os = Some a ->
       In a os /\ Main.or_open a = true /\ Main.or_sell a = true
       /\ forall o, In o os -> Main.or_open o = true -> Main.or_sell o = true ->
            Main.or_price a < Main.or_price o
            \/ (Main.or_price o == Main.or_price a
                /\ (Main.or_created a <= Main.or_created o)%Z))
  /\ (Main.best_buy os = None ->
      forall o, In o os -> Main.or_open o = true -> Main.or_buy o = false)
  /\ (Main.best_sell os = None ->
      forall o, In o os -> Main.or_open o = true -> Main.or_sell o = false).
Proof.
  split; [| split; [| split]].
  - intros b H. destruct (best_buy_in _ _ H) as [I [O B]].
    repeat split; try assumption. apply best_buy_least. exact H.
  - intros a H. destruct (best_sell_in _ _ H) as [I [O B]].
    repeat split; try assumption. apply best_sell_least. exact H.
  - apply best_buy_none.
  - apply best_sell_none.
Qed.

Lemma X2_witness :
  In Scenario.bid9 (Main.orders Scenario.quiet_book)
  /\ Main.or_open Scenario.bid9 = true.
Proof.
  destruct (proj1 (X2_price_time_priority (Main.orders Scenario.quiet_book))
              Scenario.bid9 eq_refl) as [I [O _]].
  exact (conj I O).
Defined.

(** X4 ([cancel_order], [main.py]).  A cancellation is refused, and the
    database left as it was, for an unknown order, an order that is not
    open, and an open order of another user.  Otherwise the order becomes
    [cancelled] and no other order changes; the owner's account gets back
    what the order still locked (price times remaining amount in RUB for
    a buy, the remaining amount in UWT for a sell) and no other balance
    moves; a second cancellation of the same order is refused. *)
Theorem X4_cancel_order_refunds_once (s : Main.db) (u : Z) (oid : string) :
  (find (Main.or_is oid) (Main.orders s) = None ->
   Main.cancel_order u oid s = (s, Failed NotFound))
  /\ forall o, find (Main.or_is oid) (Main.orders s) = Some o ->
       (Main.or_open o = false ->
        Main.cancel_order u oid s = (s, Failed Unavailable))
       /\ (Main.or_open o = true -> Main.or_user o <> u ->
           Main.cancel_order u oid s = (s, Failed NotOwner))
       /\ (Main.or_open o = true -> Main.or_user o = u ->
           let s' := fst (Main.cancel_order u oid s) in
           snd (Main.cancel_order u oid s) = Done
           /\ find (Main.or_is oid) (Main.orders s') = Some (Main.cancelled o)
           /\ (forall oid', oid' <> oid ->
                 find (Main.or_is oid') (Main.orders s')
                 = find (Main.or_is oid') (Main.orders s))
           /\ (registered u (Main.users s) = true ->
               fst (get_balances u (Main.users s'))
               == fst (get_balances u (Main.users s))
                  + (if Main.or_sell o then Main.or_amount o else 0)
               /\ snd (get_balances u (Main.users s'))
                  == snd (get_balances u (Main.users s))
                     + (if Main.or_buy o
                        then Main.or_price o * Main.or_amount o else 0))
           /\ (forall i, i <> u ->
                 get_balances i (Main.users s') = get_balances i (Main.users s))
           /\ Main.cancel_order u oid s' = (s', Failed Unavailable)).
Proof.
  split.
  - intro F. unfold Main.cancel_order. rewrite F. reflexivity.
  - intros o F. split; [| split].
    + intro Op. unfold Main.cancel_order. rewrite F, Op. reflexivity.
    + intros Op Ne. unfold Main.cancel_order. rewrite F, Op. cbn [negb].
      apply Z.eqb_neq in Ne. rewrite Ne. reflexivity.
    + intros Op Eu. cbv zeta. rewrite (cancel_order_done u oid s o F Op Eu).
      cbn [fst snd].
      assert (Fs : find (Main.or_is oid)
                     (Main.orders
                        (Main.set_orders
                           (update_where
                              (fun r => Main.or_is oid r && Main.or_open r)
                              Main.cancelled)
                           match Main.or_side o with
                           | Main.Buy =>
                             Main.log u "RUB" (Main.or_price o * Main.or_amount o)
                               "order_cancel_refund"
                               (Main.set_users
                                  (upd_rub (Main.or_price o * Main.or_amount o) u) s)
                           | Main.Sell =>
                             Main.log u "UWT" (Main.or_amount o)
                               "order_cancel_refund"
                               (Main.set_users (upd_uwt (Main.or_amount o) u) s)
                           end))
                   = Some (Main.cancelled o)).
      { destruct (Main.or_side o); main_simpl;
          apply find_cancel_same; assumption. }
      split; [reflexivity |]. split; [exact Fs |]. split; [| split; [| split]].
      * intros oid' Ne. destruct (Main.or_side o); main_simpl;
          apply find_cancel_other; exact Ne.
      * intro R. unfold Main.or_sell, Main.or_buy.
        destruct (Main.or_side o); main_simpl; cbn [negb].
        { rewrite get_uwt_upd_rub, get_rub_upd_rub, Z.eqb_refl, R.
          cbn [andb]. split; lra. }
        { rewrite get_uwt_upd_uwt, get_rub_upd_uwt, Z.eqb_refl, R.
          cbn [andb]. split; lra. }
      * intros i Ne. destruct (Main.or_side o); main_simpl.
        { apply get_balances_upd_rub_other. exact Ne. }
        { apply balances_upd_uwt_other. exact Ne. }
      * unfold Main.cancel_order at 1. rewrite Fs. reflexivity.
Qed.

Lemma X4_witness :
  snd (Main.cancel_order 1 "B" Scenario.quiet_book) = Done
  /\ snd (get_balances 1
            (Main.users (fst (Main.cancel_order 1 "B" Scenario.quiet_book))))
     == snd (get_balances 1 (Main.users Scenario.quiet_book)) + 9 * 10.
Proof.
  destruct (proj2 (proj2 (proj2 (X4_cancel_order_refunds_once
                                   Scenario.quiet_book 1 "B")
                                 Scenario.bid9 eq_refl))
              eq_refl eq_refl) as [D [_ [_ [B _]]]].
  split; [exact D |]. exact (proj2 (B eq_refl)).
Defined.

(** X5 ([place_order] then [cancel_order], [main.py]).  An order that is
    placed and makes no trade can be taken back in full: cancelling it
    goes through, every account reads the balances it had before the
    order was placed, and the order stays in the table as [cancelled]. *)
Theorem X5_place_then_cancel_restores_balances
    (oid : string) (u : Z) (sd : string) (price amt : Q) (now : datetime)
    (s : Main.db) :
  snd (Main.place_order oid u sd price amt now s) = Done ->
  Main.trades (fst (Main.place_order oid u sd price amt now s))
  = Main.trades s ->
  let s1 := fst (Main.place_order oid u sd price amt now s) in
  let s2 := fst (Main.cancel_order u oid s1) in
  snd (Main.cancel_order u oid s1) = Done
  /\ (forall i,
        fst (get_balances i (Main.users s2))
        == fst (get_balances i (Main.users s))
        /\ snd (get_balances i (Main.users s2))
           == snd (get_balances i (Main.users s)))
  /\ (exists o, find (Main.or_is oid) (Main.orders s2) = Some o
                /\ Main.or_open o = false /\ Main.or_amount o = amt
                /\ Main.or_price o = price /\ Main.or_user o = u).
Proof.
  intros D T. cbv zeta.
  destruct (place_order_idle _ _ _ _ _ _ _ D T) as [side [r [Ps [Fu [X E]]]]].
  rewrite E.
  set (new := Main.mkOrder oid u side price amt Main.OrOpen
                (now - now mod second_us)%Z).
  assert (Fo : forall s0, Main.orders s0 = Main.orders s ->
             find (Main.or_is oid) (Main.orders s0 ++ [new]) = Some new).
  { intros s0 ->. rewrite find_app_none.
    - unfold Main.or_is at 1. simpl. rewrite String.eqb_refl. reflexivity.
    - destruct (find (Main.or_is oid) (Main.orders s)) as [x |] eqn:F;
        [| reflexivity].
      apply find_some in F. destruct F as [I Hx].
      pose proof (existsb_false_forall _ _ X x I) as H. congruence. }
  assert (Rg : registered u (Main.users s) = true)
    by (apply registered_find; eauto).
  destruct side.
  - rewrite (cancel_order_done u oid _ new) by
      (main_simpl; try apply Fo; reflexivity).
    cbn [fst snd]. subst new. cbn [Main.or_side Main.or_price Main.or_amount].
    main_simpl. split; [reflexivity |]. split.
    + intro i. rewrite !get_uwt_upd_rub, !get_rub_upd_rub, registered_upd_rub.
      split; [reflexivity |].
      destruct ((u =? i)%Z && registered i (Main.users s)); lra.
    + eexists. split.
      * apply find_cancel_same; [apply (Fo s); reflexivity | reflexivity].
      * repeat split.
  - rewrite (cancel_order_done u oid _ new) by
      (main_simpl; try apply Fo; reflexivity).
    cbn [fst snd]. subst new. cbn [Main.or_side Main.or_price Main.or_amount].
    main_simpl. split; [reflexivity |]. split.
    + intro i. rewrite !get_uwt_upd_uwt, !get_rub_upd_uwt, registered_upd_uwt.
      split; [| reflexivity].
      destruct ((u =? i)%Z && registered i (Main.users s)); lra.
    + eexists. split.
      * apply find_cancel_same; [apply (Fo s); reflexivity | reflexivity].
      * repeat split.
Qed.

Lemma X5_witness :
  snd (get_balances 1
         (Main.users
            (fst (Main.cancel_order 1 "B"
                    (fst (Main.place_order "B" 1 "buy" 9 10 0%Z
                            Scenario.book_db))))))
  == snd (get_balances 1 (Main.users Scenario.book_db)).
Proof.
  exact (proj2 (proj1 (proj2
    (X5_place_then_cancel_restores_balances "B" 1 "buy" 9 10 0%Z
       Scenario.book_db eq_refl eq_refl)) 1%Z)).
Defined.

(** * Checks and deposits of [main.py] *)

Section NoRow.

(** [UPDATE users .. WHERE tg_id=?] for an id that holds no row. *)
Lemma upd_uwt_no_row d id us :
  registered id us = false -> upd_uwt d id us = us.
Proof. intro R. apply update_where_id, existsb_false_forall. exact R. Qed.

Lemma upd_rub_no_row d id us :
  registered id us = false -> upd_rub d id us = us.
Proof. intro R. apply update_where_id, existsb_false_forall. exact R. Qed.

End NoRow.

Section CheckFacts.

Import Main.

Variable sha256 : string -> string.

#[local] Abbreviation claim := (claim_check sha256).

(** A claim that does not go through leaves the database as it is. *)
Lemma claim_failed_unchanged chk_id u pw s :
  snd (claim chk_id u pw s) <> Done -> fst (claim chk_id u pw s) = s.
Proof.
  unfold claim_check.
  destruct (find (ck_is chk_id) (checks s)) as [row |]; [| reflexivity].
  destruct (negb (ck_active row)); [reflexivity |].
  destruct (truthy (ck_passhash row) && negb (truthy pw)); [reflexivity |].
  destruct (truthy (ck_passhash row) && negb _); [reflexivity |].
  destruct (negb _); [reflexivity |].
  simpl. congruence.
Qed.

Lemma claim_inactive chk_id u pw s row :
  find (ck_is chk_id) (checks s) = Some row -> ck_active row = false ->
  claim chk_id u pw s = (s, Failed Unavailable).
Proof.
  intros F A. unfold claim_check. rewrite F, A. reflexivity.
Qed.

(** What a claim that goes through has done. *)
Lemma claim_done_inv chk_id u pw s :
  snd (claim chk_id u pw s) = Done ->
  exists row,
    find (ck_is chk_id) (checks s) = Some row
    /\ ck_active row = true
    /\ fst (claim chk_id u pw s)
       = log u "UWT" (ck_amount row) "check_claim"
           (set_users (upd_uwt (ck_amount row) u)
              (set_checks
                 (update_where (fun c => ck_is chk_id c && ck_active c)
                    (claimed_by u)) s))
    /\ find (ck_is chk_id) (checks (fst (claim chk_id u pw s)))
       = Some (claimed_by u row).
Proof.
  unfold claim_check.
  destruct (find (ck_is chk_id) (checks s)) as [row |] eqn:F; [| discriminate].
  destruct (ck_active row) eqn:A; cbn [negb]; [| discriminate].
  destruct (truthy (ck_passhash row) && negb (truthy pw)); [discriminate |].
  destruct (truthy (ck_passhash row) && negb _); [discriminate |].
  destruct (negb _); [discriminate |].
  intros _. exists row. main_simpl.
  split; [reflexivity |]. split; [exact A |]. split; [reflexivity |].
  rewrite (keyed_find_update ck_id ck_is ck_is_spec chk_id (checks s)
             (fun c => ck_is chk_id c && ck_active c) (claimed_by u) row);
    [| reflexivity | exact F].
  rewrite A. assert (ck_is chk_id row = true) as ->
    by (apply find_some in F; tauto).
  reflexivity.
Qed.

Lemma claim_succeeds chk_id u pw s row :
  NoDup (map ck_id (checks s)) ->
  find (ck_is chk_id) (checks s) = Some row -> ck_active row = true ->
  truthy (ck_passhash row) = false
  \/ (truthy pw = true /\ hash_matches sha256 pw (ck_passhash row) = true) ->
  snd (claim chk_id u pw s) = Done.
Proof.
  intros N F A P. unfold claim_check. rewrite F, A. cbn [negb].
  assert (truthy (ck_passhash row) && negb (truthy pw) = false) as ->
    by (destruct P as [-> | [-> _]];
        [reflexivity | apply andb_false_r]).
  assert (truthy (ck_passhash row)
          && negb (hash_matches sha256 pw (ck_passhash row)) = false) as ->
    by (destruct P as [-> | [_ ->]];
        [reflexivity | apply andb_false_r]).
  rewrite (keyed_rowcount ck_id ck_is ck_is_spec chk_id (checks s) ck_active
             row N F).
  rewrite A. reflexivity.
Qed.

Lemma run_claims_inactive chk_id calls : forall s row,
  find (ck_is chk_id) (checks s) = Some row -> ck_active row = false ->
  run_claims sha256 chk_id calls s
  = (s, map (fun _ => Failed Unavailable) calls).
Proof.
  induction calls as [| [u pw] calls IH]; intros s row F A; simpl;
    [reflexivity |].
  rewrite (claim_inactive chk_id u pw s row F A).
  rewrite (IH s row F A). reflexivity.
Qed.

Lemma run_claims_at_most_one chk_id calls : forall s,
  (successes (snd (run_claims sha256 chk_id calls s)) <= 1)%nat.
Proof.
  induction calls as [| [u pw] calls IH]; intro s; simpl.
  - unfold successes. simpl. lia.
  - destruct (claim chk_id u pw s) as [s1 r] eqn:E.
    destruct (is_done r) eqn:D.
    + destruct r; try discriminate.
      pose proof (claim_done_inv chk_id u pw s) as H. rewrite E in H.
      destruct (H eq_refl) as [row [_ [_ [_ F']]]]. simpl in F'.
      rewrite (run_claims_inactive chk_id calls s1 _ F' eq_refl).
      unfold successes. simpl.
      fold (successes (map (fun _ : Z * option string => Failed Unavailable)
                         calls)).
      rewrite successes_all_failed. lia.
    + specialize (IH s1).
      destruct (run_claims sha256 chk_id calls s1) as [s2 rs]. simpl in *.
      unfold successes in *. simpl. rewrite D. exact IH.
Qed.

(** What a [create_check] that goes through has checked and done. *)
Lemma create_check_done_inv chk_id u a pw s :
  snd (create_check sha256 chk_id u a pw s) = Done ->
  0 < a /\ a <= fst (get_balances u (users s))
  /\ existsb (ck_is chk_id) (checks s) = false
  /\ fst (create_check sha256 chk_id u a pw s)
     = log u "UWT" (- a) "check_create"
         (set_checks
            (fun cs => cs ++ [mkCheck chk_id u a
                                (if truthy pw then option_map sha256 pw
                                 else None) CkActive None])
            (set_users (upd_uwt (- a) u) s)).
Proof.
  unfold create_check.
  destruct (Qleb a 0) eqn:E; [discriminate |].
  destruct (Qltb _ a) eqn:L; [discriminate |].
  destruct (existsb (ck_is chk_id) (checks s)) eqn:X; [discriminate |].
  intros _. qtests. repeat split; auto.
Qed.

Lemma find_snoc_fresh {R : Type} (p : R -> bool) (l : list R) (r : R) :
  existsb p l = false -> p r = true -> find p (l ++ [r]) = Some r.
Proof.
  intros X P. rewrite find_app_none; [rewrite P; reflexivity |].
  destruct (find p l) as [x |] eqn:F; [| reflexivity].
  apply find_some in F. destruct F as [I Hx].
  pose proof (existsb_false_forall _ _ X x I). congruence.
Qed.

(** ** Deposits *)

Lemma decide_processed dep_id adm ok s d :
  find (dp_is dep_id) (deposits s) = Some d -> dp_pending d = false ->
  decide_rub_deposit dep_id adm ok s = (s, Failed AlreadyProcessed).
Proof.
  intros F P. unfold decide_rub_deposit. rewrite F, P. reflexivity.
Qed.

Lemma find_decided dep_id st adm ds d :
  find (dp_is dep_id) ds = Some d -> dp_pending d = true ->
  find (dp_is dep_id)
    (update_where (fun r => dp_is dep_id r && dp_pending r) (decided st adm) ds)
  = Some (decided st adm d).
Proof.
  intros F P.
  rewrite (keyed_find_update dp_id dp_is dp_is_spec dep_id ds _
             (decided st adm) d) by (reflexivity || exact F).
  apply find_some in F. destruct F as [_ E]. rewrite E, P. reflexivity.
Qed.

(** What a decision that goes through has done. *)
Lemma decide_done dep_id adm ok s d :
  NoDup (map dp_id (deposits s)) ->
  find (dp_is dep_id) (deposits s) = Some d -> dp_pending d = true ->
  decide_rub_deposit dep_id adm ok s
  = (let s1 := set_deposits
                 (update_where (fun r => dp_is dep_id r && dp_pending r)
                    (decided (if ok then DpApproved else DpRejected)
                       (lower adm))) s in
     if ok
     then log (dp_user d) "RUB" (dp_amount d) "rub_deposit_approved"
            (set_users (upd_rub (dp_amount d) (dp_user d)) s1)
     else s1,
     Done).
Proof.
  intros N F P. unfold decide_rub_deposit. rewrite F, P. cbn [negb].
  rewrite (keyed_rowcount dp_id dp_is dp_is_spec dep_id (deposits s)
             dp_pending d N F).
  rewrite P. cbn [Nat.eqb negb]. destruct ok; reflexivity.
Qed.

Lemma decide_done_inv dep_id adm ok s :
  snd (decide_rub_deposit dep_id adm ok s) = Done ->
  exists d d',
    find (dp_is dep_id) (deposits s) = Some d /\ dp_pending d = true
    /\ find (dp_is dep_id) (deposits (fst (decide_rub_deposit dep_id adm ok s)))
       = Some d'
    /\ dp_pending d' = false.
Proof.
  unfold decide_rub_deposit.
  destruct (find (dp_is dep_id) (deposits s)) as [d |] eqn:F; [| discriminate].
  destruct (dp_pending d) eqn:P; cbn [negb]; [| discriminate].
  destruct (negb _); [discriminate |]. intros _.
  exists d, (decided (if ok then DpApproved else DpRejected) (lower adm) d).
  split; [reflexivity |]. split; [exact P |]. split.
  - destruct ok; main_simpl; apply find_decided; assumption.
  - destruct ok; reflexivity.
Qed.

Lemma decide_failed_unchanged dep_id adm ok s :
  snd (decide_rub_deposit dep_id adm ok s) <> Done ->
  fst (decide_rub_deposit dep_id adm ok s) = s.
Proof.
  unfold decide_rub_deposit.
  destruct (find (dp_is dep_id) (deposits s)) as [d |]; [| reflexivity].
  destruct (negb (dp_pending d)); [reflexivity |].
  destruct (negb _); [reflexivity |].
  destruct ok; simpl; congruence.
Qed.

Lemma run_decisions_processed dep_id calls : forall s d,
  find (dp_is dep_id) (deposits s) = Some d -> dp_pending d = false ->
  run_decisions dep_id calls s
  = (s, map (fun _ => Failed AlreadyProcessed) calls).
Proof.
  induction calls as [| [adm ok] calls IH]; intros s d F P; simpl;
    [reflexivity |].
  rewrite (decide_processed dep_id adm ok s d F P).
  rewrite (IH s d F P). reflexivity.
Qed.

Lemma run_decisions_at_most_one dep_id calls : forall s,
  (successes (snd (run_decisions dep_id calls s)) <= 1)%nat.
Proof.
  induction calls as [| [adm ok] calls IH]; intro s; simpl.
  - unfold successes. simpl. lia.
  - destruct (decide_rub_deposit dep_id adm ok s) as [s1 r] eqn:E.
    destruct (is_done r) eqn:D.
    + destruct r; try discriminate.
      pose proof (decide_done_inv dep_id adm ok s) as H. rewrite E in H.
      destruct (H eq_refl) as [d [d' [_ [_ [F' P']]]]]. simpl in F'.
      rewrite (run_decisions_processed dep_id calls s1 _ F' P').
      unfold successes. simpl.
      fold (successes (map (fun _ : string * bool => Failed AlreadyProcessed)
                         calls)).
      rewrite successes_all_failed. lia.
    + specialize (IH s1).
      destruct (run_decisions dep_id calls s1) as [s2 rs]. simpl in *.
      unfold successes in *. simpl. rewrite D. exact IH.
Qed.

End CheckFacts.

(** X6 ([claim_check], [main.py]).  A check is paid out at most once.
    A claim is refused, and the database left as it was, for an unknown
    check, a check that is not active, a check under a password when no
    password is given, and when the hash of the given password is not the
    stored one.  With unique check ids every other claim goes through:
    the check becomes [claimed] by the claimer and no balance other than
    the claimer's moves.  A claimer who holds an account row is credited
    the amount of the check; for a claimer who holds none (the function
    does not look for the row) the table of accounts is left as it was,
    so that nobody is credited.  In every run of claims on one check at
    most one goes through. *)
Theorem X6_check_paid_out_once
    (sha256 : string -> string) (s : Main.db) (chk_id : string) :
  NoDup (map Main.ck_id (Main.checks s)) ->
  (forall u pw, snd (Main.claim_check sha256 chk_id u pw s) <> Done ->
     fst (Main.claim_check sha256 chk_id u pw s) = s)
  /\ (find (Main.ck_is chk_id) (Main.checks s) = None ->
      forall u pw,
        Main.claim_check sha256 chk_id u pw s = (s, Failed NotFound))
  /\ (forall row, find (Main.ck_is chk_id) (Main.checks s) = Some row ->
        (Main.ck_active row = false ->
         forall u pw,
           Main.claim_check sha256 chk_id u pw s = (s, Failed Unavailable))
        /\ (Main.ck_active row = true ->
            truthy (Main.ck_passhash row) = true ->
            forall u pw,
              (truthy pw = false ->
               Main.claim_check sha256 chk_id u pw s = (s, Failed NeedPass))
              /\ (truthy pw = true ->
                  Main.hash_matches sha256 pw (Main.ck_passhash row) = false ->
                  Main.claim_check sha256 chk_id u pw s
                  = (s, Failed WrongPass)))
        /\ (Main.ck_active row = true ->
            forall u pw,
              truthy (Main.ck_passhash row) = false
              \/ (truthy pw = true
                  /\ Main.hash_matches sha256 pw (Main.ck_passhash row) = true) ->
              let s' := fst (Main.claim_check sha256 chk_id u pw s) in
              snd (Main.claim_check sha256 chk_id u pw s) = Done
              /\ find (Main.ck_is chk_id) (Main.checks s')
                 = Some (Main.claimed_by u row)
              /\ (registered u (Main.users s) = true ->
                  fst (get_balances u (Main.users s'))
                  == fst (get_balances u (Main.users s)) + Main.ck_amount row)
              /\ snd (get_balances u (Main.users s'))
                 = snd (get_balances u (Main.users s))
              /\ (forall i, i <> u ->
                    get_balances i (Main.users s')
                    = get_balances i (Main.users s))
              /\ (registered u (Main.users s) = false ->
                  Main.users s' = Main.users s)))
  /\ (forall calls,
        (successes (snd (Main.run_claims sha256 chk_id calls s)) <= 1)%nat).
Proof.
  intro N. split; [| split; [| split]].
  - intros u pw. apply claim_failed_unchanged.
  - intros F u pw. unfold Main.claim_check. rewrite F. reflexivity.
  - intros row F. split; [| split].
    + intros A u pw. apply (claim_inactive sha256 chk_id u pw s row F A).
    + intros A T u pw. unfold Main.claim_check. rewrite F, A, T. cbn [negb andb].
      split.
      * intros ->. reflexivity.
      * intros -> ->. reflexivity.
    + intros A u pw P. cbv zeta.
      pose proof (claim_succeeds sha256 chk_id u pw s row N F A P) as D.
      destruct (claim_done_inv sha256 chk_id u pw s D)
        as [row' [F' [_ [E Fs]]]].
      rewrite F in F'. injection F' as <-.
      split; [exact D |]. split; [exact Fs |]. rewrite E. main_simpl.
      split; [| split; [| split]].
      * intro R. rewrite get_uwt_upd_uwt, Z.eqb_refl, R. cbn [andb]. lra.
      * apply get_rub_upd_uwt.
      * intros i Ne. apply balances_upd_uwt_other. exact Ne.
      * intro R. apply upd_uwt_no_row. exact R.
  - intro calls. apply run_claims_at_most_one.
Qed.

Lemma X6_witness :
  Main.claim_check Scenario.no_hash "c1" 2 (Some "secret"%string)
    Scenario.locked_check_db
  = (Scenario.locked_check_db, Failed WrongPass).
Proof.
  refine (proj2 (proj1 (proj2 (proj1 (proj2 (proj2
    (X6_check_paid_out_once Scenario.no_hash Scenario.locked_check_db "c1" _)))
    _ eq_refl)) eq_refl eq_refl 2%Z (Some "secret"%string)) eq_refl eq_refl).
  repeat constructor; simpl; tauto.
Defined.

(** X7 ([create_check] then [claim_check], [main.py]).  Writing a check
    moves its amount out of the writer's balance; the check is then open
    to a claim under the password it was written with (or under none when
    it was written without one), by any account, and such a claim moves
    the amount into the claimer's balance: to another account, or back to
    the writer who claims his own check.  A claim under a password with
    another hash is refused. *)
Theorem X7_check_written_then_claimed
    (sha256 : string -> string) (s : Main.db) (chk_id : string)
    (writer : Z) (a : Q) (pw : option string) :
  NoDup (map Main.ck_id (Main.checks s)) ->
  snd (Main.create_check sha256 chk_id writer a pw s) = Done ->
  let s1 := fst (Main.create_check sha256 chk_id writer a pw s) in
  0 < a
  /\ fst (get_balances writer (Main.users s1))
     == fst (get_balances writer (Main.users s)) - a
  /\ (forall u,
        let s2 := fst (Main.claim_check sha256 chk_id u pw s1) in
        snd (Main.claim_check sha256 chk_id u pw s1) = Done
        /\ (registered u (Main.users s) = true -> u <> writer ->
            fst (get_balances u (Main.users s2))
            == fst (get_balances u (Main.users s)) + a
            /\ fst (get_balances writer (Main.users s2))
               == fst (get_balances writer (Main.users s)) - a)
        /\ (u = writer ->
            fst (get_balances writer (Main.users s2))
            == fst (get_balances writer (Main.users s)))
        /\ (forall i, i <> u -> i <> writer ->
              get_balances i (Main.users s2) = get_balances i (Main.users s)))
  /\ (forall u p p',
        pw = Some p -> truthy (Some p) = true -> truthy (Some p') = true ->
        sha256 p <> ""%string -> sha256 p' <> sha256 p ->
        Main.claim_check sha256 chk_id u (Some p') s1
        = (s1, Failed WrongPass)).
Proof.
  intros N D. cbv zeta.
  destruct (create_check_done_inv sha256 chk_id writer a pw s D)
    as [Pa [Le [X E]]].
  rewrite E.
  set (ph := if truthy pw then option_map sha256 pw else None) in *.
  set (new := Main.mkCheck chk_id writer a ph Main.CkActive None).
  set (s1 := Main.log writer "UWT" (- a) "check_create"
               (Main.set_checks (fun cs => cs ++ [new])
                  (Main.set_users (upd_uwt (- a) writer) s))).
  assert (Rw : registered writer (Main.users s) = true)
    by (apply balance_registered_uwt; lra).
  assert (F1 : find (Main.ck_is chk_id) (Main.checks s1) = Some new).
  { subst s1. main_simpl. apply find_snoc_fresh; [exact X |].
    unfold Main.ck_is. simpl. apply String.eqb_refl. }
  assert (N1 : NoDup (map Main.ck_id (Main.checks s1))).
  { subst s1. main_simpl.
    apply (keyed_nodup_snoc Main.ck_id Main.ck_is ck_is_spec chk_id);
      [exact N | exact X | reflexivity]. }
  assert (Us : Main.users s1 = upd_uwt (- a) writer (Main.users s))
    by reflexivity.
  split; [exact Pa |]. split.
  { rewrite Us, get_uwt_upd_uwt, Z.eqb_refl, Rw. cbn [andb]. lra. }
  split.
  - intro u.
    assert (P : truthy (Main.ck_passhash new) = false
                \/ (truthy pw = true
                    /\ Main.hash_matches sha256 pw (Main.ck_passhash new) = true)).
    { subst new ph. cbn [Main.ck_passhash].
      destruct (truthy pw) eqn:T; [| left; reflexivity].
      destruct pw as [p |]; [| discriminate T]. right. split; [reflexivity |].
      simpl. apply String.eqb_refl. }
    pose proof (claim_succeeds sha256 chk_id u pw s1 new N1 F1 eq_refl P) as Dc.
    destruct (claim_done_inv sha256 chk_id u pw s1 Dc)
      as [row [F' [_ [Ec _]]]].
    rewrite F1 in F'. injection F' as <-.
    split; [exact Dc |]. rewrite Ec. main_simpl. rewrite Us.
    cbn [Main.ck_amount new].
    split; [| split].
    + intros Ru Ne. split.
      * rewrite !get_uwt_upd_uwt, registered_upd_uwt, Z.eqb_refl, Ru.
        assert ((writer =? u)%Z = false) as ->
          by (apply Z.eqb_neq; congruence).
        cbn [andb]. lra.
      * rewrite !get_uwt_upd_uwt, registered_upd_uwt, Z.eqb_refl, Rw.
        assert ((u =? writer)%Z = false) as ->
          by (apply Z.eqb_neq; congruence).
        cbn [andb]. lra.
    + intros ->.
      rewrite !get_uwt_upd_uwt, registered_upd_uwt, Z.eqb_refl, Rw.
      cbn [andb]. lra.
    + intros i N1' N2'.
      rewrite balances_upd_uwt_other by exact N1'.
      apply balances_upd_uwt_other. exact N2'.
  - intros u p p' -> Tp T Hn Hd.
    unfold Main.claim_check. rewrite F1. subst new ph.
    cbn [Main.ck_active Main.ck_status Main.ck_passhash negb].
    rewrite Tp. cbn [option_map Main.hash_matches]. rewrite T.
    assert (truthy (Some (sha256 p)) = true) as ->
      by (destruct (sha256 p); [congruence | reflexivity]).
    assert ((sha256 p' =? sha256 p)%string = false) as ->
      by (apply String.eqb_neq; exact Hd).
    reflexivity.
Qed.

Lemma X7_witness :
  fst (get_balances 2
         (Main.users
            (fst (Main.claim_check Scenario.no_hash "c9" 2 (Some "pw"%string)
                    (fst (Main.create_check Scenario.no_hash "c9" 1 5
                            (Some "pw"%string) Scenario.purse_db))))))
  == fst (get_balances 2 (Main.users Scenario.purse_db)) + 5.
Proof.
  refine (proj1 (proj1 (proj2 (proj1 (proj2 (proj2
    (X7_check_written_then_claimed Scenario.no_hash Scenario.purse_db "c9" 1 5
       (Some "pw"%string) _ eq_refl))) 2%Z)) eq_refl _)).
  - constructor.
  - discriminate.
Defined.

(** X8 ([decide_rub_deposit], [main.py]).  A deposit request is decided
    at most once.  A decision is refused, and the database left as it
    was, for an unknown request and for one that is not pending.  With
    unique request ids a decision on a pending request goes through: an
    approval marks it [approved], moves no UWT and no balance other than
    the requester's, and credits the requested RUB to the requester's
    account row; when the requester holds no account row (the request is
    accepted without one) the table of accounts is left as it was, so
    that nobody is credited.  A rejection marks it [rejected] and moves
    nothing.  In every run of decisions on one request at most one goes
    through. *)
Theorem X8_deposit_decided_once (s : Main.db) (dep_id : string) :
  NoDup (map Main.dp_id (Main.deposits s)) ->
  (forall adm ok, snd (Main.decide_rub_deposit dep_id adm ok s) <> Done ->
     fst (Main.decide_rub_deposit dep_id adm ok s) = s)
  /\ (find (Main.dp_is dep_id) (Main.deposits s) = None ->
      forall adm ok,
        Main.decide_rub_deposit dep_id adm ok s = (s, Failed NotFound))
  /\ (forall d, find (Main.dp_is dep_id) (Main.deposits s) = Some d ->
        (Main.dp_pending d = false ->
         forall adm ok,
           Main.decide_rub_deposit dep_id adm ok s
           = (s, Failed AlreadyProcessed))
        /\ (Main.dp_pending d = true ->
            forall adm,
              (let s' := fst (Main.decide_rub_deposit dep_id adm true s) in
               snd (Main.decide_rub_deposit dep_id adm true s) = Done
               /\ (exists d', find (Main.dp_is dep_id) (Main.deposits s')
                              = Some d'
                              /\ Main.dp_status d' = Main.DpApproved
                              /\ Main.dp_amount d' = Main.dp_amount d
                              /\ Main.dp_user d' = Main.dp_user d)
               /\ (registered (Main.dp_user d) (Main.users s) = true ->
                   snd (get_balances (Main.dp_user d) (Main.users s'))
                   == snd (get_balances (Main.dp_user d) (Main.users s))
                      + Main.dp_amount d)
               /\ (forall i, fst (get_balances i (Main.users s'))
                             = fst (get_balances i (Main.users s)))
               /\ (forall i, i <> Main.dp_user d ->
                     get_balances i (Main.users s')
                     = get_balances i (Main.users s))
               /\ (registered (Main.dp_user d) (Main.users s) = false ->
                   Main.users s' = Main.users s))
              /\ (let s' := fst (Main.decide_rub_deposit dep_id adm false s) in
                  snd (Main.decide_rub_deposit dep_id adm false s) = Done
                  /\ (exists d', find (Main.dp_is dep_id) (Main.deposits s')
                                 = Some d'
                                 /\ Main.dp_status d' = Main.DpRejected)
                  /\ Main.users s' = Main.users s
                  /\ Main.tx s' = Main.tx s)))
  /\ (forall calls,
        (successes (snd (Main.run_decisions dep_id calls s)) <= 1)%nat).
Proof.
  intro N. split; [| split; [| split]].
  - intros adm ok. apply decide_failed_unchanged.
  - intros F adm ok. unfold Main.decide_rub_deposit. rewrite F. reflexivity.
  - intros d F. split.
    + intros P adm ok. apply (decide_processed dep_id adm ok s d F P).
    + intros P adm. split; cbv zeta;
        rewrite (decide_done dep_id adm _ s d N F P); cbv zeta; main_simpl.
      * split; [reflexivity |]. split; [| split; [| split; [| split]]].
        { eexists. split; [apply find_decided; eassumption |].
          repeat split. }
        { intro R. rewrite get_rub_upd_rub, Z.eqb_refl, R. cbn [andb]. lra. }
        { intro i. apply get_uwt_upd_rub. }
        { intros i Ne. apply get_balances_upd_rub_other. exact Ne. }
        { intro R. apply upd_rub_no_row. exact R. }
      * split; [reflexivity |]. split; [| split; reflexivity].
        eexists. split; [apply find_decided; eassumption |]. reflexivity.
  - intro calls. apply run_decisions_at_most_one.
Qed.

Lemma X8_witness :
  snd (get_balances 2
         (Main.users
            (fst (Main.decide_rub_deposit "d1" "admin" true
                    Scenario.deposit_db))))
  == snd (get_balances 2 (Main.users Scenario.deposit_db)) + 70.
Proof.
  refine (proj1 (proj2 (proj2 (proj1 (proj2 (proj1 (proj2 (proj2
    (X8_deposit_decided_once Scenario.deposit_db "d1" _)))
    _ eq_refl) eq_refl "admin"%string)))) eq_refl).
  repeat constructor; simpl; tauto.
Defined.

(** * Accounts of [main.py]: exchange, transfers, registration *)

Section AccountOps.

Import Main.

(** The two-column [UPDATE] is the two one-column ones in a row. *)
Lemma upd_both_split du dr id us :
  upd_both du dr id us = upd_rub dr id (upd_uwt du id us).
Proof.
  unfold upd_both, upd_rub, upd_uwt, update_where. rewrite map_map.
  apply map_ext. intro u. destruct (has_id id u) eqn:E.
  - unfold has_id in *. simpl. rewrite E. reflexivity.
  - rewrite E. reflexivity.
Qed.

Lemma get_uwt_upd_both i du dr id us :
  fst (get_balances i (upd_both du dr id us))
  == fst (get_balances i us)
     + (if (id =? i)%Z && registered i us then du else 0).
Proof.
  rewrite upd_both_split, get_uwt_upd_rub. apply get_uwt_upd_uwt.
Qed.

Lemma get_rub_upd_both i du dr id us :
  snd (get_balances i (upd_both du dr id us))
  == snd (get_balances i us)
     + (if (id =? i)%Z && registered i us then dr else 0).
Proof.
  rewrite upd_both_split, get_rub_upd_rub, registered_upd_uwt, get_rub_upd_uwt.
  reflexivity.
Qed.

Lemma exchange_buy_done u r s :
  snd (exchange_buy_uwt u r s) = Done ->
  0 < r /\ ~ rate s == 0 /\ r <= snd (get_balances u (users s))
  /\ fst (exchange_buy_uwt u r s)
     = log u "UWT" (r / rate s) "exchange_buy"
         (log u "RUB" (- r) "exchange_buy"
            (set_users (upd_both (r / rate s) (- r) u) s)).
Proof.
  unfold exchange_buy_uwt.
  destruct (Qleb r 0) eqn:E; [discriminate |].
  destruct (Qeq_bool (rate s) 0) eqn:Z; [discriminate |].
  destruct (Qltb _ r) eqn:L; [discriminate |].
  intros _. qtests. repeat split; auto.
Qed.

Lemma exchange_sell_done u a s :
  0 < a -> a <= fst (get_balances u (users s)) ->
  exchange_sell_uwt u a s
  = (log u "RUB" (a * rate s) "exchange_sell"
       (log u "UWT" (- a) "exchange_sell"
          (set_users (upd_both (- a) (a * rate s) u) s)),
     Done).
Proof.
  intros P L. unfold exchange_sell_uwt.
  assert (Qleb a 0 = false) as -> by (apply Qleb_false; exact P).
  assert (Qltb (fst (get_balances u (users s))) a = false) as ->
    by (apply Qltb_false; exact L).
  reflexivity.
Qed.

End AccountOps.

(** X9 ([exchange_buy_uwt] then [exchange_sell_uwt], [main.py]).  The
    fixed-rate exchange takes no spread: a purchase for [r] RUB credits
    [r / rate] UWT and debits [r] RUB, and selling the UWT bought, at the
    same rate, goes through and leaves every account with the balances it
    had before the purchase. *)
Theorem X9_exchange_round_trip (s : Main.db) (u : Z) (r : Q) :
  0 < Main.rate s ->
  0 <= fst (get_balances u (Main.users s)) ->
  snd (Main.exchange_buy_uwt u r s) = Done ->
  let s1 := fst (Main.exchange_buy_uwt u r s) in
  let s2 := fst (Main.exchange_sell_uwt u (r / Main.rate s) s1) in
  fst (get_balances u (Main.users s1))
  == fst (get_balances u (Main.users s)) + r / Main.rate s
  /\ snd (get_balances u (Main.users s1))
     == snd (get_balances u (Main.users s)) - r
  /\ snd (Main.exchange_sell_uwt u (r / Main.rate s) s1) = Done
  /\ forall i,
       fst (get_balances i (Main.users s2))
       == fst (get_balances i (Main.users s))
       /\ snd (get_balances i (Main.users s2))
          == snd (get_balances i (Main.users s)).
Proof.
  intros Rt U0 D. cbv zeta.
  destruct (exchange_buy_done u r s D) as [Pr [Nz [Le E]]]. rewrite E.
  assert (Rg : registered u (Main.users s) = true)
    by (apply balance_registered_rub; lra).
  assert (Pq : 0 < r / Main.rate s).
  { unfold Qdiv. apply Qmult_lt_0_compat; [exact Pr |].
    apply Qinv_lt_0_compat. exact Rt. }
  assert (Back : r / Main.rate s * Main.rate s == r)
    by (field; exact Nz).
  set (q := r / Main.rate s) in *.
  set (s1 := Main.log u "UWT" q "exchange_buy"
               (Main.log u "RUB" (- r) "exchange_buy"
                  (Main.set_users (Main.upd_both q (- r) u) s))).
  assert (Us : Main.users s1 = Main.upd_both q (- r) u (Main.users s))
    by reflexivity.
  assert (Rs : Main.rate s1 = Main.rate s) by reflexivity.
  assert (B1 : fst (get_balances u (Main.users s1))
               == fst (get_balances u (Main.users s)) + q).
  { rewrite Us, get_uwt_upd_both, Z.eqb_refl, Rg. cbn [andb]. lra. }
  split; [exact B1 |]. split.
  { rewrite Us, get_rub_upd_both, Z.eqb_refl, Rg. cbn [andb]. lra. }
  rewrite (exchange_sell_done u q s1 Pq) by lra.
  cbn [fst snd]. split; [reflexivity |]. intro i. main_simpl.
  rewrite Us, Rs, !get_uwt_upd_both, !get_rub_upd_both,
    registered_upd_both.
  destruct ((u =? i)%Z && registered i (Main.users s)); split; lra.
Qed.

Lemma X9_witness :
  snd (get_balances 1
         (Main.users
            (fst (Main.exchange_sell_uwt 1 (100 / Main.rate Scenario.funded)
                    (fst (Main.exchange_buy_uwt 1 100 Scenario.funded))))))
  == snd (get_balances 1 (Main.users Scenario.funded)).
Proof.
  refine (proj2 (proj2 (proj2 (proj2
    (X9_exchange_round_trip Scenario.funded 1 100 _ _ eq_refl))) 1%Z)).
  - reflexivity.
  - vm_compute. discriminate.
Defined.

(** X10 (handler [p2p_amount], [main.py]).  A transfer is refused, with
    the database unchanged, for a non-positive amount, an unknown
    recipient and an amount above the sender's UWT.  Otherwise it debits
    the amount from the sender and credits it to the recipient, logs both
    legs, and moves nothing else: no RUB, no other account.  A transfer
    to oneself goes through and leaves the balance as it was. *)
Theorem X10_transfer_moves_exact_amount
    (s : Main.db) (from : Z) (to : string) (a : Q) :
  (a <= 0 -> Main.p2p_amount from to a s = (s, Failed BadAmount))
  /\ (0 < a -> find_username to (Main.users s) = None ->
      Main.p2p_amount from to a s = (s, Failed NotFound))
  /\ (forall r me,
        0 < a -> find_username to (Main.users s) = Some r ->
        find_user from (Main.users s) = Some me ->
        (uwt me < a -> Main.p2p_amount from to a s = (s, Failed Insufficient))
        /\ (a <= uwt me ->
            let s' := fst (Main.p2p_amount from to a s) in
            snd (Main.p2p_amount from to a s) = Done
            /\ (tg_id r <> from ->
                fst (get_balances from (Main.users s'))
                == fst (get_balances from (Main.users s)) - a
                /\ fst (get_balances (tg_id r) (Main.users s'))
                   == fst (get_balances (tg_id r) (Main.users s)) + a)
            /\ (tg_id r = from ->
                fst (get_balances from (Main.users s'))
                == fst (get_balances from (Main.users s)))
            /\ (forall i, snd (get_balances i (Main.users s'))
                          = snd (get_balances i (Main.users s)))
            /\ (forall i, i <> from -> i <> tg_id r ->
                  get_balances i (Main.users s')
                  = get_balances i (Main.users s))
            /\ Main.tx s'
               = Main.tx s ++ [mkTx from "UWT" (- a) "p2p_send";
                               mkTx (tg_id r) "UWT" a "p2p_receive"])).
Proof.
  split; [| split].
  - intro L. unfold Main.p2p_amount.
    assert (Qleb a 0 = true) as -> by (apply Qleb_true; exact L).
    reflexivity.
  - intros P F. unfold Main.p2p_amount.
    assert (Qleb a 0 = false) as -> by (apply Qleb_false; exact P).
    rewrite F. reflexivity.
  - intros r me P F Fm.
    assert (Rr : registered (tg_id r) (Main.users s) = true)
      by (apply (find_username_registered to); exact F).
    assert (Rm : registered from (Main.users s) = true)
      by (apply registered_find; eauto).
    unfold Main.p2p_amount.
    assert (Qleb a 0 = false) as -> by (apply Qleb_false; exact P).
    rewrite F, Fm. split.
    + intro L.
      assert (Qltb (uwt me) a = true) as -> by (apply Qltb_true; exact L).
      reflexivity.
    + intro L.
      assert (Qltb (uwt me) a = false) as -> by (apply Qltb_false; exact L).
      cbv zeta. main_simpl.
      split; [reflexivity |]. split; [| split; [| split; [| split]]].
      * intro Ne. split.
        { rewrite !get_uwt_upd_uwt, registered_upd_uwt, Z.eqb_refl, Rm.
          assert ((tg_id r =? from)%Z = false) as ->
            by (apply Z.eqb_neq; exact Ne).
          cbn [andb]. lra. }
        { rewrite !get_uwt_upd_uwt, registered_upd_uwt, Z.eqb_refl, Rr.
          assert ((from =? tg_id r)%Z = false) as ->
            by (apply Z.eqb_neq; congruence).
          cbn [andb]. lra. }
      * intro E. rewrite E.
        rewrite !get_uwt_upd_uwt, registered_upd_uwt, Z.eqb_refl, Rm.
        cbn [andb]. lra.
      * intro i. rewrite !get_rub_upd_uwt. reflexivity.
      * intros i N1 N2.
        rewrite balances_upd_uwt_other by exact N2.
        apply balances_upd_uwt_other. exact N1.
      * rewrite <- app_assoc. reflexivity.
Qed.

Lemma X10_witness :
  Main.p2p_amount 2 "creator" 3 Scenario.purse_db
  = (Scenario.purse_db, Failed Insufficient).
Proof.
  refine (proj1 (proj2 (proj2
    (X10_transfer_moves_exact_amount Scenario.purse_db 2 "creator" 3))
    (mkUser 1 "creator" 8 0) (mkUser 2 "ann" 0 0) _ eq_refl eq_refl) _).
  - reflexivity.
  - reflexivity.
Defined.

Section Registration.

#[local] Abbreviation renamed nm :=
  (fun u : user => mkUser (tg_id u) nm (uwt u) (rub u)).

#[local] Abbreviation clash id nm :=
  (fun u : user => (username u =? nm)%string && negb (has_id id u)).

Lemma clash_renamed id nm us :
  existsb (clash id nm) us = false ->
  existsb (clash id nm) (update_where (has_id id) (renamed nm) us) = false.
Proof.
  intro C. unfold update_where. induction us as [| a us IH]; [reflexivity |].
  simpl in C. apply orb_false_iff in C. destruct C as [Ca Cs].
  cbn [map existsb]. rewrite (IH Cs), orb_false_r.
  destruct (has_id id a) eqn:E.
  - unfold has_id in *. cbn [tg_id]. rewrite E. apply andb_false_r.
  - rewrite E. exact Ca.
Qed.

Lemma renamed_twice id nm us :
  update_where (has_id id) (renamed nm)
    (update_where (has_id id) (renamed nm) us)
  = update_where (has_id id) (renamed nm) us.
Proof.
  unfold update_where. rewrite map_map. apply map_ext. intro u.
  destruct (has_id id u) eqn:E.
  - unfold has_id in *. cbn [tg_id]. rewrite E. reflexivity.
  - rewrite E. reflexivity.
Qed.

(** A second [ensure_user] with the same arguments changes nothing. *)
Lemma ensure_user_rows_twice id name us :
  ensure_user_rows id name (ensure_user_rows id name us)
  = ensure_user_rows id name us.
Proof.
  unfold ensure_user_rows.
  destruct (existsb (clash id (lower name)) us) eqn:C.
  - rewrite C. reflexivity.
  - destruct (registered id us) eqn:R.
    + rewrite (clash_renamed _ _ _ C).
      rewrite (registered_ids id us) by (apply map_update_where; reflexivity).
      rewrite R. apply renamed_twice.
    + assert (C' : existsb (clash id (lower name))
                     (us ++ [mkUser id (lower name) 0 0]) = false).
      { rewrite existsb_app, C. simpl. unfold has_id. simpl.
        rewrite Z.eqb_refl. rewrite andb_false_r. reflexivity. }
      rewrite C'.
      assert (R' : registered id (us ++ [mkUser id (lower name) 0 0]) = true).
      { unfold registered. rewrite existsb_app. simpl. unfold has_id. simpl.
        rewrite Z.eqb_refl. apply orb_true_r. }
      rewrite R'. unfold update_where. rewrite map_app. simpl.
      unfold has_id at 2. simpl. rewrite Z.eqb_refl. f_equal.
      apply (update_where_id (has_id id)).
      apply existsb_false_forall. exact R.
Qed.

Lemma find_user_renamed i id nm us :
  find_user i (update_where (has_id id) (renamed nm) us)
  = option_map (fun u => if has_id id u then renamed nm u else u)
      (find_user i us).
Proof.
  unfold find_user, update_where.
  induction us as [| a us IH]; simpl; [reflexivity |].
  assert (E : has_id i (if has_id id a then renamed nm a else a) = has_id i a)
    by (destruct (has_id id a); reflexivity).
  rewrite E. destruct (has_id i a); [reflexivity | exact IH].
Qed.

(** Registration reads and writes no balance. *)
Lemma ensure_user_balances id name us i :
  get_balances i (ensure_user_rows id name us) = get_balances i us.
Proof.
  destruct (ensure_user_rows_cases id name us) as [E | [[R E] | [R E]]];
    rewrite E; [reflexivity | |].
  - unfold get_balances. rewrite find_user_renamed.
    destruct (find_user i us) as [u |]; [| reflexivity].
    simpl. destruct (has_id id u); reflexivity.
  - unfold get_balances, find_user.
    destruct (find (has_id i) us) as [u |] eqn:F.
    + rewrite (find_app_some _ _ _ _ F). reflexivity.
    + rewrite (find_app_none _ _ _ F). simpl.
      destruct (has_id i (mkUser id (lower name) 0 0)); reflexivity.
Qed.

Lemma ensure_user_keeps id name us i :
  registered i us = true -> registered i (ensure_user_rows id name us) = true.
Proof.
  intro H.
  destruct (ensure_user_rows_cases id name us) as [E | [[R E] | [R E]]];
    rewrite E; [exact H | |].
  - rewrite (registered_ids i us) by (apply map_update_where; reflexivity).
    exact H.
  - unfold registered in *. rewrite existsb_app, H. reflexivity.
Qed.

Lemma ensure_user_free id name us :
  (forall u, In u us -> username u = lower name -> tg_id u = id) ->
  exists u, find_user id (ensure_user_rows id name us) = Some u
            /\ username u = lower name.
Proof.
  intro Free. unfold ensure_user_rows.
  assert (C : existsb (clash id (lower name)) us = false).
  { destruct (existsb (clash id (lower name)) us) eqn:C; [| reflexivity].
    apply existsb_exists in C. destruct C as [u [I H]].
    apply andb_true_iff in H. destruct H as [H1 H2].
    apply String.eqb_eq in H1. specialize (Free u I H1).
    apply has_id_spec in Free. rewrite Free in H2. discriminate. }
  rewrite C. destruct (registered id us) eqn:R.
  - apply registered_find in R. destruct R as [u F].
    rewrite find_user_renamed, F. simpl.
    assert (has_id id u = true) as ->
      by (apply has_id_spec; apply (find_user_id _ _ _ F)).
    eexists. split; reflexivity.
  - unfold find_user. rewrite find_app_none.
    + unfold has_id. simpl. rewrite Z.eqb_refl. eexists. split; reflexivity.
    + destruct (find (has_id id) us) as [u |] eqn:F; [| reflexivity].
      assert (registered id us = true) by (apply registered_find; eauto).
      congruence.
Qed.

Lemma ensure_user_taken id name us :
  (exists u, In u us /\ username u = lower name /\ tg_id u <> id) ->
  ensure_user_rows id name us = us.
Proof.
  intros [u [I [H1 H2]]]. unfold ensure_user_rows.
  assert (existsb (clash id (lower name)) us = true) as ->; [| reflexivity].
  apply existsb_exists. exists u. split; [exact I |].
  apply andb_true_iff. split; [apply String.eqb_eq; exact H1 |].
  apply negb_true_iff. destruct (has_id id u) eqn:E; [| reflexivity].
  apply has_id_spec in E. contradiction.
Qed.

End Registration.

(** X11 ([ensure_user], [main.py]).  Registration touches no balance and
    removes no account: every id reads the balances it read before a new
    account starts at zero, and every id that held a row still holds one.
    When no other account holds the (lower-cased) name, the caller holds
    a row under that name afterwards; when another account holds it, the
    database is left as it was.  Registering a second time with the same
    arguments changes nothing. *)
Theorem X11_registration_is_harmless (s : Main.db) (id : Z) (name : string) :
  let s' := Main.ensure_user id name s in
  (forall i, get_balances i (Main.users s') = get_balances i (Main.users s))
  /\ (forall i, registered i (Main.users s) = true ->
        registered i (Main.users s') = true)
  /\ ((forall u, In u (Main.users s) -> username u = lower name ->
         tg_id u = id) ->
      registered id (Main.users s') = true
      /\ exists u, find_user id (Main.users s') = Some u
                   /\ username u = lower name)
  /\ ((exists u, In u (Main.users s) /\ username u = lower name
                 /\ tg_id u <> id) ->
      s' = s)
  /\ Main.ensure_user id name s' = s'
  /\ Main.tx s' = Main.tx s.
Proof.
  cbv zeta. unfold Main.ensure_user. main_simpl.
  split; [intro i; apply ensure_user_balances |].
  split; [intros i; apply ensure_user_keeps |].
  split; [| split; [| split; [| reflexivity]]].
  - intro Free. destruct (ensure_user_free id name _ Free) as [u [F N]].
    split; [apply registered_find; eauto | eauto].
  - intro T. unfold Main.set_users.
    rewrite (ensure_user_taken id name _ T). destruct s; reflexivity.
  - unfold Main.set_users. main_simpl.
    rewrite ensure_user_rows_twice. reflexivity.
Qed.

Lemma X11_witness :
  Main.ensure_user 4 "Ann" Scenario.purse_db = Scenario.purse_db.
Proof.
  refine (proj1 (proj2 (proj2 (proj2
    (X11_registration_is_harmless Scenario.purse_db 4 "Ann")))) _).
  exists (mkUser 2 "ann" 0 0). split; [simpl; auto |].
  split; [reflexivity | discriminate].
Defined.

(** * Giveaways of [main.py]: joining, and sweeps before the end *)

Section GiveawayMore.

Import Main.

(** A row the loop of the sweep steps over is left as it is, and nothing
    is reported for it. *)
Lemma sweep_steps_over now rnd s g :
  NoDup (map gw_id (giveaways s)) -> In g (giveaways s) ->
  (forall acc, finish_one now rnd acc g = acc) ->
  let acc' := finish_due_giveaways now rnd s in
  find (gw_is (gw_id g)) (giveaways (sweep_db acc')) = Some g
  /\ filter (ev_is (gw_id g)) (sweep_events acc') = [].
Proof.
  intros N I Skip. cbv zeta.
  destruct (gw_active g) eqn:A.
  - unfold finish_due_giveaways.
    assert (Ia : In g (filter gw_active (giveaways s)))
      by (apply filter_In; auto).
    destruct (split_by_id _ g (NoDup_map_filter gw_id gw_active _ N) Ia)
      as [l1 [l2 [E [O1 O2]]]].
    rewrite E, fold_left_app. simpl. rewrite Skip.
    destruct (sweep_others now rnd (gw_id g) l2
                (fold_left (finish_one now rnd) l1 (s, [], O)) O2) as [A2 B2].
    destruct (sweep_others now rnd (gw_id g) l1 (s, [], O) O1) as [A1 B1].
    cbv zeta in *. rewrite A2, B2, A1, B1. split; [| reflexivity].
    apply find_by_id; assumption.
  - apply sweep_ignores_inactive; [exact N | | exact A].
    apply find_by_id; assumption.
Qed.

Lemma finish_one_not_due now rnd acc g t :
  fromisoformat (gw_end_at g) = Some t -> (now < t)%Z ->
  finish_one now rnd acc g = acc.
Proof.
  intros P L. destruct acc as [[s fin] k]. rewrite finish_one_eq, P.
  apply Z.ltb_lt in L. rewrite L. reflexivity.
Qed.

(** A sweep that finds nothing due changes nothing. *)
Lemma sweep_nothing_due now rnd rows : forall acc,
  (forall g, In g rows -> finish_one now rnd acc g = acc) ->
  fold_left (finish_one now rnd) rows acc = acc.
Proof.
  induction rows as [| g rows IH]; intros acc H; simpl; [reflexivity |].
  rewrite (H g) by (left; reflexivity). apply IH.
  intros g' I. apply H. right. exact I.
Qed.

End GiveawayMore.

(** X12 ([finish_due_giveaways], [main.py]).  The sweep waits for the
    end: a giveaway whose [end_at] is later than the clock of the sweep is
    left as it is, and the sweep reports nothing for it; a sweep of a
    database in which no active giveaway has reached its end changes
    nothing and reports nothing. *)
Theorem X12_sweep_waits_for_the_end
    (now : datetime) (rnd : nat -> nat) (s : Main.db) :
  NoDup (map Main.gw_id (Main.giveaways s)) ->
  (forall g t,
     In g (Main.giveaways s) ->
     fromisoformat (Main.gw_end_at g) = Some t -> (now < t)%Z ->
     let acc' := Main.finish_due_giveaways now rnd s in
     find (Main.gw_is (Main.gw_id g)) (Main.giveaways (Main.sweep_db acc'))
     = Some g
     /\ filter (Main.ev_is (Main.gw_id g)) (Main.sweep_events acc') = [])
  /\ ((forall g, In g (Main.giveaways s) -> Main.gw_active g = true ->
         forall t, fromisoformat (Main.gw_end_at g) = Some t -> (now < t)%Z) ->
      Main.finish_due_giveaways now rnd s = (s, [], O)).
Proof.
  intro N. split.
  - intros g t I P L. apply sweep_steps_over; [exact N | exact I |].
    intro acc. apply (finish_one_not_due now rnd acc g t P L).
  - intro H. unfold Main.finish_due_giveaways. apply sweep_nothing_due.
    intros g I. apply filter_In in I. destruct I as [I A].
    destruct (fromisoformat (Main.gw_end_at g)) as [t |] eqn:P.
    + apply (finish_one_not_due now rnd _ g t P). apply (H g I A t P).
    + unfold Main.finish_one. rewrite P. reflexivity.
Qed.

Lemma X12_witness :
  find (Main.gw_is "G1")
    (Main.giveaways
       (Main.sweep_db
          (Main.finish_due_giveaways 50000000%Z (fun _ => O)
             Scenario.giveaway_db)))
  = Some Scenario.G1.
Proof.
  refine (proj1 (proj1 (X12_sweep_waits_for_the_end 50000000%Z (fun _ => O)
                          Scenario.giveaway_db _)
                   Scenario.G1 100000000%Z _ eq_refl _)).
  - repeat constructor; simpl; intuition discriminate.
  - simpl. auto.
  - reflexivity.
Defined.

Section JoinFacts.

Import Main.

Lemma is_participant_in gid u ps :
  existsb (is_participant gid u) ps = true <-> In (gid, u) ps.
Proof.
  rewrite existsb_exists. split.
  - intros [[g x] [I H]]. unfold is_participant in H. simpl in H.
    apply andb_true_iff in H. destruct H as [H1 H2].
    apply String.eqb_eq in H1. apply Z.eqb_eq in H2. subst. exact I.
  - intro I. exists (gid, u). split; [exact I |].
    unfold is_participant. simpl. rewrite String.eqb_refl, Z.eqb_refl.
    reflexivity.
Qed.

Lemma participants_of_snoc gid g u ps :
  participants_of gid (ps ++ [(g, u)])
  = participants_of gid ps ++ (if (g =? gid)%string then [u] else []).
Proof.
  unfold participants_of. rewrite filter_app, map_app. simpl.
  destruct (g =? gid)%string; reflexivity.
Qed.

End JoinFacts.

(** X13 ([join_giveaway], [main.py]).  Joining is refused, with the
    database unchanged, for an unknown giveaway, a giveaway that is not
    active, and an account that has joined already.  Otherwise the
    account is added to the participants of that giveaway, once, and
    nothing else changes: no balance, no log row, no giveaway.  Pairs of
    giveaway and account stay distinct, so no account is in a draw
    twice. *)
Theorem X13_join_at_most_once (s : Main.db) (gid : string) (u : Z) :
  (find (Main.gw_is gid) (Main.giveaways s) = None ->
   Main.join_giveaway gid u s = (s, Failed NotFound))
  /\ (forall g, find (Main.gw_is gid) (Main.giveaways s) = Some g ->
        (Main.gw_active g = false ->
         Main.join_giveaway gid u s = (s, Failed Unavailable))
        /\ (Main.gw_active g = true -> In (gid, u) (Main.participants s) ->
            Main.join_giveaway gid u s = (s, Failed AlreadyJoined))
        /\ (Main.gw_active g = true -> ~ In (gid, u) (Main.participants s) ->
            let s' := fst (Main.join_giveaway gid u s) in
            snd (Main.join_giveaway gid u s) = Done
            /\ Main.participants s' = Main.participants s ++ [(gid, u)]
            /\ Main.participants_of gid (Main.participants s')
               = Main.participants_of gid (Main.participants s) ++ [u]
            /\ (forall gid', gid' <> gid ->
                  Main.participants_of gid' (Main.participants s')
                  = Main.participants_of gid' (Main.participants s))
            /\ Main.users s' = Main.users s /\ Main.tx s' = Main.tx s
            /\ Main.giveaways s' = Main.giveaways s
            /\ Main.join_giveaway gid u s' = (s', Failed AlreadyJoined)))
  /\ (NoDup (Main.participants s) ->
      NoDup (Main.participants (fst (Main.join_giveaway gid u s)))).
Proof.
  split; [| split].
  - intro F. unfold Main.join_giveaway. rewrite F. reflexivity.
  - intros g F. split; [| split].
    + intro A. unfold Main.join_giveaway. rewrite F, A. reflexivity.
    + intros A I. unfold Main.join_giveaway. rewrite F, A. cbn [negb].
      apply is_participant_in in I. rewrite I. reflexivity.
    + intros A NI. cbv zeta.
      assert (E : Main.join_giveaway gid u s
                  = (Main.set_participants (fun ps => ps ++ [(gid, u)]) s,
                     Done)).
      { unfold Main.join_giveaway. rewrite F, A. cbn [negb].
        destruct (existsb (Main.is_participant gid u) (Main.participants s))
          eqn:X; [apply is_participant_in in X; contradiction |].
        reflexivity. }
      rewrite E. main_simpl. split; [reflexivity |]. split; [reflexivity |].
      split; [| split; [| split; [| split; [| split]]]]; try reflexivity.
      * rewrite participants_of_snoc, String.eqb_refl. reflexivity.
      * intros gid' Ne. rewrite participants_of_snoc.
        assert ((gid =? gid')%string = false) as ->
          by (apply String.eqb_neq; congruence).
        apply app_nil_r.
      * unfold Main.join_giveaway. main_simpl. rewrite F, A. cbn [negb].
        assert (existsb (Main.is_participant gid u)
                  (Main.participants s ++ [(gid, u)]) = true) as ->.
        { apply is_participant_in. apply in_or_app. right. left. reflexivity. }
        reflexivity.
  - intro N. unfold Main.join_giveaway.
    destruct (find (Main.gw_is gid) (Main.giveaways s)) as [g |]; [| exact N].
    destruct (negb (Main.gw_active g)); [exact N |].
    destruct (existsb (Main.is_participant gid u) (Main.participants s))
      eqn:X; [exact N |].
    main_simpl. apply NoDup_app; [exact N | repeat constructor; simpl; tauto |].
    intros x Hx [<- | []]. apply is_participant_in in Hx. congruence.
Qed.

Lemma X13_witness :
  Main.join_giveaway "G1" 2 Scenario.giveaway_db
  = (Scenario.giveaway_db, Failed AlreadyJoined).
Proof.
  refine (proj1 (proj2 (proj1 (proj2
    (X13_join_at_most_once Scenario.giveaway_db "G1" 2)) Scenario.G1 eq_refl))
    eq_refl _).
  simpl. auto.
Defined.

Section CreateGiveaway.

Import Main.

(** What a [create_giveaway] that goes through has checked and done. *)
Lemma create_giveaway_done_inv gid u a m now s :
  snd (create_giveaway gid u a m now s) = Done ->
  0 < a /\ (1 <= m <= 60 * 24 * 14)%Z
  /\ a <= fst (get_balances u (users s))
  /\ existsb (gw_is gid) (giveaways s) = false
  /\ fst (create_giveaway gid u a m now s)
     = log u "UWT" (- a) "giveaway_create"
         (set_giveaways
            (fun gs => gs ++ [mkGiveaway gid u a GwActive
                                (iso (now + timedelta_minutes m)%Z) None])
            (set_users (upd_uwt (- a) u) s)).
Proof.
  unfold create_giveaway.
  destruct (Qleb a 0) eqn:E; [discriminate |].
  destruct ((m <=? 0)%Z || (60 * 24 * 14 <? m)%Z) eqn:B; [discriminate |].
  destruct (Qltb _ a) eqn:L; [discriminate |].
  destruct (existsb (gw_is gid) (giveaways s)) eqn:X; [discriminate |].
  intros _. qtests. apply orb_false_iff in B. destruct B as [B1 B2].
  apply Z.leb_gt in B1. apply Z.ltb_ge in B2.
  repeat split; auto; lia.
Qed.

End CreateGiveaway.

(** X14 ([create_giveaway] then [finish_due_giveaways], [main.py]).  A
    giveaway is accepted only for a positive prize the creator can pay
    and a duration of 1 to 20160 minutes; the prize leaves the creator's
    balance at once.  Its end is the creation time plus the duration, cut
    to whole seconds, and no sweep whose clock is before that end touches
    the giveaway or reports it. *)
Theorem X14_giveaway_runs_until_its_end
    (gid : string) (u : Z) (a : Q) (m : Z) (now0 : datetime) (s : Main.db) :
  NoDup (map Main.gw_id (Main.giveaways s)) ->
  snd (Main.create_giveaway gid u a m now0 s) = Done ->
  let s1 := fst (Main.create_giveaway gid u a m now0 s) in
  let end_at :=
    (now0 + timedelta_minutes m
     - (now0 + timedelta_minutes m) mod second_us)%Z in
  let row := Main.mkGiveaway gid u a Main.GwActive (IsoText end_at) None in
  0 < a /\ (1 <= m <= 20160)%Z
  /\ fst (get_balances u (Main.users s1))
     == fst (get_balances u (Main.users s)) - a
  /\ find (Main.gw_is gid) (Main.giveaways s1) = Some row
  /\ forall now rnd,
       (now < end_at)%Z ->
       let acc := Main.finish_due_giveaways now rnd s1 in
       find (Main.gw_is gid) (Main.giveaways (Main.sweep_db acc)) = Some row
       /\ filter (Main.ev_is gid) (Main.sweep_events acc) = [].
Proof.
  intros N D. cbv zeta.
  destruct (create_giveaway_done_inv gid u a m now0 s D)
    as [Pa [Bm [Le [X E]]]].
  rewrite E. clear E.
  set (row := Main.mkGiveaway gid u a Main.GwActive
                (IsoText (now0 + timedelta_minutes m
                          - (now0 + timedelta_minutes m) mod second_us)%Z)
                None).
  set (s1 := Main.log u "UWT" (- a) "giveaway_create"
               (Main.set_giveaways
                  (fun gs => gs ++ [Main.mkGiveaway gid u a Main.GwActive
                                      (iso (now0 + timedelta_minutes m)%Z) None])
                  (Main.set_users (upd_uwt (- a) u) s))).
  assert (Rg : registered u (Main.users s) = true)
    by (apply balance_registered_uwt; lra).
  assert (G1 : Main.giveaways s1 = Main.giveaways s ++ [row]) by reflexivity.
  assert (F1 : find (Main.gw_is gid) (Main.giveaways s1) = Some row).
  { rewrite G1. apply find_snoc_fresh; [exact X |].
    unfold Main.gw_is. simpl. apply String.eqb_refl. }
  assert (N1 : NoDup (map Main.gw_id (Main.giveaways s1))).
  { rewrite G1.
    apply (keyed_nodup_snoc Main.gw_id Main.gw_is gw_is_spec gid);
      [exact N | exact X | reflexivity]. }
  split; [exact Pa |]. split; [lia |]. split.
  { change (Main.users s1) with (upd_uwt (- a) u (Main.users s)).
    rewrite get_uwt_upd_uwt, Z.eqb_refl, Rg. cbn [andb]. lra. }
  split; [exact F1 |].
  intros now rnd L.
  assert (I : In row (Main.giveaways s1))
    by (rewrite G1; apply in_or_app; right; left; reflexivity).
  apply (sweep_steps_over now rnd s1 row N1 I).
  intro acc. apply (finish_one_not_due now rnd acc row _ eq_refl L).
Qed.

Lemma X14_witness :
  find (Main.gw_is "g")
    (Main.giveaways (fst (Main.create_giveaway "g" 1 5 10 0%Z Scenario.purse_db)))
  = Some (Main.mkGiveaway "g" 1 5 Main.GwActive (IsoText 600000000%Z) None).
Proof.
  refine (proj1 (proj2 (proj2 (proj2
    (X14_giveaway_runs_until_its_end "g" 1 5 10 0%Z Scenario.purse_db _
       eq_refl))))).
  constructor.
Defined.

(** * Channels of [main.py]: listing, buying, expiry *)

Section ChannelBuy.

Import Main.

(** A purchase that goes through. *)
Lemma ch_buy_months_done cid u m now s ch :
  find (ch_is cid) (channels s) = Some ch -> (1 <= m)%Z ->
  let mm := Z.min m 120 in
  let total := ch_price ch * inject_Z mm in
  total <= fst (get_balances u (users s)) ->
  ch_buy_months cid u m now s
  = (fst (channel_sub_extend cid u mm now
            (log (ch_owner ch) "UWT" total "channel_sub_income"
               (set_users (upd_uwt total (ch_owner ch))
                  (log u "UWT" (- total) "channel_sub_buy"
                     (set_users (upd_uwt (- total) u) s))))),
     Done).
Proof.
  intros F M mm total L. unfold ch_buy_months. rewrite F.
  assert ((m <=? 0)%Z = false) as -> by (apply Z.leb_gt; lia).
  assert (Hm : (if (120 <? m)%Z then 120%Z else m) = mm).
  { subst mm. destruct (120 <? m)%Z eqn:E.
    - apply Z.ltb_lt in E. lia.
    - apply Z.ltb_ge in E. lia. }
  rewrite Hm. fold total.
  assert (Qltb (fst (get_balances u (users s))) total = false) as ->
    by (apply Qltb_false; exact L).
  unfold add_asset. eval_literals. reflexivity.
Qed.

End ChannelBuy.

(** X15 (handler [ch_buy_months] with [channel_sub_extend], [main.py]).
    A purchase of [m] months is refused, with the database unchanged, for
    an unknown channel, for [m <= 0] and for a balance below the price;
    more than 120 months are billed and granted as 120.  Otherwise the
    monthly price times the months is debited from the account row of
    the buyer and credited to the account row of the owner of the
    channel; an owner who holds no account row (a channel is listed
    without one) is credited nothing, the buyer paying all the same; an
    owner who buys from himself keeps his balance; no other account
    moves.  The grant of the buyer runs 30 days per month from the later
    of the clock and the expiry held before, at the whole second. *)
Theorem X15_subscription_purchase
    (s : Main.db) (cid u m : Z) (now : datetime) :
  (find (Main.ch_is cid) (Main.channels s) = None ->
   Main.ch_buy_months cid u m now s = (s, Failed NotFound))
  /\ forall ch, find (Main.ch_is cid) (Main.channels s) = Some ch ->
       ((m <= 0)%Z -> Main.ch_buy_months cid u m now s = (s, Failed BadAmount))
       /\ ((1 <= m)%Z ->
           let mm := Z.min m 120 in
           let total := Main.ch_price ch * inject_Z mm in
           (fst (get_balances u (Main.users s)) < total ->
            Main.ch_buy_months cid u m now s = (s, Failed Insufficient))
           /\ (total <= fst (get_balances u (Main.users s)) ->
               let s' := fst (Main.ch_buy_months cid u m now s) in
               let base := Main.extend_base cid u now s in
               let new :=
                 ((base - base mod second_us) + timedelta_days (30 * mm))%Z in
               snd (Main.ch_buy_months cid u m now s) = Done
               /\ (u <> Main.ch_owner ch ->
                   (registered u (Main.users s) = true ->
                    fst (get_balances u (Main.users s'))
                    == fst (get_balances u (Main.users s)) - total)
                   /\ (registered (Main.ch_owner ch) (Main.users s) = true ->
                       fst (get_balances (Main.ch_owner ch) (Main.users s'))
                       == fst (get_balances (Main.ch_owner ch) (Main.users s))
                          + total)
                   /\ (registered (Main.ch_owner ch) (Main.users s) = false ->
                       get_balances (Main.ch_owner ch) (Main.users s')
                       = get_balances (Main.ch_owner ch) (Main.users s)))
               /\ (u = Main.ch_owner ch ->
                   fst (get_balances u (Main.users s'))
                   == fst (get_balances u (Main.users s)))
               /\ (forall i, i <> u -> i <> Main.ch_owner ch ->
                     get_balances i (Main.users s')
                     = get_balances i (Main.users s))
               /\ Main.grant_expiry cid u s' = Some new
               /\ (now - second_us + timedelta_days 30 < new)%Z
               /\ (forall e, Main.grant_expiry cid u s = Some e ->
                     (e < new)%Z))).
Proof.
  split.
  - intro F. unfold Main.ch_buy_months. rewrite F. reflexivity.
  - intros ch F. split.
    + intro M. unfold Main.ch_buy_months. rewrite F.
      assert ((m <=? 0)%Z = true) as -> by (apply Z.leb_le; exact M).
      reflexivity.
    + intros M mm total. split.
      * intro L. unfold Main.ch_buy_months. rewrite F.
        assert ((m <=? 0)%Z = false) as -> by (apply Z.leb_gt; lia).
        assert (Hm : (if (120 <? m)%Z then 120%Z else m) = mm).
        { subst mm. destruct (120 <? m)%Z eqn:E.
          - apply Z.ltb_lt in E. lia.
          - apply Z.ltb_ge in E. lia. }
        rewrite Hm. fold total.
        assert (Qltb (fst (get_balances u (Main.users s))) total = true)
          as -> by (apply Qltb_true; exact L).
        reflexivity.
      * intros L s' base new. subst s'.
        rewrite (ch_buy_months_done cid u m now s ch F M L).
        fold mm. fold total. cbn [fst snd].
        set (s2 := Main.log (Main.ch_owner ch) "UWT" total "channel_sub_income"
                     (Main.set_users (upd_uwt total (Main.ch_owner ch))
                        (Main.log u "UWT" (- total) "channel_sub_buy"
                           (Main.set_users (upd_uwt (- total) u) s)))).
        assert (Hmm : (1 <= mm)%Z) by (subst mm; lia).
        destruct (main_extend_spec cid u mm now s2 Hmm) as [_ [Hg [Hn Hl]]].
        assert (Us : Main.users
                       (fst (Main.channel_sub_extend cid u mm now s2))
                     = upd_uwt total (Main.ch_owner ch)
                         (upd_uwt (- total) u (Main.users s)))
          by reflexivity.
        split; [reflexivity |]. rewrite Us.
        split; [| split; [| split; [| split; [| split]]]].
        { intro Ne. split; [| split].
          - intro Ru.
            rewrite !get_uwt_upd_uwt, registered_upd_uwt, Z.eqb_refl, Ru.
            assert ((Main.ch_owner ch =? u)%Z = false) as ->
              by (apply Z.eqb_neq; congruence).
            cbn [andb]. lra.
          - intro Ro.
            rewrite !get_uwt_upd_uwt, registered_upd_uwt, Z.eqb_refl, Ro.
            assert ((u =? Main.ch_owner ch)%Z = false) as ->
              by (apply Z.eqb_neq; exact Ne).
            cbn [andb]. lra.
          - intro Ro.
            rewrite upd_uwt_no_row
              by (rewrite registered_upd_uwt; exact Ro).
            apply balances_upd_uwt_other. congruence. }
        { intros <-.
          rewrite !get_uwt_upd_uwt, registered_upd_uwt, Z.eqb_refl.
          destruct (registered u (Main.users s)); cbn [andb]; lra. }
        { intros i N1 N2.
          rewrite balances_upd_uwt_other by exact N2.
          apply balances_upd_uwt_other. exact N1. }
        { exact Hg. }
        { exact Hn. }
        { exact Hl. }
Qed.

Lemma X15_witness :
  Main.grant_expiry 1 1
    (fst (Main.ch_buy_months 1 1 2 0%Z Scenario.market_db))
  = Some (timedelta_days 60).
Proof.
  destruct (proj2 (proj2 (proj2 (X15_subscription_purchase
                                   Scenario.market_db 1 1 2 0%Z)
                                 (Main.mkChannel 1 2 (-1001)%Z 5) eq_refl)
                     ltac:(lia)))
    as [_ [_ [_ [_ [G _]]]]].
  - vm_compute. discriminate.
  - exact G.
Defined.

Section ChannelAdd.

Import Main.

#[local] Open Scope Z_scope.

Lemma max_id_bound (ids : list Z) (k : Z) :
  In k ids -> k <= fold_right Z.max 0 ids.
Proof.
  induction ids as [| a ids IH]; simpl; [contradiction |].
  intros [-> | I]; [lia |]. specialize (IH I). lia.
Qed.

Lemma max_id_nonneg (ids : list Z) : 0 <= fold_right Z.max 0 ids.
Proof. induction ids as [| a ids IH]; simpl; lia. Qed.

End ChannelAdd.

(** X16 ([channel_add], [main.py]).  Listing a channel is refused, with
    the database unchanged, for a non-positive price and for a chat that
    is listed already.  Otherwise one row is added under an id that is
    positive and above every id in the table: the new row is what a
    lookup of that id returns, lookups of the other ids return what they
    did, and ids and chats stay unique. *)
Theorem X16_channel_listed_once
    (s : Main.db) (owner chat : Z) (price : Q) :
  (price <= 0 -> Main.channel_add owner chat price s = (s, Failed BadAmount))
  /\ (0 < price -> In chat (map Main.ch_chat (Main.channels s)) ->
      Main.channel_add owner chat price s = (s, Failed Unavailable))
  /\ (0 < price -> ~ In chat (map Main.ch_chat (Main.channels s)) ->
      let s' := fst (Main.channel_add owner chat price s) in
      exists id,
        snd (Main.channel_add owner chat price s) = Done
        /\ Main.channels s'
           = Main.channels s ++ [Main.mkChannel id owner chat price]
        /\ (1 <= id)%Z
        /\ (forall c, In c (Main.channels s) -> (Main.ch_id c < id)%Z)
        /\ find (Main.ch_is id) (Main.channels s')
           = Some (Main.mkChannel id owner chat price)
        /\ (forall cid c, find (Main.ch_is cid) (Main.channels s) = Some c ->
              find (Main.ch_is cid) (Main.channels s') = Some c)
        /\ (NoDup (map Main.ch_id (Main.channels s)) ->
            NoDup (map Main.ch_id (Main.channels s')))
        /\ (NoDup (map Main.ch_chat (Main.channels s)) ->
            NoDup (map Main.ch_chat (Main.channels s')))
        /\ Main.users s' = Main.users s /\ Main.tx s' = Main.tx s).
Proof.
  split; [| split].
  - intro L. unfold Main.channel_add.
    assert (Qleb price 0 = true) as -> by (apply Qleb_true; exact L).
    reflexivity.
  - intros P I. unfold Main.channel_add.
    assert (Qleb price 0 = false) as -> by (apply Qleb_false; exact P).
    assert (existsb (fun c => (Main.ch_chat c =? chat)%Z) (Main.channels s)
            = true) as ->; [| reflexivity].
    apply in_map_iff in I. destruct I as [c [E I]].
    apply existsb_exists. exists c. split; [exact I |].
    apply Z.eqb_eq. exact E.
  - intros P NI. cbv zeta. unfold Main.channel_add.
    assert (Qleb price 0 = false) as -> by (apply Qleb_false; exact P).
    assert (X : existsb (fun c => (Main.ch_chat c =? chat)%Z) (Main.channels s)
                = false).
    { destruct (existsb _ (Main.channels s)) eqn:X; [| reflexivity].
      apply existsb_exists in X. destruct X as [c [I E]].
      apply Z.eqb_eq in E. exfalso. apply NI. rewrite <- E.
      apply in_map. exact I. }
    rewrite X. main_simpl.
    set (id := (fold_right Z.max 0 (map Main.ch_id (Main.channels s)) + 1)%Z).
    assert (Above : forall c, In c (Main.channels s) -> (Main.ch_id c < id)%Z).
    { intros c I. subst id.
      pose proof (max_id_bound (map Main.ch_id (Main.channels s))
                    (Main.ch_id c) (in_map _ _ _ I)). lia. }
    assert (Fresh : existsb (Main.ch_is id) (Main.channels s) = false).
    { destruct (existsb (Main.ch_is id) (Main.channels s)) eqn:E;
        [| reflexivity].
      apply existsb_exists in E. destruct E as [c [I E]].
      apply ch_is_spec in E. specialize (Above c I). lia. }
    exists id. split; [reflexivity |]. split; [reflexivity |].
    split.
    { subst id.
      pose proof (max_id_nonneg (map Main.ch_id (Main.channels s))). lia. }
    split; [exact Above |]. split.
    { apply find_snoc_fresh; [exact Fresh |]. apply ch_is_spec. reflexivity. }
    split.
    { intros cid c F. apply find_app_some. exact F. }
    split.
    { intro N. rewrite map_app. simpl.
      apply NoDup_app; [exact N | repeat constructor; simpl; tauto |].
      intros x Hx [<- | []]. apply in_map_iff in Hx.
      destruct Hx as [c [E I]]. specialize (Above c I). lia. }
    split; [| split; reflexivity].
    intro N. rewrite map_app. simpl.
    apply NoDup_app; [exact N | repeat constructor; simpl; tauto |].
    intros x Hx [<- | []]. contradiction.
Qed.

Lemma X16_witness :
  Main.channel_add 1 (-1001) 7 Scenario.market_db
  = (Scenario.market_db, Failed Unavailable).
Proof.
  refine (proj1 (proj2 (X16_channel_listed_once Scenario.market_db 1 (-1001) 7))
            _ _).
  - reflexivity.
  - simpl. auto.
Defined.

Section Expiry.

Import Main.

Lemma remove_all_subs (l : list (channel_sub * channel)) : forall s,
  let s' := fold_left
              (fun s rc =>
                 channel_sub_remove (cs_channel (fst rc)) (cs_user (fst rc)) s)
              l s in
  channel_subs s'
  = filter (fun r => forallb
                       (fun rc => negb (cs_is (cs_channel (fst rc))
                                          (cs_user (fst rc)) r)) l)
      (channel_subs s)
  /\ users s' = users s /\ tx s' = tx s /\ channels s' = channels s.
Proof.
  induction l as [| rc l IH]; intro s; cbv zeta; simpl.
  - split; [| auto]. symmetry. apply forallb_filter_id.
    apply forallb_forall. reflexivity.
  - destruct (IH (channel_sub_remove (cs_channel (fst rc)) (cs_user (fst rc)) s))
      as [E [U [T C]]].
    cbv zeta in E. rewrite E, U, T, C. split; [| auto].
    unfold channel_sub_remove. main_simpl.
    induction (channel_subs s) as [| r rs IHr]; simpl; [reflexivity |].
    destruct (cs_is (cs_channel (fst rc)) (cs_user (fst rc)) r); simpl.
    + exact IHr.
    + destruct (forallb _ l); [f_equal |]; exact IHr.
Qed.

Lemma cs_is_spec c u r :
  cs_is c u r = true <-> cs_channel r = c /\ cs_user r = u.
Proof.
  unfold cs_is. rewrite andb_true_iff, !Z.eqb_eq. reflexivity.
Qed.

Lemma in_subs_due now s r c :
  In (r, c) (channel_subs_due now s)
  <-> In r (channel_subs s) /\ In c (channels s)
      /\ ch_id c = cs_channel r /\ is_due now r = true.
Proof.
  unfold channel_subs_due, subs_joined.
  rewrite filter_In, in_flat_map. simpl. split.
  - intros [[r' [I H]] D]. apply in_map_iff in H.
    destruct H as [c' [E Ic]]. injection E as -> ->.
    apply filter_In in Ic. destruct Ic as [Ic Ec]. apply Z.eqb_eq in Ec.
    auto.
  - intros [I [Ic [E D]]]. split; [| exact D].
    exists r. split; [exact I |]. apply in_map. apply filter_In.
    split; [exact Ic | apply Z.eqb_eq; exact E].
Qed.

Lemma sub_at_spec k r : sub_at k r = true <-> sub_key r = k.
Proof.
  unfold sub_at, sub_key. rewrite cs_is_spec. destruct k as [c u]. simpl.
  split; [intros [-> ->]; reflexivity | intros [= -> ->]; auto].
Qed.

Lemma in_expire_turn now s r :
  In r (channel_subs (expire_turn now s))
  <-> In r (channel_subs s)
      /\ forall rc, In rc (channel_subs_due now s) ->
           cs_is (cs_channel (fst rc)) (cs_user (fst rc)) r = false.
Proof.
  unfold expire_turn.
  destruct (remove_all_subs (channel_subs_due now s) s) as [E _].
  cbv zeta in E. rewrite E, filter_In, forallb_forall.
  split; intros [I H]; (split; [exact I |]); intros rc Irc;
    specialize (H rc Irc).
  - apply negb_true_iff in H. exact H.
  - rewrite H. reflexivity.
Qed.

(** Rows of distinct pairs: a row goes only when it is due itself. *)
Lemma expire_turn_keeps now s r :
  NoDup (map sub_key (channel_subs s)) -> In r (channel_subs s) ->
  is_due now r = false
  \/ (forall c, In c (channels s) -> ch_id c <> cs_channel r) ->
  In r (channel_subs (expire_turn now s)).
Proof.
  intros N I H. apply in_expire_turn. split; [exact I |].
  intros [r' c] Irc. simpl.
  destruct (cs_is (cs_channel r') (cs_user r') r) eqn:E; [| reflexivity].
  apply in_subs_due in Irc. destruct Irc as [I' [Ic [Ec D]]].
  apply cs_is_spec in E. destruct E as [E1 E2].
  assert (r = r').
  { apply (keyed_unique sub_key (channel_subs s) r r' N I I').
    unfold sub_key. congruence. }
  subst r'. destruct H as [H | H]; [congruence |].
  destruct (H c Ic Ec).
Qed.

Lemma sub_upsert_keys c u e l :
  NoDup (map sub_key l) -> NoDup (map sub_key (sub_upsert c u e l)).
Proof.
  intro N. unfold sub_upsert.
  destruct (existsb (cs_is c u) l) eqn:X.
  - rewrite map_update_where by reflexivity. exact N.
  - apply (keyed_nodup_snoc sub_key sub_at sub_at_spec (c, u));
      [exact N | exact X | reflexivity].
Qed.

End Expiry.

(** X17 ([channel_subs_due], [channel_sub_remove], the loop of
    [channel_subs_worker]; [main.py]).  A turn of the expiry worker only
    removes subscription rows: it adds none and touches no balance, log
    row or channel.  Afterwards no row that has a channel is due (its
    expiry parsed and not after the clock).  With one row per pair of
    channel and user, every row that is not due, or whose channel is not
    in the table, is still there. *)
Theorem X17_expiry_removes_only_due_rows (now : datetime) (s : Main.db) :
  let s' := Main.expire_turn now s in
  Main.users s' = Main.users s /\ Main.tx s' = Main.tx s
  /\ Main.channels s' = Main.channels s
  /\ (forall r, In r (Main.channel_subs s') -> In r (Main.channel_subs s))
  /\ (forall r c, In r (Main.channel_subs s') -> In c (Main.channels s) ->
        Main.ch_id c = Main.cs_channel r -> Main.is_due now r = false)
  /\ (NoDup (map Main.sub_key (Main.channel_subs s)) ->
      forall r, In r (Main.channel_subs s) ->
        Main.is_due now r = false
        \/ (forall c, In c (Main.channels s) ->
              Main.ch_id c <> Main.cs_channel r) ->
        In r (Main.channel_subs s')).
Proof.
  cbv zeta.
  destruct (remove_all_subs (Main.channel_subs_due now s) s)
    as [_ [U [T C]]].
  cbv zeta in U, T, C. fold (Main.expire_turn now s) in U, T, C.
  split; [exact U |]. split; [exact T |]. split; [exact C |].
  split; [| split].
  - intros r I. apply in_expire_turn in I. apply I.
  - intros r c I Ic E. apply in_expire_turn in I. destruct I as [I H].
    destruct (Main.is_due now r) eqn:D; [| reflexivity].
    assert (Irc : In (r, c) (Main.channel_subs_due now s))
      by (apply in_subs_due; auto).
    specialize (H (r, c) Irc). simpl in H.
    assert (Main.cs_is (Main.cs_channel r) (Main.cs_user r) r = true)
      by (apply cs_is_spec; auto).
    congruence.
  - intros N r I H. apply expire_turn_keeps; assumption.
Qed.

Lemma X17_witness :
  In (Main.mkSub 1 1 (IsoText (30 * Scenario.day)%Z))
    (Main.channel_subs (Main.expire_turn (10 * Scenario.day)%Z Scenario.subs_db)).
Proof.
  refine (proj2 (proj2 (proj2 (proj2 (proj2
    (X17_expiry_removes_only_due_rows (10 * Scenario.day)%Z Scenario.subs_db)))))
    _ (Main.mkSub 1 1 (IsoText (30 * Scenario.day)%Z)) _ _).
  - repeat constructor; simpl; intuition discriminate.
  - simpl. auto.
  - left. reflexivity.
Defined.

(** X18 (handler [ch_buy_months] then the loop of [channel_subs_worker],
    [main.py]).  A paid subscription outlives every turn of the expiry
    worker whose clock is before the new expiry: after a purchase that
    goes through, with one row per pair of channel and user, such a turn
    leaves the buyer's grant and its expiry as the purchase set them. *)
Theorem X18_paid_grant_survives_expiry_turns
    (s : Main.db) (cid u m : Z) (now : datetime) :
  NoDup (map Main.sub_key (Main.channel_subs s)) ->
  snd (Main.ch_buy_months cid u m now s) = Done ->
  let s' := fst (Main.ch_buy_months cid u m now s) in
  exists new,
    Main.grant_expiry cid u s' = Some new
    /\ (now - second_us + timedelta_days 30 < new)%Z
    /\ forall later, (later < new)%Z ->
         Main.grant_expiry cid u (Main.expire_turn later s') = Some new.
Proof.
  intros N D. cbv zeta.
  assert (Inv : exists ch mm total,
            (1 <= mm)%Z
            /\ fst (Main.ch_buy_months cid u m now s)
               = fst (Main.channel_sub_extend cid u mm now
                        (Main.log (Main.ch_owner ch) "UWT" total
                           "channel_sub_income"
                           (Main.set_users (upd_uwt total (Main.ch_owner ch))
                              (Main.log u "UWT" (- total) "channel_sub_buy"
                                 (Main.set_users (upd_uwt (- total) u) s)))))).
  { revert D. unfold Main.ch_buy_months.
    destruct (find (Main.ch_is cid) (Main.channels s)) as [ch |];
      [| discriminate].
    destruct (m <=? 0)%Z eqn:M; [discriminate |]. apply Z.leb_gt in M.
    destruct (Qltb _ _); [discriminate |].
    unfold Main.add_asset. eval_literals. intros _.
    exists ch. eexists. eexists. split; [| reflexivity].
    destruct (120 <? m)%Z; lia. }
  destruct Inv as [ch [mm [total [Hmm E]]]]. rewrite E.
  set (s2 := Main.log (Main.ch_owner ch) "UWT" total "channel_sub_income"
               (Main.set_users (upd_uwt total (Main.ch_owner ch))
                  (Main.log u "UWT" (- total) "channel_sub_buy"
                     (Main.set_users (upd_uwt (- total) u) s)))).
  destruct (main_extend_spec cid u mm now s2 Hmm) as [_ [Hg [Hn _]]].
  set (new := ((Main.extend_base cid u now s2
                - Main.extend_base cid u now s2 mod second_us)
               + timedelta_days (30 * mm))%Z) in *.
  set (s3 := fst (Main.channel_sub_extend cid u mm now s2)) in *.
  exists new. split; [exact Hg |]. split; [exact Hn |].
  intros later L.
  assert (N3 : NoDup (map Main.sub_key (Main.channel_subs s3)))
    by (apply sub_upsert_keys; exact N).
  unfold Main.grant_expiry in Hg |- *.
  destruct (find (Main.cs_is cid u) (Main.channel_subs s3)) as [r |] eqn:F;
    [| discriminate].
  destruct (keyed_find_in Main.sub_key Main.sub_at sub_at_spec (cid, u) _ _ F)
    as [Ir Kr].
  assert (Dr : Main.is_due later r = false).
  { unfold Main.is_due. rewrite Hg. apply Z.leb_gt. exact L. }
  assert (Ik : In r (Main.channel_subs (Main.expire_turn later s3)))
    by (apply expire_turn_keeps; auto).
  assert (Nk : NoDup (map Main.sub_key
                        (Main.channel_subs (Main.expire_turn later s3)))).
  { unfold Main.expire_turn.
    destruct (remove_all_subs (Main.channel_subs_due later s3) s3) as [Ek _].
    cbv zeta in Ek. rewrite Ek. apply NoDup_map_filter. exact N3. }
  change (Main.cs_is cid u) with (Main.sub_at (cid, u)).
  rewrite (keyed_in_find Main.sub_key Main.sub_at sub_at_spec (cid, u) _ r Nk Ik Kr).
  exact Hg.
Qed.

Lemma X18_witness :
  exists new,
    Main.grant_expiry 1 1
      (fst (Main.ch_buy_months 1 1 2 0%Z Scenario.market_db)) = Some new
    /\ (0 - second_us + timedelta_days 30 < new)%Z
    /\ forall later, (later < new)%Z ->
         Main.grant_expiry 1 1
           (Main.expire_turn later
              (fst (Main.ch_buy_months 1 1 2 0%Z Scenario.market_db)))
         = Some new.
Proof.
  apply (X18_paid_grant_survives_expiry_turns Scenario.market_db 1 1 2 0%Z).
  - constructor.
  - reflexivity.
Defined.

(** * What no operation of [main.py] undoes *)

(** Splits on every test of the operation at hand. *)
Ltac split_tests :=
  cbv zeta;
  repeat (main_simpl;
          match goal with
          | |- context [if ?c then _ else _] => destruct c
          | |- context [match ?x with _ => _ end] => destruct x
          end);
  main_simpl.

(** Closes [exists l, tx s' = tx s ++ l] once [tx s'] is spelled out. *)
Ltac grows :=
  first [ exists []; rewrite app_nil_r; reflexivity
        | eexists; rewrite <- ?app_assoc; reflexivity ].

Section History.

Import Main.

Variable sha256 : string -> string.

(** The log only grows and the account ids stay, in the matching loop. *)
Lemma match_loop_history n : forall s,
  (exists l, tx (match_loop n s) = tx s ++ l)
  /\ map tg_id (users (match_loop n s)) = map tg_id (users s).
Proof.
  induction n as [| n IH]; intro s; simpl.
  - split; [grows | reflexivity].
  - destruct (match_step s) as [s' |] eqn:M; [| split; [grows | reflexivity]].
    destruct (match_step_inv s s' M)
      as [buy [sell [_ [_ [_ [Hu [_ [_ [Hx _]]]]]]]]].
    destruct (IH s') as [[l E] I]. split.
    + rewrite E, Hx. eexists. rewrite <- !app_assoc. reflexivity.
    + rewrite I, Hu. destruct (Qltb eps _);
        rewrite ?ids_upd_rub, ?ids_upd_uwt; reflexivity.
Qed.

Lemma sweep_history now rnd rows : forall acc,
  (exists l, tx (sweep_db (fold_left (finish_one now rnd) rows acc))
             = tx (sweep_db acc) ++ l)
  /\ map tg_id (users (sweep_db (fold_left (finish_one now rnd) rows acc)))
     = map tg_id (users (sweep_db acc)).
Proof.
  induction rows as [| g rows IH]; intro acc; simpl.
  - split; [grows | reflexivity].
  - destruct (IH (finish_one now rnd acc g)) as [[l E] I].
    rewrite E, I. destruct acc as [[s fin] k]. rewrite finish_one_eq.
    split_tests; rewrite ?ids_upd_uwt; split; try reflexivity;
      eexists; rewrite <- ?app_assoc; reflexivity.
Qed.

(** Every operation appends to the log, if it writes to it at all. *)
Lemma exec_log_grows o s : exists l, tx (exec sha256 o s) = tx s ++ l.
Proof.
  destruct o; cbn [exec].
  - grows.
  - unfold adm_bal_amount, add_asset. split_tests; grows.
  - unfold adm_rate_set. split_tests; grows.
  - unfold create_rub_deposit. split_tests; grows.
  - unfold decide_rub_deposit. split_tests; grows.
  - unfold create_check. split_tests; grows.
  - unfold claim_check. split_tests; grows.
  - unfold create_bill_uwt. split_tests; grows.
  - unfold pay_bill_uwt. split_tests; grows.
  - unfold exchange_buy_uwt. split_tests; grows.
  - unfold exchange_sell_uwt. split_tests; grows.
  - unfold place_order, match_orders.
    destruct (parse_side sd) as [side |]; [| grows].
    destruct (Qleb price 0 || Qleb amount 0); [grows |].
    destruct (find_user user_id (users s)) as [r |]; [| grows].
    destruct side.
    + destruct (Qltb (rub r) (price * amount)); [grows |]. main_simpl.
      destruct (existsb (or_is oid) (orders s)); [grows |]. cbn [fst].
      match goal with
      | |- context [match_loop ?n ?x] =>
        destruct (match_loop_history n x) as [[l E] _]; rewrite E
      end.
      main_simpl. eexists. rewrite <- app_assoc. reflexivity.
    + destruct (Qltb (uwt r) amount); [grows |]. main_simpl.
      destruct (existsb (or_is oid) (orders s)); [grows |]. cbn [fst].
      match goal with
      | |- context [match_loop ?n ?x] =>
        destruct (match_loop_history n x) as [[l E] _]; rewrite E
      end.
      main_simpl. eexists. rewrite <- app_assoc. reflexivity.
  - unfold cancel_order. split_tests; grows.
  - unfold create_giveaway. split_tests; grows.
  - unfold join_giveaway. split_tests; grows.
  - unfold finish_due_giveaways.
    apply (sweep_history now rnd (filter gw_active (giveaways s)) (s, [], O)).
  - unfold channel_add. split_tests; grows.
  - unfold ch_buy_months, add_asset, channel_sub_extend. split_tests; grows.
  - unfold p2p_amount. split_tests; grows.
Qed.

Lemma match_loop_trades_grow n : forall s,
  exists l, trades (match_loop n s) = trades s ++ l.
Proof.
  induction n as [| n IH]; intro s; simpl.
  - exists []. rewrite app_nil_r. reflexivity.
  - destruct (match_step s) as [s' |] eqn:M;
      [| exists []; rewrite app_nil_r; reflexivity].
    destruct (match_step_inv s s' M)
      as [buy [sell [_ [_ [_ [_ [_ [Ht _]]]]]]]].
    destruct (IH s') as [l E].
    rewrite E, Ht. eexists. rewrite <- !app_assoc. reflexivity.
Qed.

Lemma sweep_trades now rnd rows : forall acc,
  trades (sweep_db (fold_left (finish_one now rnd) rows acc))
  = trades (sweep_db acc).
Proof.
  induction rows as [| g rows IH]; intro acc; simpl; [reflexivity |].
  rewrite IH. destruct acc as [[s fin] k]. rewrite finish_one_eq.
  split_tests; reflexivity.
Qed.

(** Every operation appends to the trade history, if it touches it. *)
Lemma exec_trades_grow o s :
  exists l, trades (exec sha256 o s) = trades s ++ l.
Proof.
  assert (Same : forall s', trades s' = trades s ->
            exists l, trades s' = trades s ++ l).
  { intros s' E. exists []. rewrite app_nil_r. exact E. }
  destruct o; cbn [exec].
  - apply Same. reflexivity.
  - apply Same. unfold adm_bal_amount, add_asset. split_tests; reflexivity.
  - apply Same. unfold adm_rate_set. split_tests; reflexivity.
  - apply Same. unfold create_rub_deposit. split_tests; reflexivity.
  - apply Same. unfold decide_rub_deposit. split_tests; reflexivity.
  - apply Same. unfold create_check. split_tests; reflexivity.
  - apply Same. unfold claim_check. split_tests; reflexivity.
  - apply Same. unfold create_bill_uwt. split_tests; reflexivity.
  - apply Same. unfold pay_bill_uwt. split_tests; reflexivity.
  - apply Same. unfold exchange_buy_uwt. split_tests; reflexivity.
  - apply Same. unfold exchange_sell_uwt. split_tests; reflexivity.
  - unfold place_order, match_orders.
    destruct (parse_side sd) as [side |]; [| apply Same; reflexivity].
    destruct (Qleb price 0 || Qleb amount 0); [apply Same; reflexivity |].
    destruct (find_user user_id (users s)) as [r |];
      [| apply Same; reflexivity].
    destruct side.
    + destruct (Qltb (rub r) (price * amount)); [apply Same; reflexivity |].
      main_simpl.
      destruct (existsb (or_is oid) (orders s)); [apply Same; reflexivity |].
      cbn [fst].
      match goal with
      | |- context [match_loop ?n ?x] =>
        destruct (match_loop_trades_grow n x) as [l E]; rewrite E
      end.
      main_simpl. eexists. reflexivity.
    + destruct (Qltb (uwt r) amount); [apply Same; reflexivity |].
      main_simpl.
      destruct (existsb (or_is oid) (orders s)); [apply Same; reflexivity |].
      cbn [fst].
      match goal with
      | |- context [match_loop ?n ?x] =>
        destruct (match_loop_trades_grow n x) as [l E]; rewrite E
      end.
      main_simpl. eexists. reflexivity.
  - apply Same. unfold cancel_order. split_tests; reflexivity.
  - apply Same. unfold create_giveaway. split_tests; reflexivity.
  - apply Same. unfold join_giveaway. split_tests; reflexivity.
  - apply Same. unfold finish_due_giveaways.
    apply (sweep_trades now rnd (filter gw_active (giveaways s)) (s, [], O)).
  - apply Same. unfold channel_add. split_tests; reflexivity.
  - apply Same.
    unfold ch_buy_months, add_asset, channel_sub_extend.
    split_tests; reflexivity.
  - apply Same. unfold p2p_amount. split_tests; reflexivity.
Qed.

(** No operation removes an account. *)
Lemma exec_keeps_accounts o s i :
  registered i (users s) = true ->
  registered i (users (exec sha256 o s)) = true.
Proof.
  intro R.
  assert (Ids : forall s', map tg_id (users s') = map tg_id (users s) ->
            registered i (users s') = true).
  { intros s' E. rewrite (registered_ids i _ _ E). exact R. }
  destruct o; cbn [exec].
  - unfold ensure_user. main_simpl. apply ensure_user_keeps. exact R.
  - apply Ids. unfold adm_bal_amount, add_asset.
    split_tests; rewrite ?ids_upd_uwt, ?ids_upd_rub; reflexivity.
  - apply Ids. unfold adm_rate_set. split_tests; reflexivity.
  - apply Ids. unfold create_rub_deposit. split_tests; reflexivity.
  - apply Ids. unfold decide_rub_deposit.
    split_tests; rewrite ?ids_upd_rub; reflexivity.
  - apply Ids. unfold create_check.
    split_tests; rewrite ?ids_upd_uwt; reflexivity.
  - apply Ids. unfold claim_check.
    split_tests; rewrite ?ids_upd_uwt; reflexivity.
  - apply Ids. unfold create_bill_uwt. split_tests; reflexivity.
  - apply Ids. unfold pay_bill_uwt.
    split_tests; rewrite ?ids_upd_uwt; reflexivity.
  - apply Ids. unfold exchange_buy_uwt.
    split_tests; rewrite ?ids_upd_both; reflexivity.
  - apply Ids. unfold exchange_sell_uwt.
    split_tests; rewrite ?ids_upd_both; reflexivity.
  - apply Ids. unfold place_order, match_orders.
    destruct (parse_side sd) as [side |]; [| reflexivity].
    destruct (Qleb price 0 || Qleb amount 0); [reflexivity |].
    destruct (find_user user_id (users s)) as [r |]; [| reflexivity].
    destruct side.
    + destruct (Qltb (rub r) (price * amount)); [reflexivity |]. main_simpl.
      destruct (existsb (or_is oid) (orders s)); [reflexivity |]. cbn [fst].
      match goal with
      | |- context [match_loop ?n ?x] =>
        rewrite (proj2 (match_loop_history n x))
      end.
      main_simpl. apply ids_upd_rub.
    + destruct (Qltb (uwt r) amount); [reflexivity |]. main_simpl.
      destruct (existsb (or_is oid) (orders s)); [reflexivity |]. cbn [fst].
      match goal with
      | |- context [match_loop ?n ?x] =>
        rewrite (proj2 (match_loop_history n x))
      end.
      main_simpl. apply ids_upd_uwt.
  - apply Ids. unfold cancel_order.
    split_tests; rewrite ?ids_upd_uwt, ?ids_upd_rub; reflexivity.
  - apply Ids. unfold create_giveaway.
    split_tests; rewrite ?ids_upd_uwt; reflexivity.
  - apply Ids. unfold join_giveaway. split_tests; reflexivity.
  - apply Ids. unfold finish_due_giveaways.
    apply (proj2 (sweep_history now rnd (filter gw_active (giveaways s))
                    (s, [], O))).
  - apply Ids. unfold channel_add. split_tests; reflexivity.
  - apply Ids. unfold ch_buy_months, add_asset, channel_sub_extend.
    eval_literals. split_tests; rewrite ?ids_upd_uwt; reflexivity.
  - apply Ids. unfold p2p_amount.
    split_tests; rewrite ?ids_upd_uwt; reflexivity.
Qed.

End History.

(** X19 ([main.py], every operation of the core).  Nothing is ever taken
    out of the log, out of the trade history or out of the table of
    accounts: after any sequence of calls the log and the trade history
    start with the rows they held before, in the same order, and every
    account that held a row still holds one. *)
Theorem X19_history_only_grows
    (sha256 : string -> string) (ops : list Main.op) (s : Main.db) :
  (exists l, Main.tx (Main.run sha256 ops s) = Main.tx s ++ l)
  /\ (exists l, Main.trades (Main.run sha256 ops s) = Main.trades s ++ l)
  /\ (forall i, registered i (Main.users s) = true ->
        registered i (Main.users (Main.run sha256 ops s)) = true).
Proof.
  revert s. induction ops as [| o ops IH]; intro s; unfold Main.run; simpl.
  - split; [exists []; rewrite app_nil_r; reflexivity |].
    split; [exists []; rewrite app_nil_r; reflexivity | auto].
  - destruct (IH (Main.exec sha256 o s)) as [[l1 E1] [[l2 E2] K]].
    unfold Main.run in E1, E2, K.
    destruct (exec_log_grows sha256 o s) as [l1' E1'].
    destruct (exec_trades_grow sha256 o s) as [l2' E2'].
    split; [| split].
    + rewrite E1, E1'. eexists. rewrite <- app_assoc. reflexivity.
    + rewrite E2, E2'. eexists. rewrite <- app_assoc. reflexivity.
    + intros i R. apply K. apply exec_keeps_accounts. exact R.
Qed.

Lemma X19_witness :
  registered 1
    (Main.users
       (Main.run Scenario.no_hash
          [Main.OpCancelOrder 2 "S"%string; Main.OpEnsureUser 3 "cy"%string]
          Scenario.dust_run))
  = true.
Proof.
  refine (proj2 (proj2
    (X19_history_only_grows Scenario.no_hash
       [Main.OpCancelOrder 2 "S"%string; Main.OpEnsureUser 3 "cy"%string]
       Scenario.dust_run)) 1%Z _).
  reflexivity.
Defined.

(** * The log as an audit trail *)

(** Reads the balances behind the updates and the log behind its new
    rows, then compares them account by account. *)
Ltac audit i :=
  main_simpl;
  repeat first
    [ rewrite get_uwt_upd_uwt | rewrite get_rub_upd_uwt
    | rewrite get_rub_upd_rub | rewrite get_uwt_upd_rub
    | rewrite get_uwt_upd_both | rewrite get_rub_upd_both
    | rewrite registered_upd_uwt | rewrite registered_upd_rub
    | rewrite registered_upd_both
    | rewrite logged_snoc ];
  unfold Main.tx_of; cbn [tx_user tx_asset tx_delta];
  eval_literals; rewrite ?andb_true_r, ?andb_false_r;
  repeat match goal with
  | |- context [(?a =? i)%Z] =>
    let E := fresh "E" in
    destruct (Z.eqb_spec a i) as [E | E];
    [first [is_var a; subst a | rewrite ?E in *] |]
  end;
  repeat match goal with
  | R : registered ?j ?us = true |- context [registered ?j ?us] => rewrite R
  end;
  cbn [andb]; try lra.

Section Audit.

Import Main.

Variable sha256 : string -> string.

Lemma explains_refl s : explains s s.
Proof. intro i. split; lra. Qed.

Lemma explains_trans s1 s2 s3 :
  explains s1 s2 -> explains s2 s3 -> explains s1 s3.
Proof.
  intros A B i. destruct (A i) as [A1 A2]. destruct (B i) as [B1 B2].
  split; lra.
Qed.

Lemma explained_step s s' : explained s -> explains s s' -> explained s'.
Proof.
  intros A B i. destruct (A i) as [A1 A2]. destruct (B i) as [B1 B2].
  split; lra.
Qed.

(** A credit to an account row with its log row. *)
Lemma credit_uwt_explains id d k s :
  registered id (users s) = true ->
  explains s (log id "UWT" d k (set_users (upd_uwt d id) s)).
Proof. intros R i. unfold audited. split; audit i. Qed.

Lemma credit_rub_explains id d k s :
  registered id (users s) = true ->
  explains s (log id "RUB" d k (set_users (upd_rub d id) s)).
Proof. intros R i. unfold audited. split; audit i. Qed.

(** One turn of the matching loop. *)
Lemma match_step_explains s s' :
  wf s -> match_step s = Some s' -> explains s s'.
Proof.
  intros W M.
  pose proof (wf_orders s W) as Fo.
  destruct (match_step_inv s s' M)
    as [buy [sell [Bb [Bs [_ [Hu [_ [_ [Hx _]]]]]]]]].
  destruct (best_buy_in _ _ Bb) as [Ib _].
  destruct (best_sell_in _ _ Bs) as [Is _].
  rewrite Forall_forall in Fo.
  destruct (Fo buy Ib) as [_ [_ Rb]]. destruct (Fo sell Is) as [_ [_ Rs]].
  intro i. unfold audited. rewrite Hu, Hx.
  destruct (Qltb eps _); rewrite ?app_assoc;
    change (?l ++ [?a; ?b]) with (l ++ [a] ++ [b]); rewrite ?app_assoc;
    rewrite ?app_nil_r; split; audit i.
Qed.

Lemma match_loop_explains n : forall s, wf s -> explains s (match_loop n s).
Proof.
  induction n as [| n IH]; intros s W; simpl; [apply explains_refl |].
  destruct (match_step s) as [s' |] eqn:M; [| apply explains_refl].
  eapply explains_trans; [exact (match_step_explains s s' W M) |].
  apply IH. exact (proj1 (match_step_facts s s' W M)).
Qed.

(** One turn of the sweep on an active row of the table. *)
Lemma finish_one_explains now rnd s fin k g :
  wf s -> In g (giveaways s) ->
  explains s (sweep_db (finish_one now rnd (s, fin, k) g)).
Proof.
  intros W Ig. rewrite finish_one_eq.
  pose proof (wf_giveaways s W) as Fg.
  destruct (fromisoformat (gw_end_at g)) as [t |]; [| apply explains_refl].
  destruct (now <? t)%Z; [apply explains_refl |].
  cbv zeta. unfold sweep_db. cbn [fst].
  set (w := choose_winner (rnd k) (participants_of (gw_id g) (participants s))).
  assert (Ok : ok_giveaway (users s) g) by (rewrite Forall_forall in Fg; auto).
  destruct Ok as [_ Rc].
  assert (R : registered (payee w g) (users s) = true).
  { destruct w as [x |] eqn:Ew; [| exact Rc]. simpl.
    apply (participants_registered (gw_id g)); [exact W |].
    apply (proj2 (choose_winner_spec (rnd k) _)). exact Ew. }
  clearbody w. intro i. unfold audited. split; audit i.
Qed.

Lemma sweep_rows_explains now rnd rows :
  NoDup (map gw_id rows) ->
  forall acc,
    wf (sweep_db acc) ->
    (forall g, In g rows ->
       In g (giveaways (sweep_db acc)) /\ gw_active g = true) ->
    explains (sweep_db acc)
      (sweep_db (fold_left (finish_one now rnd) rows acc)).
Proof.
  induction rows as [| g rows IH]; intros Nd acc W Rows.
  - apply explains_refl.
  - simpl. inversion Nd as [| ? ? Ng Nd']; subst.
    destruct acc as [[s fin] k]. unfold sweep_db in W, Rows. cbn [fst] in *.
    destruct (Rows g (or_introl eq_refl)) as [Ig Ag].
    pose proof (finish_one_sound now rnd s fin k g W Ig Ag) as S1.
    eapply explains_trans;
      [exact (finish_one_explains now rnd s fin k g W Ig) |].
    apply IH; [exact Nd' | exact (proj1 S1) |].
    intros g' I'. destruct (Rows g' (or_intror I')) as [Ig' Ag'].
    split; [| exact Ag'].
    apply finish_one_keeps; [| exact Ig'].
    intro E. apply Ng. rewrite <- E. apply in_map. exact I'.
Qed.

(** Closes the case of one outcome of an operation. *)
Ltac settle :=
  first [ apply explains_refl
        | let i := fresh "i" in
          intro i; unfold audited; split; audit i ].

(** Every operation on a well-formed database, called for an account
    that exists, changes balances by what it logs. *)
Lemma exec_explains o s :
  wf s -> called_by_account o s = true -> explains s (exec sha256 o s).
Proof.
  intros W C. unfold called_by_account in C.
  pose proof (wf_user_ids s W) as N.
  destruct o; cbn [exec actor] in *.
  - intro i. unfold audited, ensure_user. main_simpl.
    rewrite ensure_user_balances. split; lra.
  - unfold adm_bal_amount, add_asset.
    destruct (find_username uname (users s)) as [r |] eqn:F; [| settle].
    pose proof (find_username_registered _ _ _ F) as R.
    destruct (String.eqb_spec asset "UWT") as [-> | NU]; [settle |].
    destruct (String.eqb_spec asset "RUB") as [-> | NR]; settle.
  - unfold adm_rate_set. split_tests; settle.
  - unfold create_rub_deposit. split_tests; settle.
  - unfold decide_rub_deposit.
    destruct (find (dp_is dep_id) (deposits s)) as [d |] eqn:F; [| settle].
    destruct (keyed_find_in dp_id dp_is dp_is_spec _ _ _ F) as [Id _].
    pose proof (wf_deposits s W) as Fd. rewrite Forall_forall in Fd.
    destruct (Fd d Id) as [_ Rd].
    split_tests; settle.
  - unfold create_check. split_tests; settle.
  - unfold claim_check. split_tests; settle.
  - unfold create_bill_uwt. split_tests; settle.
  - unfold pay_bill_uwt.
    destruct (find (bl_is bill_id) (bills s)) as [b |] eqn:F; [| settle].
    destruct (keyed_find_in bl_id bl_is bl_is_spec _ _ _ F) as [Ib _].
    pose proof (wf_bills s W) as Fb. rewrite Forall_forall in Fb.
    destruct (Fb b Ib) as [_ Rc].
    split_tests; settle.
  - unfold exchange_buy_uwt. split_tests; settle.
  - unfold exchange_sell_uwt. split_tests; settle.
  - unfold place_order.
    destruct (parse_side sd) as [side |]; [| settle].
    destruct (Qleb price 0 || Qleb amount 0) eqn:E; [settle |].
    apply orb_false_iff in E. destruct E as [E1 E2]. qtests.
    destruct (find_user user_id (users s)) as [r |] eqn:F; [| settle].
    destruct side.
    + destruct (Qltb (rub r) (price * amount)); [settle |]. main_simpl.
      destruct (existsb (or_is oid) (orders s)) eqn:X; [settle |]. cbn [fst].
      eapply explains_trans; [| apply match_loop_explains].
      * settle.
      * wf_open W. split.
        -- apply (keyed_nodup_snoc or_id or_is or_is_spec oid);
             [apply wf_order_ids; exact W | exact X | reflexivity].
        -- apply Forall_app. split; [apply wf_orders; exact W |].
           repeat constructor; simpl; auto.
    + destruct (Qltb (uwt r) amount); [settle |]. main_simpl.
      destruct (existsb (or_is oid) (orders s)) eqn:X; [settle |]. cbn [fst].
      eapply explains_trans; [| apply match_loop_explains].
      * settle.
      * wf_open W. split.
        -- apply (keyed_nodup_snoc or_id or_is or_is_spec oid);
             [apply wf_order_ids; exact W | exact X | reflexivity].
        -- apply Forall_app. split; [apply wf_orders; exact W |].
           repeat constructor; simpl; auto.
  - unfold cancel_order. split_tests; settle.
  - unfold create_giveaway. split_tests; settle.
  - unfold join_giveaway. split_tests; settle.
  - unfold finish_due_giveaways.
    apply (sweep_rows_explains now rnd _
             (NoDup_map_filter gw_id gw_active _ (wf_giveaway_ids s W))
             (s, [], O) W).
    intros g I. apply filter_In in I. exact I.
  - unfold channel_add. split_tests; settle.
  - unfold ch_buy_months.
    destruct (find (ch_is channel_id) (channels s)) as [ch |] eqn:F;
      [| settle].
    apply find_some in F. destruct F as [Ic _].
    pose proof (wf_channels s W) as Fc. rewrite Forall_forall in Fc.
    destruct (Fc ch Ic) as [_ Ro].
    unfold add_asset. eval_literals. unfold channel_sub_extend.
    split_tests; settle.
  - unfold p2p_amount.
    destruct (Qleb amount 0); [settle |].
    destruct (find_username to_username (users s)) as [r |] eqn:F; [| settle].
    pose proof (find_username_registered _ _ _ F) as R.
    split_tests; settle.
Qed.

End Audit.

(** X20 ([main.py], every operation of the core).  The log is a complete
    audit trail of the balances: in every state the core reaches from the
    empty database, each call coming from an account that exists, the UWT
    balance of every account is the sum of the UWT deltas logged for it,
    and its RUB balance the sum of its logged RUB deltas (amounts read as
    exact numbers). *)
Theorem X20_log_explains_every_balance
    (sha256 : string -> string) (s : Main.db) :
  Main.reachable sha256 s -> Main.explained s.
Proof.
  induction 1 as [| s o Rs IH C].
  - intro i. split; reflexivity.
  - apply (explained_step s); [exact IH |].
    apply exec_explains; [| exact C].
    apply (reachable_wf sha256). exact Rs.
Qed.

Lemma X20_witness :
  fst (get_balances 1%Z (Main.users Scenario.dust_run))
  == Main.audited 1%Z "UWT" Scenario.dust_run.
Proof.
  refine (proj1
    (X20_log_explains_every_balance Scenario.no_hash Scenario.dust_run _ 1%Z)).
  unfold Scenario.dust_run, Scenario.traders. reach.
Defined.

(** * The order book over time *)

Section BookHistory.

Import Main.

Variable sha256 : string -> string.

Lemma same_order_refl o : same_order o o.
Proof. repeat split. Qed.

Lemma same_order_trans o1 o2 o3 :
  same_order o1 o2 -> same_order o2 o3 -> same_order o1 o3.
Proof.
  unfold same_order. intros [A1 [A2 [A3 [A4 A5]]]] [B1 [B2 [B3 [B4 B5]]]].
  repeat split; congruence.
Qed.

Lemma rows_kept_refl os : rows_kept os os.
Proof.
  intros o I. split; [auto |]. exists o.
  split; [exact I |]. split; [apply same_order_refl | lra].
Qed.

Lemma rows_kept_trans os1 os2 os3 :
  rows_kept os1 os2 -> rows_kept os2 os3 -> rows_kept os1 os3.
Proof.
  intros A B o I. destruct (A o I) as [Ac [o' [I' [S' L']]]]. split.
  - intro Cl. exact (proj1 (B o (Ac Cl)) Cl).
  - destruct (B o' I') as [_ [o'' [I'' [S'' L'']]]].
    exists o''. split; [exact I'' |].
    split; [exact (same_order_trans _ _ _ S' S'') | lra].
Qed.

Lemma rows_kept_snoc os o : rows_kept os (os ++ [o]).
Proof.
  intros r I. split; [intros _; apply in_or_app; auto |].
  exists r. split; [apply in_or_app; auto |].
  split; [apply same_order_refl | lra].
Qed.

(** An [UPDATE orders] that hits open rows only, assigns none of the
    fixed columns and raises no remainder. *)
Lemma rows_kept_update (p : order -> bool) (g : order -> order) os :
  (forall o, In o os -> p o = true ->
     or_open o = true /\ same_order o (g o)
     /\ or_amount (g o) <= or_amount o) ->
  rows_kept os (update_where p g os).
Proof.
  intros H o I. unfold update_where. split.
  - intro Cl. apply in_map_iff. exists o. split; [| exact I].
    destruct (p o) eqn:P; [| reflexivity].
    destruct (H o I P) as [Op _]. congruence.
  - exists (if p o then g o else o).
    split; [exact (in_map (fun r => if p r then g r else r) os o I) |].
    destruct (p o) eqn:P.
    + destruct (H o I P) as [_ [S L]]. split; assumption.
    + split; [apply same_order_refl | lra].
Qed.

(** The update after a trade of [t] units on the open order [o]. *)
Lemma rows_kept_fill os o t :
  NoDup (map or_id os) -> In o os -> or_open o = true ->
  0 <= t <= or_amount o ->
  rows_kept os (fill_or_reduce (or_id o) (or_amount o - t) os).
Proof.
  intros N I Op T. unfold fill_or_reduce.
  destruct (Qleb _ eps); apply rows_kept_update; intros r Ir P;
    apply or_is_spec in P;
    pose proof (keyed_unique or_id os r o N Ir I P) as ->;
    (split; [exact Op |]); (split; [repeat split |]); simpl; lra.
Qed.

(** One turn of the matching loop. *)
Lemma match_step_book s s' :
  wf s -> match_step s = Some s' ->
  book_kept s s'
  /\ exists t, trades s' = trades s ++ [t] /\ trade_ok (orders s') t.
Proof.
  intros W M.
  pose proof (wf_order_ids s W) as No.
  pose proof (wf_orders s W) as Fo.
  destruct (match_step_inv s s' M)
    as [buy [sell [Bb [Bs [Le [_ [Ho [Ht _]]]]]]]].
  destruct (best_buy_in _ _ Bb) as [Ib [Ob Sb]].
  destruct (best_sell_in _ _ Bs) as [Is [Os Ss]].
  pose proof (best_rows_differ _ _ _ No Bb Bs) as Ne.
  rewrite Forall_forall in Fo.
  destruct (Fo buy Ib) as [_ [Ab _]]. destruct (Fo sell Is) as [_ [As _]].
  specialize (Ab Ob). specialize (As Os).
  pose proof (py_min_pos _ _ Ab As) as Tp.
  pose proof (py_min_l (or_amount buy) (or_amount sell)) as Tl.
  pose proof (py_min_r (or_amount buy) (or_amount sell)) as Tr.
  set (t := py_min (or_amount buy) (or_amount sell)) in *.
  set (os1 := fill_or_reduce (or_id buy) (or_amount buy - t) (orders s)) in *.
  assert (K1 : rows_kept (orders s) os1)
    by (apply rows_kept_fill; auto; lra).
  assert (No1 : NoDup (map or_id os1))
    by (unfold os1; rewrite fill_or_reduce_ids; exact No).
  assert (Is1 : In sell os1).
  { pose proof (keyed_in_find or_id or_is or_is_spec _ _ _ No Is eq_refl) as F.
    rewrite <- (find_fill_other (or_id buy) (or_id sell) (or_amount buy - t))
      in F by exact Ne.
    apply find_some in F. exact (proj1 F). }
  assert (K2 : rows_kept os1 (orders s'))
    by (rewrite Ho; apply rows_kept_fill; auto; lra).
  assert (K : rows_kept (orders s) (orders s'))
    by (exact (rows_kept_trans _ _ _ K1 K2)).
  split; [exact K |].
  eexists. split; [exact Ht |].
  destruct (K buy Ib) as [_ [b' [Ib' [[B1 [_ [B3 [B4 _]]]] _]]]].
  destruct (K sell Is) as [_ [a' [Ia' [[A1 [_ [A3 [A4 _]]]] _]]]].
  exists b', a'. simpl.
  unfold or_sell, or_buy in *.
  repeat split; try assumption; try congruence.
  - rewrite B3. destruct (or_side buy); [reflexivity | discriminate].
  - rewrite A3. destruct (or_side sell); [discriminate | reflexivity].
Qed.

(** A trade that was within its limits stays so while the rows are kept. *)
Lemma trade_ok_kept os os' t :
  rows_kept os os' -> trade_ok os t -> trade_ok os' t.
Proof.
  intros K [b [a [Ib [Ia [Eb [Ea [Sb [Sa [Pt [Le Pa]]]]]]]]]].
  destruct (K b Ib) as [_ [b' [Ib' [[B1 [_ [B3 [B4 _]]]] _]]]].
  destruct (K a Ia) as [_ [a' [Ia' [[A1 [_ [A3 [A4 _]]]] _]]]].
  exists b', a'. repeat split; try assumption; try congruence.
Qed.

Lemma trades_ok_kept os os' ts :
  rows_kept os os' -> Forall (trade_ok os) ts -> Forall (trade_ok os') ts.
Proof.
  intros K F. rewrite Forall_forall in *. intros t I.
  exact (trade_ok_kept _ _ _ K (F t I)).
Qed.

(** The loop: the rows are kept and every trade it records is within the
    limits of its orders. *)
Lemma match_loop_book n : forall s,
  wf s ->
  book_kept s (match_loop n s)
  /\ (Forall (trade_ok (orders s)) (trades s) ->
      Forall (trade_ok (orders (match_loop n s))) (trades (match_loop n s))).
Proof.
  induction n as [| n IH]; intros s W; simpl.
  - split; [apply rows_kept_refl | auto].
  - destruct (match_step s) as [s' |] eqn:M;
      [| split; [apply rows_kept_refl | auto]].
    destruct (match_step_book s s' W M) as [K [t [Et Ot]]].
    destruct (IH s' (proj1 (match_step_facts s s' W M))) as [K' T'].
    split; [exact (rows_kept_trans _ _ _ K K') |].
    intro T. apply T'. rewrite Et. apply Forall_app. split.
    + exact (trades_ok_kept _ _ _ K T).
    + constructor; [exact Ot | constructor].
Qed.

(** An operation that leaves both tables alone. *)
Lemma same_book s s' :
  orders s' = orders s -> trades s' = trades s ->
  book_kept s s'
  /\ (Forall (trade_ok (orders s)) (trades s) ->
      Forall (trade_ok (orders s')) (trades s')).
Proof.
  intros Eo Et. unfold book_kept. rewrite Eo, Et.
  split; [apply rows_kept_refl | auto].
Qed.

Lemma sweep_orders now rnd rows : forall acc,
  orders (sweep_db (fold_left (finish_one now rnd) rows acc))
  = orders (sweep_db acc).
Proof.
  induction rows as [| g rows IH]; intro acc; simpl; [reflexivity |].
  rewrite IH. destruct acc as [[s fin] k]. rewrite finish_one_eq.
  split_tests; reflexivity.
Qed.

(** What every operation does to the book and to the trade history. *)
Lemma exec_keeps_book o s :
  wf s -> called_by_account o s = true ->
  book_kept s (exec sha256 o s)
  /\ (Forall (trade_ok (orders s)) (trades s) ->
      Forall (trade_ok (orders (exec sha256 o s)))
        (trades (exec sha256 o s))).
Proof.
  intros W C. unfold called_by_account in C.
  destruct o; cbn [exec actor] in *.
  - apply same_book; reflexivity.
  - apply same_book; unfold adm_bal_amount, add_asset;
      split_tests; reflexivity.
  - apply same_book; unfold adm_rate_set; split_tests; reflexivity.
  - apply same_book; unfold create_rub_deposit; split_tests; reflexivity.
  - apply same_book; unfold decide_rub_deposit; split_tests; reflexivity.
  - apply same_book; unfold create_check; split_tests; reflexivity.
  - apply same_book; unfold claim_check; split_tests; reflexivity.
  - apply same_book; unfold create_bill_uwt; split_tests; reflexivity.
  - apply same_book; unfold pay_bill_uwt; split_tests; reflexivity.
  - apply same_book; unfold exchange_buy_uwt; split_tests; reflexivity.
  - apply same_book; unfold exchange_sell_uwt; split_tests; reflexivity.
  - unfold place_order, match_orders.
    destruct (parse_side sd) as [side |]; [| apply same_book; reflexivity].
    destruct (Qleb price 0 || Qleb amount 0) eqn:E;
      [apply same_book; reflexivity |].
    apply orb_false_iff in E. destruct E as [E1 E2]. qtests.
    destruct (find_user user_id (users s)) as [r |] eqn:F;
      [| apply same_book; reflexivity].
    destruct side.
    + destruct (Qltb (rub r) (price * amount));
        [apply same_book; reflexivity |]. main_simpl.
      destruct (existsb (or_is oid) (orders s)) eqn:X;
        [apply same_book; reflexivity |]. cbn [fst].
      match goal with
      | |- context [match_loop ?n ?x] =>
        assert (W2 : wf x);
        [| destruct (match_loop_book n x W2) as [K T];
           unfold book_kept in *; main_simpl_in K; main_simpl_in T ]
      end.
      * wf_open W. split.
        -- apply (keyed_nodup_snoc or_id or_is or_is_spec oid);
             [apply wf_order_ids; exact W | exact X | reflexivity].
        -- apply Forall_app. split; [apply wf_orders; exact W |].
           repeat constructor; simpl; auto.
      * split.
        -- eapply rows_kept_trans; [apply rows_kept_snoc | exact K].
        -- intro T0. apply T.
           exact (trades_ok_kept _ _ _ (rows_kept_snoc _ _) T0).
    + destruct (Qltb (uwt r) amount);
        [apply same_book; reflexivity |]. main_simpl.
      destruct (existsb (or_is oid) (orders s)) eqn:X;
        [apply same_book; reflexivity |]. cbn [fst].
      match goal with
      | |- context [match_loop ?n ?x] =>
        assert (W2 : wf x);
        [| destruct (match_loop_book n x W2) as [K T];
           unfold book_kept in *; main_simpl_in K; main_simpl_in T ]
      end.
      * wf_open W. split.
        -- apply (keyed_nodup_snoc or_id or_is or_is_spec oid);
             [apply wf_order_ids; exact W | exact X | reflexivity].
        -- apply Forall_app. split; [apply wf_orders; exact W |].
           repeat constructor; simpl; auto.
      * split.
        -- eapply rows_kept_trans; [apply rows_kept_snoc | exact K].
        -- intro T0. apply T.
           exact (trades_ok_kept _ _ _ (rows_kept_snoc _ _) T0).
  - assert (K : rows_kept (orders s)
                  (update_where (fun r => or_is oid r && or_open r) cancelled
                     (orders s))).
    { apply rows_kept_update. intros o _ P.
      apply andb_true_iff in P. destruct P as [_ Op].
      split; [exact Op |]. split; [repeat split | simpl; lra]. }
    unfold cancel_order.
    destruct (find (or_is oid) (orders s)) as [o |];
      [| apply same_book; reflexivity].
    destruct (negb (or_open o)); [apply same_book; reflexivity |].
    destruct (negb (or_user o =? user_id)%Z);
      [apply same_book; reflexivity |].
    unfold book_kept. destruct (or_side o); cbn [fst]; main_simpl;
      (split; [exact K | exact (trades_ok_kept _ _ _ K)]).
  - apply same_book; unfold create_giveaway; split_tests; reflexivity.
  - apply same_book; unfold join_giveaway; split_tests; reflexivity.
  - apply same_book; unfold finish_due_giveaways.
    + apply (sweep_orders now rnd (filter gw_active (giveaways s)) (s, [], O)).
    + apply (sweep_trades now rnd (filter gw_active (giveaways s)) (s, [], O)).
  - apply same_book; unfold channel_add; split_tests; reflexivity.
  - apply same_book; unfold ch_buy_months, add_asset, channel_sub_extend;
      split_tests; reflexivity.
  - apply same_book; unfold p2p_amount; split_tests; reflexivity.
Qed.

End BookHistory.

(** X3 ([match_orders], [place_order], [cancel_order], [main.py]).  Every
    trade on record is within the limits of its two orders: in every
    state the core reaches from the empty database, each call coming from
    an account that exists, a row of [trades] names a buy order and a
    sell order of the book, its price is the price of the sell order,
    that price is not above the price of the buy order, and its amount is
    positive. *)
Theorem X3_trades_within_limits (sha256 : string -> string) (s : Main.db) :
  Main.reachable sha256 s ->
  Forall (Main.trade_ok (Main.orders s)) (Main.trades s).
Proof.
  induction 1 as [| s o Rs IH C].
  - constructor.
  - apply (exec_keeps_book sha256 o s); [| exact C | exact IH].
    apply (reachable_wf sha256). exact Rs.
Qed.

Lemma X3_witness :
  Forall (Main.trade_ok (Main.orders Scenario.dust_run))
    (Main.trades Scenario.dust_run).
Proof.
  refine (X3_trades_within_limits Scenario.no_hash Scenario.dust_run _).
  unfold Scenario.dust_run, Scenario.traders. reach.
Defined.

(** X21 ([place_order], [cancel_order], [match_orders] and the rest of
    the core, [main.py]).  No call takes an order out of the book or
    rewrites its terms: after any call made for an existing account in a
    state the core reaches, every order is still in the table with its
    id, owner, side, price and creation time, its remainder is not
    larger than it was, and an order that was filled or cancelled is
    there exactly as it was. *)
Theorem X21_orders_keep_their_terms
    (sha256 : string -> string) (o : Main.op) (s : Main.db) :
  Main.reachable sha256 s -> Main.called_by_account o s = true ->
  Main.book_kept s (Main.exec sha256 o s).
Proof.
  intros Rs C. apply (exec_keeps_book sha256 o s); [| exact C].
  apply (reachable_wf sha256). exact Rs.
Qed.

Lemma X21_witness :
  Main.book_kept Scenario.dust_run
    (Main.exec Scenario.no_hash (Main.OpCancelOrder 2 "S") Scenario.dust_run).
Proof.
  refine (X21_orders_keep_their_terms Scenario.no_hash
            (Main.OpCancelOrder 2 "S") Scenario.dust_run _ _).
  - unfold Scenario.dust_run, Scenario.traders. reach.
  - reflexivity.
Defined.

(** * More of [main3.py] *)

Section CheckSolvency.

Import Main3.

Variable sha256 : string -> string.

(** What a successful [create_check_multi] passed and wrote. *)
Lemma create_check_multi_done_inv check_id token creator total per max pw s :
  snd (create_check_multi sha256 check_id token creator total per max pw s)
  = Done ->
  0 < total /\ 0 < per /\ (0 < max)%Z
  /\ per * inject_Z max <= total + eps
  /\ total <= fst (get_balances creator (users s)) + eps
  /\ find (ck_has_token token) (checks s) = None
  /\ fst (create_check_multi sha256 check_id token creator total per max pw s)
     = log creator "UWT" (- total) "check_create"
         (set_checks
            (fun cs => cs ++ [mkCheck check_id token creator total per max 0
                                (if truthy pw then option_map sha256 pw
                                 else None) CkActive])
            (set_users (upd_uwt (- total) creator) s)).
Proof.
  unfold create_check_multi.
  destruct (Qleb total 0 || Qleb per 0 || (max <=? 0)%Z) eqn:E;
    [discriminate |].
  apply orb_false_iff in E. destruct E as [E E3].
  apply orb_false_iff in E. destruct E as [E1 E2].
  cbv zeta.
  destruct (Qltb (total + eps) _) eqn:L1; [discriminate |].
  destruct (Qltb (_ + eps) total) eqn:L2; [discriminate |].
  destruct (existsb _ (checks s)) eqn:X; [discriminate |].
  intros _. qtests. apply Z.leb_gt in E3.
  repeat split; try assumption.
  destruct (find (ck_has_token token) (checks s)) as [r |] eqn:F;
    [| reflexivity].
  apply find_some in F. destruct F as [I T].
  pose proof (existsb_false_forall _ _ X r I) as H. simpl in H.
  apply orb_false_iff in H. destruct H as [_ H]. congruence.
Qed.

End CheckSolvency.

(** X22 ([create_check_multi] with [claim_check_by_token], [main3.py] and
    [main1.py]).  A check cannot pay out more than it locked, up to the
    tolerance: when the creation succeeds, the creator's balance is not
    left below [-1e-12], and in every run of claim calls that follows,
    the successful claims on the check's token times [per_claim] are at
    most [total_amount + 1e-12]. *)
Theorem X22_check_pays_at_most_what_it_locked
    (sha256 : string -> string) (check_id token : string) (creator : Z)
    (total per : Q) (max : Z) (pw : option string) (s : Main3.db) :
  snd (Main3.create_check_multi sha256 check_id token creator total per max
         pw s) = Done ->
  let s' := fst (Main3.create_check_multi sha256 check_id token creator total
                   per max pw s) in
  - eps <= fst (get_balances creator (Main3.users s'))
  /\ forall calls,
       inject_Z (Z.of_nat
         (Main3.count_done (Main3.on_token token) calls
            (snd (Main3.run_claims sha256 calls s')))) * per
       <= total + eps.
Proof.
  intros D s'. subst s'.
  destruct (create_check_multi_done_inv sha256 _ _ _ _ _ _ _ _ D)
    as [Pt [Pp [Pm [Rq [Bal [Fn E]]]]]].
  rewrite E. split.
  - main3_simpl. rewrite get_uwt_upd_uwt.
    destruct ((creator =? creator)%Z && registered creator (Main3.users s))
      eqn:R; [lra |].
    rewrite Z.eqb_refl in R. simpl in R.
    assert (G : get_balances creator (Main3.users s) = (0, 0)).
    { unfold get_balances.
      destruct (find_user creator (Main3.users s)) as [u |] eqn:F;
        [| reflexivity].
      assert (registered creator (Main3.users s) = true)
        by (apply registered_find; eauto).
      congruence. }
    rewrite G. simpl. pose proof eps_pos. lra.
  - intro calls.
    match goal with
    | |- context [Main3.run_claims sha256 calls ?x] => set (s1 := x)
    end.
    assert (F1 : find (Main3.ck_has_token token) (Main3.checks s1)
                 = Some (Main3.mkCheck check_id token creator total per max 0
                           (if truthy pw then option_map sha256 pw else None)
                           Main3.CkActive)).
    { subst s1. main3_simpl. rewrite (find_app_none _ _ _ Fn).
      unfold Main3.ck_has_token. simpl. rewrite String.eqb_refl.
      reflexivity. }
    pose proof (run_claims_capacity sha256 token calls s1 _ F1) as Cap.
    simpl in Cap. specialize (Cap ltac:(lia)).
    set (n := Z.of_nat _) in *.
    assert (Hn : inject_Z n <= inject_Z max) by (rewrite <- Zle_Qle; lia).
    assert (inject_Z n * per <= inject_Z max * per)
      by (apply Qmult_le_compat_r; lra).
    lra.
Qed.

Lemma X22_witness :
  inject_Z (Z.of_nat
    (Main3.count_done (Main3.on_token "tok"%string)
       [("tok"%string, 2%Z, None); ("tok"%string, 2%Z, None)]
       (snd (Main3.run_claims Scenario.no_hash
               [("tok"%string, 2%Z, None); ("tok"%string, 2%Z, None)]
               (fst (Main3.create_check_multi Scenario.no_hash
                       "c1"%string "tok"%string 1%Z 10 5 2%Z None
                       Scenario.purse3_db)))))) * 5
  <= 10 + eps.
Proof.
  refine (proj2
    (X22_check_pays_at_most_what_it_locked Scenario.no_hash "c1"%string
       "tok"%string 1%Z 10 5 2%Z None Scenario.purse3_db _) _).
  reflexivity.
Defined.

Section Cancel3.

Import Main3.

Lemma or3_is_spec (k : string) (o : order) : or_is k o = true <-> or_id o = k.
Proof. unfold or_is. apply String.eqb_eq. Qed.

(** The [UPDATE] of [cancel_order] on the row it was called for. *)
Lemma find_cancel3_same oid os o :
  find (or_is oid) os = Some o -> or_open o = true ->
  find (or_is oid)
    (update_where (fun r => or_is oid r && or_open r) set_cancelled os)
  = Some (set_cancelled o).
Proof.
  intros F Op.
  rewrite (keyed_find_update or_id or_is or3_is_spec oid os _ set_cancelled o)
    by (reflexivity || exact F).
  apply find_some in F. destruct F as [_ E]. rewrite E, Op. reflexivity.
Qed.

Lemma find_cancel3_other oid oid' os :
  oid' <> oid ->
  find (or_is oid')
    (update_where (fun r => or_is oid r && or_open r) set_cancelled os)
  = find (or_is oid') os.
Proof.
  intro Ne. apply find_update_where_other. intros x Hx.
  apply andb_true_iff in Hx. destruct Hx as [Hx _].
  apply or3_is_spec in Hx.
  assert (E : or_is oid' x = false).
  { destruct (or_is oid' x) eqn:E; [| reflexivity].
    apply or3_is_spec in E. congruence. }
  split; exact E.
Qed.

(** The successful call, spelled out. *)
Lemma cancel3_done u oid s o :
  NoDup (map or_id (orders s)) ->
  find (or_is oid) (orders s) = Some o -> or_user o = u -> or_open o = true ->
  cancel_order u oid s
  = (order_refund u (or_side o) (or_price o) (or_remaining o)
       (set_orders
          (update_where (fun r => or_is oid r && or_open r) set_cancelled) s),
     Done).
Proof.
  intros N F Eu Op. unfold cancel_order. rewrite F.
  apply Z.eqb_eq in Eu. rewrite Eu, Op. cbn [negb]. cbv zeta.
  rewrite (keyed_rowcount or_id or_is or3_is_spec oid (orders s) or_open o N F).
  rewrite Op. reflexivity.
Qed.

Lemma order_refund_orders u sd p r s :
  orders (order_refund u sd p r s) = orders s.
Proof.
  unfold order_refund. destruct (Qleb r 0); [reflexivity |].
  destruct sd; reflexivity.
Qed.

Lemma order_refund_others u sd p r s i :
  i <> u ->
  get_balances i (users (order_refund u sd p r s)) = get_balances i (users s).
Proof.
  intro Ne. unfold order_refund. destruct (Qleb r 0); [reflexivity |].
  destruct sd; main3_simpl;
    [apply get_balances_upd_rub_other | apply balances_upd_uwt_other];
    exact Ne.
Qed.

End Cancel3.

(** X23 ([cancel_order] with [_order_refund], [main3.py]).  A cancellation
    is refused, and the database left as it was, for an unknown order,
    for an order of another user (open or not), and for the caller's own
    order once it is no longer open.  Otherwise, order ids being unique,
    the order becomes [cancelled] with its amounts as they were and no
    other order changes; when something remains on it, the owner's
    account gets back the price times the remainder in RUB for a buy and
    the remainder in UWT for a sell, and when nothing remains no balance
    and no log row is written; no other account moves; a second
    cancellation is refused. *)
Theorem X23_main3_cancel_refunds_remainder
    (s : Main3.db) (u : Z) (oid : string) :
  (find (Main3.or_is oid) (Main3.orders s) = None ->
   Main3.cancel_order u oid s = (s, Failed NotFound))
  /\ forall o, find (Main3.or_is oid) (Main3.orders s) = Some o ->
       (Main3.or_user o <> u ->
        Main3.cancel_order u oid s = (s, Failed NotOwner))
       /\ (Main3.or_user o = u -> Main3.or_open o = false ->
           Main3.cancel_order u oid s = (s, Failed Unavailable))
       /\ (Main3.or_user o = u -> Main3.or_open o = true ->
           NoDup (map Main3.or_id (Main3.orders s)) ->
           let s' := fst (Main3.cancel_order u oid s) in
           snd (Main3.cancel_order u oid s) = Done
           /\ find (Main3.or_is oid) (Main3.orders s')
              = Some (Main3.set_cancelled o)
           /\ (forall oid', oid' <> oid ->
                 find (Main3.or_is oid') (Main3.orders s')
                 = find (Main3.or_is oid') (Main3.orders s))
           /\ (0 < Main3.or_remaining o ->
               registered u (Main3.users s) = true ->
               fst (get_balances u (Main3.users s'))
               == fst (get_balances u (Main3.users s))
                  + (if Main3.or_sell o then Main3.or_remaining o else 0)
               /\ snd (get_balances u (Main3.users s'))
                  == snd (get_balances u (Main3.users s))
                     + (if Main3.or_buy o
                        then Main3.or_price o * Main3.or_remaining o else 0))
           /\ (Main3.or_remaining o <= 0 ->
               Main3.users s' = Main3.users s /\ Main3.tx s' = Main3.tx s)
           /\ (forall i, i <> u ->
                 get_balances i (Main3.users s')
                 = get_balances i (Main3.users s))
           /\ Main3.cancel_order u oid s' = (s', Failed Unavailable)).
Proof.
  split.
  - intro F. unfold Main3.cancel_order. rewrite F. reflexivity.
  - intros o F. split; [| split].
    + intro Ne. unfold Main3.cancel_order. rewrite F.
      apply Z.eqb_neq in Ne. rewrite Ne. reflexivity.
    + intros Eu Op. unfold Main3.cancel_order. rewrite F.
      apply Z.eqb_eq in Eu. rewrite Eu, Op. reflexivity.
    + intros Eu Op N. cbv zeta. rewrite (cancel3_done u oid s o N F Eu Op).
      cbn [fst snd].
      set (s1 := Main3.set_orders _ s).
      assert (F1 : find (Main3.or_is oid)
                     (Main3.orders
                        (Main3.order_refund u (Main3.or_side o)
                           (Main3.or_price o) (Main3.or_remaining o) s1))
                   = Some (Main3.set_cancelled o)).
      { rewrite order_refund_orders. subst s1. main3_simpl.
        apply find_cancel3_same; assumption. }
      split; [reflexivity |]. split; [exact F1 |].
      split; [| split; [| split; [| split]]].
      * intros oid' Ne. rewrite order_refund_orders. subst s1. main3_simpl.
        apply find_cancel3_other. exact Ne.
      * intros Pr R. unfold Main3.order_refund.
        assert (Qleb (Main3.or_remaining o) 0 = false) as ->
          by (apply Qleb_false; exact Pr).
        unfold Main3.or_sell, Main3.or_buy. subst s1.
        destruct (Main3.or_side o); main3_simpl; cbn [negb].
        -- rewrite get_uwt_upd_rub, get_rub_upd_rub, Z.eqb_refl, R.
           cbn [andb]. split; lra.
        -- rewrite get_uwt_upd_uwt, get_rub_upd_uwt, Z.eqb_refl, R.
           cbn [andb]. split; lra.
      * intro Le. unfold Main3.order_refund.
        assert (Qleb (Main3.or_remaining o) 0 = true) as ->
          by (apply Qleb_true; exact Le).
        subst s1. split; reflexivity.
      * intros i Ne. rewrite order_refund_others by exact Ne.
        subst s1. reflexivity.
      * unfold Main3.cancel_order at 1. rewrite F1.
        change (Main3.or_user (Main3.set_cancelled o)) with (Main3.or_user o).
        apply Z.eqb_eq in Eu. rewrite Eu. reflexivity.
Qed.

Lemma X23_witness :
  snd (Main3.cancel_order 1 "B" Scenario.bid3_book) = Done
  /\ snd (get_balances 1
            (Main3.users (fst (Main3.cancel_order 1 "B" Scenario.bid3_book))))
     == snd (get_balances 1 (Main3.users Scenario.bid3_book)) + 12 * 10.
Proof.
  assert (N : NoDup (map Main3.or_id (Main3.orders Scenario.bid3_book)))
    by (repeat constructor; intros []).
  destruct (proj2 (proj2 (proj2 (X23_main3_cancel_refunds_remainder
                                   Scenario.bid3_book 1 "B")
                                 Scenario.bid3 eq_refl))
              eq_refl eq_refl N) as [D [_ [_ [B _]]]].
  split; [exact D |]. exact (proj2 (B eq_refl eq_refl)).
Defined.
